(* ===== verification/_CoqProject ===== *)
-Q . S2P
Prelude.v
PyStr.v
Codec.v
Regex.v
TsCheck.v
TsSpec.v
TsTheory.v
TsRead.v
TsProps.v
PyFloat.v
PyDict.v
Json.v
Sha256.v
PyPath.v
TsQuality.v
TsQualityProps.v
ReleaseRuns.v
ReleaseRunsProps.v
Archive.v
ArchiveProps.v
ReleaseText.v
ReleaseVerify.v
ReleaseSamples.v
Release.v
ReleaseFixture.v
ReleaseTextProps.v
ReleaseVerifyProps.v
JsonKeys.v
ReleaseExact.v
ReleaseProps.v
ReleaseGate.v
PyRe.v
JsonBytes.v
Struct.v
Provenance.v
AuditBase.v
AuditBaseProps.v
AuditPe.v
AuditPeProps.v
AuditMacho.v
AuditMachoProps.v
AuditText.v
AuditManifest.v
AuditBinary.v
AuditArchive.v
AuditMain.v
AuditProps.v
AuditSourceProps.v
Lines.v
JsonRound.v
EvidenceProps.v
Stage.v
StageProps.v
Package.v
PackageProps.v
ManifestProps.v
JsonCanonical.v
NoticeProps.v
PackageAudit.v
PackageMain.v
SourcePackage.v
Strip.v
SourceProps.v
PyReProps.v
LinkInventory.v
LinkInventoryProps.v
SourceIdentity.v
VersionGuard.v
SourceAudit.v
SourceMain.v
Workflow.v
WorkflowProps.v
AuditSelfTest.v
AuditSelfTestProps.v
SourceCheckout.v
PackageRelease.v
GateArchive.v
SourceRelease.v
SourcePair.v
