(* ===== verification/Prelude.v ===== *)
(** * Verification of the siano-userland release tooling

    siano-userland is a DTV receiver.  Its own core in Python decides what is released: it
    judges captured transport streams, packages the built programs and their sources, audits
    every archive, and compares the archives of a tag with those of the candidate that was
    tested.  This development models these scripts, function by function, and proves what
    they decide.

    ** The program and how its parts interact

    - [docs/release-validation/ts-check.py] scans a capture; [ts-quality-check.py] reads the
      scans of the receivers and applies the limits of a profile.
    - [scripts/package-artifact.py] stages the files of one platform, describes them
      (notice, manifest, checksums), writes the archive and calls
      [scripts/audit-artifact.py] on it; [scripts/package-source.py] does so for the source
      snapshots.  [scripts/source-identity.py] reads the commit back from such a snapshot, and
      [scripts/android-link-inventory.py] writes the table of static members that a package
      for Android carries.
    - [scripts/release_runs.py] checks the two workflow runs that built the candidate, and
      [scripts/release_verify.py] the tag's bundle against theirs.
      [scripts/check-release-version.py] guards the tag, and
      [scripts/check-workflow-invariants.py] the workflow files that run all this.

    ** Files

    Python, as far as the scripts use it: [Prelude] (exceptions as the error monad [res],
    loops, record updates, tactics and hints), [PyStr] (bytes, code points, [str] methods),
    [Codec] (ASCII, UTF-8, UTF-16, integers), [Lines] and [Strip] ([splitlines], [join],
    [strip], text mode), [Regex] (regular patterns by derivatives), [PyRe] and [PyReProps]
    (backtracking patterns with groups), [PyFloat] (binary64, [repr], exact comparison),
    [PyDict], [Json], [JsonBytes], [JsonKeys], [JsonRound], [JsonCanonical] ([json] with its
    hooks, encodings, distinct keys, round trip and canonical form), [PyPath] (POSIX paths),
    [Struct], [Sha256].  Each function of the language is executable; where a theorem relies
    on one, a lemma states what it computes ([fullmatch_spec], [searches_spec],
    [decode_encode_utf8], the round trip of [json]).

    The scripts, one model file each, its theorems in the files named after it:
    - [TsCheck] is ts-check.py: the record [scan] has one field per local variable of
      [inspect], [step] is the body of its loop, [read_loop] the chunked reading, [main] the
      options and exit codes.  [TsSpec] is the abstract specification, with no scan state;
      [TsTheory] the simulation between the two, [TsRead] the reader, [TsProps] the theorems.
    - [TsQuality] is ts-quality-check.py; [TsQualityProps].
    - [ReleaseRuns] is release_runs.py; [ReleaseRunsProps].
    - release_verify.py is [Archive] (member names and [read_archive]), [ReleaseText] (JSON,
      checksums, notices), [ReleaseVerify] (manifests and pairs of archives) and [Release]
      (history, bundles, [verify_release], [main]); [ArchiveProps], [ReleaseTextProps],
      [ReleaseVerifyProps], [ReleaseProps], and the characterisations in [ReleaseExact] and
      [ReleaseGate]; samples in [ReleaseSamples], [ReleaseFixture].
    - audit-artifact.py is [AuditBase] (payloads, JSON, notices, checksums), [AuditPe] and
      [AuditMacho] (the binary readers), [AuditText] (what readelf, otool and nm print),
      [AuditManifest] (members, manifest, evidence), [AuditBinary] (one program),
      [AuditArchive] (binary and source archives), [AuditMain] and [AuditSelfTest] (the
      script's own fixtures and test vectors, which the model passes); the theorems are in
      [AuditBaseProps], [AuditPeProps], [AuditMachoProps], [AuditProps], [AuditSourceProps],
      [AuditSelfTestProps] and [EvidenceProps].  [Provenance] is provenance.py.
    - [Stage] is the staging directory that both packagers build, as a dictionary from paths
      to modes and bytes; [StageProps].
    - [Package] is package-artifact.py; [PackageProps] (which files), [ManifestProps],
      [NoticeProps] (what it writes is read back), [PackageAudit] and [PackageMain] (the
      package passes its audit).
    - [SourcePackage] is package-source.py; [SourceProps], [SourceAudit], [SourceMain]
      likewise.  [SourceCheckout] is its [--prepare-dependencies], with the history of what
      it ran as the state.
    - [GateArchive] is a packaged archive as the release gate reads it; [SourceRelease],
      [SourcePair] and [PackageRelease] put the packagers before the gate.
    - [SourceIdentity], [VersionGuard], [LinkInventory] and [Workflow] are the small scripts;
      [LinkInventoryProps] and [WorkflowProps].
    A definition has the name of its Python function; the definitions between are the
    branches and local expressions of a function, in its order.  A function that may raise
    returns [res], a dictionary is its items in insertion order, a file is its bytes, and
    what a command prints is returned with its exit code.

    ** The theorems

    - The scan refines its specification, for every capture, exclusion set and chunk size;
      its continuity errors and duplicates are exactly those of the counter rule.
    - The quality gate passes exactly when every receiver of the profile is given once and
      every scan is within the limits, compared exactly.
    - The archive reader accepts exactly the archives within the limits; a safe name stays
      below the directory it is extracted to; reading ends for every stream.
    - The manifest of a binary archive, the pair of a candidate's and a tag's archive, a
      bundle, the history and the release as a whole are accepted exactly when they are as
      the gate's rules state.
    - The gate takes the archive, manifest and checksum list of a source package exactly when
      the source was asked for by its commit and the names and sizes are within its limits,
      and the source packages of two commits as a pair exactly when their staged files agree
      outside what a release may change.
    - An accepted release has a linear history of document changes and three verified
      bundles; the payload of each archive is the candidate's.
    - The audits are characterised: PE and Mach-O images, checksum lists, payloads, binary
      archives and source archives are accepted exactly when they have the stated form, and
      no bytes make a binary reader fail otherwise than by an audit error.
    - What is written is read back: evidence, manifests, notices, checksum lists, the source
      identity, the inventory of static members, Mach-O images.
    - Preparing the dependencies never changes an existing checkout, however it ends.
    - A package, and a source package, passes its own audit exactly when the inspection of
      what the packager did not make succeeds; its members are those the audit expects, and
      a stage is a directory tree of safe names.
    - The release gate rejects an archive that carries the evidence the audit wrote, since it
      takes the evidence of one program for that of another.
    - The version guard, the extraction of jobs and containers from a workflow, and the gate
      of a tag are characterised.

    ** The environment

    Code that is not in the repository is a class whose methods are arguments of the
    definitions: [Digest] (a function with 64 lowercase hexadecimal digits; [Sha256] is an
    instance), [Unicode], [Digits], [Lower], [Word] (the character database beyond ASCII),
    [Archives] and [Tars] (zipfile and tarfile: headers, and what reading a member yields,
    failures included), [Writers] (their byte formats), [Tools] (readelf, otool, nm),
    [Git], [TagGit], [SourceGit] (git's output per command line), [Checkouts] (git and the
    directories, by the history of the run), [Bundles], [Files],
    [Host], [SourceTars], [TextFiles] (the file system).  Theorems about writing and
    reading back an archive assume that the reader gives the written members; each such
    theorem has a sample that satisfies it.

    ** Bounds and fuel

    Recursion is structural where the code consumes its input.  Fuel is the length of the
    input for the chunked reader, for regular expressions (each repetition consumes) and for
    comparisons by chunks, and the theorems state that it is enough ([read_member_total],
    [inspect_scan_whole], [run_complete], [load_commands_bounded]).  The JSON reader takes
    the interpreter's recursion limit as an argument and raises beyond it, as CPython does;
    integer texts of more than 4300 digits raise likewise.  Integers of the scripts are
    Python's, unbounded; binary fields are read at their width from little-endian bytes.

    ** Not modelled

    The self tests of package-artifact.py and package-source.py and the parts of
    audit-artifact.py's that compile a program or run a fake readelf (its tar files are the
    headers that the reader has of them);
    argparse and the text of messages with interpolated values; the receiver itself (C and
    C++ device I/O), shell and build files, and the tests. *)

From stdpp Require Export base tactics list gmap strings sets fin_maps.
From Stdlib Require Export ZArith Lia.

#[export] Set Default Proof Using "Type".
#[export] Set Warnings "-clear-no-such-hyp,-level-tolerance".

(** ** The error monad

    A Python function that may raise is a function into [res]: [Ok v] is a
    normal return, [Err e] an exception that leaves the function.  The exception
    class is a constructor; the message is the text of the guard that raised,
    without the values interpolated into it. *)

Inductive exn :=
| RunError (msg : string)
| VerificationError (msg : string)
| AuditError (msg : string)
| ValueError (msg : string)
| JSONDecodeError (msg : string)
| OSError (msg : string)
| KeyError (msg : string)
| IndexError (msg : string)
| StructError (msg : string)
| TypeError (msg : string)
| AttributeError (msg : string)
| RuntimeError (msg : string)
| SystemExit (code : Z) (msg : string).

#[export] Instance exn_eq_dec : EqDecision exn.
Proof. solve_decision. Defined.

Inductive res (A : Type) : Type :=
| Ok (a : A)
| Err (e : exn).
Arguments Ok {A} a.
Arguments Err {A} e.

#[export] Instance res_ret : MRet res := λ A a, Ok a.
#[export] Instance res_bind : MBind res := λ A B f m,
  match m with Ok a => f a | Err e => Err e end.
#[export] Instance res_fmap : FMap res := λ A B f m,
  match m with Ok a => Ok (f a) | Err e => Err e end.

#[export] Instance res_eq_dec `{EqDecision A} : EqDecision (res A).
Proof. solve_decision. Defined.

Definition is_Ok {A} (m : res A) : Prop := ∃ a, m = Ok a.

(** [require c e] is the source's [require(condition, message)]: nothing when the
    condition holds, an exception otherwise. *)
Definition require (c : bool) (e : exn) : res unit :=
  if c then Ok tt else Err e.

(** [of_option e o] turns a failed lookup into the exception [e]. *)
Definition of_option {A} (e : exn) (o : option A) : res A :=
  match o with Some a => Ok a | None => Err e end.

(** [try_except m h] is [try: m  except E as e: h e]: the handler sees every
    exception and re-raises those it does not name. *)
Definition try_except {A} (m : res A) (h : exn → res A) : res A :=
  match m with Ok a => Ok a | Err e => h e end.

(** A [for] loop whose body may raise. *)
Fixpoint for_each {A} (f : A → res unit) (l : list A) : res unit :=
  match l with
  | [] => Ok tt
  | x :: l => f x ;; for_each f l
  end.

(** A [for] loop that threads a state. *)
Fixpoint fold_res {S A} (f : S → A → res S) (s : S) (l : list A) : res S :=
  match l with
  | [] => Ok s
  | x :: l => s' ← f s x; fold_res f s' l
  end.

Create HintDb siano.
Create Rewrite HintDb siano.

Section res_lemmas.
Context {A B : Type}.
Implicit Types (m : res A) (f : A → res B).

Lemma bind_Ok m f b : (m ≫= f) = Ok b ↔ ∃ a, m = Ok a ∧ f a = Ok b.
Proof.
  split; [destruct m as [a|e]; intros H; [by exists a | discriminate H]|].
  by intros (a & -> & H).
Qed.

Lemma bind_Err m f e :
  (m ≫= f) = Err e ↔ m = Err e ∨ ∃ a, m = Ok a ∧ f a = Err e.
Proof.
  split.
  - destruct m as [a|e']; [intros H; right; by exists a | intros [=->]; by left].
  - by intros [-> | (a & -> & H)].
Qed.

Lemma require_Ok c e u : require c e = Ok u ↔ c = true.
Proof. destruct c, u; naive_solver. Qed.

Lemma require_Err c e e' : require c e = Err e' ↔ c = false ∧ e = e'.
Proof. destruct c; naive_solver. Qed.

Lemma require_then c e (k : res B) b :
  (require c e ;; k) = Ok b ↔ c = true ∧ k = Ok b.
Proof. destruct c; cbn; naive_solver. Qed.

Lemma of_option_Ok e (o : option A) a : of_option e o = Ok a ↔ o = Some a.
Proof. destruct o; naive_solver. Qed.

Lemma fmap_Ok (g : A → B) m b : g <$> m = Ok b ↔ ∃ a, m = Ok a ∧ g a = b.
Proof. destruct m; naive_solver. Qed.

Lemma try_except_Ok m (h : exn → res A) a :
  (∀ e b, h e ≠ Ok b) → try_except m h = Ok a ↔ m = Ok a.
Proof. intros Hh. destruct m; cbn; [done|]. split; [by intros ?%Hh | done]. Qed.
End res_lemmas.

Lemma for_each_Ok {A} (f : A → res unit) l u :
  for_each f l = Ok u ↔ Forall (λ x, f x = Ok tt) l.
Proof.
  destruct u. induction l as [|x l IH]; cbn; [by split; constructor|].
  rewrite bind_Ok, Forall_cons. split.
  - intros ([] & Hx & Hl). split; [done|by apply IH].
  - intros (Hx & Hl). exists tt. split; [done|by apply IH].
Qed.

Lemma for_each_Err {A} (f : A → res unit) l e :
  for_each f l = Err e → ∃ x, x ∈ l ∧ f x = Err e.
Proof.
  induction l as [|x l IH]; cbn; [done|]. rewrite bind_Err.
  intros [H | ([] & _ & H)]; [exists x | destruct (IH H) as (y & ? & ?); exists y];
    split; set_solver.
Qed.

Lemma fold_res_app {S A} (f : S → A → res S) s l1 l2 :
  fold_res f s (l1 ++ l2) = (s' ← fold_res f s l1; fold_res f s' l2).
Proof.
  revert s; induction l1 as [|x l1 IH]; intros s; cbn; [done|].
  destruct (f s x); cbn; [apply IH|done].
Qed.

(** Rule induction for a raising loop: an invariant kept by every step that
    returns holds at the end. *)
Lemma fold_res_ind {S A} (P : S → Prop) (f : S → A → res S) s l s' :
  P s → (∀ s1 x s2, x ∈ l → P s1 → f s1 x = Ok s2 → P s2) →
  fold_res f s l = Ok s' → P s'.
Proof.
  revert s; induction l as [|x l IH]; intros s Hs Hstep; cbn.
  - by intros [= <-].
  - rewrite bind_Ok. intros (s1 & H1 & H2).
    apply (IH s1); [by eapply Hstep; [left|..] | | done].
    intros; eapply Hstep; [by right|..]; done.
Qed.

(** A loop that first decodes its items is the loop over the decoded items. *)
Lemma fold_decode {A B S} (f : S → A → res S) (g : A → option B) (h : S → B → res S) s l s' :
  (∀ s i s', f s i = Ok s' ↔ ∃ e, g i = Some e ∧ h s e = Ok s') →
  fold_res f s l = Ok s' ↔ ∃ es, mapM g l = Some es ∧ fold_res h s es = Ok s'.
Proof.
  intros Hf. revert s. induction l as [|i l IH]; intros s; cbn [fold_res].
  - split; [intros ?; by exists []|]. by intros (es & [= <-] & ?).
  - rewrite bind_Ok. setoid_rewrite Hf. setoid_rewrite IH. cbn [mapM]. split.
    + intros (s1 & (e & He & H1) & es & Hes & H2). exists (e :: es).
      rewrite He. cbn. rewrite Hes. split; [done|]. cbn. by rewrite H1.
    + intros (es & Hes & H2). apply bind_Some in Hes as (e & He & (es' & Hes & [= <-])%bind_Some).
      cbn in H2. apply bind_Ok in H2 as (s1 & H1 & H2). eauto 10.
Qed.

(** [raises_only P m]: an exception that leaves [m] satisfies [P]. *)
Definition raises_only {A} (P : exn → Prop) (m : res A) : Prop :=
  match m with Ok _ => True | Err e => P e end.

Section raises.
Context {A B : Type} (P : exn → Prop).
Implicit Types (m : res A).

Lemma raises_bind m (f : A → res B) :
  raises_only P m → (∀ a, m = Ok a → raises_only P (f a)) → raises_only P (m ≫= f).
Proof. destruct m; cbn; auto. Qed.
Lemma raises_require c e : P e → raises_only P (require c e).
Proof. by destruct c. Qed.
Lemma raises_of_option (o : option A) e : P e → raises_only P (of_option e o).
Proof. by destruct o. Qed.
Lemma raises_try m h :
  (∀ e, m = Err e → raises_only P (h e)) → raises_only P (try_except m h).
Proof. destruct m; cbn; auto. Qed.
Lemma raises_impl (Q : exn → Prop) m :
  raises_only Q m → (∀ e, Q e → P e) → raises_only P m.
Proof. destruct m; cbn; auto. Qed.
Lemma raises_for_each (f : A → res unit) l :
  (∀ x, x ∈ l → raises_only P (f x)) → raises_only P (for_each f l).
Proof.
  induction l as [|x l IH]; cbn; [done|]. intros H.
  pose proof (H x ltac:(left)) as Hx. destruct (f x); cbn in *; [|done].
  apply IH. intros y Hy. apply H. by right.
Qed.
Lemma raises_fold_elem {S} (f : S → A → res S) s l :
  (∀ s x, x ∈ l → raises_only P (f s x)) → raises_only P (fold_res f s l).
Proof.
  intros H. revert s. induction l as [|x l IH]; intros s; cbn; [done|].
  pose proof (H s x ltac:(left)) as Hx. destruct (f s x); cbn in *; [|done].
  apply IH. intros s' y Hy. apply H. by right.
Qed.
Lemma raises_fold {S} (f : S → A → res S) s l :
  (∀ s x, raises_only P (f s x)) → raises_only P (fold_res f s l).
Proof. intros H. apply raises_fold_elem. auto. Qed.
Lemma raises_Err m e : m = Err e → raises_only P m → P e.
Proof. by intros ->. Qed.
End raises.

(** Peel the monadic structure of a goal [raises_only P m]; the guards' exceptions are
    left as goals [P e]. *)
Ltac raises :=
  repeat first
    [ match goal with
      | |- raises_only _ (Ok _) => exact I
      | |- raises_only ?P (Err ?e) => change (P e); cbn beta
      | |- raises_only _ (require _ _) => apply raises_require
      | |- raises_only _ (of_option _ _) => apply raises_of_option
      | |- raises_only _ (_ ≫= _) => apply raises_bind; [|intros ? ?]
      end
    | match goal with |- raises_only _ (match ?x with _ => _ end) => destruct x eqn:? end ].

(** Inversion of a chain of monadic steps that returned. *)
Ltac res_inv :=
  repeat match goal with
  | H : Ok _ = Ok _ |- _ => injection H as H
  | H : Err _ = Ok _ |- _ => discriminate H
  | H : Ok _ = Err _ |- _ => discriminate H
  | H : (_ ≫= _) = Ok _ |- _ =>
      apply bind_Ok in H; let a := fresh "v" in let Ha := fresh "Hv" in
      destruct H as (a & Ha & H)
  | H : require _ _ = Ok _ |- _ => apply require_Ok in H
  | H : of_option _ _ = Ok _ |- _ => apply of_option_Ok in H
  | H : for_each _ _ = Ok _ |- _ => apply for_each_Ok in H
  | x : unit |- _ => destruct x
  end.

(** Boolean guards as propositions. *)
Ltac bool_prop :=
  repeat match goal with
  | H : (_ && _) = true |- _ => apply andb_true_iff in H as [? ?]
  | H : (_ || _) = false |- _ => apply orb_false_iff in H as [? ?]
  | H : negb _ = true |- _ => apply negb_true_iff in H
  | H : negb _ = false |- _ => apply negb_false_iff in H
  | H : bool_decide _ = true |- _ => apply bool_decide_eq_true in H
  | H : bool_decide _ = false |- _ => apply bool_decide_eq_false in H
  | H : (_ <? _)%Z = true |- _ => apply Z.ltb_lt in H
  | H : (_ <? _)%Z = false |- _ => apply Z.ltb_ge in H
  | H : (_ <=? _)%Z = true |- _ => apply Z.leb_le in H
  | H : (_ <=? _)%Z = false |- _ => apply Z.leb_gt in H
  | H : (_ =? _)%Z = true |- _ => apply Z.eqb_eq in H
  | H : (_ =? _)%Z = false |- _ => apply Z.eqb_neq in H
  | H : (_ =? _)%N = true |- _ => apply N.eqb_eq in H
  | H : (_ =? _)%N = false |- _ => apply N.eqb_neq in H
  | H : (_ <? _)%N = true |- _ => apply N.ltb_lt in H
  | H : (_ <? _)%N = false |- _ => apply N.ltb_ge in H
  | H : (_ <=? _)%N = true |- _ => apply N.leb_le in H
  | H : (_ <=? _)%N = false |- _ => apply N.leb_gt in H
  end.

#[export] Hint Rewrite @bind_Ok @require_Ok @of_option_Ok @for_each_Ok @fmap_Ok
  : siano.

(** ** Functional record update: [r <| field := v |>]

    A record opts in with an [Eta] instance that rebuilds it from its fields; the
    setter of a field is found by abstracting the field in that expansion. *)
Class Eta (R : Type) := eta : R → R.
Class Setter {R T : Type} (proj : R → T) := set_field : (T → T) → R → R.
Arguments set_field {R T} proj {_} _ _.

Ltac solve_setter :=
  match goal with
  | |- @Setter ?R ?T ?proj =>
      let e := constr:(_ : Eta R) in
      refine (λ (f : T → T) (r : R), ltac:(
        let e' := eval cbv delta [eta] in e in
        let h := get_head e' in
        let t := eval cbv beta delta [eta h] in (e' r) in
        match eval pattern (proj r) in t with
        | ?g _ => let t' := eval cbv beta in (g (f (proj r))) in exact t'
        end))
  end
with get_head t := match t with ?f _ => get_head f | _ => t end.
#[export] Hint Extern 1 (Setter _) => solve_setter : typeclass_instances.

Notation "r <| proj := v |>" := (set_field proj (λ _, v) r)
  (at level 1, left associativity, format "r  <|  proj  :=  v  |>").

(** ** Shared lemmas on lists *)

Section list_lemmas.
Context {A : Type} (P : A → Prop) `{!∀ x, Decision (P x)}.

Lemma filter_none l : Forall (λ x, ¬ P x) l → filter P l = [].
Proof. induction 1; [done|]. by rewrite filter_cons_False. Qed.
Lemma filter_all l : Forall P l → filter P l = l.
Proof. induction 1; [done|]. rewrite filter_cons_True by done. by f_equal. Qed.
End list_lemmas.

Lemma existsb_elem {A} (f : A → bool) l : existsb f l = true ↔ ∃ x, x ∈ l ∧ f x = true.
Proof. rewrite existsb_exists. by setoid_rewrite list_elem_of_In. Qed.

Lemma existsb_false {A} (f : A → bool) l : existsb f l = false ↔ ∀ x, x ∈ l → f x = false.
Proof.
  split.
  - intros H x Hx. destruct (f x) eqn:E; [|done].
    rewrite <- not_true_iff_false, existsb_elem in H. destruct H. eauto.
  - intros H. apply not_true_iff_false. rewrite existsb_elem.
    intros (x & Hx & E). by rewrite H in E.
Qed.

Lemma forallb_elem {A} (f : A → bool) l : forallb f l = true ↔ ∀ x, x ∈ l → f x = true.
Proof. rewrite forallb_forall. by setoid_rewrite list_elem_of_In. Qed.

Lemma bool_eq_iff (b1 b2 : bool) : (b1 = true ↔ b2 = true) → b1 = b2.
Proof. destruct b1, b2; naive_solver. Qed.
