(* ===== verification/PyStr.v ===== *)
(** * Python's [bytes] and [str]

    [bytes] is a list of 8-bit bytes.  [str] is a list of code points, as in
    CPython (a lone surrogate is a legal element).  The operations are those of
    the standard library the scripts call: decoding, [splitlines], [split],
    [strip], [find], [in], slicing, little-endian integers, decimal integers. *)

From Stdlib Require Import Ascii String.
From Stdlib Require Import Strings.Byte.
From Stdlib Require Export Init.Byte.
From stdpp Require Import sorting.
From S2P Require Import Prelude.

(** ** Data *)

Abbreviation bytes := (list byte).
Abbreviation str := (list N).

#[export] Instance byte_eq_dec : EqDecision byte := Byte.byte_eq_dec.

(** Literals: [u "text"] is a [str], [b "text"] a [bytes] object (ASCII). *)
Definition u (s : string) : str := N_of_ascii <$> list_ascii_of_string s.
Definition b (s : string) : bytes := list_byte_of_string s.
Arguments u : simpl never.
Arguments b : simpl never.

#[export] Instance u_inj : Inj (=) (=) u.
Proof.
  intros s1 s2 H. unfold u in H.
  assert (Inj (=) (=) N_of_ascii) as ?.
  { intros x y Hxy. rewrite <- (ascii_N_embedding x), <- (ascii_N_embedding y).
    by rewrite Hxy. }
  apply (inj (fmap N_of_ascii)) in H.
  rewrite <- (string_of_list_ascii_of_string s1), <- (string_of_list_ascii_of_string s2).
  by rewrite H.
Qed.

(** Byte values. *)
Definition bn (x : byte) : N := Byte.to_N x.
Definition bz (x : byte) : Z := Z.of_N (bn x).
Definition nb (n : N) : byte := default x00 (Byte.of_N n).

Lemma bn_bound x : (bn x < 256)%N.
Proof. pose proof (Byte.to_N_bounded x). unfold bn. lia. Qed.

Lemma bz_bound x : (0 ≤ bz x < 256)%Z.
Proof. pose proof (bn_bound x). unfold bz. lia. Qed.

Lemma nb_bn x : nb (bn x) = x.
Proof. unfold nb, bn. by rewrite Byte.of_to_N. Qed.

Lemma bn_nb n : (n < 256)%N → bn (nb n) = n.
Proof.
  intros H. unfold nb, bn. destruct (Byte.of_N n) eqn:E; cbn.
  - by apply Byte.to_of_N.
  - apply Byte.of_N_None_iff in E. lia.
Qed.

#[export] Instance bn_inj : Inj (=) (=) bn.
Proof. intros x y H. by rewrite <- (nb_bn x), H, nb_bn. Qed.

#[export] Instance bz_inj : Inj (=) (=) bz.
Proof. intros x y H. apply (inj bn). unfold bz in H. lia. Qed.

(** ** Slices

    [data[i:j]] for indices [0 <= i]; Python clips both ends to the length. *)
Section slices.
Context {A : Type}.
Implicit Types l : list A.

Fixpoint takeZ (n : Z) l : list A :=
  match l with
  | [] => []
  | x :: l => if (n <=? 0)%Z then [] else x :: takeZ (n - 1) l
  end.
Fixpoint dropZ (n : Z) l : list A :=
  match l with
  | [] => []
  | x :: l' => if (n <=? 0)%Z then l else dropZ (n - 1) l'
  end.
Definition slice (i j : Z) l : list A := takeZ (j - i) (dropZ i l).
Definition lenZ l : Z := Z.of_nat (length l).
Definition nthZ (i : Z) l : option A := head (dropZ i l).

Lemma takeZ_take n l : takeZ n l = take (Z.to_nat n) l.
Proof.
  revert n; induction l as [|x l IH]; intros n; cbn [takeZ]; [by rewrite take_nil|].
  destruct (Z.leb_spec n 0).
  - by replace (Z.to_nat n) with 0 by lia.
  - replace (Z.to_nat n) with (S (Z.to_nat (n - 1))) by lia. cbn. by rewrite IH.
Qed.
Lemma dropZ_drop n l : dropZ n l = drop (Z.to_nat n) l.
Proof.
  revert n; induction l as [|x l IH]; intros n; cbn [dropZ]; [by rewrite drop_nil|].
  destruct (Z.leb_spec n 0).
  - by replace (Z.to_nat n) with 0 by lia.
  - replace (Z.to_nat n) with (S (Z.to_nat (n - 1))) by lia. cbn. by rewrite IH.
Qed.
Lemma length_slice i j l :
  (0 ≤ i)%Z → (i ≤ j)%Z → (j ≤ lenZ l)%Z → lenZ (slice i j l) = (j - i)%Z.
Proof.
  intros ???. unfold slice, lenZ in *. rewrite takeZ_take, dropZ_drop.
  rewrite length_take, length_drop. lia.
Qed.
Lemma slice_app i j k l :
  (0 ≤ i ≤ j)%Z → (j ≤ k)%Z → slice i j l ++ slice j k l = slice i k l.
Proof.
  intros ??. unfold slice. rewrite !takeZ_take, !dropZ_drop.
  replace (Z.to_nat (k - i)) with (Z.to_nat (j - i) + Z.to_nat (k - j)) by lia.
  rewrite <- take_take_drop. f_equal. rewrite drop_drop. do 2 f_equal. lia.
Qed.
End slices.

(** [int.from_bytes(x, "little")]. *)
Fixpoint le_int (l : bytes) : Z :=
  match l with
  | [] => 0
  | x :: l => bz x + 256 * le_int l
  end%Z.

Lemma le_int_bound l : (0 ≤ le_int l < 256 ^ lenZ l)%Z.
Proof.
  unfold lenZ. induction l as [|x l IH]; cbn [le_int length]; [lia|].
  pose proof (bz_bound x).
  rewrite Nat2Z.inj_succ, Z.pow_succ_r by lia. lia.
Qed.

(** ** [str] operations *)

Fixpoint starts_with (p s : str) : bool :=
  match p, s with
  | [], _ => true
  | x :: p, y :: s => (x =? y)%N && starts_with p s
  | _ :: _, [] => false
  end.

Lemma starts_with_spec p s : starts_with p s = true ↔ ∃ r, s = p ++ r.
Proof.
  revert s. induction p as [|x p IH]; intros s; cbn; [split; [by exists s|done]|].
  destruct s as [|y s]; [by split; [|intros (? & ?)]|].
  rewrite andb_true_iff, N.eqb_eq, IH. split.
  - intros [-> (r & ->)]. by exists r.
  - intros (r & [= -> ->]). split; [done|by exists r].
Qed.

Definition ends_with (p s : str) : bool := starts_with (reverse p) (reverse s).

(** [s.find(p)], [None] for -1. *)
Fixpoint find (p s : str) : option nat :=
  if starts_with p s then Some 0
  else match s with
       | [] => None
       | _ :: s' => S <$> find p s'
       end.

(** [p in s]. *)
Definition contains (p s : str) : bool := bool_decide (is_Some (find p s)).

(** [s.split(c, 1)]: [None] when [c] does not occur (one field). *)
Fixpoint split1 (c : N) (s : str) : option (str * str) :=
  match s with
  | [] => None
  | x :: s => if (x =? c)%N then Some ([], s)
              else prod_map (cons x) id <$> split1 c s
  end.

(** [s.split(c)] for a one-character separator. *)
Fixpoint split_on (c : N) (s : str) : list str :=
  match s with
  | [] => [[]]
  | x :: s => if (x =? c)%N then [] :: split_on c s
              else match split_on c s with
                   | w :: ws => (x :: w) :: ws
                   | [] => [[x]]
                   end
  end.

(** The line boundaries of [str.splitlines]. *)
Definition is_linebreak (c : N) : bool :=
  bool_decide (c ∈ [10; 11; 12; 13; 28; 29; 30; 133; 8232; 8233]%N).

(** [s.splitlines()]: a final boundary ends the last line, [\r\n] is one. *)
Fixpoint splitlines_go (line : str) (s : str) : list str :=
  match s with
  | [] => match line with [] => [] | _ => [reverse line] end
  | c :: s' =>
      if (c =? 13)%N then
        match s' with
        | c' :: s'' => if (c' =? 10)%N then reverse line :: splitlines_go [] s''
                       else reverse line :: splitlines_go [] s'
        | [] => [reverse line]
        end
      else if is_linebreak c then reverse line :: splitlines_go [] s'
      else splitlines_go (c :: line) s'
  end.
Definition splitlines : str → list str := splitlines_go [].

(** Characters removed by [str.strip()]. *)
Definition is_space (c : N) : bool :=
  ((9 <=? c) && (c <=? 13) || (28 <=? c) && (c <=? 32)
   || (8192 <=? c) && (c <=? 8202)
   || bool_decide (c ∈ [133; 160; 5760; 8232; 8233; 8239; 8287; 12288]))%N.

Fixpoint lstrip (s : str) : str :=
  match s with
  | c :: s' => if is_space c then lstrip s' else s
  | [] => []
  end.
Definition strip (s : str) : str := reverse (lstrip (reverse (lstrip s))).

(** [s.split()]: the maximal runs of characters that are not white space. *)
Fixpoint words_go (word : str) (s : str) : list str :=
  match s with
  | [] => match word with [] => [] | _ => [reverse word] end
  | c :: s => if is_space c
              then match word with [] => words_go [] s | _ => reverse word :: words_go [] s end
              else words_go (c :: word) s
  end.
Definition words : str → list str := words_go [].

(** [sep.join(parts)]. *)
Fixpoint join (sep : str) (l : list str) : str :=
  match l with
  | [] => []
  | [x] => x
  | x :: l => x ++ sep ++ join sep l
  end.

(** [str] comparison is lexicographic on code points. *)
Fixpoint str_leb (s t : str) : bool :=
  match s, t with
  | [], _ => true
  | _ :: _, [] => false
  | x :: s, y :: t => if (x =? y)%N then str_leb s t else (x <? y)%N
  end.
Definition str_le (s t : str) : Prop := str_leb s t = true.
#[export] Instance str_le_dec : RelDecision str_le.
Proof. intros s t. unfold str_le. apply _. Defined.
Definition sorted : list str → list str := merge_sort str_le.
