(* ===== verification/Codec.v ===== *)
(** * Text codecs and decimal integers

    [bytes.decode("ascii" | "utf-8" | "utf-16")], [str.encode], [int(text)] and
    [str(int)], with the round trips the components rely on. *)

From S2P Require Import Prelude PyStr.

Local Open Scope N_scope.

(** ** ASCII *)

Fixpoint decode_ascii (l : bytes) : option str :=
  match l with
  | [] => Some []
  | x :: l => if bn x <? 128 then cons (bn x) <$> decode_ascii l else None
  end.

Fixpoint encode_ascii (s : str) : option bytes :=
  match s with
  | [] => Some []
  | c :: s => if c <? 128 then cons (nb c) <$> encode_ascii s else None
  end.

(** ** UTF-8 (strict: no overlong form, no surrogate, at most 10FFFF) *)

Definition cont (x : byte) : bool := (128 <=? bn x) && (bn x <? 192).

Fixpoint decode_utf8 (l : bytes) : option str :=
  match l with
  | [] => Some []
  | x0 :: l1 =>
    let c0 := bn x0 in
    if c0 <? 128 then cons c0 <$> decode_utf8 l1
    else if c0 <? 194 then None
    else if c0 <? 224 then
      match l1 with
      | x1 :: l2 =>
        if cont x1 then cons ((c0 - 192) * 64 + (bn x1 - 128)) <$> decode_utf8 l2
        else None
      | _ => None
      end
    else if c0 <? 240 then
      match l1 with
      | x1 :: x2 :: l3 =>
        let c := (c0 - 224) * 4096 + (bn x1 - 128) * 64 + (bn x2 - 128) in
        if cont x1 && cont x2 && (2048 <=? c) && negb ((55296 <=? c) && (c <? 57344))
        then cons c <$> decode_utf8 l3 else None
      | _ => None
      end
    else if c0 <? 245 then
      match l1 with
      | x1 :: x2 :: x3 :: l4 =>
        let c := (c0 - 240) * 262144 + (bn x1 - 128) * 4096
                 + (bn x2 - 128) * 64 + (bn x3 - 128) in
        if cont x1 && cont x2 && cont x3 && (65536 <=? c) && (c <? 1114112)
        then cons c <$> decode_utf8 l4 else None
      | _ => None
      end
    else None
  end.

(** A code point that is not a surrogate. *)
Definition scalar (c : N) : bool :=
  (c <? 55296) || (57344 <=? c) && (c <? 1114112).

Definition utf8_char (c : N) : bytes :=
  if c <? 128 then [nb c]
  else if c <? 2048 then [nb (192 + c / 64); nb (128 + c mod 64)]
  else if c <? 65536 then
    [nb (224 + c / 4096); nb (128 + c / 64 mod 64); nb (128 + c mod 64)]
  else [nb (240 + c / 262144); nb (128 + c / 4096 mod 64);
        nb (128 + c / 64 mod 64); nb (128 + c mod 64)].

(** [s.encode("utf-8")]; a surrogate raises. *)
Fixpoint encode_utf8 (s : str) : option bytes :=
  match s with
  | [] => Some []
  | c :: s => if scalar c then app (utf8_char c) <$> encode_utf8 s else None
  end.

(** ** UTF-16 with a byte-order mark, as [decode("utf-16")] reads it *)

Fixpoint utf16_units (big : bool) (l : bytes) : option (list N) :=
  match l with
  | [] => Some []
  | x :: y :: l =>
    cons (if big then bn x * 256 + bn y else bn x + bn y * 256) <$> utf16_units big l
  | _ => None
  end.

Fixpoint utf16_chars (us : list N) : option str :=
  match us with
  | [] => Some []
  | c :: us =>
    if (55296 <=? c) && (c <? 56320) then
      match us with
      | d :: us' =>
        if (56320 <=? d) && (d <? 57344)
        then cons (65536 + (c - 55296) * 1024 + (d - 56320)) <$> utf16_chars us'
        else None
      | [] => None
      end
    else if (56320 <=? c) && (c <? 57344) then None
    else cons c <$> utf16_chars us
  end.

Definition decode_utf16 (l : bytes) : option str :=
  match l with
  | xff :: xfe :: l => utf16_units false l ≫= utf16_chars
  | xfe :: xff :: l => utf16_units true l ≫= utf16_chars
  | l => utf16_units false l ≫= utf16_chars
  end.

(** ** Decimal integers *)

Definition is_digit (c : N) : bool := (48 <=? c) && (c <=? 57).
Definition is_hex (c : N) : bool := is_digit c || (97 <=? c) && (c <=? 102).

(** The value of a run of ASCII digits ([int(text)] on such a text). *)
Definition digits_value (s : str) : Z :=
  foldl (λ acc c, acc * 10 + Z.of_N (c - 48))%Z 0%Z s.

(** [str(n)]: the digits of a non-negative integer, most significant first.  The
    fuel is the size of the binary representation, which bounds the number of
    decimal digits. *)
Fixpoint dec_go (fuel : nat) (n : N) (acc : str) : str :=
  match fuel with
  | O => acc
  | S fuel => let acc := (48 + n mod 10) :: acc in
              if n / 10 =? 0 then acc else dec_go fuel (n / 10) acc
  end.
Definition dec_N (n : N) : str := dec_go (S (N.size_nat n)) n [].
Definition dec_Z (z : Z) : str :=
  match z with
  | Z.neg p => 45 :: dec_N (Npos p)
  | _ => dec_N (Z.to_N z)
  end.

(** ** Round trips *)

Lemma decode_encode_ascii s l : encode_ascii s = Some l → decode_ascii l = Some s.
Proof.
  revert l; induction s as [|c s IH]; cbn; intros l; [by intros [= <-]|].
  destruct (N.ltb_spec c 128) as [Hc|]; [|done].
  rewrite fmap_Some. intros (l' & Hl & ->). cbn.
  rewrite bn_nb by lia. apply N.ltb_lt in Hc. rewrite Hc. by rewrite (IH l').
Qed.

Lemma encode_decode_ascii l s : decode_ascii l = Some s → encode_ascii s = Some l.
Proof.
  revert s; induction l as [|x l IH]; cbn; intros s; [by intros [= <-]|].
  destruct (bn x <? 128) eqn:Hc; [|done].
  rewrite fmap_Some. intros (s' & Hs & ->). cbn. rewrite Hc, nb_bn.
  by rewrite (IH s').
Qed.

Lemma decode_ascii_utf8 l s : decode_ascii l = Some s → decode_utf8 l = Some s.
Proof.
  revert s; induction l as [|x l IH]; cbn; intros s; [done|].
  destruct (bn x <? 128); [|done]. rewrite fmap_Some. intros (s' & Hs & ->).
  by rewrite (IH s').
Qed.

(** Every decoder used is injective: equal texts came from equal bytes. *)
Lemma decode_ascii_inj l1 l2 s :
  decode_ascii l1 = Some s → decode_ascii l2 = Some s → l1 = l2.
Proof. intros H1%encode_decode_ascii H2%encode_decode_ascii. congruence. Qed.

Lemma nb_eq n x : n = bn x → nb n = x.
Proof. intros ->. apply nb_bn. Qed.

#[local] Ltac Zify.zify_post_hook ::= Z.to_euclidean_division_equations.

(** Case analysis on one encoded character. *)
Ltac utf8_tests :=
  repeat match goal with
  | H : context [N.ltb ?x ?y] |- _ => destruct (N.ltb_spec x y)
  | H : context [N.leb ?x ?y] |- _ => destruct (N.leb_spec x y)
  | |- context [N.ltb ?x ?y] => destruct (N.ltb_spec x y)
  | |- context [N.leb ?x ?y] => destruct (N.leb_spec x y)
  end.

Lemma utf8_char_1 x : bn x < 128 → scalar (bn x) = true ∧ utf8_char (bn x) = [x].
Proof.
  intros H. unfold scalar, utf8_char. utf8_tests; try lia. by rewrite nb_bn.
Qed.

Lemma utf8_char_2 x0 x1 :
  194 ≤ bn x0 < 224 → cont x1 = true →
  let c := (bn x0 - 192) * 64 + (bn x1 - 128) in
  scalar c = true ∧ utf8_char c = [x0; x1].
Proof.
  intros H1 H2%andb_true_iff c. rewrite N.leb_le, N.ltb_lt in H2.
  unfold scalar, utf8_char, c; clear c. split; utf8_tests; try lia; try done.
  f_equal; [|f_equal]; apply nb_eq; lia.
Qed.

Lemma utf8_char_3 x0 x1 x2 :
  224 ≤ bn x0 < 240 → cont x1 = true → cont x2 = true →
  let c := (bn x0 - 224) * 4096 + (bn x1 - 128) * 64 + (bn x2 - 128) in
  2048 ≤ c → ¬ 55296 ≤ c < 57344 →
  scalar c = true ∧ utf8_char c = [x0; x1; x2].
Proof.
  intros H1 H2%andb_true_iff H3%andb_true_iff c. rewrite N.leb_le, N.ltb_lt in H2, H3.
  unfold scalar, utf8_char, c; clear c. intros ??.
  split; utf8_tests; try lia; try done.
  f_equal; [|f_equal; [|f_equal]]; apply nb_eq; lia.
Qed.

Lemma utf8_char_4 x0 x1 x2 x3 :
  240 ≤ bn x0 < 245 → cont x1 = true → cont x2 = true → cont x3 = true →
  let c := (bn x0 - 240) * 262144 + (bn x1 - 128) * 4096
           + (bn x2 - 128) * 64 + (bn x3 - 128) in
  65536 ≤ c < 1114112 →
  scalar c = true ∧ utf8_char c = [x0; x1; x2; x3].
Proof.
  intros H1 H2%andb_true_iff H3%andb_true_iff H4%andb_true_iff c.
  rewrite N.leb_le, N.ltb_lt in H2, H3, H4.
  unfold scalar, utf8_char, c; clear c. intros ?.
  split; utf8_tests; try lia; try done.
  f_equal; [|f_equal; [|f_equal; [|f_equal]]]; apply nb_eq; lia.
Qed.

(** Strict UTF-8 has one encoding per text: re-encoding gives the bytes back. *)
Lemma encode_utf8_cons c w s l :
  scalar c = true ∧ utf8_char c = w → encode_utf8 s = Some l →
  encode_utf8 (c :: s) = Some (w ++ l).
Proof. intros [Hc Hw] Hs. cbn. by rewrite Hc, Hs, <- Hw. Qed.

Lemma encode_decode_utf8 l s : decode_utf8 l = Some s → encode_utf8 s = Some l.
Proof.
  revert s. induction l as [l IH] using (well_founded_induction (well_founded_ltof _ length)).
  unfold ltof in IH. intros s. destruct l as [|x0 l1]; cbn [decode_utf8]; [by intros [= <-]|].
  destruct (N.ltb_spec (bn x0) 128).
  { rewrite fmap_Some. intros (s' & Hs & ->).
    apply (encode_utf8_cons _ [x0]); [by apply utf8_char_1 | apply IH; [cbn; lia|done]]. }
  destruct (N.ltb_spec (bn x0) 194); [done|].
  destruct (N.ltb_spec (bn x0) 224).
  { destruct l1 as [|x1 l2]; [done|]. destruct (cont x1) eqn:?; [|done].
    rewrite fmap_Some. intros (s' & Hs & ->).
    apply (encode_utf8_cons _ [x0; x1]); [by apply utf8_char_2 | apply IH; [cbn; lia|done]]. }
  destruct (N.ltb_spec (bn x0) 240).
  { destruct l1 as [|x1 [|x2 l3]]; [done..|]. case_match eqn:E; [|done].
    rewrite fmap_Some. intros (s' & Hs & ->). bool_prop.
    apply (encode_utf8_cons _ [x0; x1; x2]); [|apply IH; [cbn; lia|done]].
    apply utf8_char_3; [done..| |]; utf8_tests; try done; lia. }
  destruct (N.ltb_spec (bn x0) 245); [|done].
  destruct l1 as [|x1 [|x2 [|x3 l4]]]; [done..|]. case_match eqn:E; [|done].
  rewrite fmap_Some. intros (s' & Hs & ->). bool_prop.
  apply (encode_utf8_cons _ [x0; x1; x2; x3]); [|apply IH; [cbn; lia|done]].
  apply utf8_char_4; [done..|]; utf8_tests; try done; lia.
Qed.

Lemma decode_utf8_inj l1 l2 s :
  decode_utf8 l1 = Some s → decode_utf8 l2 = Some s → l1 = l2.
Proof. intros H1%encode_decode_utf8 H2%encode_decode_utf8. congruence. Qed.

#[export] Hint Resolve decode_ascii_inj decode_utf8_inj : siano.

(** ** Decimal round trips *)

Lemma digits_value_snoc s c : is_digit c = true →
  digits_value (s ++ [c]) = (10 * digits_value s + Z.of_N (c - 48))%Z.
Proof. intros _. unfold digits_value. rewrite foldl_app. cbn. lia. Qed.

Lemma size_nat_bound n : n < 2 ^ N.of_nat (N.size_nat n).
Proof.
  destruct n as [|p]; [done|]. cbn [N.size_nat].
  induction p as [p IH|p IH|]; cbn [Pos.size_nat]; rewrite ?Nat2N.inj_succ, ?N.pow_succ_r';
    cbn; lia.
Qed.

Lemma digits_value_nonneg s : (0 ≤ digits_value s)%Z.
Proof.
  induction s as [|c s IH] using rev_ind; [done|].
  unfold digits_value in *. rewrite foldl_app. cbn. lia.
Qed.

(** A decimal without leading zero is not zero. *)
Lemma digits_value_pos c s : is_digit c = true → c ≠ 48 → (0 < digits_value (c :: s))%Z.
Proof.
  intros Hc Hn. induction s as [|d s IH] using rev_ind.
  - cbn. unfold is_digit in Hc. apply andb_true_iff in Hc as [?%N.leb_le ?%N.leb_le]. lia.
  - rewrite app_comm_cons. unfold digits_value in *. rewrite foldl_app.
    change (foldl ?f ?a [d]) with (f a d). cbn beta. lia.
Qed.

Lemma dec_go_digits k c s acc :
  Forall (λ c, is_digit c = true) (c :: s) → c ≠ 48 →
  Z.to_N (digits_value (c :: s)) < 2 ^ N.of_nat k →
  dec_go (S k) (Z.to_N (digits_value (c :: s))) acc = c :: s ++ acc.
Proof.
  revert k acc. induction s as [|d s IH] using rev_ind; intros k acc Hd Hc Hk.
  - apply Forall_cons in Hd as [Hd _].
    unfold is_digit in Hd. apply andb_true_iff in Hd as [?%N.leb_le ?%N.leb_le].
    change (digits_value [c]) with (Z.of_N (c - 48)). rewrite N2Z.id. cbn [dec_go].
    rewrite N.mod_small, N.div_small by lia. cbn. f_equal. lia.
  - rewrite app_comm_cons in *. apply Forall_app in Hd as [Hs [Hd _]%Forall_cons].
    rewrite digits_value_snoc in * by done.
    pose proof (digits_value_pos c s ltac:(by apply Forall_cons in Hs as [??]) Hc) as Hpos.
    unfold is_digit in Hd. apply andb_true_iff in Hd as [?%N.leb_le ?%N.leb_le].
    set (v := Z.to_N (digits_value (c :: s))) in *.
    assert (Z.to_N (10 * digits_value (c :: s) + Z.of_N (d - 48)) = 10 * v + (d - 48)) as Hv by lia.
    rewrite Hv in *. cbn [dec_go].
    replace ((10 * v + (d - 48)) / 10) with v by (rewrite N.mul_comm, N.div_add_l, N.div_small; lia).
    replace ((10 * v + (d - 48)) mod 10) with (d - 48)
      by (rewrite N.add_comm, N.mul_comm, N.Div0.mod_add, N.mod_small; lia).
    destruct (N.eqb_spec v 0); [lia|]. destruct k as [|k]; [cbn in Hk; lia|].
    rewrite Nat2N.inj_succ, N.pow_succ_r' in Hk.
    unfold v. rewrite IH by (done || fold v; lia).
    cbn. rewrite <- app_assoc. cbn. do 3 f_equal. lia.
Qed.

(** The canonical decimal texts are the ones [str] prints. *)
Lemma dec_digits_value c s :
  Forall (λ c, is_digit c = true) (c :: s) → c ≠ 48 → dec_Z (digits_value (c :: s)) = c :: s.
Proof.
  intros Hd Hc. pose proof (digits_value_nonneg (c :: s)).
  assert (dec_Z (digits_value (c :: s)) = dec_N (Z.to_N (digits_value (c :: s)))) as ->
    by (destruct (digits_value (c :: s)); done || lia).
  unfold dec_N. rewrite dec_go_digits by (done || apply size_nat_bound). by rewrite app_nil_r.
Qed.

Lemma dec_go_S k n acc :
  dec_go (S k) n acc
  = if n / 10 =? 0 then (48 + n mod 10) :: acc else dec_go k (n / 10) ((48 + n mod 10) :: acc).
Proof. done. Qed.

Lemma dec_go_canonical k n acc :
  0 < n → n < 2 ^ N.of_nat k →
  ∃ c s, dec_go (S k) n acc = c :: s ++ acc ∧ Forall (λ c, is_digit c = true) (c :: s)
         ∧ c ≠ 48 ∧ digits_value (c :: s) = Z.of_N n.
Proof.
  revert n acc. induction k as [|k IH]; intros n acc Hn Hk; [cbn in Hk; lia|].
  pose proof (N.mod_lt n 10 ltac:(lia)). pose proof (N.div_mod' n 10).
  assert (is_digit (48 + n mod 10) = true).
  { unfold is_digit. apply andb_true_iff. rewrite !N.leb_le. lia. }
  rewrite dec_go_S. destruct (N.eqb_spec (n / 10) 0) as [E|E].
  - exists (48 + n mod 10), []. split_and!; [done|by constructor|lia|].
    change (digits_value [48 + n mod 10]) with (Z.of_N (48 + n mod 10 - 48)). lia.
  - rewrite Nat2N.inj_succ, N.pow_succ_r' in Hk.
    destruct (IH (n / 10) ((48 + n mod 10) :: acc)) as (c & s & Hd & Hs & Hc & Hv); [lia..|].
    exists c, (s ++ [48 + n mod 10]). split_and!.
    + rewrite Hd, <- app_assoc. done.
    + rewrite app_comm_cons, Forall_app, Forall_singleton. done.
    + done.
    + rewrite app_comm_cons, digits_value_snoc, Hv by done. lia.
Qed.

Lemma dec_Z_canonical n :
  (0 < n)%Z → ∃ c s, dec_Z n = c :: s ∧ Forall (λ c, is_digit c = true) (c :: s)
                     ∧ c ≠ 48 ∧ digits_value (c :: s) = n.
Proof.
  intros Hn. destruct n as [|p|p]; [lia| |lia]. cbn [dec_Z Z.to_N]. unfold dec_N.
  destruct (dec_go_canonical (N.size_nat (Npos p)) (Npos p) [])
    as (c & s & Hd & ?); [done|apply size_nat_bound|].
  exists c, s. rewrite Hd, app_nil_r. done.
Qed.

(** [str(n)] is a run of digits whose value is [n], so it determines [n]. *)
Lemma dec_Z_nonneg n : (0 ≤ n)%Z →
  Forall (λ c, is_digit c = true) (dec_Z n) ∧ digits_value (dec_Z n) = n.
Proof.
  intros Hn. destruct (decide (n = 0%Z)) as [->|]; [by split; [repeat constructor|]|].
  destruct (dec_Z_canonical n) as (c & s & -> & Hd & _ & Hv); [lia|]. done.
Qed.

Lemma dec_Z_inj n m : (0 ≤ n)%Z → (0 ≤ m)%Z → dec_Z n = dec_Z m → n = m.
Proof.
  intros Hn Hm H. rewrite <- (proj2 (dec_Z_nonneg n Hn)), H. by apply dec_Z_nonneg.
Qed.

(** A separator that is in neither prefix splits a text in one way. *)
Lemma split_unique {A} (P : A → Prop) c (s1 s2 t1 t2 : list A) :
  ¬ P c → Forall P s1 → Forall P s2 → s1 ++ c :: t1 = s2 ++ c :: t2 → s1 = s2 ∧ t1 = t2.
Proof.
  intros Hc H1. revert s2. induction H1 as [|x s1 Hx _ IH]; intros s2 H2 H.
  - destruct H2 as [|y s2 Hy _]; [by injection H as ->|]. by injection H as -> _.
  - destruct H2 as [|y s2 Hy H2]; [by injection H as -> _|]. injection H as -> H.
    by destruct (IH s2 H2 H) as [-> ->].
Qed.
