(* ===== verification/Regex.v ===== *)
(** * The regular expressions of the scripts

    The patterns the scripts pass to [re.fullmatch] are regular: the model decides
    membership with derivatives and [fullmatch_spec] states that this is membership
    in the language of the pattern.  [search] looks for a match at any position. *)

From S2P Require Import Prelude PyStr Codec.

(** A character class is a test on code points. *)
Inductive re :=
| Void
| Eps
| Chr (p : N → bool)
| Cat (r1 r2 : re)
| Alt (r1 r2 : re)
| Star (r : re).

Inductive lang : re → str → Prop :=
| lang_eps : lang Eps []
| lang_chr p c : p c = true → lang (Chr p) [c]
| lang_cat r1 r2 s1 s2 : lang r1 s1 → lang r2 s2 → lang (Cat r1 r2) (s1 ++ s2)
| lang_alt_l r1 r2 s : lang r1 s → lang (Alt r1 r2) s
| lang_alt_r r1 r2 s : lang r2 s → lang (Alt r1 r2) s
| lang_star_nil r : lang (Star r) []
| lang_star_cons r s1 s2 : lang r s1 → lang (Star r) s2 → lang (Star r) (s1 ++ s2).

Fixpoint nullable (r : re) : bool :=
  match r with
  | Void | Chr _ => false
  | Eps | Star _ => true
  | Cat r1 r2 => nullable r1 && nullable r2
  | Alt r1 r2 => nullable r1 || nullable r2
  end.

(** Constructors that drop dead branches, so that derivatives stay small. *)
Definition cat (r1 r2 : re) : re :=
  match r1, r2 with
  | Void, _ | _, Void => Void
  | Eps, r | r, Eps => r
  | _, _ => Cat r1 r2
  end.
Definition alt (r1 r2 : re) : re :=
  match r1, r2 with
  | Void, r | r, Void => r
  | _, _ => Alt r1 r2
  end.

Fixpoint deriv (c : N) (r : re) : re :=
  match r with
  | Void | Eps => Void
  | Chr p => if p c then Eps else Void
  | Cat r1 r2 => let d := cat (deriv c r1) r2 in
                 if nullable r1 then alt d (deriv c r2) else d
  | Alt r1 r2 => alt (deriv c r1) (deriv c r2)
  | Star r => cat (deriv c r) (Star r)
  end.

Fixpoint fullmatch (r : re) (s : str) : bool :=
  match s with
  | [] => nullable r
  | c :: s => fullmatch (deriv c r) s
  end.

(** ** Correctness *)

#[local] Hint Constructors lang : core.

Lemma lang_cat_inv r1 r2 s :
  lang (Cat r1 r2) s ↔ ∃ s1 s2, s = s1 ++ s2 ∧ lang r1 s1 ∧ lang r2 s2.
Proof. split; [inversion 1; naive_solver | intros (?&?&->&?&?); auto]. Qed.

Lemma lang_void s : ¬ lang Void s.
Proof. inversion 1. Qed.

Lemma lang_eps_inv s : lang Eps s ↔ s = [].
Proof. split; [by inversion 1|intros ->; auto]. Qed.

Lemma lang_mk_cat r1 r2 s : lang (cat r1 r2) s ↔ lang (Cat r1 r2) s.
Proof.
  rewrite lang_cat_inv.
  assert (∀ r, (∃ s1 s2, s = s1 ++ s2 ∧ lang Void s1 ∧ lang r s2) ↔ False) as Hl.
  { intros r. split; [|done]. intros (?&?&_&[]%lang_void&_). }
  assert (∀ r, (∃ s1 s2, s = s1 ++ s2 ∧ lang r s1 ∧ lang Void s2) ↔ False) as Hr.
  { intros r. split; [|done]. intros (?&?&_&_&[]%lang_void). }
  assert (∀ r, (∃ s1 s2, s = s1 ++ s2 ∧ lang Eps s1 ∧ lang r s2) ↔ lang r s) as He.
  { intros r. setoid_rewrite lang_eps_inv. split; [naive_solver|]. intros. by exists [], s. }
  assert (∀ r, (∃ s1 s2, s = s1 ++ s2 ∧ lang r s1 ∧ lang Eps s2) ↔ lang r s) as He'.
  { intros r. setoid_rewrite lang_eps_inv. split; [|intros; exists s, []; by rewrite app_nil_r].
    intros (s1&s2&->&?&->). by rewrite app_nil_r. }
  pose proof (lang_void s) as Hv.
  destruct r1, r2; cbn [cat]; rewrite ?Hl, ?Hr, ?He, ?He'; try tauto; apply lang_cat_inv.
Qed.

Lemma lang_alt_inv r1 r2 s : lang (Alt r1 r2) s ↔ lang r1 s ∨ lang r2 s.
Proof. split; [inversion 1; auto | intros []; auto]. Qed.

Lemma lang_mk_alt r1 r2 s : lang (alt r1 r2) s ↔ lang (Alt r1 r2) s.
Proof.
  rewrite lang_alt_inv. pose proof (lang_void s).
  destruct r1, r2; cbn [alt]; rewrite ?lang_alt_inv; tauto.
Qed.

Lemma nullable_spec r : nullable r = true ↔ lang r [].
Proof.
  induction r; cbn; rewrite ?andb_true_iff, ?orb_true_iff, ?IHr1, ?IHr2,
    ?lang_cat_inv, ?lang_alt_inv; try (split; [done|by inversion 1]); try (by split; auto).
  split; [intros []; by exists [], []|].
  intros (s1&s2&H&?&?). destruct s1, s2; try done.
Qed.

Lemma lang_star_cons_inv r c s :
  lang (Star r) (c :: s) ↔ ∃ s1 s2, s = s1 ++ s2 ∧ lang r (c :: s1) ∧ lang (Star r) s2.
Proof.
  split.
  - remember (Star r) as r' eqn:Er. remember (c :: s) as s' eqn:Es.
    intros H. revert Er Es. induction H; try done. intros [= ->] Es.
    destruct s1 as [|c' s1]; [by apply IHlang2|]. cbn in Es. injection Es as -> <-.
    by exists s1, s2.
  - intros (s1&s2&->&?&?). by apply (lang_star_cons r (c :: s1)).
Qed.

Lemma deriv_spec c r s : lang (deriv c r) s ↔ lang r (c :: s).
Proof.
  revert s. induction r as [| |p|r1 IH1 r2 IH2|r1 IH1 r2 IH2|r IH]; intros s; cbn.
  - split; inversion 1.
  - split; inversion 1.
  - destruct (p c) eqn:Hp; (split; inversion 1; subst; auto; congruence).
  - assert (lang (cat (deriv c r1) r2) s ↔
      ∃ s1 s2, s = s1 ++ s2 ∧ lang r1 (c :: s1) ∧ lang r2 s2) as Hd.
    { rewrite lang_mk_cat, lang_cat_inv. by setoid_rewrite IH1. }
    rewrite lang_cat_inv. destruct (nullable r1) eqn:Hn.
    + rewrite lang_mk_alt, lang_alt_inv, Hd, IH2. apply nullable_spec in Hn. split.
      * intros [(s1&s2&->&?&?)|?]; [by exists (c :: s1), s2|by exists [], (c :: s)].
      * intros ([|c' s1]&s2&Hs&?&?); [right; by rewrite Hs|]. injection Hs as <- ->.
        left; by exists s1, s2.
    + rewrite Hd. split; [intros (s1&s2&->&?&?); by exists (c :: s1), s2|].
      intros ([|c' s1]&s2&Hs&H1&?).
      * apply nullable_spec in H1. congruence.
      * injection Hs as <- ->. by exists s1, s2.
  - by rewrite lang_mk_alt, !lang_alt_inv, IH1, IH2.
  - rewrite lang_mk_cat, lang_cat_inv, lang_star_cons_inv. by setoid_rewrite IH.
Qed.

(** [fullmatch] decides the language of the pattern. *)
Lemma fullmatch_spec r s : fullmatch r s = true ↔ lang r s.
Proof.
  revert r; induction s as [|c s IH]; intros r; cbn; [apply nullable_spec|].
  by rewrite IH, deriv_spec.
Qed.

(** ** Derived forms *)

Definition lit (s : str) : re := foldr (λ c, Cat (Chr (N.eqb c))) Eps s.
Definition any : re := Chr (λ _, true).
Definition plus (r : re) : re := Cat r (Star r).
Definition opt (r : re) : re := Alt Eps r.
Fixpoint rep (n : nat) (r : re) : re :=
  match n with O => Eps | S n => Cat r (rep n r) end.
Definition alts (rs : list re) : re := foldr Alt Void rs.
Definition one_of (s : str) : N → bool := λ c, bool_decide (c ∈ s).

(** [re.search(r, s)] for a pattern without anchors. *)
Definition search (r : re) (s : str) : bool :=
  fullmatch (Cat (Star any) (Cat r (Star any))) s.

Lemma lang_rep_chr n p s :
  lang (rep n (Chr p)) s ↔ length s = n ∧ Forall (λ c, p c = true) s.
Proof.
  revert s; induction n as [|n IH]; intros s; cbn.
  - rewrite lang_eps_inv. split; [by intros ->|]. intros [?%nil_length_inv _]; done.
  - rewrite lang_cat_inv. setoid_rewrite IH. split.
    + intros (s1&s2&->&Hs1&<-&?). inversion Hs1; subst. cbn. split; [done|by constructor].
    + destruct s as [|c s]; cbn; [naive_solver|]. intros [[= Hl] [Hc Hs]%Forall_cons].
      exists [c], s. by split_and!; [|constructor|..].
Qed.

Lemma lang_star_chr p s : lang (Star (Chr p)) s ↔ Forall (λ c, p c = true) s.
Proof.
  split.
  - remember (Star (Chr p)) as r eqn:E. induction 1; try done. injection E as ->.
    apply Forall_app. split; [|auto]. inversion H; subst. by repeat constructor.
  - induction 1 as [|x l Hx _ IH]; [constructor|]. apply (lang_star_cons _ [x] l); [by constructor|done].
Qed.

Lemma lang_any_star s : lang (Star any) s.
Proof. apply lang_star_chr. by induction s; constructor. Qed.

Lemma lang_lit t s : lang (lit t) s ↔ s = t.
Proof.
  revert s; induction t as [|c t IH]; intros s; cbn; [apply lang_eps_inv|].
  rewrite lang_cat_inv. setoid_rewrite IH. split.
  - intros (s1&s2&->&Hs&->). inversion Hs as [| ? ? Hc | | | | |]; subst. by apply N.eqb_eq in Hc as ->.
  - intros ->. exists [c], t. split_and!; [done| |done]. constructor. apply N.eqb_refl.
Qed.

Lemma search_spec r s :
  search r s = true ↔ ∃ s1 s2 s3, s = s1 ++ s2 ++ s3 ∧ lang r s2.
Proof.
  unfold search. rewrite fullmatch_spec, lang_cat_inv. setoid_rewrite lang_cat_inv. split.
  - intros (s1&?&->&_&s2&s3&->&?&_). by exists s1, s2, s3.
  - intros (s1&s2&s3&->&?). exists s1, (s2 ++ s3). split_and!; [done|apply lang_any_star|].
    exists s2, s3. split_and!; [done..|apply lang_any_star].
Qed.

(** ** The patterns shared by several scripts *)

Definition digit : re := Chr is_digit.
Definition lower_hex : re := Chr is_hex.

(** [[0-9a-f]{40}] *)
Definition hex40 (s : str) : bool := fullmatch (rep 40 lower_hex) s.
(** [[0-9a-f]{64}] *)
Definition hex64 (s : str) : bool := fullmatch (rep 64 lower_hex) s.

Lemma hex40_spec s : hex40 s = true ↔ length s = 40 ∧ Forall (λ c, is_hex c = true) s.
Proof. unfold hex40, lower_hex. by rewrite fullmatch_spec, lang_rep_chr. Qed.
Lemma hex64_spec s : hex64 s = true ↔ length s = 64 ∧ Forall (λ c, is_hex c = true) s.
Proof. unfold hex64, lower_hex. by rewrite fullmatch_spec, lang_rep_chr. Qed.

#[export] Hint Rewrite fullmatch_spec hex40_spec hex64_spec search_spec : siano.
