(* ===== verification/TsCheck.v ===== *)
(** * MPEG-TS inspection: [docs/release-validation/ts-check.py]

    [inspect] reads the capture in chunks, cuts it into 188-byte packets and folds
    [step] over them; [main] validates the options and computes the exit code.  The
    scan state is the record [scan], one field per local variable of [inspect]. *)

From stdpp Require Import sorting.
From S2P Require Import Prelude PyStr Codec.

Local Open Scope Z_scope.

(** Byte [i] of a packet.  Packets have 188 bytes, the indices used are below 12. *)
Definition at_ (packet : bytes) (i : nat) : Z := from_option bz 0 (packet !! i).

Definition equivalent_duplicate (previous packet : bytes) (has_pcr : bool) : bool :=
  if negb has_pcr then bool_decide (previous = packet)
  else bool_decide (take 6 previous = take 6 packet)
       && (Z.land (at_ previous 10) 0x7e =? Z.land (at_ packet 10) 0x7e)
       && bool_decide (drop 12 previous = drop 12 packet).

(** ** Reading one packet *)

Definition pid_of (packet : bytes) : Z :=
  Z.lor (Z.shiftl (Z.land (at_ packet 1) 0x1F) 8) (at_ packet 2).
Definition null_pid : Z := 0x1FFF.
Definition adaptation_of (packet : bytes) : Z := Z.land (Z.shiftr (at_ packet 3) 4) 0x03.
Definition counter_of (packet : bytes) : Z := Z.land (at_ packet 3) 0x0F.

(** The adaptation-field checks: [None] for an invalid packet. *)
Record header := Header { has_payload : bool; discontinuity : bool; has_pcr : bool }.

Definition adaptation_header (packet : bytes) : option header :=
  let adaptation := adaptation_of packet in
  if adaptation =? 0 then None else
  let has_payload := (adaptation =? 1) || (adaptation =? 3) in
  let has_field := (adaptation =? 2) || (adaptation =? 3) in
  let discontinuity :=
    has_field && (0 <? at_ packet 4) && negb (Z.land (at_ packet 5) 0x80 =? 0) in
  if has_field then
    let length := at_ packet 4 in
    if (adaptation =? 2) && negb (length =? 183) || (adaptation =? 3) && (182 <? length)
    then None
    else if 0 <? length then
      let has_pcr := negb (Z.land (at_ packet 5) 0x10 =? 0) in
      if has_pcr then
        let extension := Z.lor (Z.shiftl (Z.land (at_ packet 10) 1) 8) (at_ packet 11) in
        if (length <? 7) || negb (Z.land (at_ packet 10) 0x7e =? 0x7e) || (300 <=? extension)
        then None
        else Some (Header has_payload discontinuity true)
      else Some (Header has_payload discontinuity false)
    else Some (Header has_payload discontinuity false)
  else Some (Header has_payload discontinuity false).

(** ** The scan state *)

Record pid_state := PidState {
  ps_counter : Z;
  ps_has_payload : bool;
  ps_repeated : bool;
  ps_epoch : Z;
  ps_packet : bytes;
}.

Record scan := Scan {
  sync_errors : Z;
  tei : Z;
  invalid_packets : Z;
  continuity_error_indices : list Z;
  duplicate_packet_indices : list Z;
  invalid_packet_indices : list Z;
  excluded_seen : list Z;
  previous : gmap Z pid_state;
  packets : Z;
  total_bytes : Z;
  null_packet_count : Z;
  null_indices : list Z;
  untrusted_epoch : Z;
  retune_boundary_index : nat;
  retune_segment : Z;
  retune_segment_pids : gset Z;
  retune_excluded_cc : gset Z;
}.

#[export] Instance scan_eta : Eta scan := λ s,
  Scan (sync_errors s) (tei s) (invalid_packets s) (continuity_error_indices s)
    (duplicate_packet_indices s) (invalid_packet_indices s) (excluded_seen s)
    (previous s) (packets s) (total_bytes s) (null_packet_count s) (null_indices s)
    (untrusted_epoch s) (retune_boundary_index s) (retune_segment s)
    (retune_segment_pids s) (retune_excluded_cc s).

Definition init_scan : scan :=
  Scan 0 0 0 [] [] [] [] ∅ 0 0 0 [] 0 0 0 ∅ ∅.

Section step.
Context (excluded_cc : gset Z) (retune_boundaries : list Z) (write_null : bool).

(** Entering the next tune segment. *)
Definition retune_step (index : Z) (s : scan) : scan :=
  match retune_boundaries !! retune_boundary_index s with
  | Some boundary =>
      if boundary <=? index then
        s <| retune_segment := retune_segment s + 1 |>
          <| retune_segment_pids := ∅ |>
          <| retune_boundary_index := S (retune_boundary_index s) |>
      else s
  | None => s
  end.

(** Noting a PID of the current segment; its first packet after a retune is
    excluded from the continuity comparison. *)
Definition note_pid (index pid : Z) (s : scan) : scan :=
  let retune_first_pid_packet :=
    negb (pid =? null_pid) && negb (bool_decide (pid ∈ retune_segment_pids s)) in
  let s := if negb (pid =? null_pid)
           then s <| retune_segment_pids := {[pid]} ∪ retune_segment_pids s |> else s in
  if (0 <? retune_segment s) && retune_first_pid_packet
  then s <| retune_excluded_cc := {[index]} ∪ retune_excluded_cc s |> else s.

Definition mark_invalid (index : Z) (s : scan) : scan :=
  s <| invalid_packets := invalid_packets s + 1 |>
    <| invalid_packet_indices := invalid_packet_indices s ++ [index] |>
    <| untrusted_epoch := untrusted_epoch s + 1 |>.

(** The continuity comparison with the PID's previous packet. *)
Definition compare_counter (index pid : Z) (h : header) (packet : bytes) (s : scan) : scan :=
  match previous s !! pid with
  | Some state =>
      if discontinuity h then s else
      let counter := counter_of packet in
      let expected :=
        Z.land (ps_counter state + (if has_payload h then 1 else 0)) 0x0F in
      let repeated := has_payload h && (counter =? ps_counter state) in
      if repeated && ps_has_payload state && negb (ps_repeated state)
         && (ps_epoch state =? untrusted_epoch s)
         && equivalent_duplicate (ps_packet state) packet (has_pcr h)
      then s <| duplicate_packet_indices := duplicate_packet_indices s ++ [index] |>
      else if negb (counter =? expected) then
        if bool_decide (index ∈ excluded_cc) || bool_decide (index ∈ retune_excluded_cc s)
        then s <| excluded_seen := excluded_seen s ++ [index] |>
        else s <| continuity_error_indices := continuity_error_indices s ++ [index] |>
      else s
  | None => s
  end.

(** Remembering the packet for the next comparison of its PID. *)
Definition remember (pid : Z) (h : header) (packet : bytes) (s : scan) : scan :=
  let repeated :=
    match previous s !! pid with
    | Some state => has_payload h && (counter_of packet =? ps_counter state)
    | None => false
    end in
  s <| previous := <[pid := PidState (counter_of packet) (has_payload h) repeated
                              (untrusted_epoch s) packet]> (previous s) |>.

(** The body of the packet loop. *)
Definition step (s : scan) (packet : bytes) : scan :=
  let index := packets s in
  let s := s <| packets := packets s + 1 |> in
  let out_of_sync := negb (at_ packet 0 =? 0x47) in
  let s := if out_of_sync then s <| sync_errors := sync_errors s + 1 |> else s in
  let s := retune_step index s in
  if out_of_sync then s <| untrusted_epoch := untrusted_epoch s + 1 |> else
  let pid := pid_of packet in
  let s := note_pid index pid s in
  if negb (Z.land (at_ packet 1) 0x80 =? 0) then
    s <| tei := tei s + 1 |> <| untrusted_epoch := untrusted_epoch s + 1 |>
  else if pid =? null_pid then
    let s := s <| null_packet_count := null_packet_count s + 1 |> in
    if write_null then s <| null_indices := null_indices s ++ [index] |> else s
  else match adaptation_header packet with
       | None => mark_invalid index s
       | Some h => remember pid h packet (compare_counter index pid h packet s)
       end.

(** The packets [data[offset:offset + 188]] for [offset] in
    [range(0, complete_bytes, 188)]. *)
Definition frames (complete_bytes : nat) (data : bytes) : list bytes :=
  (λ k : nat, take 188 (drop (188 * k) data)) <$> seq 0 (complete_bytes / 188).

(** The read loop.  [source.read(n)] returns the next [n] bytes, fewer only at the
    end of the file; [chunk_size] is [188 * 4096] in the source.  The fuel bounds
    the number of reads; [S (length source)] is enough since every read but the
    last returns at least one byte. *)
Fixpoint read_loop (fuel : nat) (chunk_size : Z) (source pending : bytes) (s : scan)
  : option scan :=
  match fuel with
  | O => None
  | S fuel =>
      let chunk := takeZ chunk_size source in
      match chunk with
      | [] => Some s
      | _ =>
          let s := s <| total_bytes := total_bytes s + lenZ chunk |> in
          let data := pending ++ chunk in
          let complete_bytes := (length data - length data `mod` 188)%nat in
          read_loop fuel chunk_size (dropZ chunk_size source)
            (drop complete_bytes data) (foldl step s (frames complete_bytes data))
      end
  end.
End step.

(** ** The report *)

Record report := Report {
  r_file : str;
  r_bytes : Z;
  r_packets : Z;
  r_remainder : Z;
  r_sync_errors : Z;
  r_tei : Z;
  r_invalid_packets : Z;
  r_invalid_packet_indices : list Z;
  r_null_packet_count : Z;
  r_null_packet_indices_file : option str;
  r_duplicate_packet_indices : list Z;
  r_continuity_errors : Z;
  r_continuity_error_indices : list Z;
  r_excluded_cc_indices : list Z;
  r_excluded_cc_mismatches : list Z;
}.

Definition report_of (path : str) (null_indices_path : option str) (excluded_cc : gset Z)
    (s : scan) : report :=
  Report path (total_bytes s) (packets s) (total_bytes s `mod` 188) (sync_errors s) (tei s)
    (invalid_packets s) (invalid_packet_indices s) (null_packet_count s) null_indices_path
    (duplicate_packet_indices s) (lenZ (continuity_error_indices s))
    (continuity_error_indices s)
    (merge_sort Z.le (elements (excluded_cc ∪ retune_excluded_cc s))) (excluded_seen s).

(** The text written to the null-index file, one decimal index per line. *)
Definition null_index_file (s : scan) : str :=
  concat ((λ i, dec_Z i ++ [10%N]) <$> null_indices s).

Definition chunk_bytes : Z := 188 * 4096.

Definition inspect_scan (excluded_cc : gset Z) (retune_boundaries : list Z)
    (write_null : bool) (source : bytes) : option scan :=
  read_loop excluded_cc retune_boundaries write_null (S (length source)) chunk_bytes
    source [] init_scan.

(** [inspect]: the report and the contents of the null-index file. *)
Definition inspect (path : str) (source : bytes) (excluded_cc : gset Z)
    (retune_boundaries : list Z) (null_indices_path : option str)
    : option (report * option str) :=
  s ← inspect_scan excluded_cc retune_boundaries
        (bool_decide (is_Some null_indices_path)) source;
  Some (report_of path null_indices_path excluded_cc s,
        (λ _, null_index_file s) <$> null_indices_path).

(** ** The command line *)

Record args := Args {
  ts_file : str;
  exclude_cc_at : list Z;
  retune_boundary_at : list Z;
  null_indices_arg : option str;
}.

(** A result key the exit code depends on is truthy. *)
Definition failing (r : report) : bool :=
  negb (r_remainder r =? 0) || negb (r_sync_errors r =? 0) || negb (r_tei r =? 0)
  || negb (r_invalid_packets r =? 0) || negb (r_continuity_errors r =? 0).

(** The option checks that precede the scan. *)
Definition exclusions_rejected (exclude_cc_at : list Z) : bool :=
  negb (bool_decide (Z.of_nat (size (list_to_set (C := gset Z) exclude_cc_at))
                     = lenZ exclude_cc_at))
  || existsb (λ i, i <? 0) exclude_cc_at.
Definition boundaries_rejected (retune_boundary_at : list Z) : bool :=
  existsb (λ i, i <=? 0) retune_boundary_at
  || negb (bool_decide (retune_boundary_at =
       merge_sort Z.le (elements (list_to_set (C := gset Z) retune_boundary_at)))).

Section main.
(** The file system: [Path(p).resolve()] and the contents of a file. *)
Context (resolve : str → str) (read_file : str → res bytes).

(** [parser.error] prints a message and exits with code 2. *)
Definition parser_error {A} (msg : string) : res A := Err (SystemExit 2 msg).

(** The exit code and the report printed on standard output. *)
Definition main (a : args) : res (Z * report) :=
  let null := match null_indices_arg a with Some [] => None | n => n end in
  if exclusions_rejected (exclude_cc_at a)
  then parser_error "CC exclusion indices must be unique and nonnegative"
  else if boundaries_rejected (retune_boundary_at a)
  then parser_error "retune boundaries must be unique, positive, and increasing"
  else if bool_decide (is_Some null) && bool_decide (Some (resolve (ts_file a)) = resolve <$> null)
  then parser_error "null index output must not overwrite the TS input"
  else
    source ← read_file (ts_file a);
    '(r, _) ← of_option (RuntimeError "out of fuel")
      (inspect (ts_file a) source (list_to_set (exclude_cc_at a)) (retune_boundary_at a) null);
    if existsb (λ i, r_packets r <=? i) (exclude_cc_at a)
    then parser_error "CC exclusion index is outside the TS packet range"
    else if existsb (λ i, r_packets r <=? i) (retune_boundary_at a)
    then parser_error "retune boundary is outside the TS packet range"
    else if r_packets r =? 0 then Ok (2, r)
    else Ok (Z.b2z (failing r), r).
End main.
