(* ===== verification/TsSpec.v ===== *)
(** * What [inspect] computes, stated on the list of packets

    The abstract specification of ts-check: every counter and every index list of
    the report is the list of positions whose packet satisfies a predicate on the
    packet and the packets before it.  No scan state is involved. *)

From stdpp Require Import sorting.
From S2P Require Import Prelude PyStr Codec TsCheck.

Local Open Scope Z_scope.

(** ** Positions satisfying a predicate of the prefix and the packet *)

Section positions.
Context {A : Type}.
Implicit Types (f : list A → A → bool) (ps : list A).

Definition holds_at f ps (i : nat) : bool :=
  match ps !! i with Some p => f (take i ps) p | None => false end.
Definition indices f ps : list nat :=
  filter (λ i, holds_at f ps i = true) (seq 0 (length ps)).
Definition positions f ps : list Z := Z.of_nat <$> indices f ps.

Lemma holds_at_snoc f ps p i :
  (i < length ps)%nat → holds_at f (ps ++ [p]) i = holds_at f ps i.
Proof.
  intros Hi. unfold holds_at. rewrite lookup_app_l, take_app_le by lia. done.
Qed.
Lemma holds_at_last f ps p : holds_at f (ps ++ [p]) (length ps) = f ps p.
Proof. unfold holds_at. by rewrite list_lookup_middle, take_app_length. Qed.

Lemma filter_seq_ext (g h : nat → bool) n :
  (∀ i, (i < n)%nat → g i = h i) →
  filter (λ i, g i = true) (seq 0 n) = filter (λ i, h i = true) (seq 0 n).
Proof.
  intros H. assert (∀ l, Forall (λ i, (i < n)%nat) l →
    filter (λ i, g i = true) l = filter (λ i, h i = true) l) as Hl.
  { induction 1 as [|i l Hi _ IH]; [done|]. rewrite !filter_cons, (H i Hi), IH. done. }
  apply Hl, Forall_forall. intros i Hi%elem_of_seq. lia.
Qed.

Lemma indices_snoc f ps p :
  indices f (ps ++ [p]) = indices f ps ++ (if f ps p then [length ps] else []).
Proof.
  unfold indices. rewrite length_app, Nat.add_comm. cbn [length].
  rewrite Nat.add_1_l, seq_S, filter_app. f_equal.
  - apply filter_seq_ext. intros i Hi. by apply holds_at_snoc.
  - rewrite Nat.add_0_l, filter_cons, holds_at_last. by destruct (f ps p).
Qed.

Lemma positions_snoc f ps p :
  positions f (ps ++ [p]) = positions f ps ++ (if f ps p then [lenZ ps] else []).
Proof. unfold positions. rewrite indices_snoc, fmap_app. by destruct (f ps p). Qed.

Lemma positions_nil f : positions f [] = [].
Proof. done. Qed.

Lemma elem_of_positions f ps z :
  z ∈ positions f ps ↔ ∃ i p, z = Z.of_nat i ∧ ps !! i = Some p ∧ f (take i ps) p = true.
Proof.
  unfold positions, indices. rewrite list_elem_of_fmap.
  setoid_rewrite list_elem_of_filter. setoid_rewrite elem_of_seq. unfold holds_at. split.
  - intros (i & -> & Hh & Hi). destruct (ps !! i) eqn:E; [|done]. eauto.
  - intros (i & p & -> & Hp & Hf). exists i. rewrite Hp. split_and!; [done..|lia|].
    apply lookup_lt_Some in Hp. lia.
Qed.

Lemma positions_last f ps p : lenZ ps ∈ positions f (ps ++ [p]) ↔ f ps p = true.
Proof.
  rewrite positions_snoc, elem_of_app, elem_of_positions. split.
  - intros [(i & q & Hi & Hq & _)|H]; [|by destruct (f ps p); set_solver].
    apply lookup_lt_Some in Hq. unfold lenZ in Hi. lia.
  - intros ->. set_solver.
Qed.

Lemma positions_length_le f ps : lenZ (positions f ps) ≤ lenZ ps.
Proof.
  induction ps as [|p ps IH] using rev_ind; [done|].
  rewrite positions_snoc. unfold lenZ in *. rewrite !length_app. cbn.
  destruct (f ps p); cbn; lia.
Qed.

Lemma positions_sorted f ps : StronglySorted Z.lt (positions f ps).
Proof.
  induction ps as [|p ps IH] using rev_ind; [constructor|].
  rewrite positions_snoc. destruct (f ps p); [|by rewrite app_nil_r].
  apply StronglySorted_app. split_and!; [|done|by repeat constructor].
  intros x y (i & q & -> & Hq & _)%elem_of_positions ->%list_elem_of_singleton.
  apply lookup_lt_Some in Hq. unfold lenZ. lia.
Qed.

Lemma positions_ext f g ps :
  (∀ i p, ps !! i = Some p → f (take i ps) p = g (take i ps) p) →
  positions f ps = positions g ps.
Proof.
  intros H. unfold positions, indices. f_equal. apply filter_seq_ext.
  intros i Hi. unfold holds_at. destruct (ps !! i) eqn:E; [by apply H|done].
Qed.
End positions.

(** ** Classification of a packet *)

Inductive verdict := Unsync | Errored | Null | Invalid | Accepted (h : header).

Definition classify (p : bytes) : verdict :=
  if negb (at_ p 0 =? 0x47) then Unsync
  else if negb (Z.land (at_ p 1) 0x80 =? 0) then Errored
  else if pid_of p =? null_pid then Null
  else match adaptation_header p with None => Invalid | Some h => Accepted h end.

Definition is_unsync (p : bytes) := match classify p with Unsync => true | _ => false end.
Definition is_errored (p : bytes) := match classify p with Errored => true | _ => false end.
Definition is_null (p : bytes) := match classify p with Null => true | _ => false end.
Definition is_invalid (p : bytes) := match classify p with Invalid => true | _ => false end.
Definition is_accepted (p : bytes) := match classify p with Accepted _ => true | _ => false end.
(** A packet that ends the trust in adjacency. *)
Definition untrusted (p : bytes) := is_unsync p || is_errored p || is_invalid p.

(** ** History of a PID

    [epoch pre] counts the untrusted packets of a prefix, [last_accepted pid pre] is
    the position of the last accepted packet of the PID. *)

Definition epoch (pre : list bytes) : Z := lenZ (positions (λ _, untrusted) pre).

Definition accepts (pid : Z) (p : bytes) : bool := is_accepted p && (pid_of p =? pid).

Definition last_accepted (pid : Z) (pre : list bytes) : option nat :=
  last (indices (λ _, accepts pid) pre).

(** The packet repeats the counter of the PID's previous accepted packet. *)
Definition repeats (pre : list bytes) (p : bytes) (h : header) : bool :=
  match last_accepted (pid_of p) pre ≫= λ j, pre !! j with
  | Some q => has_payload h && (counter_of p =? counter_of q)
  | None => false
  end.

Inductive mark := Duplicate | Mismatch.

(** A tolerated duplicate: the payload of the PID's previous packet [q] sent again, once,
    with no untrusted packet in between. *)
Definition tolerated (pre : list bytes) (p : bytes) (h : header)
    (j : nat) (q : bytes) (hq : header) : bool :=
  has_payload h && (counter_of p =? counter_of q) && has_payload hq
  && negb (repeats (take j pre) q hq) && (epoch (take j pre) =? epoch pre)
  && equivalent_duplicate q p (has_pcr h).

(** The judgement on an accepted packet [p] preceded by [pre], where [q] is the PID's
    previous accepted packet, at position [j] with header [hq]. *)
Definition judge (pre : list bytes) (p : bytes) (h : header)
    (j : nat) (q : bytes) (hq : header) : option mark :=
  if discontinuity h then None
  else if tolerated pre p h j q hq then Some Duplicate
  else if negb (counter_of p
                =? (counter_of q + (if has_payload h then 1 else 0)) `mod` 16)
  then Some Mismatch
  else None.

Definition mark_of (pre : list bytes) (p : bytes) : option mark :=
  match classify p with
  | Accepted h =>
      j ← last_accepted (pid_of p) pre;
      q ← pre !! j;
      match classify q with Accepted hq => judge pre p h j q hq | _ => None end
  | _ => None
  end.

Definition is_mark (m : mark) (pre : list bytes) (p : bytes) : bool :=
  match mark_of pre p, m with
  | Some Duplicate, Duplicate | Some Mismatch, Mismatch => true
  | _, _ => false
  end.

(** ** Retunes *)

Section retune.
Context (bs : list Z).

(** The boundaries crossed by the first [n] packets and the position where the
    last segment starts. *)
Definition crossed (n : nat) : list Z := filter (λ c, c < Z.of_nat n) bs.
Definition segment_start (n : nat) : nat := from_option Z.to_nat 0%nat (last (crossed n)).

Definition carries (pid : Z) (p : bytes) : bool := negb (is_unsync p) && (pid_of p =? pid).

(** The first packet of its PID after a retune. *)
Definition retune_first (pre : list bytes) (p : bytes) : bool :=
  let n := S (length pre) in
  negb (is_unsync p) && negb (pid_of p =? null_pid)
  && negb (bool_decide (crossed n = []))
  && negb (existsb (carries (pid_of p)) (drop (segment_start n) pre)).
End retune.

(** ** Continuity errors

    A mismatch at an excluded position is recorded as excused, not as an error. *)
Section errors.
Context (excluded_cc : gset Z) (bs : list Z).

Definition excluded (pre : list bytes) (p : bytes) : bool :=
  bool_decide (lenZ pre ∈ excluded_cc) || retune_first bs pre p.
Definition cc_error (pre : list bytes) (p : bytes) : bool :=
  is_mark Mismatch pre p && negb (excluded pre p).
Definition cc_excused (pre : list bytes) (p : bytes) : bool :=
  is_mark Mismatch pre p && excluded pre p.
End errors.
