(* ===== verification/TsTheory.v ===== *)
(** * ts-check implements its specification

    [scan_refines] relates a scan state to the list of packets processed so far:
    every field is the specification's list or count.  Each packet preserves it
    ([step_refines]), so the scan of a whole capture satisfies it. *)

From stdpp Require Import sorting.
From S2P Require Import Prelude PyStr Codec TsCheck TsSpec.

Local Open Scope Z_scope.

(** ** The retune state *)

Definition valid_boundaries (bs : list Z) : Prop :=
  StronglySorted Z.lt bs ∧ Forall (λ c, 0 < c) bs.

Section retune.
Context (bs : list Z).

Lemma sorted_split n :
  StronglySorted Z.lt bs →
  ∃ before later, bs = before ++ later ∧ Forall (λ c, c < Z.of_nat n) before
                  ∧ Forall (λ c, Z.of_nat n ≤ c) later.
Proof.
  induction 1 as [|c l Hl (before & later & -> & ? & ?) Hc]; [by exists [], []|].
  destruct (decide (c < Z.of_nat n)).
  - exists (c :: before), later. split_and!; [done|by constructor|done].
  - exists [], (c :: before ++ later). split_and!; [done..|].
    constructor; [lia|]. eapply Forall_impl; [apply Hc|]. cbn; lia.
Qed.

Lemma crossed_app n before later :
  bs = before ++ later → Forall (λ c, c < Z.of_nat n) before →
  crossed bs n = before ++ filter (λ c, c < Z.of_nat n) later.
Proof. intros -> ?. unfold crossed. by rewrite filter_app, filter_all. Qed.

(** The next boundary is crossed exactly when the packet at its position is read. *)
Lemma crossed_step n :
  StronglySorted Z.lt bs →
  match bs !! length (crossed bs n) with
  | Some c => if c <=? Z.of_nat n
              then c = Z.of_nat n ∧ crossed bs (S n) = crossed bs n ++ [c]
              else crossed bs (S n) = crossed bs n
  | None => crossed bs (S n) = crossed bs n
  end.
Proof.
  intros Hbs. destruct (sorted_split n Hbs) as (before & later & E & Hb & Hl).
  assert (crossed bs n = before) as Hn.
  { rewrite (crossed_app n before later) by done. rewrite filter_none, app_nil_r; [done|].
    eapply Forall_impl; [done|]. cbn; lia. }
  assert (crossed bs (S n) = before ++ filter (λ c, c < Z.of_nat (S n)) later) as HS.
  { apply crossed_app; [done|]. eapply Forall_impl; [done|]. cbn; lia. }
  rewrite Hn, HS, E. destruct later as [|c later].
  { rewrite filter_nil, !app_nil_r. by rewrite lookup_ge_None_2 by lia. }
  rewrite list_lookup_middle by done.
  rewrite E, StronglySorted_app in Hbs. destruct Hbs as (_ & _ & Hs%StronglySorted_inv).
  destruct Hs as [_ Hs]. apply Forall_cons in Hl as [Hc _]. rewrite filter_cons.
  rewrite (filter_none _ later) by (eapply Forall_impl; [apply Hs|]; cbn; lia).
  destruct (Z.leb_spec c (Z.of_nat n)).
  - assert (c = Z.of_nat n) as -> by lia. by rewrite decide_True by lia.
  - by rewrite decide_False, app_nil_r by lia.
Qed.

Record retune_refines (n : nat) (ps : list bytes) (s : scan) : Prop := {
  rr_index : retune_boundary_index s = length (crossed bs n);
  rr_segment : retune_segment s = lenZ (crossed bs n);
  rr_pids pid : pid ∈ retune_segment_pids s ↔
    pid ≠ null_pid ∧ existsb (carries pid) (drop (segment_start bs n) ps) = true;
  rr_excluded : ∀ z, z ∈ retune_excluded_cc s ↔ z ∈ positions (retune_first bs) ps;
}.

(** Reading packet [length ps]: the boundary test. *)
Lemma retune_step_refines ps s :
  StronglySorted Z.lt bs → retune_refines (length ps) ps s →
  retune_refines (S (length ps)) ps (retune_step bs (lenZ ps) s).
Proof.
  intros Hbs [Hi Hs Hp He]. pose proof (crossed_step (length ps) Hbs) as H.
  unfold retune_step. rewrite Hi. fold (lenZ ps) in H.
  destruct (bs !! length (crossed bs (length ps))) as [c|].
  - destruct (c <=? lenZ ps); cbn.
    + destruct H as [-> H]. constructor; cbn; [| | |done].
      * rewrite H, length_app. cbn. lia.
      * rewrite Hs, H. unfold lenZ. rewrite length_app. cbn. lia.
      * intros pid. unfold segment_start. rewrite H, last_snoc. cbn.
        unfold lenZ. rewrite Nat2Z.id, drop_all. set_solver.
    + constructor; unfold segment_start in *; rewrite ?H; done.
  - constructor; unfold segment_start in *; rewrite ?H; done.
Qed.

Lemma segment_start_le n : (segment_start bs (S n) ≤ n)%nat.
Proof.
  unfold segment_start. destruct (last (crossed bs (S n))) as [c|] eqn:E; cbn; [|lia].
  apply last_Some_elem_of in E. unfold crossed in E. rewrite list_elem_of_filter in E. lia.
Qed.

Lemma carried_snoc pid ps p :
  existsb (carries pid) (drop (segment_start bs (S (length ps))) (ps ++ [p]))
  = existsb (carries pid) (drop (segment_start bs (S (length ps))) ps) || carries pid p.
Proof.
  rewrite drop_app_le by apply segment_start_le. rewrite existsb_app. cbn.
  by rewrite orb_false_r.
Qed.

Lemma retune_refines_unsync ps p s :
  is_unsync p = true → retune_refines (S (length ps)) ps s →
  retune_refines (S (length ps)) (ps ++ [p]) s.
Proof.
  intros Hp [Hi Hs Hpid He]. constructor; [done..| |].
  - intros pid. rewrite Hpid, carried_snoc. unfold carries at 3. rewrite Hp. cbn.
    by rewrite orb_false_r.
  - intros z. rewrite He, positions_snoc. unfold retune_first at 3. rewrite Hp. cbn.
    by rewrite app_nil_r.
Qed.

(** Noting the PID records exactly the first packets after a retune. *)
Lemma note_pid_refines ps p s :
  is_unsync p = false → retune_refines (S (length ps)) ps s →
  retune_refines (S (length ps)) (ps ++ [p]) (note_pid (lenZ ps) (pid_of p) s).
Proof.
  intros Hp [Hi Hs Hpid He]. unfold note_pid.
  set (first := negb (pid_of p =? null_pid)
                && negb (bool_decide (pid_of p ∈ retune_segment_pids s))).
  assert ((0 <? retune_segment s) && first = retune_first bs ps p) as Hfirst.
  { unfold retune_first, first. rewrite Hp, Hs. cbn.
    assert ((0 <? lenZ (crossed bs (S (length ps)))) =
            negb (bool_decide (crossed bs (S (length ps)) = []))) as ->.
    { unfold lenZ. destruct (crossed bs (S (length ps))); cbn; [done|].
      by apply Z.ltb_lt. }
    destruct (Z.eqb_spec (pid_of p) null_pid); cbn; [by rewrite andb_false_r|].
    f_equal. f_equal. apply bool_eq_iff. rewrite bool_decide_eq_true, Hpid. tauto. }
  assert (∀ pid, pid ∈ retune_segment_pids
    (if negb (pid_of p =? null_pid)
     then s <| retune_segment_pids := {[pid_of p]} ∪ retune_segment_pids s |> else s) ↔
    pid ≠ null_pid ∧ existsb (carries pid)
      (drop (segment_start bs (S (length ps))) (ps ++ [p])) = true) as Hpids.
  { intros pid. rewrite carried_snoc, orb_true_iff. unfold carries at 2. rewrite Hp. cbn.
    rewrite Z.eqb_eq. destruct (Z.eqb_spec (pid_of p) null_pid) as [E|E]; cbn.
    - rewrite Hpid, E. naive_solver.
    - rewrite elem_of_union, elem_of_singleton, Hpid. naive_solver. }
  cbv zeta. fold first.
  assert (∀ z, z ∈ (if retune_first bs ps p then {[lenZ ps]} ∪ retune_excluded_cc s
                    else retune_excluded_cc s) ↔
               z ∈ positions (retune_first bs) (ps ++ [p])) as Hex.
  { intros z. rewrite positions_snoc. destruct (retune_first bs ps p).
    - rewrite elem_of_union, elem_of_singleton, elem_of_app, list_elem_of_singleton, He.
      tauto.
    - by rewrite app_nil_r, He. }
  destruct (negb (pid_of p =? null_pid)) eqn:En; cbn in Hpids;
    cbn [retune_segment] in *.
  - change (retune_segment (s <| retune_segment_pids := _ |>)) with (retune_segment s).
    rewrite Hfirst. destruct (retune_first bs ps p); by constructor.
  - rewrite Hfirst. destruct (retune_first bs ps p); by constructor.
Qed.
End retune.

(** ** The PID table *)

(** What the table holds for a PID after a prefix. *)
Definition summary (pid : Z) (pre : list bytes) : option pid_state :=
  j ← last_accepted pid pre;
  q ← pre !! j;
  match classify q with
  | Accepted h => Some (PidState (counter_of q) (has_payload h) (repeats (take j pre) q h)
                          (epoch (take j pre)) q)
  | _ => None
  end.

Lemma last_accepted_Some pid pre j :
  last_accepted pid pre = Some j → ∃ q, pre !! j = Some q ∧ accepts pid q = true.
Proof.
  unfold last_accepted, indices. intros H%last_Some_elem_of.
  rewrite list_elem_of_filter in H. unfold holds_at in H.
  destruct (pre !! j); naive_solver.
Qed.

Lemma last_accepted_snoc pid pre p :
  last_accepted pid (pre ++ [p])
  = if accepts pid p then Some (length pre) else last_accepted pid pre.
Proof.
  unfold last_accepted. rewrite indices_snoc. destruct (accepts pid p).
  - by rewrite last_snoc.
  - by rewrite app_nil_r.
Qed.

Lemma summary_snoc pid pre p :
  summary pid (pre ++ [p]) =
  match classify p with
  | Accepted h =>
      if pid_of p =? pid
      then Some (PidState (counter_of p) (has_payload h) (repeats pre p h) (epoch pre) p)
      else summary pid pre
  | _ => summary pid pre
  end.
Proof.
  unfold summary at 1. rewrite last_accepted_snoc.
  assert ((j ← last_accepted pid pre; q ← (pre ++ [p]) !! j;
    match classify q with
    | Accepted h => Some (PidState (counter_of q) (has_payload h)
        (repeats (take j (pre ++ [p])) q h) (epoch (take j (pre ++ [p]))) q)
    | _ => None
    end) = summary pid pre) as Hold.
  { unfold summary. destruct (last_accepted pid pre) as [j|] eqn:E; [|done]. cbn.
    apply last_accepted_Some in E as (q & Hq & _). apply lookup_lt_Some in Hq as ?.
    by rewrite lookup_app_l, take_app_le by lia. }
  unfold accepts, is_accepted. destruct (classify p) eqn:Ep; cbn; try apply Hold.
  destruct (pid_of p =? pid); [|apply Hold].
  cbn. rewrite list_lookup_middle by done. cbn. rewrite Ep. by rewrite take_app_length.
Qed.

Lemma counter_mod q d : Z.land (counter_of q + d) 0x0F = (counter_of q + d) `mod` 16.
Proof. change 0x0F with (Z.ones 4). by rewrite Z.land_ones. Qed.

(** The comparison with the table entry is the specification's judgement. *)
Lemma compare_counter_mark ex pre p h s :
  classify p = Accepted h → previous s !! pid_of p = summary (pid_of p) pre →
  untrusted_epoch s = epoch pre →
  compare_counter ex (lenZ pre) (pid_of p) h p s =
  match mark_of pre p with
  | Some Duplicate =>
      s <| duplicate_packet_indices := duplicate_packet_indices s ++ [lenZ pre] |>
  | Some Mismatch =>
      if bool_decide (lenZ pre ∈ ex) || bool_decide (lenZ pre ∈ retune_excluded_cc s)
      then s <| excluded_seen := excluded_seen s ++ [lenZ pre] |>
      else s <| continuity_error_indices := continuity_error_indices s ++ [lenZ pre] |>
  | None => s
  end.
Proof.
  intros Hp Hprev Hepoch. unfold compare_counter, mark_of. rewrite Hprev, Hepoch, Hp.
  unfold summary. destruct (last_accepted (pid_of p) pre) as [j|] eqn:Ej; [|done]. cbn.
  destruct (pre !! j) as [q|] eqn:Eq; [|done]. cbn.
  destruct (classify q) as [| | | |hq]; try done. cbn.
  unfold judge, tolerated. rewrite counter_mod.
  destruct (discontinuity h); [done|].
  destruct (_ && _ && _ && _ && _); [done|].
  by destruct (negb _).
Qed.

Lemma remember_summary pre p h s :
  classify p = Accepted h → previous s !! pid_of p = summary (pid_of p) pre →
  untrusted_epoch s = epoch pre →
  remember (pid_of p) h p s
  = s <| previous := <[pid_of p := PidState (counter_of p) (has_payload h)
                         (repeats pre p h) (epoch pre) p]> (previous s) |>.
Proof.
  intros Hp Hprev Hepoch. unfold remember. rewrite Hprev, Hepoch.
  assert (match summary (pid_of p) pre with
    | Some state => has_payload h && (counter_of p =? ps_counter state)
    | None => false end = repeats pre p h) as ->; [|done].
  unfold summary, repeats. destruct (last_accepted (pid_of p) pre) as [j|] eqn:Ej; [|done].
  apply last_accepted_Some in Ej as (q & Hq & Ha). cbn. rewrite Hq. cbn.
  unfold accepts, is_accepted in Ha. by destruct (classify q).
Qed.

(** ** The scan state implements the specification *)

Section refinement.
Context (ex : gset Z) (bs : list Z) (write_null : bool).

Record counts_refine (ps : list bytes) (s : scan) : Prop := {
  cr_packets : packets s = lenZ ps;
  cr_sync : sync_errors s = lenZ (positions (λ _, is_unsync) ps);
  cr_tei : tei s = lenZ (positions (λ _, is_errored) ps);
  cr_null : null_packet_count s = lenZ (positions (λ _, is_null) ps);
  cr_nulls : null_indices s = if write_null then positions (λ _, is_null) ps else [];
  cr_invalid : invalid_packets s = lenZ (positions (λ _, is_invalid) ps);
  cr_invalids : invalid_packet_indices s = positions (λ _, is_invalid) ps;
  cr_duplicates : duplicate_packet_indices s = positions (is_mark Duplicate) ps;
  cr_errors : continuity_error_indices s = positions (cc_error ex bs) ps;
  cr_excused : excluded_seen s = positions (cc_excused ex bs) ps;
  cr_epoch : untrusted_epoch s = epoch ps;
  cr_previous pid : previous s !! pid = summary pid ps;
}.

(** [s'] differs from [s] in the retune bookkeeping only. *)
Definition same_counts (s s' : scan) : Prop :=
  ∃ i n pids exs, s' = s <| retune_boundary_index := i |> <| retune_segment := n |>
                         <| retune_segment_pids := pids |> <| retune_excluded_cc := exs |>.

Lemma same_counts_refine ps s s' :
  same_counts s s' → counts_refine ps s → counts_refine ps s'.
Proof. intros (?&?&?&?&->) []. by constructor. Qed.

Lemma same_counts_intro s s' :
  s' = s <| retune_boundary_index := retune_boundary_index s' |>
         <| retune_segment := retune_segment s' |>
         <| retune_segment_pids := retune_segment_pids s' |>
         <| retune_excluded_cc := retune_excluded_cc s' |> →
  same_counts s s'.
Proof. intros ->. do 4 eexists; reflexivity. Qed.

Lemma retune_step_same i s : same_counts s (retune_step bs i s).
Proof.
  apply same_counts_intro. unfold retune_step. destruct s; cbn.
  destruct (_ !! _); [|done]. by destruct (_ <=? _).
Qed.

Lemma note_pid_same i pid s : same_counts s (note_pid i pid s).
Proof.
  apply same_counts_intro. unfold note_pid. destruct s; cbn.
  destruct (negb _); cbn; by destruct (_ && _).
Qed.

Lemma same_counts_trans s1 s2 s3 :
  same_counts s1 s2 → same_counts s2 s3 → same_counts s1 s3.
Proof. intros (?&?&?&?&->) (?&?&?&?&->). do 4 eexists; reflexivity. Qed.

Lemma flags p v :
  classify p = v →
  (is_unsync p = match v with Unsync => true | _ => false end) ∧
  (is_errored p = match v with Errored => true | _ => false end) ∧
  (is_null p = match v with Null => true | _ => false end) ∧
  (is_invalid p = match v with Invalid => true | _ => false end) ∧
  (untrusted p = match v with Null | Accepted _ => false | _ => true end) ∧
  ((∀ h, v ≠ Accepted h) → ∀ pre,
    is_mark Duplicate pre p = false ∧ cc_error ex bs pre p = false
    ∧ cc_excused ex bs pre p = false).
Proof.
  intros Hp. unfold untrusted, is_unsync, is_errored, is_null, is_invalid,
    cc_error, cc_excused, is_mark, mark_of.
  rewrite Hp. destruct v; naive_solver.
Qed.

Lemma lenZ_snoc {A} (l : list A) x : lenZ (l ++ [x]) = lenZ l + 1.
Proof. unfold lenZ. rewrite length_app. cbn. lia. Qed.

(** Every specification list at a new packet, by the packet's classification. *)
Ltac snoc_spec Hp ps :=
  let E1 := fresh in let E2 := fresh in let E3 := fresh in
  let E4 := fresh in let E5 := fresh in let E6 := fresh in
  let E7 := fresh in let E8 := fresh in let E9 := fresh in
  destruct (flags _ _ Hp) as (E1 & E2 & E3 & E4 & E5 & E6);
  constructor; cbn; try intros pid; unfold epoch in *;
  rewrite ?positions_snoc, ?summary_snoc, ?E1, ?E2, ?E3, ?E4, ?E5, ?Hp;
  try (destruct (E6 ltac:(done) ps) as (E7 & E8 & E9); rewrite ?E7, ?E8, ?E9);
  rewrite ?app_nil_r, ?lenZ_snoc; try congruence.

Lemma refines_unsync ps p s :
  classify p = Unsync → counts_refine ps s →
  counts_refine (ps ++ [p])
    (s <| packets := lenZ ps + 1 |> <| sync_errors := sync_errors s + 1 |>
       <| untrusted_epoch := untrusted_epoch s + 1 |>).
Proof. intros Hp []. snoc_spec Hp ps. Qed.

Lemma refines_errored ps p s :
  classify p = Errored → counts_refine ps s →
  counts_refine (ps ++ [p])
    (s <| packets := lenZ ps + 1 |> <| tei := tei s + 1 |>
       <| untrusted_epoch := untrusted_epoch s + 1 |>).
Proof. intros Hp []. snoc_spec Hp ps. Qed.

Lemma refines_null ps p s :
  classify p = Null → counts_refine ps s →
  counts_refine (ps ++ [p])
    (s <| packets := lenZ ps + 1 |>
       <| null_packet_count := null_packet_count s + 1 |>
       <| null_indices := null_indices s ++ (if write_null then [lenZ ps] else []) |>).
Proof. intros Hp []. snoc_spec Hp ps. rewrite cr_nulls0. by destruct write_null. Qed.

Lemma refines_invalid ps p s :
  classify p = Invalid → counts_refine ps s →
  counts_refine (ps ++ [p]) (mark_invalid (lenZ ps) (s <| packets := lenZ ps + 1 |>)).
Proof. intros Hp []. snoc_spec Hp ps. Qed.

Lemma refines_accepted ps p h s :
  classify p = Accepted h → counts_refine ps s →
  (lenZ ps ∈ retune_excluded_cc s ↔ retune_first bs ps p = true) →
  counts_refine (ps ++ [p])
    (let s := s <| packets := lenZ ps + 1 |> in
     remember (pid_of p) h p (compare_counter ex (lenZ ps) (pid_of p) h p s)).
Proof.
  intros Hp [] Hr. cbv zeta.
  rewrite (compare_counter_mark ex ps) by (cbn; auto).
  assert (bool_decide (lenZ ps ∈ retune_excluded_cc s) = retune_first bs ps p) as Hr'.
  { apply bool_eq_iff. by rewrite bool_decide_eq_true. }
  change (retune_excluded_cc (s <| packets := _ |>)) with (retune_excluded_cc s).
  rewrite Hr'. fold (excluded ex bs ps p).
  rewrite (remember_summary ps) by
    (try (destruct (mark_of ps p) as [[]|], (excluded ex bs ps p)); cbn; auto).
  assert (is_mark Duplicate ps p = match mark_of ps p with Some Duplicate => true | _ => false end
    ∧ cc_error ex bs ps p = match mark_of ps p with
        Some Mismatch => negb (excluded ex bs ps p) | _ => false end
    ∧ cc_excused ex bs ps p = match mark_of ps p with
        Some Mismatch => excluded ex bs ps p | _ => false end) as (M1 & M2 & M3).
  { unfold cc_error, cc_excused, is_mark. by destruct (mark_of ps p) as [[]|]. }
  destruct (mark_of ps p) as [[]|] eqn:Em, (excluded ex bs ps p) eqn:Ee;
    snoc_spec Hp ps; rewrite ?M1, ?M2, ?M3; cbn; rewrite ?app_nil_r;
    try congruence.
  all: destruct (Z.eqb_spec (pid_of p) pid) as [->|];
    [by rewrite lookup_insert_eq | by rewrite lookup_insert_ne].
Qed.
End refinement.

(** ** One packet, then the whole capture *)

Section whole.
Context (ex : gset Z) (bs : list Z) (write_null : bool).

(** The state after the packets [ps]. *)
Record scan_refines (ps : list bytes) (s : scan) : Prop := {
  sr_counts : counts_refine ex bs write_null ps s;
  sr_retune : retune_refines bs (length ps) ps s;
}.

Lemma init_refines : Forall (λ c, 0 < c) bs → scan_refines [] init_scan.
Proof.
  intros Hbs. assert (crossed bs 0 = []) as H0.
  { apply filter_none. eapply Forall_impl; [done|]. cbn; lia. }
  constructor.
  - constructor; try done. by destruct write_null.
  - constructor; cbn; unfold segment_start; rewrite ?H0; try done.
    + intros pid. rewrite drop_nil. cbn. split; [set_solver|naive_solver].
    + intros z. cbn. set_solver.
Qed.

(** The retune bookkeeping does not read the counters. *)
Lemma retune_refines_upd n ps s s' :
  retune_boundary_index s' = retune_boundary_index s →
  retune_segment s' = retune_segment s →
  retune_segment_pids s' = retune_segment_pids s →
  retune_excluded_cc s' = retune_excluded_cc s →
  retune_refines bs n ps s → retune_refines bs n ps s'.
Proof. intros E1 E2 E3 E4 []. constructor; by rewrite ?E1, ?E2, ?E3, ?E4. Qed.

Lemma remember_retune pid h p i s :
  let s' := remember pid h p (compare_counter ex i pid h p s) in
  retune_boundary_index s' = retune_boundary_index s ∧
  retune_segment s' = retune_segment s ∧
  retune_segment_pids s' = retune_segment_pids s ∧
  retune_excluded_cc s' = retune_excluded_cc s.
Proof.
  cbv zeta. unfold remember. cbn. unfold compare_counter.
  repeat case_match; done.
Qed.

(** A packet without the sync byte. *)
Lemma step_refines_unsync ps p s : valid_boundaries bs → scan_refines ps s →
  negb (at_ p 0 =? 0x47) = true → scan_refines (ps ++ [p]) (step ex bs write_null s p).
Proof.
  intros [Hsorted _] [Hc Hr] E0.
  assert (packets s = lenZ ps) as Hn by apply Hc.
  assert (classify p = Unsync) as Hp by (unfold classify; by rewrite E0).
  unfold step. rewrite Hn, E0. cbv zeta. set (s2 := s <| packets := _ |> <| sync_errors := _ |>).
  destruct (retune_step_same bs (lenZ ps) s2) as (a & n & c & d & Hs3).
  assert (retune_refines bs (S (length ps)) (ps ++ [p]) (retune_step bs (lenZ ps) s2)) as Hr3.
  { apply retune_refines_unsync; [unfold is_unsync; by rewrite Hp|].
    apply retune_step_refines; [done|]. by eapply retune_refines_upd; [..|apply Hr]. }
  split; [|rewrite length_app, Nat.add_1_r; by eapply retune_refines_upd; [..|apply Hr3]].
  rewrite Hs3.
  eapply same_counts_refine; [|apply (refines_unsync _ _ _ _ _ _ Hp Hc)].
  do 4 eexists; reflexivity.
Qed.

(** The retune bookkeeping of a synchronised packet changes no counter; the packet is the
    first of its PID in the segment exactly when its index is then excluded. *)
Lemma note_packet ps p s : valid_boundaries bs → scan_refines ps s → is_unsync p = false →
  ∃ t, note_pid (lenZ ps) (pid_of p) (retune_step bs (lenZ ps) (s <| packets := lenZ ps + 1 |>))
         = t <| packets := lenZ ps + 1 |>
    ∧ counts_refine ex bs write_null ps t
    ∧ retune_refines bs (length (ps ++ [p])) (ps ++ [p]) (t <| packets := lenZ ps + 1 |>)
    ∧ (lenZ ps ∈ retune_excluded_cc t ↔ retune_first bs ps p = true).
Proof.
  intros [Hsorted _] [Hc Hr] Hsync. set (s1 := s <| packets := _ |>).
  set (s2 := retune_step bs (lenZ ps) s1).
  assert (retune_refines bs (S (length ps)) ps s2) as Hr2.
  { apply retune_step_refines; [done|]. by eapply retune_refines_upd; [..|apply Hr]. }
  pose proof (note_pid_refines bs ps p s2 Hsync Hr2) as Hr3.
  destruct (same_counts_trans _ _ _ (retune_step_same bs (lenZ ps) s1)
              (note_pid_same (lenZ ps) (pid_of p) s2)) as (a & n & c & d & Hs3).
  set (t := s <| retune_boundary_index := a |> <| retune_segment := n |>
              <| retune_segment_pids := c |> <| retune_excluded_cc := d |>).
  assert (note_pid (lenZ ps) (pid_of p) s2 = t <| packets := lenZ ps + 1 |>) as Ht by exact Hs3.
  exists t. rewrite Ht in Hr3. split; [done|].
  split; [eapply same_counts_refine; [|apply Hc]; do 4 eexists; reflexivity|].
  split; [by rewrite length_app, Nat.add_1_r|].
  rewrite <- (positions_last (retune_first bs) ps p), <- (rr_excluded _ _ _ _ Hr3). done.
Qed.

Lemma step_refines ps p s :
  valid_boundaries bs → scan_refines ps s →
  scan_refines (ps ++ [p]) (step ex bs write_null s p).
Proof.
  intros Hbs Hs. destruct (negb (at_ p 0 =? 0x47)) eqn:E0; [by apply step_refines_unsync|].
  assert (is_unsync p = false) as Hsync by (unfold is_unsync, classify; rewrite E0; by repeat case_match).
  destruct (note_packet ps p s Hbs Hs Hsync) as (t & Ht & Hct & Hr3 & Hex).
  assert (packets s = lenZ ps) as Hn by apply (cr_packets _ _ _ _ _ (sr_counts _ _ Hs)).
  unfold step. rewrite Hn, E0. cbv zeta. rewrite Ht.
  destruct (negb (Z.land (at_ p 1) 0x80 =? 0)) eqn:E1;
    [|destruct (pid_of p =? null_pid) eqn:E2; [|destruct (adaptation_header p) as [h|] eqn:E3]].
  - assert (classify p = Errored) as Hp by (unfold classify; by rewrite E0, E1).
    split; [|by eapply retune_refines_upd; [..|apply Hr3]].
    apply (refines_errored ex bs write_null ps p t Hp Hct).
  - assert (classify p = Null) as Hp by (unfold classify; by rewrite E0, E1, E2).
    split; [|destruct write_null; by eapply retune_refines_upd; [..|apply Hr3]].
    pose proof (refines_null ex bs write_null ps p t Hp Hct) as H.
    destruct write_null; [done|]. by rewrite app_nil_r in H.
  - assert (classify p = Accepted h) as Hp by (unfold classify; by rewrite E0, E1, E2, E3).
    split; [apply (refines_accepted ex bs write_null ps p h t Hp Hct Hex)|].
    destruct (remember_retune (pid_of p) h p (lenZ ps) (t <| packets := lenZ ps + 1 |>)) as (?&?&?&?).
    by eapply retune_refines_upd; [..|apply Hr3].
  - assert (classify p = Invalid) as Hp by (unfold classify; by rewrite E0, E1, E2, E3).
    split; [|by eapply retune_refines_upd; [..|apply Hr3]].
    apply (refines_invalid ex bs write_null ps p t Hp Hct).
Qed.

(** The state after folding [step] over the packets. *)
Lemma fold_refines ps :
  valid_boundaries bs → scan_refines ps (foldl (step ex bs write_null) init_scan ps).
Proof.
  intros Hbs. induction ps as [|p ps IH] using rev_ind; [by apply init_refines, Hbs|].
  rewrite foldl_app. cbn. by apply step_refines.
Qed.
End whole.
