(* ===== verification/TsRead.v ===== *)
(** * The chunked reader of ts-check

    Whatever the chunk size, the read loop processes exactly the 188-byte packets of
    the file and terminates; bytes after the last whole packet are only counted. *)

From S2P Require Import Prelude PyStr Codec TsCheck.

Local Open Scope nat_scope.

(** All packets of a file. *)
Definition packets_of (data : bytes) : list bytes := frames (length data) data.
Arguments packets_of : simpl never.

Lemma frames_take n data :
  (188 | n) → n ≤ length data → frames n (take n data) = frames n data.
Proof.
  intros [m ->] Hle. unfold frames. rewrite Nat.div_mul by lia.
  apply list_fmap_ext. intros i k Hk%lookup_seq.
  rewrite skipn_firstn_comm, take_take. f_equal. lia.
Qed.

Lemma frames_app a d :
  (188 | length a) → packets_of (a ++ d) = packets_of a ++ packets_of d.
Proof.
  intros [m Hm]. unfold packets_of, frames. rewrite length_app, Hm.
  replace (m * 188 + length d) with (length d + m * 188) by lia.
  rewrite Nat.div_add, Nat.div_mul by lia. rewrite (Nat.add_comm _ m), seq_app, fmap_app.
  f_equal.
  - apply list_fmap_ext. intros i k Hk%lookup_seq.
    rewrite drop_app_le, take_app_le; [done|rewrite ?length_drop; lia..].
  - rewrite Nat.add_0_l, <- (Nat.add_0_r m), <- fmap_add_seq, <- list_fmap_compose.
    apply list_fmap_ext. intros i k Hk%lookup_seq. cbn.
    rewrite drop_app_ge by lia. do 2 f_equal. lia.
Qed.

Lemma packets_of_short d : length d < 188 → packets_of d = [].
Proof. intros H. unfold packets_of, frames. by rewrite Nat.div_small. Qed.

Lemma length_packets_of d : length (packets_of d) = length d / 188.
Proof. unfold packets_of, frames. by rewrite length_fmap, length_seq. Qed.

(** Packet [k] of a file is the slice [data[188k : 188k + 188]], whole. *)
Lemma packets_of_lookup d k p :
  packets_of d !! k = Some p ↔ k < length d / 188 ∧ p = take 188 (drop (188 * k) d).
Proof.
  unfold packets_of, frames. rewrite list_lookup_fmap, fmap_Some.
  setoid_rewrite lookup_seq. naive_solver.
Qed.

Lemma packets_of_length d p : p ∈ packets_of d → length p = 188.
Proof.
  intros (k & [Hk ->]%packets_of_lookup)%list_elem_of_lookup.
  rewrite length_take, length_drop.
  pose proof (Nat.Div0.mul_div_le (length d) 188). lia.
Qed.

Section loop.
Context (ex : gset Z) (bs : list Z) (write_null : bool).

(** The byte count is carried along untouched by the packet loop. *)
Lemma retune_step_total n i s :
  retune_step bs i (s <| total_bytes := n |>) = (retune_step bs i s) <| total_bytes := n |>.
Proof. unfold retune_step. cbn. destruct (_ !! _); [|done]. by destruct (_ <=? _)%Z. Qed.

Lemma note_pid_total n i pid s :
  note_pid i pid (s <| total_bytes := n |>) = (note_pid i pid s) <| total_bytes := n |>.
Proof. unfold note_pid. cbn. destruct (negb (pid =? _)%Z); cbn; by destruct (_ && _). Qed.

Lemma compare_counter_total n i pid h p s :
  compare_counter ex i pid h p (s <| total_bytes := n |>)
  = (compare_counter ex i pid h p s) <| total_bytes := n |>.
Proof.
  unfold compare_counter. cbn. destruct (_ !! _); [|done].
  destruct (discontinuity h); [done|]. destruct (_ && _); [done|].
  destruct (negb _); [|done]. by destruct (_ || _).
Qed.

Lemma step_total_bytes n s p :
  step ex bs write_null (s <| total_bytes := n |>) p
  = (step ex bs write_null s p) <| total_bytes := n |>.
Proof.
  unfold step. cbv zeta.
  assert (∀ s', (if negb (at_ p 0 =? 0x47)%Z
      then s' <| total_bytes := n |> <| sync_errors := sync_errors s' + 1 |>
      else s' <| total_bytes := n |>)
    = (if negb (at_ p 0 =? 0x47)%Z then s' <| sync_errors := sync_errors s' + 1 |>
       else s') <| total_bytes := n |>)%Z as Hif by (by destruct (negb _)).
  change (s <| total_bytes := n |> <| packets := packets (s <| total_bytes := n |>) + 1 |>)%Z
    with (s <| packets := packets s + 1 |> <| total_bytes := n |>)%Z.
  change (packets (s <| total_bytes := n |>)) with (packets s).
  change (sync_errors (?s' <| total_bytes := n |>)) with (sync_errors s').
  rewrite Hif, retune_step_total, note_pid_total.
  destruct (negb _); [done|]. destruct (negb _); [done|].
  destruct (_ =? null_pid)%Z; [by destruct write_null|].
  destruct (adaptation_header p); [|done].
  by rewrite compare_counter_total.
Qed.

Lemma fold_total_bytes n s ps :
  foldl (step ex bs write_null) (s <| total_bytes := n |>) ps
  = (foldl (step ex bs write_null) s ps) <| total_bytes := n |>.
Proof.
  revert s; induction ps as [|p ps IH]; intros s; cbn; [done|].
  by rewrite step_total_bytes, IH.
Qed.

(** The loop, from a state whose [pending] bytes are an incomplete packet. *)
Lemma read_loop_spec fuel c src pending s :
  (0 < c)%Z → length src < fuel → length pending < 188 →
  read_loop ex bs write_null fuel c src pending s
  = Some ((foldl (step ex bs write_null) s (packets_of (pending ++ src)))
            <| total_bytes := (total_bytes s + lenZ src)%Z |>).
Proof.
  intros Hc. revert src pending s. induction fuel as [|fuel IH]; intros src pending s Hf Hp; [lia|].
  cbn [read_loop]. destruct src as [|x src'].
  { cbn [takeZ]. rewrite app_nil_r, packets_of_short by done. cbn [foldl].
    change (lenZ []) with 0%Z. rewrite Z.add_0_r. by destruct s. }
  set (src := x :: src') in *. set (chunk := takeZ c src).
  assert (src = chunk ++ dropZ c src) as Hsrc.
  { unfold chunk. by rewrite takeZ_take, dropZ_drop, take_drop. }
  assert (0 < length chunk) as Hchunk.
  { unfold chunk, src. rewrite takeZ_take, length_take. cbn. lia. }
  destruct chunk as [|y chunk'] eqn:Ec; [cbn in Hchunk; lia|]. rewrite <- Ec in *. clear Ec y chunk'.
  set (data := pending ++ chunk).
  pose proof (Nat.div_mod_eq (length data) 188) as Hdm.
  pose proof (Nat.mod_upper_bound (length data) 188) as Hm.
  set (n := length data - length data `mod` 188).
  assert (n = length data / 188 * 188) as Hn by (unfold n; lia).
  rewrite IH.
  - f_equal.
    assert (packets_of (pending ++ src) =
      frames n data ++ packets_of (drop n data ++ dropZ c src)) as ->.
    { rewrite Hsrc at 1. rewrite app_assoc. fold data.
      rewrite <- (take_drop n data) at 1. rewrite <- app_assoc, frames_app.
      - f_equal. unfold packets_of. rewrite length_take, Nat.min_l by lia.
        apply frames_take; [by exists (length data / 188)|lia].
      - exists (length data / 188). rewrite length_take. lia. }
    rewrite foldl_app, !fold_total_bytes.
    replace (total_bytes s + lenZ src)%Z
      with (total_bytes s + lenZ chunk + lenZ (dropZ c src))%Z; [reflexivity|].
    rewrite Hsrc at 2. unfold lenZ. rewrite length_app. lia.
  - rewrite Hsrc, length_app in Hf. lia.
  - rewrite length_drop. lia.
Qed.
End loop.
