(* ===== verification/TsProps.v ===== *)
(** * Properties of ts-check

    The theorems a user of the report relies on, each for the whole of [inspect] or
    [main], and concrete streams on which their hypotheses hold. *)

From stdpp Require Import sorting.
From S2P Require Import Prelude PyStr Codec TsCheck TsSpec TsTheory TsRead.

Local Open Scope Z_scope.

(** ** Sample streams for the witnesses *)

(** A packet from its first bytes, padded with zeros. *)
Definition sample_packet (first : bytes) : bytes := first ++ replicate (188 - length first) x00.
(** PID 0x100, payload only, the given counter byte. *)
Definition sample_payload (flags_counter : byte) : bytes :=
  sample_packet [x47; x01; x00; flags_counter].
Definition sample_null : bytes := sample_packet [x47; x1f; xff; x10].
Definition sample_stream : bytes :=
  sample_payload x10 ++ sample_null ++ sample_payload x11 ++ sample_payload x11
  ++ sample_payload x13.

(** ** Option checks *)

Lemma sorted_strict (l : list Z) :
  StronglySorted Z.le l → NoDup l → StronglySorted Z.lt l.
Proof.
  induction 1 as [|x l Hl IH Hx]; intros Hnd; [constructor|].
  apply NoDup_cons in Hnd as [Hnx Hnd]. constructor; [auto|].
  apply Forall_forall. intros y Hy. rewrite Forall_forall in Hx. specialize (Hx y Hy).
  assert (x ≠ y) by congruence. lia.
Qed.

Lemma strict_sorted_nodup (l : list Z) : StronglySorted Z.lt l → NoDup l.
Proof.
  induction 1 as [|x l Hl IH Hx]; [constructor|]. constructor; [|done].
  rewrite Forall_forall in Hx. intros H. specialize (Hx x H). lia.
Qed.

#[export] Instance Z_le_total : Total Z.le.
Proof. intros x y. lia. Qed.

Lemma sorted_set_sorted (l : list Z) :
  StronglySorted Z.lt (merge_sort Z.le (elements (list_to_set (C := gset Z) l))).
Proof.
  apply sorted_strict.
  - apply (StronglySorted_merge_sort _). 
  - rewrite merge_sort_Permutation. apply NoDup_elements.
Qed.

Lemma boundaries_rejected_spec bs : boundaries_rejected bs = false ↔ valid_boundaries bs.
Proof.
  unfold boundaries_rejected, valid_boundaries.
  rewrite orb_false_iff, negb_false_iff, bool_decide_eq_true, existsb_false, Forall_forall.
  split.
  - intros [Hpos Hs]. split; [rewrite Hs; apply sorted_set_sorted|].
    intros x Hx. specialize (Hpos x Hx). bool_prop. lia.
  - intros [Hs Hpos]. split.
    + intros x Hx. specialize (Hpos x Hx). by apply Z.leb_gt.
    + apply (StronglySorted_unique Z.le).
      * clear Hpos. induction Hs as [|x l ? IH Hx]; [constructor|]. constructor; [done|].
        eapply Forall_impl; [apply Hx|]. cbn; lia.
      * apply (StronglySorted_merge_sort _).
      * rewrite merge_sort_Permutation. symmetry. apply elements_list_to_set, strict_sorted_nodup, Hs.
Qed.

(** ** The scan of a capture *)

(** C17. Reading in 770048-byte chunks is equivalent to one pass over the whole
    packets of the file: the loop returns, the state is the fold of [step] over
    [packets_of], and every byte read is counted. *)
Theorem inspect_scan_whole (ex : gset Z) (bs : list Z) (wn : bool) (data : bytes) :
  inspect_scan ex bs wn data
  = Some ((foldl (step ex bs wn) init_scan (packets_of data))
            <| total_bytes := lenZ data |>).
Proof.
  unfold inspect_scan. rewrite read_loop_spec; [done|done|lia|cbn; lia].
Qed.

Lemma scan_state (ex : gset Z) (bs : list Z) (wn : bool) (data : bytes) :
  valid_boundaries bs →
  ∃ s, inspect_scan ex bs wn data = Some s ∧ total_bytes s = lenZ data
       ∧ scan_refines ex bs wn (packets_of data) s.
Proof.
  intros Hbs. eexists. split; [unfold inspect_scan; rewrite read_loop_spec; [done|done|lia|cbn; lia]|].
  split; [done|]. destruct (fold_refines ex bs wn (packets_of data) Hbs) as [Hc Hr].
  split; [destruct Hc; by constructor|by eapply retune_refines_upd; [..|apply Hr]].
Qed.

(** The report of [inspect], field by field. *)
Definition report_spec (path : str) (data : bytes) (ex : gset Z) (bs : list Z)
    (null_path : option str) (r : report) : Prop :=
  let ps := packets_of data in
  r_file r = path ∧ r_bytes r = lenZ data ∧ r_packets r = lenZ data / 188
  ∧ r_remainder r = lenZ data `mod` 188
  ∧ r_sync_errors r = lenZ (positions (λ _, is_unsync) ps)
  ∧ r_tei r = lenZ (positions (λ _, is_errored) ps)
  ∧ r_invalid_packets r = lenZ (r_invalid_packet_indices r)
  ∧ r_invalid_packet_indices r = positions (λ _, is_invalid) ps
  ∧ r_null_packet_count r = lenZ (positions (λ _, is_null) ps)
  ∧ r_null_packet_indices_file r = null_path
  ∧ r_duplicate_packet_indices r = positions (is_mark Duplicate) ps
  ∧ r_continuity_errors r = lenZ (r_continuity_error_indices r)
  ∧ r_continuity_error_indices r = positions (cc_error ex bs) ps
  ∧ r_excluded_cc_mismatches r = positions (cc_excused ex bs) ps
  ∧ StronglySorted Z.lt (r_excluded_cc_indices r)
  ∧ ∀ z, z ∈ r_excluded_cc_indices r ↔ z ∈ ex ∨ z ∈ positions (retune_first bs) ps.

Lemma inspect_spec path data ex bs null_path :
  valid_boundaries bs →
  ∃ r f, inspect path data ex bs null_path = Some (r, f) ∧ report_spec path data ex bs null_path r.
Proof.
  intros Hbs. unfold inspect.
  destruct (scan_state ex bs (bool_decide (is_Some null_path)) data Hbs)
    as (s & -> & Hb & [[] []]).
  eexists _, _. split; [done|]. unfold report_spec, report_of; cbn -[Z.modulo Z.div].
  rewrite Hb. split_and!; try congruence.
  - rewrite cr_packets. unfold lenZ. by rewrite length_packets_of, Nat2Z.inj_div.
  - apply sorted_strict; [apply (StronglySorted_merge_sort _)|].
    rewrite merge_sort_Permutation. apply NoDup_elements.
  - intros z. rewrite merge_sort_Permutation, elem_of_elements, elem_of_union. by rewrite rr_excluded.
Qed.

(** C3. On valid options [inspect] returns, and its report is exactly the one the
    specification states on the list of packets: the counts, the positions of the
    invalid, duplicate, erroneous and excused packets, and the sorted exclusions. *)
Theorem inspect_refines_spec (path : str) (data : bytes) (ex : gset Z) (bs : list Z)
    (null_path : option str) (Hbs : valid_boundaries bs) :
  ∃ r f, inspect path data ex bs null_path = Some (r, f)
         ∧ report_spec path data ex bs null_path r.
Proof. by apply inspect_spec. Qed.

Lemma sample_boundaries : valid_boundaries [2; 4].
Proof. split; repeat constructor. Qed.

Lemma inspect_refines_spec_witness :
  valid_boundaries [2; 4] ∧
  ∃ r f, inspect (u "a.ts") sample_stream {[0]} [2; 4] None = Some (r, f)
         ∧ report_spec (u "a.ts") sample_stream {[0]} [2; 4] None r.
Proof.
  split; [apply sample_boundaries|].
  apply (inspect_refines_spec (u "a.ts") sample_stream {[0]} [2; 4] None sample_boundaries).
Defined.

(** On the sample: counter 10, null, counter 11, a tolerated duplicate, a gap. *)
Example sample_report :
  (λ s, (packets s, null_packet_count s, duplicate_packet_indices s,
         continuity_error_indices s)) <$> inspect_scan ∅ [] false sample_stream
  = Some (5, 1, [3], [4]).
Proof. vm_compute. reflexivity. Qed.

(** Every packet has one verdict, so the five counts add up. *)
Lemma verdict_count (ps : list bytes) :
  lenZ (positions (λ _, is_unsync) ps) + lenZ (positions (λ _, is_errored) ps)
  + lenZ (positions (λ _, is_null) ps) + lenZ (positions (λ _, is_invalid) ps)
  + lenZ (positions (λ _, is_accepted) ps) = lenZ ps.
Proof.
  induction ps as [|p ps IH] using rev_ind; [done|]. rewrite !positions_snoc.
  unfold lenZ in *. rewrite !length_app. cbn [length].
  assert (∀ f : bytes → bool, length (if f p then [Z.of_nat (length ps)] else []) = Nat.b2n (f p)) as Hb
    by (intros f; by destruct (f p)).
  rewrite !Hb. unfold is_unsync, is_errored, is_null, is_invalid, is_accepted in *.
  destruct (classify p); cbn [Nat.b2n]; lia.
Qed.

Lemma marks_count ex bs (ps : list bytes) :
  lenZ (positions (cc_error ex bs) ps) + lenZ (positions (is_mark Duplicate) ps)
  + lenZ (positions (cc_excused ex bs) ps) ≤ lenZ (positions (λ _, is_accepted) ps).
Proof.
  induction ps as [|p ps IH] using rev_ind; [done|]. rewrite !positions_snoc.
  unfold lenZ in *. rewrite !length_app.
  assert (length (if cc_error ex bs ps p then [Z.of_nat (length ps)] else [])
    + length (if is_mark Duplicate ps p then [Z.of_nat (length ps)] else [])
    + length (if cc_excused ex bs ps p then [Z.of_nat (length ps)] else [])
    <= length (if is_accepted p then [Z.of_nat (length ps)] else []))%nat; [|lia].
  unfold cc_error, cc_excused, is_mark, mark_of, is_accepted.
  destruct (classify p); cbn; try lia.
  destruct (last_accepted _ _); cbn; [|lia]. destruct (ps !! _); cbn; [|lia].
  destruct (classify _); cbn; try lia. destruct (judge _ _ _ _ _ _) as [[]|]; cbn; try lia.
  destruct (excluded _ _ _ _); cbn; lia.
Qed.

(** Accounting: whatever the capture, bytes are whole packets plus the
    remainder, and the packets are the unsynchronised, errored, null and invalid
    ones the report counts plus those whose counter was examined. *)
Theorem report_accounts (path : str) (data : bytes) (ex : gset Z) (bs : list Z)
    (null_path f : option str) (r : report)
    (Hbs : valid_boundaries bs) (Hr : inspect path data ex bs null_path = Some (r, f)) :
  r_bytes r = 188 * r_packets r + r_remainder r ∧ 0 ≤ r_remainder r < 188
  ∧ r_sync_errors r + r_tei r + r_null_packet_count r + r_invalid_packets r
    + lenZ (positions (λ _, is_accepted) (packets_of data)) = r_packets r
  ∧ r_continuity_errors r + lenZ (r_duplicate_packet_indices r)
    + lenZ (r_excluded_cc_mismatches r)
    ≤ lenZ (positions (λ _, is_accepted) (packets_of data)).
Proof.
  destruct (inspect_spec path data ex bs null_path Hbs) as (r' & f' & E & Hs).
  rewrite Hr in E. injection E as <- <-.
  destruct Hs as (_&Hb&Hp&Hrem&Hy&Ht&Hi&Hi'&Hn&_&Hd&Hc&Hc'&Hx&_).
  rewrite Hb, Hp, Hrem, Hy, Ht, Hi, Hi', Hn, Hd, Hc, Hc', Hx.
  pose proof (verdict_count (packets_of data)) as Hv.
  assert (lenZ (packets_of data) = lenZ data / 188) as Hl.
  { unfold lenZ. by rewrite length_packets_of, Nat2Z.inj_div. }
  split_and!; try lia.
  - apply Z.div_mod. lia.
  - apply Z.mod_pos_bound. lia.
  - apply Z.mod_pos_bound. lia.
  - apply marks_count.
Qed.

Lemma report_accounts_witness :
  valid_boundaries [] ∧
  ∃ r f, inspect (u "a.ts") sample_stream ∅ [] None = Some (r, f) ∧
    r_bytes r = 188 * r_packets r + r_remainder r ∧ 0 ≤ r_remainder r < 188
    ∧ r_sync_errors r + r_tei r + r_null_packet_count r + r_invalid_packets r
      + lenZ (positions (λ _, is_accepted) (packets_of sample_stream)) = r_packets r
    ∧ r_continuity_errors r + lenZ (r_duplicate_packet_indices r)
      + lenZ (r_excluded_cc_mismatches r)
      ≤ lenZ (positions (λ _, is_accepted) (packets_of sample_stream)).
Proof.
  assert (valid_boundaries []) as Hbs by (split; constructor). split; [done|].
  destruct (inspect_spec (u "a.ts") sample_stream ∅ [] None Hbs) as (r & f & E & _).
  exists r, f. split; [exact E|].
  apply (report_accounts (u "a.ts") sample_stream ∅ [] None f r Hbs E).
Defined.

(** ** Continuity errors *)

(** The PID's previous accepted packet: position, packet and header. *)
Definition previous_packet (ps : list bytes) (i : nat) (pid : Z) (j : nat) (q : bytes)
    (hq : header) : Prop :=
  (j < i)%nat ∧ ps !! j = Some q ∧ classify q = Accepted hq ∧ pid_of q = pid
  ∧ ∀ k x, (j < k < i)%nat → ps !! k = Some x → accepts pid x = false.

Lemma last_indices_Some {A} (f : list A → A → bool) (ps : list A) j :
  last (indices f ps) = Some j ↔
  (holds_at f ps j = true ∧ (j < length ps)%nat
   ∧ ∀ k, (j < k < length ps)%nat → holds_at f ps k = false).
Proof.
  induction ps as [|p ps IH] using rev_ind.
  { unfold indices. cbn. split; [done|lia]. }
  rewrite indices_snoc, length_app, Nat.add_1_r.
  pose proof (holds_at_last f ps p) as Hl.
  destruct (f ps p).
  - rewrite last_snoc. split.
    + intros [= <-]. split_and!; [done|lia|]. intros k Hk. lia.
    + intros (Hj & Hlt & Hk). destruct (decide (j = length ps)) as [->|]; [done|].
      rewrite Hk in Hl; [done|lia].
  - rewrite app_nil_r, IH. split.
    + intros (Hj & Hlt & Hk). rewrite holds_at_snoc by done. split_and!; [done|lia|].
      intros k Hk'. destruct (decide (k = length ps)) as [->|]; [done|].
      rewrite holds_at_snoc by lia. apply Hk. lia.
    + intros (Hj & Hlt & Hk). destruct (decide (j = length ps)) as [->|]; [congruence|].
      rewrite holds_at_snoc in Hj by lia. split_and!; [done|lia|].
      intros k Hk'. rewrite <- (holds_at_snoc f ps p) by lia. apply Hk. lia.
Qed.

Lemma last_accepted_spec ps i pid j q hq :
  (i <= length ps)%nat → ps !! j = Some q → classify q = Accepted hq →
  last_accepted pid (take i ps) = Some j ↔ previous_packet ps i pid j q hq.
Proof.
  intros Hi Hq Hc. unfold last_accepted, previous_packet. rewrite last_indices_Some.
  rewrite length_take, Nat.min_l by done. unfold holds_at. split.
  - intros (Hj & Hlt & Hk). rewrite lookup_take_lt, Hq in Hj by done.
    unfold accepts in Hj. bool_prop. split_and!; try done.
    intros k x Hk' Hx. specialize (Hk k Hk'). by rewrite lookup_take_lt, Hx in Hk by lia.
  - intros (Hlt & _ & _ & Hpid & Hk). split_and!; [|done|].
    + rewrite lookup_take_lt, Hq by done. unfold accepts, is_accepted.
      rewrite Hc. by apply Z.eqb_eq.
    + intros k Hk'. rewrite lookup_take_lt by lia. destruct (ps !! k) eqn:E; [|done].
      by eapply Hk.
Qed.

Lemma mark_of_Some ps i p m :
  ps !! i = Some p →
  mark_of (take i ps) p = Some m ↔
  ∃ h j q hq, classify p = Accepted h ∧ previous_packet ps i (pid_of p) j q hq
              ∧ judge (take i ps) p h j q hq = Some m.
Proof.
  intros Hp. apply lookup_lt_Some in Hp as Hi. unfold mark_of. split.
  - destruct (classify p) as [| | | |h]; try done. intros H.
    apply bind_Some in H as (j & Hj & H). apply bind_Some in H as (q & Hq & H).
    destruct (classify q) as [| | | |hq] eqn:Ec; try done.
    rewrite lookup_take_Some in Hq. destruct Hq as [Hq Hlt].
    exists h, j, q, hq. split_and!; [done| |done].
    eapply last_accepted_spec; [lia|done..].
  - intros (h & j & q & hq & -> & Hprev & Hj).
    pose proof Hprev as (Hlt & Hq & Hc & _).
    rewrite (proj2 (last_accepted_spec ps i (pid_of p) j q hq ltac:(lia) Hq Hc)) by done.
    cbn. rewrite lookup_take_lt, Hq by done. cbn. by rewrite Hc.
Qed.

(** C9. A continuity error is reported at packet [i] exactly when the packet is
    trusted and not a flagged discontinuity, its PID has a previous trusted packet,
    the counter is not the expected one modulo 16, the packet is not a tolerated
    duplicate, and the position is neither excluded nor first after a retune. *)
Theorem continuity_error_iff (path : str) (data : bytes) (ex : gset Z) (bs : list Z)
    (null_path f : option str) (r : report) (i : nat)
    (Hbs : valid_boundaries bs) (Hr : inspect path data ex bs null_path = Some (r, f)) :
  let ps := packets_of data in
  Z.of_nat i ∈ r_continuity_error_indices r ↔
  ∃ p h j q hq, ps !! i = Some p ∧ classify p = Accepted h
    ∧ previous_packet ps i (pid_of p) j q hq ∧ discontinuity h = false
    ∧ counter_of p ≠ (counter_of q + (if has_payload h then 1 else 0)) `mod` 16
    ∧ tolerated (take i ps) p h j q hq = false
    ∧ (Z.of_nat i ∉ ex) ∧ retune_first bs (take i ps) p = false.
Proof.
  cbv zeta. destruct (inspect_spec path data ex bs null_path Hbs) as (r' & f' & E & Hs).
  rewrite Hr in E. injection E as <- <-.
  destruct Hs as (_&_&_&_&_&_&_&_&_&_&_&_&->&_). rewrite elem_of_positions.
  assert (∀ p, packets_of data !! i = Some p → lenZ (take i (packets_of data)) = Z.of_nat i) as Hlen.
  { intros p Hp%lookup_lt_Some. unfold lenZ. rewrite length_take. lia. }
  split.
  - intros (i' & p & ->%(inj Z.of_nat) & Hp & He). unfold cc_error, is_mark in He.
    destruct (mark_of _ p) as [[]|] eqn:Em; try done. cbn in He.
    unfold excluded in He. bool_prop.
    apply mark_of_Some in Em as (h & j & q & hq & Hc & Hprev & Hj); [|done].
    unfold judge in Hj. destruct (discontinuity h) eqn:?; [done|].
    destruct (tolerated _ _ _ _ _ _) eqn:?; [done|].
    destruct (negb _) eqn:?; [|done]. bool_prop.
    exists p, h, j, q, hq. rewrite (Hlen p Hp) in *. by split_and!.
  - intros (p & h & j & q & hq & Hp & Hc & Hprev & Hd & Hcnt & Htol & Hex & Hrt).
    exists i, p. split_and!; [done|done|]. unfold cc_error, is_mark.
    rewrite (proj2 (mark_of_Some _ i p Mismatch Hp)).
    + unfold excluded. rewrite (Hlen p Hp), Hrt, bool_decide_eq_false_2 by done. done.
    + exists h, j, q, hq. split_and!; [done..|]. unfold judge. rewrite Hd, Htol.
      apply Z.eqb_neq in Hcnt. by rewrite Hcnt.
Qed.

Lemma continuity_error_iff_witness :
  valid_boundaries [] ∧
  ∃ r f, inspect (u "a.ts") sample_stream ∅ [] None = Some (r, f) ∧
    let ps := packets_of sample_stream in
    Z.of_nat 4 ∈ r_continuity_error_indices r ↔
    ∃ p h j q hq, ps !! 4%nat = Some p ∧ classify p = Accepted h
      ∧ previous_packet ps 4 (pid_of p) j q hq ∧ discontinuity h = false
      ∧ counter_of p ≠ (counter_of q + (if has_payload h then 1 else 0)) `mod` 16
      ∧ tolerated (take 4 ps) p h j q hq = false
      ∧ (Z.of_nat 4 ∉ (∅ : gset Z)) ∧ retune_first [] (take 4 ps) p = false.
Proof.
  assert (valid_boundaries []) as Hbs by (split; constructor). split; [done|].
  destruct (inspect_spec (u "a.ts") sample_stream ∅ [] None Hbs) as (r & f & E & _).
  exists r, f. split; [exact E|].
  apply (continuity_error_iff (u "a.ts") sample_stream ∅ [] None f r 4 Hbs E).
Defined.

(** A packet that continues its PID's counter sequence. *)
Definition continues (ps : list bytes) : Prop :=
  ∀ i p h j q hq, ps !! i = Some p → classify p = Accepted h →
    previous_packet ps i (pid_of p) j q hq →
    discontinuity h = true ∨
    counter_of p = (counter_of q + (if has_payload h then 1 else 0)) `mod` 16.

Lemma counter_range p : 0 ≤ counter_of p < 16.
Proof.
  unfold counter_of. change 0x0F with (Z.ones 4). rewrite Z.land_ones by lia.
  by apply Z.mod_pos_bound.
Qed.

(** An executable test for [continues]. *)
Definition continuesb (ps : list bytes) : bool :=
  forallb (λ i,
    match ps !! i with
    | Some p =>
        match classify p, last_accepted (pid_of p) (take i ps) ≫= λ j, ps !! j with
        | Accepted h, Some q =>
            discontinuity h
            || (counter_of p =? (counter_of q + (if has_payload h then 1 else 0)) `mod` 16)
        | _, _ => true
        end
    | None => true
    end) (seq 0 (length ps)).

Lemma continuesb_sound ps : continuesb ps = true → continues ps.
Proof.
  unfold continuesb. rewrite forallb_elem. intros H i p h j q hq Hp Hc Hprev.
  apply lookup_lt_Some in Hp as Hi. specialize (H i ltac:(apply elem_of_seq; lia)).
  pose proof Hprev as (_ & Hq & Hcq & _). rewrite Hp, Hc in H.
  rewrite (proj2 (last_accepted_spec ps i (pid_of p) j q hq ltac:(lia) Hq Hcq) Hprev) in H.
  cbn in H. rewrite Hq in H. apply orb_true_iff in H as [|H%Z.eqb_eq]; auto.
Qed.

Lemma judge_continues pre p h j q hq :
  discontinuity h = true ∨
  counter_of p = (counter_of q + (if has_payload h then 1 else 0)) `mod` 16 →
  judge pre p h j q hq = None.
Proof.
  unfold judge, tolerated. destruct (discontinuity h); [done|]. intros [|Hc]; [done|].
  rewrite Hc at 2. rewrite Z.eqb_refl. cbn. destruct (has_payload h); [|done]. cbn.
  assert (counter_of p ≠ counter_of q) as Hne%Z.eqb_neq.
  { pose proof (counter_range q). rewrite Hc. intros H'.
    pose proof (Z.mod_eq (counter_of q + 1) 16). lia. }
  by rewrite Hne.
Qed.

Lemma positions_false {A} (ps : list A) : positions (λ _ _, false) ps = [].
Proof. induction ps using rev_ind; [done|]. by rewrite positions_snoc, app_nil_r. Qed.

(** A capture whose packets are null or trusted and continue their PID's
    counter is clean: with any exclusions and retunes, the report has no sync,
    transport, packet or continuity error, no excused mismatch and no duplicate. *)
Theorem clean_capture (path : str) (data : bytes) (ex : gset Z) (bs : list Z)
    (null_path : option str) (Hbs : valid_boundaries bs)
    (Hok : Forall (λ p, (is_null p || is_accepted p) = true) (packets_of data))
    (Hcc : continues (packets_of data)) :
  ∃ r f, inspect path data ex bs null_path = Some (r, f)
    ∧ r_sync_errors r = 0 ∧ r_tei r = 0 ∧ r_invalid_packets r = 0
    ∧ r_continuity_errors r = 0 ∧ r_excluded_cc_mismatches r = []
    ∧ r_duplicate_packet_indices r = [].
Proof.
  destruct (inspect_spec path data ex bs null_path Hbs) as (r & f & E & Hs).
  exists r, f. split; [done|].
  destruct Hs as (_&_&_&_&->&->&->&->&_&_&->&->&->&->&_).
  rewrite Forall_lookup in Hok.
  assert (∀ g : bytes → bool, (∀ p, (is_null p || is_accepted p) = true → g p = false) →
    positions (λ _, g) (packets_of data) = []) as Hnone.
  { intros g Hg. rewrite (positions_ext _ (λ _ _, false)); [apply positions_false|].
    intros i p Hp. by apply Hg, (Hok i). }
  assert (∀ i p, packets_of data !! i = Some p → mark_of (take i (packets_of data)) p = None) as Hmark.
  { intros i p Hp. destruct (mark_of _ p) as [m|] eqn:Em; [|done].
    apply mark_of_Some in Em as (h & j & q & hq & Hc & Hprev & Hj); [|done].
    by rewrite (judge_continues _ _ _ _ _ _ (Hcc i p h j q hq Hp Hc Hprev)) in Hj. }
  assert (∀ g : list bytes → bytes → bool,
    (∀ pre p, mark_of pre p = None → g pre p = false) →
    positions g (packets_of data) = []) as Hnomark.
  { intros g Hg. rewrite (positions_ext _ (λ _ _, false)); [apply positions_false|].
    intros i p Hp. by apply Hg, Hmark. }
  rewrite !Hnone, !Hnomark; try done.
  all: unfold cc_error, cc_excused, is_mark, is_null, is_accepted, is_invalid, is_errored, is_unsync.
  all: try (intros pre p ->; done).
  all: intros p; destruct (classify p); done.
Qed.

Definition clean_stream : bytes := sample_payload x1f ++ sample_null ++ sample_payload x10.

Lemma clean_capture_witness :
  valid_boundaries [] ∧ Forall (λ p, (is_null p || is_accepted p) = true) (packets_of clean_stream)
  ∧ continues (packets_of clean_stream) ∧
  ∃ r f, inspect (u "a.ts") clean_stream ∅ [] None = Some (r, f)
    ∧ r_sync_errors r = 0 ∧ r_tei r = 0 ∧ r_invalid_packets r = 0
    ∧ r_continuity_errors r = 0 ∧ r_excluded_cc_mismatches r = []
    ∧ r_duplicate_packet_indices r = [].
Proof.
  assert (valid_boundaries []) as Hbs by (split; constructor).
  assert (Forall (λ p, (is_null p || is_accepted p) = true) (packets_of clean_stream)) as Hok
    by (vm_compute; repeat constructor).
  assert (continues (packets_of clean_stream)) as Hcc
    by (apply continuesb_sound; vm_compute; reflexivity).
  split_and!; [done..|].
  apply (clean_capture (u "a.ts") clean_stream ∅ [] None Hbs Hok Hcc).
Defined.

(** ** Tolerated duplicates *)

Lemma positions_mono {A} (f : list A → A → bool) l1 l2 :
  lenZ (positions f l1) ≤ lenZ (positions f (l1 ++ l2)).
Proof.
  induction l2 as [|x l2 IH] using rev_ind; [by rewrite app_nil_r|].
  rewrite app_assoc, positions_snoc. unfold lenZ in *. rewrite length_app. lia.
Qed.

Lemma epoch_between ps i j k x :
  (j ≤ k < i)%nat → ps !! k = Some x →
  epoch (take j ps) = epoch (take i ps) → untrusted x = false.
Proof.
  intros Hk Hx He. destruct (untrusted x) eqn:Hu; [|done]. exfalso. unfold epoch in He.
  pose proof (positions_mono (λ _, untrusted) (take j ps) (drop j (take k ps))) as H1.
  pose proof (positions_mono (λ _, untrusted) (take (S k) ps) (drop (S k) (take i ps))) as H2.
  replace (take j ps) with (take j (take k ps)) in H1 at 2 by (rewrite take_take; f_equal; lia).
  replace (take (S k) ps) with (take (S k) (take i ps)) in H2 at 2
    by (rewrite take_take; f_equal; lia).
  rewrite take_drop in H1, H2. rewrite (take_S_r _ _ x), positions_snoc, Hu in H2 by done.
  unfold lenZ in *. rewrite length_app in H2. cbn in H2. lia.
Qed.

Lemma mark_duplicate_repeats pre p h :
  classify p = Accepted h → mark_of pre p = Some Duplicate → repeats pre p h = true.
Proof.
  intros Hc. unfold mark_of, repeats. rewrite Hc.
  destruct (last_accepted _ _) as [j|]; [|done]. cbn.
  destruct (pre !! j) as [q|]; [|done]. cbn. destruct (classify q); try done.
  unfold judge. destruct (discontinuity h); [done|].
  destruct (tolerated _ _ _ _ _ _) eqn:Ht; [|by destruct (negb _)]. intros _.
  unfold tolerated in Ht. bool_prop. apply andb_true_iff. split; [done|]. by apply Z.eqb_eq.
Qed.

(** A packet reported as a duplicate repeats its PID's previous packet (byte for
    byte, or up to the PCR field when it carries one), no packet since then is
    untrusted, and that previous packet is not itself a reported duplicate. *)
Theorem duplicates_isolated (path : str) (data : bytes) (ex : gset Z) (bs : list Z)
    (null_path f : option str) (r : report) (i : nat)
    (Hbs : valid_boundaries bs) (Hr : inspect path data ex bs null_path = Some (r, f))
    (Hi : Z.of_nat i ∈ r_duplicate_packet_indices r) :
  let ps := packets_of data in
  ∃ p h j q hq, ps !! i = Some p ∧ classify p = Accepted h
    ∧ previous_packet ps i (pid_of p) j q hq
    ∧ equivalent_duplicate q p (has_pcr h) = true ∧ counter_of p = counter_of q
    ∧ (∀ k x, (j ≤ k < i)%nat → ps !! k = Some x → untrusted x = false)
    ∧ Z.of_nat j ∉ r_duplicate_packet_indices r.
Proof.
  cbv zeta. destruct (inspect_spec path data ex bs null_path Hbs) as (r' & f' & E & Hs).
  rewrite Hr in E. injection E as <- <-.
  destruct Hs as (_&_&_&_&_&_&_&_&_&_&Hd&_). rewrite Hd in *.
  apply elem_of_positions in Hi as (i' & p & ->%(inj Z.of_nat) & Hp & Hm).
  unfold is_mark in Hm. destruct (mark_of _ p) as [[]|] eqn:Em; try done.
  apply mark_of_Some in Em as (h & j & q & hq & Hc & Hprev & Hj); [|done].
  unfold judge in Hj. destruct (discontinuity h); [done|].
  destruct (tolerated _ _ _ _ _ _) eqn:Ht; [|by destruct (negb _)]. clear Hj Hm.
  unfold tolerated in Ht. bool_prop. exists p, h, j, q, hq.
  assert (take j (take i' (packets_of data)) = take j (packets_of data)) as Htake.
  { rewrite take_take. f_equal. destruct Hprev. lia. }
  rewrite Htake in *. split_and!; try done.
  - intros k x Hk Hx. by eapply epoch_between.
  - intros (j' & q' & <-%(inj Z.of_nat) & Hq' & Hm)%elem_of_positions.
    destruct Hprev as (_ & Hq & Hcq & _ & _). assert (q' = q) as -> by congruence.
    unfold is_mark in Hm. destruct (mark_of _ q) as [[]|] eqn:Em; try done.
    apply (mark_duplicate_repeats _ _ hq) in Em; [congruence|done].
Qed.

Lemma duplicates_isolated_witness :
  valid_boundaries [] ∧
  ∃ r f, inspect (u "a.ts") sample_stream ∅ [] None = Some (r, f)
    ∧ Z.of_nat 3 ∈ r_duplicate_packet_indices r ∧
    let ps := packets_of sample_stream in
    ∃ p h j q hq, ps !! 3%nat = Some p ∧ classify p = Accepted h
      ∧ previous_packet ps 3 (pid_of p) j q hq
      ∧ equivalent_duplicate q p (has_pcr h) = true ∧ counter_of p = counter_of q
      ∧ (∀ k x, (j ≤ k < 3)%nat → ps !! k = Some x → untrusted x = false)
      ∧ Z.of_nat j ∉ r_duplicate_packet_indices r.
Proof.
  assert (valid_boundaries []) as Hbs by (split; constructor). split; [done|].
  destruct (inspect_spec (u "a.ts") sample_stream ∅ [] None Hbs) as (r & f & E & Hs).
  assert (Z.of_nat 3 ∈ r_duplicate_packet_indices r) as Hi.
  { destruct Hs as (_&_&_&_&_&_&_&_&_&_&->&_). by vm_compute; left. }
  exists r, f. split_and!; [exact E|exact Hi|].
  apply (duplicates_isolated (u "a.ts") sample_stream ∅ [] None f r 3 Hbs E Hi).
Defined.

(** ** The adaptation field *)

Lemma land_pow2_testbit x n : 0 ≤ n → negb (Z.land x (2 ^ n) =? 0) = Z.testbit x n.
Proof.
  intros Hn. destruct (Z.testbit x n) eqn:E.
  - apply negb_true_iff, Z.eqb_neq. intros H.
    assert (Z.testbit (Z.land x (2 ^ n)) n = true) as H'
      by (rewrite Z.land_spec, E, Z.pow2_bits_true; done).
    by rewrite H, Z.bits_0 in H'.
  - apply negb_false_iff, Z.eqb_eq, Z.bits_inj'. intros m Hm.
    rewrite Z.land_spec, Z.bits_0. destruct (decide (m = n)) as [->|].
    + by rewrite E.
    + rewrite Z.pow2_bits_false by done. apply andb_false_r.
Qed.

(** A packet whose adaptation field is accepted has room for it: the adaptation
    control is not the reserved 0, an adaptation-only packet has length 183, one with
    payload at most 182 (so the payload is not empty), and a PCR is only read from a
    field of at least 7 bytes with its reserved bits set and extension below 300. *)
Theorem adaptation_header_sound (p : bytes) (h : header)
    (Hh : adaptation_header p = Some h) :
  (adaptation_of p = 1 ∨ adaptation_of p = 2 ∨ adaptation_of p = 3)
  ∧ has_payload h = negb (adaptation_of p =? 2)
  ∧ (adaptation_of p = 2 → at_ p 4 = 183)
  ∧ (adaptation_of p = 3 → at_ p 4 <= 182)
  ∧ (discontinuity h = true →
       adaptation_of p ≠ 1 ∧ 0 < at_ p 4 ∧ Z.testbit (at_ p 5) 7 = true)
  ∧ (has_pcr h = true →
       adaptation_of p ≠ 1 ∧ 7 ≤ at_ p 4 ∧ Z.testbit (at_ p 5) 4 = true
       ∧ Z.land (at_ p 10) 0x7e = 0x7e
       ∧ Z.lor (Z.shiftl (Z.land (at_ p 10) 1) 8) (at_ p 11) < 300).
Proof.
  assert (0 ≤ adaptation_of p < 4) as Ha.
  { unfold adaptation_of. change 3 with (Z.ones 2). rewrite Z.land_ones by lia.
    by apply Z.mod_pos_bound. }
  unfold adaptation_header in Hh.
  change 0x80 with (2 ^ 7) in Hh. change 0x10 with (2 ^ 4) in Hh.
  rewrite !land_pow2_testbit in Hh by done.
  destruct (Z.eqb_spec (adaptation_of p) 0); [done|].
  destruct (Z.eqb_spec (adaptation_of p) 1), (Z.eqb_spec (adaptation_of p) 2),
    (Z.eqb_spec (adaptation_of p) 3); try lia; cbn -[Z.testbit Z.lor Z.land] in Hh.
  all: repeat case_match; simplify_eq; bool_prop; cbn -[Z.testbit Z.lor Z.land]; split_and!; intros; bool_prop; try done; try lia; auto.
Qed.

Definition pcr_packet : bytes :=
  sample_packet [x47; x01; x00; x30; x07; x10; x00; x00; x00; x00; x7e; x00].

Lemma adaptation_header_sound_witness :
  let h := Header true false true in
  adaptation_header pcr_packet = Some h ∧
  (adaptation_of pcr_packet = 1 ∨ adaptation_of pcr_packet = 2 ∨ adaptation_of pcr_packet = 3)
  ∧ has_payload h = negb (adaptation_of pcr_packet =? 2)
  ∧ (adaptation_of pcr_packet = 2 → at_ pcr_packet 4 = 183)
  ∧ (adaptation_of pcr_packet = 3 → at_ pcr_packet 4 <= 182)
  ∧ (discontinuity h = true →
       adaptation_of pcr_packet ≠ 1 ∧ 0 < at_ pcr_packet 4
       ∧ Z.testbit (at_ pcr_packet 5) 7 = true)
  ∧ (has_pcr h = true →
       adaptation_of pcr_packet ≠ 1 ∧ 7 ≤ at_ pcr_packet 4
       ∧ Z.testbit (at_ pcr_packet 5) 4 = true
       ∧ Z.land (at_ pcr_packet 10) 0x7e = 0x7e
       ∧ Z.lor (Z.shiftl (Z.land (at_ pcr_packet 10) 1) 8) (at_ pcr_packet 11) < 300).
Proof.
  assert (adaptation_header pcr_packet = Some (Header true false true)) as H
    by (vm_compute; reflexivity).
  split; [exact H|]. apply (adaptation_header_sound _ _ H).
Defined.

(** ** The command line *)

Lemma failing_false (r : report) :
  failing r = false ↔
  r_remainder r = 0 ∧ r_sync_errors r = 0 ∧ r_tei r = 0 ∧ r_invalid_packets r = 0
  ∧ r_continuity_errors r = 0.
Proof. unfold failing. rewrite !orb_false_iff, !negb_false_iff, !Z.eqb_eq. tauto. Qed.

Lemma lenZ_zero {A} (l : list A) : lenZ l = 0 ↔ l = [].
Proof. unfold lenZ. destruct l; cbn; [done|]. split; [lia|done]. Qed.

Lemma positions_none {A} (f : A → bool) (ps : list A) :
  positions (λ _, f) ps = [] ↔ Forall (λ p, f p = false) ps.
Proof.
  induction ps as [|p ps IH] using rev_ind; [by split; [constructor|]|].
  rewrite positions_snoc, Forall_app, Forall_singleton, <- IH.
  destruct (f p); [|by rewrite app_nil_r; naive_solver].
  split; [intros [_ ?]%app_nil; done|by intros [_ ?]].
Qed.

(** The report's failure keys are all zero exactly on a clean capture. *)
Lemma failing_spec path data ex bs null_path r :
  report_spec path data ex bs null_path r →
  failing r = false ↔
  lenZ data `mod` 188 = 0
  ∧ Forall (λ p, (is_null p || is_accepted p) = true) (packets_of data)
  ∧ positions (cc_error ex bs) (packets_of data) = [].
Proof.
  intros (_&_&_&Hrem&Hy&Ht&Hi&Hi'&_&_&_&Hc&Hc'&_).
  rewrite failing_false, Hrem, Hy, Ht, Hi, Hi', Hc, Hc', !lenZ_zero, !positions_none.
  assert (Forall (λ p, (is_null p || is_accepted p) = true) (packets_of data) ↔
    Forall (λ p, is_unsync p = false) (packets_of data)
    ∧ Forall (λ p, is_errored p = false) (packets_of data)
    ∧ Forall (λ p, is_invalid p = false) (packets_of data)) as ->; [|tauto].
  rewrite <- !Forall_and. apply Forall_iff. intros p.
  unfold is_null, is_accepted, is_unsync, is_errored, is_invalid.
  destruct (classify p); naive_solver.
Qed.

(** Exit code: when [main] returns, the code is 2 for a capture without a whole
    packet, otherwise 0 exactly when the file is whole packets, each one null or
    trusted, with no unexcused continuity error, and 1 in every other case. *)
Theorem main_exit_code (resolve : str → str) (read_file : str → res bytes) (a : args)
    (code : Z) (r : report) (Hmain : main resolve read_file a = Ok (code, r)) :
  ∃ data, read_file (ts_file a) = Ok data ∧
    let ps := packets_of data in
    let clean := lenZ data `mod` 188 = 0
      ∧ Forall (λ p, (is_null p || is_accepted p) = true) ps
      ∧ positions (cc_error (list_to_set (exclude_cc_at a)) (retune_boundary_at a)) ps = [] in
    (code = 2 ∧ ps = []) ∨ (ps ≠ [] ∧ (code = 0 ∧ clean ∨ code = 1 ∧ ¬ clean)).
Proof.
  unfold main in Hmain. cbv zeta in Hmain.
  destruct (exclusions_rejected _); [done|].
  destruct (boundaries_rejected _) eqn:Hb; [done|]. apply boundaries_rejected_spec in Hb.
  destruct (_ && _); [done|]. res_inv. rename v into data.
  exists data. split; [done|]. cbv zeta.
  match type of Hv0 with inspect ?p ?d ?e ?b ?n = _ =>
    destruct (inspect_spec p d e b n Hb) as (r0 & f0 & E & Hs) end.
  rewrite Hv0 in E. injection E as ->. 
  destruct (existsb _ _); [done|]. destruct (existsb _ _); [done|].
  pose proof (failing_spec _ _ _ _ _ _ Hs) as Hfail.
  destruct Hs as (_&_&Hp&_).
  assert (r_packets r0 = lenZ (packets_of data)) as Hp'.
  { rewrite Hp. unfold lenZ. by rewrite length_packets_of, Nat2Z.inj_div. }
  rewrite Hp' in Hmain. destruct (Z.eqb_spec (lenZ (packets_of data)) 0) as [H0|H0].
  - injection Hmain as <- <-. left. split; [done|]. by apply lenZ_zero.
  - injection Hmain as <- <-. right. rewrite lenZ_zero in H0. split; [done|].
    destruct (failing r0); cbn; [right|left]; (split; [done|]); naive_solver.
Qed.

Lemma main_exit_code_witness :
  let a := Args (u "a.ts") [] [] None in
  let read := λ _, Ok clean_stream in
  ∃ r, main id read a = Ok (0, r) ∧
  ∃ data, read (ts_file a) = Ok data ∧
    let ps := packets_of data in
    let clean := lenZ data `mod` 188 = 0
      ∧ Forall (λ p, (is_null p || is_accepted p) = true) ps
      ∧ positions (cc_error (list_to_set (exclude_cc_at a)) (retune_boundary_at a)) ps = [] in
    (0 = 2 ∧ ps = []) ∨ (ps ≠ [] ∧ (0 = 0 ∧ clean ∨ 0 = 1 ∧ ¬ clean)).
Proof.
  cbv zeta.
  assert (∃ r, main id (λ _, Ok clean_stream) (Args (u "a.ts") [] [] None) = Ok (0, r))
    as (r & E) by (eexists; vm_compute; reflexivity).
  exists r. split; [exact E|].
  apply (main_exit_code id (λ _, Ok clean_stream) (Args (u "a.ts") [] [] None) 0 r E).
Defined.

(** Failures: [main] raises only for a rejected option (exit code 2) or when the
    capture cannot be read; the scan itself always completes. *)
Theorem main_errors (resolve : str → str) (read_file : str → res bytes) (a : args) (e : exn)
    (Hmain : main resolve read_file a = Err e) :
  (∃ msg, e = SystemExit 2 msg) ∨ read_file (ts_file a) = Err e.
Proof.
  unfold main, parser_error in Hmain. cbv zeta in Hmain.
  destruct (exclusions_rejected _); [injection Hmain as <-; eauto|].
  destruct (boundaries_rejected _) eqn:Hb; [injection Hmain as <-; eauto|].
  apply boundaries_rejected_spec in Hb.
  destruct (_ && _); [injection Hmain as <-; eauto|].
  destruct (read_file (ts_file a)) as [data|e']; cbn [mbind res_bind] in Hmain;
    [|injection Hmain as ->; by right].
  match type of Hmain with context [inspect ?p ?d ?e ?b ?n] =>
    destruct (inspect_spec p d e b n Hb) as (r0 & f0 & E & _) end.
  rewrite E in Hmain. cbn in Hmain.
  repeat (case_match; simplify_eq; eauto).
Qed.

Lemma main_errors_witness :
  let a := Args (u "a.ts") [1; 1] [] None in
  main id (λ _, Ok clean_stream) a
    = Err (SystemExit 2 "CC exclusion indices must be unique and nonnegative")
  ∧ ((∃ msg, SystemExit 2 "CC exclusion indices must be unique and nonnegative"
             = SystemExit 2 msg)
     ∨ (λ _ : str, Ok clean_stream) (ts_file a)
       = Err (SystemExit 2 "CC exclusion indices must be unique and nonnegative")).
Proof.
  cbv zeta.
  assert (main id (λ _, Ok clean_stream) (Args (u "a.ts") [1; 1] [] None)
    = Err (SystemExit 2 "CC exclusion indices must be unique and nonnegative")) as E
    by (vm_compute; reflexivity).
  split; [exact E|].
  apply (main_errors id (λ _, Ok clean_stream) (Args (u "a.ts") [1; 1] [] None) _ E).
Defined.

Lemma size_list_to_set_le (l : list Z) : (size (list_to_set (C := gset Z) l) <= length l)%nat.
Proof.
  induction l as [|x l IH]; [done|]. cbn [list_to_set length].
  pose proof (size_union_alt (C := gset Z) {[x]} (list_to_set l)).
  rewrite size_singleton in *.
  pose proof (subseteq_size (C := gset Z) (list_to_set l ∖ {[x]}) (list_to_set l)
    ltac:(set_solver)). lia.
Qed.

Lemma size_list_to_set_NoDup (l : list Z) :
  size (list_to_set (C := gset Z) l) = length l → NoDup l.
Proof.
  induction l as [|x l IH]; [constructor|]. cbn [list_to_set length]. intros H.
  pose proof (size_list_to_set_le l) as Hle. destruct (decide (x ∈ l)) as [Hx|Hx].
  - replace ({[x]} ∪ list_to_set l : gset Z) with (list_to_set l : gset Z) in H
      by set_solver. lia.
  - rewrite size_union, size_singleton in H by set_solver.
    constructor; [done|]. apply IH. lia.
Qed.

(** The boundary check admits exactly the strictly increasing lists of positive
    indices, and the exclusion check exactly the lists of distinct indices that are
    not negative. *)
Theorem option_checks (exclude bs : list Z) :
  (boundaries_rejected bs = false ↔ StronglySorted Z.lt bs ∧ Forall (λ i, 0 < i) bs)
  ∧ (exclusions_rejected exclude = false ↔ NoDup exclude ∧ Forall (λ i, 0 ≤ i) exclude).
Proof.
  split; [apply boundaries_rejected_spec|].
  unfold exclusions_rejected.
  rewrite orb_false_iff, negb_false_iff, bool_decide_eq_true, existsb_false, Forall_forall.
  assert (Z.of_nat (size (list_to_set (C := gset Z) exclude)) = lenZ exclude ↔ NoDup exclude) as ->.
  { unfold lenZ. split; [|by intros ->%(size_list_to_set (C := gset Z))].
    intros H%(inj Z.of_nat). by apply size_list_to_set_NoDup. }
  assert ((∀ x : Z, x ∈ exclude → (x <? 0) = false) ↔ ∀ x, x ∈ exclude → 0 ≤ x) as ->; [|done].
  split; intros H x Hx; specialize (H x Hx); by apply Z.ltb_ge.
Qed.
