(* ===== verification/PyFloat.v ===== *)
(** * Python's [float]: decimal literals, [repr] and exact comparison

    A [float] is a binary64 value ([SpecFloat]).  [float_of_decimal] is the correctly
    rounded value of a decimal literal, [float_repr] the shortest decimal that reads
    back as the value, and [num] the exact number an [int], [bool] or [float] denotes,
    by which Python compares them. *)

From Stdlib Require Import Floats.SpecFloat.
From S2P Require Import Prelude PyStr Codec.

Local Open Scope Z_scope.

Abbreviation float := spec_float.

Definition prec : Z := 53.
Definition emax : Z := 1024.

(** Number of decimal digits of a positive integer. *)
Definition num_digits (m : Z) : Z := lenZ (dec_Z m).

Definition set_sign (neg : bool) (f : float) : float := if neg then SFopp f else f.

(** The binary64 value nearest to [m * 10^e10] ([m] non-negative).  For a negative
    exponent the quotient is computed to more bits than the precision, with a sticky
    last bit, so that rounding it is rounding the exact value. *)
Definition float_of_decimal (neg : bool) (m e10 : Z) : float :=
  set_sign neg
    (if m =? 0 then S754_zero false
     else if 310 <? e10 then S754_infinity false
     else if e10 + num_digits m <? -330 then S754_zero false
     else if 0 <=? e10 then binary_normalize prec emax (m * 10 ^ e10) 0 false
     else
       let d := 10 ^ (- e10) in
       let k := Z.max 0 (prec + 3 + Z.log2 d - Z.log2 m) in
       let q := m * 2 ^ k / d in
       let sticky := if (m * 2 ^ k) `mod` d =? 0 then 0 else 1 in
       binary_normalize prec emax (2 * q + sticky) (- k - 1) false).

(** Round half to even of [n / d], [d] positive. *)
Definition div_half_even (n d : Z) : Z :=
  let q := n / d in
  let r := n `mod` d in
  if 2 * r <? d then q
  else if d <? 2 * r then q + 1
  else if Z.even q then q else q + 1.

(** [m * 2^e] scaled by [10^(-k)] and rounded to an integer. *)
Definition scaled (m e k : Z) : Z :=
  div_half_even (m * 2 ^ Z.max e 0 * 10 ^ Z.max (- k) 0)
                (2 ^ Z.max (- e) 0 * 10 ^ Z.max k 0).

(** The decimal point position of [m * 2^e]: least [p] with [m * 2^e < 10^p], searched
    upwards from a lower bound. *)
Fixpoint decpt_go (fuel : nat) (m e p : Z) : Z :=
  match fuel with
  | O => p
  | S fuel =>
      if m * 2 ^ Z.max e 0 * 10 ^ Z.max (- p) 0 <? 2 ^ Z.max (- e) 0 * 10 ^ Z.max p 0
      then p else decpt_go fuel m e (p + 1)
  end.
Definition decpt (m e : Z) : Z :=
  decpt_go 8 m e ((Z.log2 m + e) * 30103 / 100000 - 1).

(** The shortest digits that read back as the value, with the exponent. *)
Fixpoint shortest_go (fuel : nat) (n : Z) (f : float) (m e p : Z) : Z * Z :=
  let k := p - n in
  let d := scaled m e k in
  match fuel with
  | O => (d, k)
  | S fuel =>
      if SFeqb (float_of_decimal false d k) f then (d, k)
      else shortest_go fuel (n + 1) f m e p
  end.

Fixpoint strip_zeros (fuel : nat) (d k : Z) : Z * Z :=
  match fuel with
  | O => (d, k)
  | S fuel => if d `mod` 10 =? 0 then strip_zeros fuel (d / 10) (k + 1) else (d, k)
  end.

Definition pad2 (z : Z) : str := if z <? 10 then u "0" ++ dec_Z z else dec_Z z.

(** [float.__repr__] of a positive finite value. *)
Definition repr_positive (f : float) (m e : Z) : str :=
  let '(d, k) := shortest_go 16 1 f m e (decpt m e) in
  let '(d, k) := strip_zeros 17 d k in
  let digits := dec_Z d in
  let n := lenZ digits in
  let point := n + k in
  if (point <=? -4) || (16 <? point) then
    let mant := if n =? 1 then digits
                else takeZ 1 digits ++ u "." ++ dropZ 1 digits in
    let x := point - 1 in
    mant ++ u "e" ++ (if x <? 0 then u "-" else u "+") ++ pad2 (Z.abs x)
  else if point <=? 0 then u "0." ++ replicate (Z.to_nat (- point)) 48%N ++ digits
  else if n <=? point then digits ++ replicate (Z.to_nat (point - n)) 48%N ++ u ".0"
  else takeZ point digits ++ u "." ++ dropZ point digits.

(** As [json.dumps] writes a float. *)
Definition float_repr (f : float) : str :=
  match f with
  | S754_zero s => if s then u "-0.0" else u "0.0"
  | S754_infinity s => if s then u "-Infinity" else u "Infinity"
  | S754_nan => u "NaN"
  | S754_finite s m e => (if s then u "-" else []) ++ repr_positive (S754_finite false m e) (Zpos m) e
  end.

(** ** The number a value denotes *)

(** [Fin n k] is [n / 2^k]. *)
Inductive num := Fin (n k : Z) | Inf (neg : bool) | NotANumber.

Definition num_of_float (f : float) : num :=
  match f with
  | S754_zero _ => Fin 0 0
  | S754_infinity s => Inf s
  | S754_nan => NotANumber
  | S754_finite s m e =>
      Fin ((if s then Zneg m else Zpos m) * 2 ^ Z.max e 0) (Z.max (- e) 0)
  end.

Definition num_eqb (a c : num) : bool :=
  match a, c with
  | Fin n1 k1, Fin n2 k2 => n1 * 2 ^ k2 =? n2 * 2 ^ k1
  | Inf s1, Inf s2 => Bool.eqb s1 s2
  | _, _ => false
  end.

Example repr_tests :
  float_repr (float_of_decimal false 1 (-1)) = u "0.1"
  ∧ float_repr (float_of_decimal true 15 (-1)) = u "-1.5"
  ∧ float_repr (float_of_decimal false 1 16) = u "1e+16"
  ∧ float_repr (float_of_decimal false 1 (-5)) = u "1e-05"
  ∧ float_repr (float_of_decimal false 2 0) = u "2.0"
  ∧ float_repr (float_of_decimal false 17976931348623157 292) = u "1.7976931348623157e+308"
  ∧ float_repr (float_of_decimal false 5 (-324)) = u "5e-324"
  ∧ float_of_decimal false 1 309 = S754_infinity false.
Proof. vm_compute. repeat split. Qed.
