(* ===== verification/PyDict.v ===== *)
(** * Dictionaries with string keys

    A [dict] is the list of its items in insertion order, with distinct keys. *)

From S2P Require Import Prelude PyStr.

Definition dict (A : Type) : Type := list (str * A).

Section dict.
Context {A : Type}.
Implicit Types (d : dict A) (v : A).

(** [d.get(k)] on the items of a dictionary. *)
Fixpoint dict_get (k : str) (d : dict A) : option A :=
  match d with
  | [] => None
  | (k', v) :: d => if decide (k' = k) then Some v else dict_get k d
  end.

(** [d[k] = v]: in place when the key exists, appended otherwise. *)
Fixpoint dict_set (k : str) (v : A) (d : dict A) : dict A :=
  match d with
  | [] => [(k, v)]
  | (k', v') :: d => if decide (k' = k) then (k, v) :: d else (k', v') :: dict_set k v d
  end.

Definition dict_keys (d : dict A) : gset str := list_to_set d.*1.

(** ** Lemmas on dictionaries *)

Lemma dict_get_None k d : dict_get k d = None ↔ k ∉ d.*1.
Proof.
  induction d as [|[k' v] d IH]; cbn; [set_solver|].
  rewrite not_elem_of_cons. case_decide as E; [naive_solver|]. rewrite IH. naive_solver.
Qed.

Lemma dict_get_Some_elem k v d : dict_get k d = Some v → (k, v) ∈ d.
Proof.
  induction d as [|[k' v'] d IH]; cbn; [done|]. case_decide; [|by right; auto].
  intros [= ->]. subst. by left.
Qed.

Lemma dict_get_elem k v d : NoDup d.*1 → (k, v) ∈ d → dict_get k d = Some v.
Proof.
  induction d as [|[k' v'] d IH]; cbn; [set_solver|].
  intros [Hn Hd]%NoDup_cons [[= -> ->]|H]%elem_of_cons; [by rewrite decide_True|].
  rewrite decide_False; [auto|]. intros ->. apply Hn.
  apply list_elem_of_fmap. by exists (k, v).
Qed.

Lemma elem_of_dict_keys k d : k ∈ dict_keys d ↔ is_Some (dict_get k d).
Proof.
  unfold dict_keys. rewrite elem_of_list_to_set, <- not_eq_None_Some, dict_get_None.
  destruct (decide (k ∈ d.*1)); tauto.
Qed.

Lemma dict_keys_elem k d : k ∈ dict_keys d ↔ k ∈ d.*1.
Proof. unfold dict_keys. by rewrite elem_of_list_to_set. Qed.

Lemma dict_get_set k k' v d :
  dict_get k (dict_set k' v d) = if decide (k' = k) then Some v else dict_get k d.
Proof.
  induction d as [|[k0 v0] d IH]; cbn; [done|].
  destruct (decide (k0 = k')) as [->|]; cbn; [by destruct (decide (k' = k))|].
  rewrite IH. repeat case_decide; congruence.
Qed.

Lemma dict_set_keys k v d :
  (dict_set k v d).*1 = if decide (k ∈ d.*1) then d.*1 else d.*1 ++ [k].
Proof.
  induction d as [|[k0 v0] d IH]; [done|]. cbn [dict_set]. destruct (decide (k0 = k)) as [->|].
  - cbn. by rewrite decide_True by (by left).
  - cbn. rewrite IH. repeat case_decide; set_solver.
Qed.

Lemma dict_set_NoDup k v d : NoDup d.*1 → NoDup (dict_set k v d).*1.
Proof.
  rewrite dict_set_keys. case_decide; [done|]. intros. apply NoDup_app. split_and!; [done| |].
  - set_solver.
  - apply NoDup_singleton.
Qed.

(** Dictionaries with the same lookups hold the same items. *)
Lemma dict_ext d1 d2 :
  NoDup d1.*1 → NoDup d2.*1 → (∀ k, dict_get k d1 = dict_get k d2) → d1 ≡ₚ d2.
Proof.
  intros H1 H2 Heq. apply NoDup_Permutation; [by eapply NoDup_fmap_1|by eapply NoDup_fmap_1|].
  intros [k v]. split; intros Hin%dict_get_elem; try done; apply dict_get_Some_elem.
  - by rewrite <- Heq.
  - by rewrite Heq.
Qed.

Lemma dict_get_perm k d1 d2 : NoDup d1.*1 → d1 ≡ₚ d2 → dict_get k d1 = dict_get k d2.
Proof.
  intros Hnd Hp. assert (NoDup d2.*1) by by rewrite <- Hp.
  apply option_eq. intros v. split; intros Hv%dict_get_Some_elem;
    (apply dict_get_elem; [done|]); [by rewrite <- Hp|by rewrite Hp].
Qed.

(** [dict(pairs)]: the last value of a repeated key wins. *)
Definition dict_of_pairs (pairs : list (str * A)) : dict A :=
  foldl (λ d kv, dict_set kv.1 kv.2 d) [] pairs.

Lemma dict_of_pairs_NoDup pairs : NoDup (dict_of_pairs pairs).*1.
Proof.
  unfold dict_of_pairs. assert (NoDup ([] : dict A).*1) as H by constructor.
  revert H. generalize ([] : dict A) as d.
  induction pairs as [|[k v] pairs IH]; cbn; [done|]. intros d Hd. by apply IH, dict_set_NoDup.
Qed.

(** Distinct pairs are kept as they are. *)
Lemma dict_set_new k v d : k ∉ d.*1 → dict_set k v d = d ++ [(k, v)].
Proof.
  induction d as [|[k' v'] d IH]; cbn; [done|]. rewrite not_elem_of_cons. intros [? ?].
  rewrite decide_False by done. by rewrite IH.
Qed.

Lemma dict_of_pairs_id pairs : NoDup pairs.*1 → dict_of_pairs pairs = pairs.
Proof.
  unfold dict_of_pairs. intros H. change pairs with ([] ++ pairs) at 2.
  assert (NoDup (([] : dict A) ++ pairs).*1) as Hnd by done. clear H. revert Hnd.
  generalize ([] : dict A) as d. induction pairs as [|[k v] pairs IH]; cbn; intros d Hnd;
    [by rewrite app_nil_r|].
  assert (k ∉ d.*1) as Hk.
  { rewrite fmap_app, NoDup_app in Hnd. destruct Hnd as (_ & Hnd & _). intros H.
    apply (Hnd k H). by left. }
  rewrite dict_set_new, IH by done || (rewrite ?dict_set_new, <- ?app_assoc; done).
  by rewrite <- app_assoc.
Qed.
End dict.

(** [d[k]]. *)
Definition item {A} (d : dict A) (k : str) : res A :=
  of_option (KeyError "missing key") (dict_get k d).

Lemma item_Ok {A} (d : dict A) k v : item d k = Ok v ↔ dict_get k d = Some v.
Proof. apply of_option_Ok. Qed.
