(* ===== verification/Json.v ===== *)
(** * JSON: [json.loads], [json.dumps] and Python's [==] on the values

    The parser follows CPython's scanner: it takes the object hook and the constant
    hook the scripts pass, and the interpreter's recursion limit.  Dictionaries keep
    their insertion order; [py_eq] compares them as Python does. *)

From Stdlib Require Import Floats.SpecFloat.
From stdpp Require Import sorting.
From S2P Require Import Prelude PyStr Codec PyFloat.
From S2P Require Export PyDict.

(** ** Values *)

#[local] Set Warnings "-register-all".
Inductive json :=
| JNull
| JBool (x : bool)
| JInt (n : Z)
| JFloat (f : spec_float)
| JStr (s : str)
| JList (l : list json)
| JDict (d : list (str * json)).

(** The number of an [int], [bool] or [float]. *)
Definition num_of (v : json) : option num :=
  match v with
  | JBool x => Some (Fin (Z.b2z x) 0)
  | JInt n => Some (Fin n 0)
  | JFloat f => Some (num_of_float f)
  | _ => None
  end.

Section list_eqb.
Context {A : Type} (eqb : A → A → bool).
Fixpoint list_eqb (l1 l2 : list A) : bool :=
  match l1, l2 with
  | [], [] => true
  | x :: l1, y :: l2 => eqb x y && list_eqb l1 l2
  | _, _ => false
  end.
End list_eqb.

(** Python's [==]: [True == 1 == 1.0], dictionaries up to order. *)
Fixpoint py_eq (a c : json) {struct a} : bool :=
  match a, c with
  | JNull, JNull => true
  | JStr s, JStr t => bool_decide (s = t)
  | JList l1, JList l2 => list_eqb py_eq l1 l2
  | JDict d1, JDict d2 =>
      Nat.eqb (length d1) (length d2)
      && forallb (λ kv, match dict_get kv.1 d2 with
                        | Some v => py_eq kv.2 v
                        | None => false
                        end) d1
  | _, _ => match num_of a, num_of c with
            | Some n1, Some n2 => num_eqb n1 n2
            | _, _ => false
            end
  end.

(** [d.get(k) == v], with [None] for a missing key. *)
Definition get_eq (d : list (str * json)) (k : str) (v : json) : bool :=
  py_eq (default JNull (dict_get k d)) v.

(** ** [json.loads] *)

Definition decode_error (msg : string) : exn := JSONDecodeError msg.

Definition is_ws (c : N) : bool := bool_decide (c ∈ [32; 9; 10; 13]%N).
Fixpoint skip_ws (s : str) : str :=
  match s with
  | c :: s' => if is_ws c then skip_ws s' else s
  | [] => []
  end.

(** [strip_prefix p s]: the rest of [s] after [p]. *)
Fixpoint strip_prefix (p s : str) : option str :=
  match p, s with
  | [], s => Some s
  | x :: p, y :: s => if (x =? y)%N then strip_prefix p s else None
  | _ :: _, [] => None
  end.

Definition hex_digit (c : N) : option N :=
  (if is_digit c then Some (c - 48)
   else if (97 <=? c) && (c <=? 102) then Some (c - 87)
   else if (65 <=? c) && (c <=? 70) then Some (c - 55)
   else None)%N.

Definition hex4 (s : str) : option (N * str) :=
  match s with
  | a :: c :: d :: e :: s =>
      x ← hex_digit a; y ← hex_digit c; z ← hex_digit d; w ← hex_digit e;
      Some (((x * 16 + y) * 16 + z) * 16 + w, s)%N
  | _ => None
  end.

Definition simple_escape (c : N) : option N :=
  match c with
  | 34 => Some 34 | 92 => Some 92 | 47 => Some 47 | 98 => Some 8
  | 102 => Some 12 | 110 => Some 10 | 114 => Some 13 | 116 => Some 9
  | _ => None
  end%N.

(** One escape after its backslash; a high surrogate takes the low one that follows. *)
Definition scan_escape (s : str) : res (N * str) :=
  match s with
  | [] => Err (decode_error "Unterminated string")
  | e :: s =>
    if (e =? 117)%N then
      '(c, s) ← of_option (decode_error "Invalid \uXXXX escape") (hex4 s);
      match s with
      | x :: y :: s' =>
          if ((55296 <=? c) && (c <? 56320) && (x =? 92) && (y =? 117))%N then
            '(d, s'') ← of_option (decode_error "Invalid \uXXXX escape") (hex4 s');
            if ((56320 <=? d) && (d <? 57344))%N
            then Ok ((65536 + (c - 55296) * 1024 + (d - 56320))%N, s'')
            else Ok (c, s)
          else Ok (c, s)
      | _ => Ok (c, s)
      end
    else
      c ← of_option (decode_error "Invalid \escape") (simple_escape e);
      Ok (c, s)
  end.

(** The rest of a string literal after its opening quote.  The fuel is the length of
    the text. *)
Fixpoint scan_string (fuel : nat) (s : str) : res (str * str) :=
  match fuel, s with
  | O, _ | _, [] => Err (decode_error "Unterminated string")
  | S fuel, c :: s =>
      if (c =? 34)%N then Ok ([], s)
      else if (c =? 92)%N then
        '(e, s) ← scan_escape s;
        '(r, s) ← scan_string fuel s; Ok (e :: r, s)
      else if (c <? 32)%N then Err (decode_error "Invalid control character")
      else '(r, s) ← scan_string fuel s; Ok (c :: r, s)
  end.

(** The longest run of digits. *)
Fixpoint take_digits (s : str) : str * str :=
  match s with
  | c :: s' => if is_digit c then let '(d, r) := take_digits s' in (c :: d, r) else ([], s)
  | [] => ([], [])
  end.

(** The parts of a number literal: sign, integer digits, fraction digits, exponent and
    the rest.  A fraction or an exponent is taken only when complete. *)
Definition number_parts (s : str) : bool * str * str * option Z * str :=
  let '(neg, s) := match s with 45%N :: s' => (true, s') | _ => (false, s) end in
  let '(int, s) := match s with
                   | 48%N :: s' => ([48%N], s')
                   | _ => take_digits s
                   end in
  let '(frac, s) :=
    match s with
    | 46%N :: s' => match take_digits s' with ([], _) => ([], s) | (d, r) => (d, r) end
    | _ => ([], s)
    end in
  let '(exp, s) :=
    match s with
    | e :: s' =>
        if ((e =? 101) || (e =? 69))%N then
          let '(sgn, s'') := match s' with
                             | 45%N :: t => (-1, t) | 43%N :: t => (1, t) | t => (1, t)
                             end%Z in
          match take_digits s'' with
          | ([], _) => (None, s)
          | (d, r) => (Some (sgn * digits_value d)%Z, r)
          end
        else (None, s)
    | [] => (None, s)
    end in
  (neg, int, frac, exp, s).

(** A fraction or an exponent makes the value a float.  [int] refuses more than 4300
    digits. *)
Definition scan_number (s : str) : res (json * str) :=
  let '(neg, int, frac, exp, s) := number_parts s in
  match int, frac, exp with
  | [], _, _ => Err (decode_error "Expecting value")
  | _, [], None =>
      if (4300 <? length int)%nat then Err (ValueError "Exceeds the limit for integer string")
      else Ok (JInt (if neg : bool then - digits_value int else digits_value int)%Z, s)
  | _, _, _ =>
      Ok (JFloat (float_of_decimal neg (digits_value (int ++ frac))
                    (default 0 exp - lenZ frac)%Z), s)
  end.

Definition next_is (c : N) (s : str) : bool :=
  match s with x :: _ => (x =? c)%N | [] => false end.

(** After an item: the closing bracket [close], or a comma and the next item. *)
Definition after_item (close : N) (s : str) : res (bool * str) :=
  let s := skip_ws s in
  if next_is close s then Ok (false, tail s)
  else if next_is 44 s then Ok (true, skip_ws (tail s))
  else Err (decode_error "Expecting ',' delimiter").

(** A member's name and its colon. *)
Definition scan_key (s : str) : res (str * str) :=
  if next_is 34 s then
    '(k, s) ← scan_string (length (tail s)) (tail s);
    let s := skip_ws s in
    if next_is 58 s then Ok (k, skip_ws (tail s))
    else Err (decode_error "Expecting ':' delimiter")
  else Err (decode_error "Expecting property name enclosed in double quotes").

Section loads.
(** [object_pairs_hook] and [parse_constant]. *)
Context (pairs_hook : list (str * json) → res (list (str * json)))
        (constant_hook : str → res json).

(** A literal name, a constant or a number. *)
Definition scan_scalar (s : str) : res (json * str) :=
  match strip_prefix (u "null") s, strip_prefix (u "true") s,
        strip_prefix (u "false") s with
  | Some s, _, _ => Ok (JNull, s)
  | _, Some s, _ => Ok (JBool true, s)
  | _, _, Some s => Ok (JBool false, s)
  | _, _, _ =>
    match strip_prefix (u "NaN") s, strip_prefix (u "Infinity") s,
          strip_prefix (u "-Infinity") s with
    | Some s, _, _ => v ← constant_hook (u "NaN"); Ok (v, s)
    | _, Some s, _ => v ← constant_hook (u "Infinity"); Ok (v, s)
    | _, _, Some s => v ← constant_hook (u "-Infinity"); Ok (v, s)
    | _, _, _ => scan_number s
    end
  end.

(** One value.  [depth] is what is left of the recursion limit; the loops over
    members consume the text, whose length bounds them. *)
Fixpoint scan_value (depth : nat) (s : str) {struct depth} : res (json * str) :=
  match depth with
  | O => Err (RuntimeError "RecursionError")
  | S depth =>
    let elements := fix elements (fuel : nat) (s : str) : res (list json * str) :=
      match fuel with
      | O => Err (decode_error "Expecting value")
      | S fuel =>
        '(v, s) ← scan_value depth s;
        '(more, s) ← after_item 93 s;
        if more : bool then '(l, s) ← elements fuel s; Ok (v :: l, s) else Ok ([v], s)
      end in
    let members := fix members (fuel : nat) (s : str) : res (list (str * json) * str) :=
      match fuel with
      | O => Err (decode_error "Expecting property name enclosed in double quotes")
      | S fuel =>
        '(k, s) ← scan_key s;
        '(v, s) ← scan_value depth s;
        '(more, s) ← after_item 125 s;
        if more : bool then '(l, s) ← members fuel s; Ok ((k, v) :: l, s) else Ok ([(k, v)], s)
      end in
    match s with
    | [] => Err (decode_error "Expecting value")
    | c :: rest =>
        if (c =? 34)%N then '(t, s) ← scan_string (length rest) rest; Ok (JStr t, s)
        else if (c =? 123)%N then
          '(pairs, s) ← (if next_is 125 (skip_ws rest) then Ok ([], tail (skip_ws rest))
                         else members (length rest) (skip_ws rest));
          d ← pairs_hook pairs; Ok (JDict d, s)
        else if (c =? 91)%N then
          '(l, s) ← (if next_is 93 (skip_ws rest) then Ok ([], tail (skip_ws rest))
                     else elements (length rest) (skip_ws rest));
          Ok (JList l, s)
        else scan_scalar s
    end
  end.

Definition loads (depth : nat) (s : str) : res json :=
  match s with
  | 65279%N :: _ => Err (decode_error "Unexpected UTF-8 BOM (decode using utf-8-sig)")
  | _ =>
    '(v, s) ← scan_value depth (skip_ws s);
    match skip_ws s with
    | [] => Ok v
    | _ => Err (decode_error "Extra data")
    end
  end.
End loads.

(** The default hooks: the last value of a repeated key wins, constants are floats. *)
Definition default_constant (c : str) : res json :=
  Ok (JFloat (if decide (c = u "NaN") then S754_nan
              else S754_infinity (bool_decide (c = u "-Infinity")))).
Definition loads_default (depth : nat) (s : str) : res json :=
  loads (λ pairs, Ok (dict_of_pairs pairs)) default_constant depth s.

(** ** [json.dumps(value, indent=2, sort_keys=True)] *)

Definition hex_char (n : N) : N := if (n <? 10)%N then (48 + n)%N else (87 + n)%N.
Definition unicode_escape (c : N) : str :=
  (u "\u" ++ [hex_char (c / 4096 mod 16); hex_char (c / 256 mod 16);
              hex_char (c / 16 mod 16); hex_char (c mod 16)])%N.

(** [ensure_ascii] escaping of one character. *)
Definition escape_char (c : N) : str :=
  (if c =? 34 then [92; 34] else if c =? 92 then [92; 92]
   else if c =? 10 then [92; 110] else if c =? 13 then [92; 114]
   else if c =? 9 then [92; 116] else if c =? 12 then [92; 102]
   else if c =? 8 then [92; 98]
   else if (32 <=? c) && (c <? 127) then [c]
   else if c <? 65536 then unicode_escape c
   else unicode_escape (55296 + (c - 65536) / 1024)
        ++ unicode_escape (56320 + (c - 65536) mod 1024))%N.

Definition dump_string (s : str) : str := [34%N] ++ concat (escape_char <$> s) ++ [34%N].

Definition newline (level : nat) : str := 10%N :: replicate (2 * level) 32%N.

(** Members in key order. *)
Definition key_le (a c : str * str) : Prop := str_le a.1 c.1.
#[export] Instance key_le_dec : RelDecision key_le.
Proof. intros a c. unfold key_le. apply _. Defined.

Definition dump_block (left right : str) (level : nat) (items : list str) : str :=
  match items with
  | [] => left ++ right
  | _ => left ++ newline (S level) ++ join (u "," ++ newline (S level)) items
         ++ newline level ++ right
  end.

Fixpoint dump (level : nat) (v : json) : str :=
  match v with
  | JNull => u "null"
  | JBool true => u "true"
  | JBool false => u "false"
  | JInt n => dec_Z n
  | JFloat f => float_repr f
  | JStr s => dump_string s
  | JList l => dump_block (u "[") (u "]") level (dump (S level) <$> l)
  | JDict d =>
      let members := (λ kv : str * json, (kv.1, dump (S level) kv.2)) <$> d in
      dump_block (u "{") (u "}") level
        ((λ m : str * str, dump_string m.1 ++ u ": " ++ m.2) <$> merge_sort key_le members)
  end.
Definition dumps : json → str := dump 0.

(** The output is ASCII, so [.encode("utf-8")] takes each character to its byte. *)
Definition dumps_bytes (v : json) : bytes := nb <$> dumps v.

(** A JSON text written with single quotes. *)
Definition quoted (s : string) : str := (λ c, if (c =? 39)%N then 34%N else c) <$> u s.

Example dumps_test :
  dumps (JDict [(u "b", JList [JInt 1; JNull]); (u "a", JDict [])])
  = quoted "{
  'a': {},
  'b': [
    1,
    null
  ]
}".
Proof. vm_compute. reflexivity. Qed.

Example loads_test :
  loads_default 10 (quoted " { 'b' : [1 , null, -2.5e1], 'a':{}, 'b' : true} ")
  = Ok (JDict [(u "b", JBool true); (u "a", JDict [])]).
Proof. vm_compute. reflexivity. Qed.

(** ** Lemmas on objects *)

(** A string compared with [==] is the same string. *)
Lemma py_eq_str v s : py_eq v (JStr s) = true ↔ v = JStr s.
Proof.
  destruct v; cbn; try (split; [by repeat case_match|done]).
  rewrite bool_decide_eq_true. naive_solver.
Qed.

Lemma get_eq_str d k s : get_eq d k (JStr s) = true ↔ dict_get k d = Some (JStr s).
Proof. unfold get_eq. rewrite py_eq_str. destruct (dict_get k d); naive_solver. Qed.

Lemma py_eq_int n m : py_eq (JInt n) (JInt m) = true ↔ n = m.
Proof. cbn. rewrite Z.eqb_eq. lia. Qed.

(** Two objects are equal when they have the same keys and equal values. *)
Definition option_py_eq (x y : option json) : Prop :=
  match x, y with
  | Some v, Some w => py_eq v w = true
  | None, None => True
  | _, _ => False
  end.

Lemma py_eq_dict d1 d2 :
  NoDup d1.*1 → NoDup d2.*1 →
  py_eq (JDict d1) (JDict d2) = true ↔ ∀ k, option_py_eq (dict_get k d1) (dict_get k d2).
Proof.
  intros H1 H2. cbn [py_eq]. rewrite andb_true_iff, Nat.eqb_eq, forallb_elem. split.
  - intros [Hlen Hall] k.
    assert (d1.*1 ≡ₚ d2.*1) as Hperm.
    { apply submseteq_length_Permutation; [|by rewrite !length_fmap, Hlen].
      apply NoDup_submseteq; [done|]. intros x ([k' v] & -> & Hin)%list_elem_of_fmap.
      specialize (Hall _ Hin). cbn in Hall. destruct (dict_get k' d2) as [w|] eqn:Hg; [|done].
      apply dict_get_Some_elem in Hg. apply list_elem_of_fmap. by exists (k', w). }
    destruct (dict_get k d1) as [v|] eqn:Hv, (dict_get k d2) as [w|] eqn:Hw; cbn; try done.
    + apply dict_get_Some_elem in Hv. specialize (Hall _ Hv). cbn in Hall. by rewrite Hw in Hall.
    + apply dict_get_Some_elem in Hv. specialize (Hall _ Hv). cbn in Hall. by rewrite Hw in Hall.
    + apply dict_get_None in Hv. rewrite Hperm in Hv. apply dict_get_None in Hv. congruence.
  - intros Hall. split.
    + rewrite <- (length_fmap fst d1), <- (length_fmap fst d2). apply Permutation_length.
      apply NoDup_Permutation; [done..|]. intros k. specialize (Hall k).
      rewrite <- !dict_keys_elem, !elem_of_dict_keys. unfold option_py_eq in Hall.
      destruct (dict_get k d1), (dict_get k d2); try done;
        split; intros [? ?]; done || by eexists.
    + intros [k v] Hin. specialize (Hall k). rewrite (dict_get_elem k v d1) in Hall by done.
      cbn in *. by destruct (dict_get k d2).
Qed.

(** An object comes out of the pairs hook. *)
Section loads_object.
Context (pairs_hook : list (str * json) → res (list (str * json)))
        (constant_hook : str → res json)
        (constant_scalar : ∀ c d, constant_hook c ≠ Ok (JDict d)).

Lemma scan_number_scalar s d s' : scan_number s ≠ Ok (JDict d, s').
Proof.
  unfold scan_number. destruct (number_parts s) as [[[[neg [|]] [|]] []] ?]; try done.
  by case_match.
Qed.

Lemma scan_scalar_scalar s d s' : scan_scalar constant_hook s ≠ Ok (JDict d, s').
Proof using constant_scalar.
  unfold scan_scalar. intros H. repeat (case_match; try discriminate H);
    try (by apply scan_number_scalar in H);
    apply bind_Ok in H as (v & Hv & [= -> _]); by apply constant_scalar in Hv.
Qed.

Lemma scan_value_object depth s d s' :
  scan_value pairs_hook constant_hook depth s = Ok (JDict d, s') →
  ∃ pairs, pairs_hook pairs = Ok d.
Proof using constant_scalar.
  destruct depth as [|depth]; [done|]. destruct s as [|c s]; [done|]. cbn [scan_value].
  destruct (c =? 34)%N; [by intros ([??] & _ & [= ])%bind_Ok|].
  destruct (c =? 123)%N.
  { intros ([pairs ?] & _ & (d' & Hd & [= <- _])%bind_Ok)%bind_Ok. by exists pairs. }
  destruct (c =? 91)%N; [by intros ([??] & _ & [= ])%bind_Ok|].
  by intros ?%scan_scalar_scalar.
Qed.

Lemma loads_object depth s d :
  loads pairs_hook constant_hook depth s = Ok (JDict d) → ∃ pairs, pairs_hook pairs = Ok d.
Proof using constant_scalar.
  unfold loads. intros H.
  assert (('(v, s) ← scan_value pairs_hook constant_hook depth (skip_ws s);
    match skip_ws s with [] => Ok v | _ => Err (decode_error "Extra data") end)
    = Ok (JDict d)) as H' by (repeat (case_match; try discriminate H); exact H).
  apply bind_Ok in H' as ([v t] & Hv & H'). destruct (skip_ws t); [|done].
  injection H' as ->. by apply scan_value_object in Hv.
Qed.
End loads_object.

Lemma loads_default_NoDup depth s d : loads_default depth s = Ok (JDict d) → NoDup d.*1.
Proof.
  unfold loads_default. intros H. apply loads_object in H as (pairs & [= <-]); [|done].
  apply dict_of_pairs_NoDup.
Qed.

(** ** What the parser raises *)

Definition loads_exn (e : exn) : Prop :=
  (∃ m, e = JSONDecodeError m ∨ e = ValueError m) ∨ e = RuntimeError "RecursionError".

Lemma scan_escape_raises s : raises_only loads_exn (scan_escape s).
Proof. unfold scan_escape. raises; left; eexists; auto. Qed.

Lemma scan_string_raises fuel s : raises_only loads_exn (scan_string fuel s).
Proof.
  revert s. induction fuel as [|fuel IH]; intros [|c s]; cbn [scan_string];
    try (left; eexists; auto).
  raises; try apply scan_escape_raises; try apply IH; left; eexists; auto.
Qed.

Lemma after_item_raises c s : raises_only loads_exn (after_item c s).
Proof. unfold after_item. raises. left; eexists; auto. Qed.

Lemma scan_key_raises s : raises_only loads_exn (scan_key s).
Proof. unfold scan_key. raises; try apply scan_string_raises; left; eexists; auto. Qed.

Section raises.
Context (pairs_hook : list (str * json) → res (list (str * json)))
        (constant_hook : str → res json)
        (P : exn → Prop) (parser_exn : ∀ e, loads_exn e → P e)
        (hook_raises : ∀ l, raises_only P (pairs_hook l))
        (constant_raises : ∀ c, raises_only P (constant_hook c)).

Lemma decode_error_exn m : P (decode_error m).
Proof using parser_exn. apply parser_exn. left. eexists. auto. Qed.
Lemma recursion_exn : P (RuntimeError "RecursionError").
Proof using parser_exn. apply parser_exn. by right. Qed.
Lemma limit_exn m : P (ValueError m).
Proof using parser_exn. apply parser_exn. left. eexists. auto. Qed.
Hint Resolve decode_error_exn recursion_exn limit_exn : core.


Lemma scan_scalar_raises s : raises_only P (scan_scalar constant_hook s).
Proof using All.
  unfold scan_scalar, scan_number. raises; try apply constant_raises; auto.
Qed.

Lemma scan_value_raises depth s :
  raises_only P (scan_value pairs_hook constant_hook depth s).
Proof using All.
  revert s. induction depth as [|depth IH]; intros s; [by apply recursion_exn|].
  destruct s as [|c s]; [by apply decode_error_exn|]. cbn [scan_value].
  destruct (c =? 34)%N; [raises; (eapply raises_impl; [apply scan_string_raises|done])|].
  destruct (c =? 123)%N.
  { apply raises_bind; [destruct (next_is _ _); [done|]|intros [? ?] _; raises; apply hook_raises].
    generalize (length s), (skip_ws s). clear s c.
    intros n. induction n as [|n IHn]; intros s; [by apply decode_error_exn|]. lazy beta iota.
    raises; try (eapply raises_impl; [apply scan_key_raises|done]); try apply IH; try (eapply raises_impl; [apply after_item_raises|done]); apply IHn. }
  destruct (c =? 91)%N; [|apply scan_scalar_raises].
  apply raises_bind; [destruct (next_is _ _); [done|]|by intros [? ?] _].
  generalize (length s), (skip_ws s). clear s c.
  intros n. induction n as [|n IHn]; intros s; [by apply decode_error_exn|]. lazy beta iota.
  raises; try apply IH; try (eapply raises_impl; [apply after_item_raises|done]); apply IHn.
Qed.

Lemma loads_raises depth s : raises_only P (loads pairs_hook constant_hook depth s).
Proof using All.
  unfold loads. raises; try apply scan_value_raises; auto.
Qed.
End raises.

Lemma loads_default_raises depth s : raises_only loads_exn (loads_default depth s).
Proof. by apply (loads_raises _ _ loads_exn). Qed.
