(* ===== verification/Sha256.v ===== *)
(** * SHA-256

    [Digest] is what the scripts rely on: a function of the bytes whose text is 64
    lowercase hexadecimal digits.  [sha256] is the function of [hashlib], and its
    instance discharges the interface. *)

From S2P Require Import Prelude PyStr Codec Regex.

Class Digest := {
  hexdigest : bytes → str;
  hexdigest_hex data : hex64 (hexdigest data) = true;
}.

Module Sha256.

Local Open Scope N_scope.

(** ** Words *)

Definition word (n : N) : N := n mod 2 ^ 32.
Definition rotr (n : N) (x : N) : N :=
  N.lor (N.shiftr x n) (word (N.shiftl x (32 - n))).
Definition Ch (x y z : N) : N := N.lxor (N.land x y) (N.land (N.lxor x 0xffffffff) z).
Definition Maj (x y z : N) : N := N.lxor (N.lxor (N.land x y) (N.land x z)) (N.land y z).
Definition Sigma0 (x : N) : N := N.lxor (N.lxor (rotr 2 x) (rotr 13 x)) (rotr 22 x).
Definition Sigma1 (x : N) : N := N.lxor (N.lxor (rotr 6 x) (rotr 11 x)) (rotr 25 x).
Definition sigma0 (x : N) : N := N.lxor (N.lxor (rotr 7 x) (rotr 18 x)) (N.shiftr x 3).
Definition sigma1 (x : N) : N := N.lxor (N.lxor (rotr 17 x) (rotr 19 x)) (N.shiftr x 10).

(** The first primes, by trial division. *)
Fixpoint primes (fuel count : nat) (n : N) (found : list N) : list N :=
  match fuel, count with
  | O, _ | _, O => reverse found
  | S fuel, S rest =>
      if existsb (λ p, n mod p =? 0) found then primes fuel count (n + 1) found
      else primes fuel rest (n + 1) (n :: found)
  end.

(** [max { r | r^3 <= n }] below [2^(bits)], bit by bit. *)
Fixpoint cube_root (bits : nat) (n r : N) : N :=
  match bits with
  | O => r
  | S i => let r' := r + 2 ^ N.of_nat i in
           cube_root i n (if r' ^ 3 <=? n then r' else r)
  end.

(** The round constants and the initial state: the first 32 bits of the fractional
    parts of the cube and square roots of the first primes. *)
Definition K : list N := Eval vm_compute in
  (λ p, word (cube_root 40 (N.shiftl p 96) 0)) <$> primes 320 64 2 [].
Definition H0 : list N := Eval vm_compute in
  (λ p, word (N.sqrt (N.shiftl p 64))) <$> primes 320 8 2 [].

(** ** One block *)

(** The message schedule, newest word first. *)
Fixpoint schedule (n : nat) (w : list N) : list N :=
  match n with
  | O => w
  | S n =>
      schedule n (word (sigma1 (nth 1 w 0) + nth 6 w 0 + sigma0 (nth 14 w 0) + nth 15 w 0) :: w)
  end.

Definition round (h : list N) (kw : N * N) : list N :=
  match h with
  | [a; b; c; d; e; f; g; h] =>
      let t1 := h + Sigma1 e + Ch e f g + kw.1 + kw.2 in
      let t2 := Sigma0 a + Maj a b c in
      [word (t1 + t2); a; b; c; word (d + t1); e; f; g]
  | _ => h
  end.

Definition compress (h : list N) (block : list N) : list N :=
  let w := reverse (schedule 48 (reverse block)) in
  zip_with (λ x y, word (x + y)) h (foldl round h (combine K w)).

(** ** The message *)

Definition be_word (l : bytes) : N := foldl (λ acc x, acc * 256 + bn x) 0 l.

Fixpoint groups {A} (fuel n : nat) (l : list A) : list (list A) :=
  match fuel, l with
  | O, _ | _, [] => []
  | S fuel, _ => take n l :: groups fuel n (drop n l)
  end.

Definition be_bytes (n : nat) (x : N) : bytes :=
  (λ i, nb (N.shiftr x (8 * N.of_nat (n - 1 - i)) mod 256)) <$> seq 0 n.

Definition pad (data : bytes) : bytes :=
  let len := length data in
  data ++ [x80] ++ replicate ((119 - len mod 64) mod 64) x00
  ++ be_bytes 8 (8 * N.of_nat len).

Definition digest (data : bytes) : list N :=
  let padded := pad data in
  let words := be_word <$> groups (length padded) 4 padded in
  foldl compress H0 (groups (length words) 16 words).

Definition hex_word (x : N) : str :=
  (λ i, let d := N.land (N.shiftr x (4 * N.of_nat (7 - i))) 15 in
        if d <? 10 then 48 + d else 87 + d) <$> seq 0 8.

Definition sha256 (data : bytes) : str := concat (hex_word <$> digest data).

Example sha256_empty :
  sha256 [] = u "e3b0c44298fc1c149afbf4c8996fb92427ae41e4649b934ca495991b7852b855".
Proof. vm_compute. reflexivity. Qed.
Example sha256_abc :
  sha256 (b "abc") = u "ba7816bf8f01cfea414140de5dae2223b00361a396177a9cb410ff61f20015ad".
Proof. vm_compute. reflexivity. Qed.

(** ** The digest is 64 hexadecimal digits *)

Lemma round_length h kw : length (round h kw) = length h.
Proof. destruct h as [|? [|? [|? [|? [|? [|? [|? [|? []]]]]]]]]; reflexivity. Qed.

Lemma rounds_length h l : length (foldl round h l) = length h.
Proof. revert h; induction l as [|kw l IH]; intros h; cbn; [done|]. by rewrite IH, round_length. Qed.

Lemma compress_length h block : length (compress h block) = length h.
Proof. unfold compress. rewrite length_zip_with, rounds_length. lia. Qed.

Lemma compresses_length h blocks : length (foldl compress h blocks) = length h.
Proof.
  revert h. induction blocks as [|block l IH]; intros h; [done|].
  cbn [foldl]. by rewrite IH, compress_length.
Qed.

Lemma digest_length data : length (digest data) = 8%nat.
Proof. unfold digest. by rewrite compresses_length. Qed.

Lemma hex_word_hex x : length (hex_word x) = 8%nat ∧ Forall (λ c, is_hex c = true) (hex_word x).
Proof.
  split; [done|]. unfold hex_word. apply Forall_fmap, Forall_forall. intros i _. cbn -[N.land].
  set (d := N.land _ 15).
  assert (d < 16) as Hd.
  { unfold d. change 15 with (N.ones 4). rewrite N.land_ones. by apply N.mod_lt. }
  unfold is_hex, is_digit. destruct (N.ltb_spec d 10);
    repeat match goal with |- context [(?a <=? ?c)] => destruct (N.leb_spec a c) end;
    cbn; try done; lia.
Qed.

Lemma sha256_hex data : hex64 (sha256 data) = true.
Proof.
  apply hex64_spec. unfold sha256. pose proof (digest_length data) as Hlen.
  assert (length (concat (hex_word <$> digest data)) = (8 * length (digest data))%nat
          ∧ Forall (λ c, is_hex c = true) (concat (hex_word <$> digest data))) as [-> H];
    [|by rewrite Hlen].
  clear Hlen. induction (digest data) as [|x l [IH1 IH2]]; [done|].
  rewrite fmap_cons. cbn [concat length].
  destruct (hex_word_hex x) as [Hl Hf]. rewrite length_app, IH1, Forall_app. split; [|done].
  rewrite Hl. lia.
Qed.

End Sha256.

#[export] Instance sha256_digest : Digest :=
  {| hexdigest := Sha256.sha256; hexdigest_hex := Sha256.sha256_hex |}.
