(* ===== verification/PyPath.v ===== *)
(** * POSIX paths and decimal division

    [PurePosixPath] as the scripts use it (parts, name, text form) and
    [Decimal(a) / Decimal(c)] at a given precision with its text form. *)

From S2P Require Import Prelude PyStr Codec PyFloat.

(** ** Paths *)

(** Two leading slashes, not three, are a root of their own. *)
Definition path_root (s : str) : str :=
  if starts_with (u "//") s && negb (starts_with (u "///") s) then u "//"
  else if starts_with (u "/") s then u "/" else [].

Definition path_names (s : str) : list str :=
  filter (λ w, w ≠ [] ∧ w ≠ u ".") (split_on 47 s).

(** [PurePosixPath(s).parts]. *)
Definition path_parts (s : str) : list str :=
  match path_root s with [] => path_names s | r => r :: path_names s end.

(** [str(PurePosixPath(s))]. *)
Definition path_str (s : str) : str :=
  match path_root s ++ join [47%N] (path_names s) with [] => u "." | t => t end.

(** [PurePosixPath(s).name]. *)
Definition path_name (s : str) : str := default [] (last (path_names s)).

Example path_tests :
  path_str (u "a//b/./c/") = u "a/b/c" ∧ path_str (u "") = u "."
  ∧ path_parts (u "/a/..") = [u "/"; u "a"; u ".."] ∧ path_name (u "x/libusb-1.0.a") = u "libusb-1.0.a".
Proof. vm_compute. repeat split. Qed.

(** ** Decimal division *)

Local Open Scope Z_scope.

(** A non-negative decimal: [coeff * 10^exp]. *)
Record decimal := Decimal { coeff : Z; dexp : Z }.

(** Removing the trailing zeros of an exact quotient, up to exponent 0. *)
Fixpoint to_ideal (fuel : nat) (d : decimal) : decimal :=
  match fuel with
  | O => d
  | S fuel =>
      if (dexp d <? 0) && (coeff d `mod` 10 =? 0)
      then to_ideal fuel (Decimal (coeff d / 10) (dexp d + 1)) else d
  end.

(** Rounding to the context precision, half to even. *)
Definition round_prec (precision : Z) (d : decimal) : decimal :=
  let drop := num_digits (coeff d) - precision in
  if drop <=? 0 then d else
  let q := div_half_even (coeff d) (10 ^ drop) in
  if precision <? num_digits q then Decimal (q / 10) (dexp d + drop + 1)
  else Decimal q (dexp d + drop).

(** [Decimal(a) / Decimal(c)] for integers [a >= 0] and [c > 0]. *)
Definition decimal_div (precision a c : Z) : decimal :=
  if a =? 0 then Decimal 0 0 else
  let shift := num_digits c - num_digits a + precision + 1 in
  let n := a * 10 ^ Z.max shift 0 in
  let d := c * 10 ^ Z.max (- shift) 0 in
  let q := n / d in
  if n `mod` d =? 0 then
    round_prec precision (to_ideal (Z.to_nat (Z.max shift 0)) (Decimal q (- shift)))
  else round_prec precision (Decimal (if q `mod` 5 =? 0 then q + 1 else q) (- shift)).

(** [str(d)]. *)
Definition decimal_str (d : decimal) : str :=
  let digits := dec_Z (coeff d) in
  let n := lenZ digits in
  let left := dexp d + n in
  let dot := if (dexp d <=? 0) && (-6 <? left) then left else 1 in
  let mant :=
    if dot <=? 0 then u "0." ++ replicate (Z.to_nat (- dot)) 48%N ++ digits
    else if n <=? dot then digits ++ replicate (Z.to_nat (dot - n)) 48%N
    else takeZ dot digits ++ u "." ++ dropZ dot digits in
  if left =? dot then mant
  else mant ++ u "E" ++ (if left - dot <? 0 then u "-" else u "+") ++ dec_Z (Z.abs (left - dot)).

Example decimal_tests :
  decimal_str (decimal_div 24 100 201) = u "0.497512437810945273631841"
  ∧ decimal_str (decimal_div 24 100 200) = u "0.5"
  ∧ decimal_str (decimal_div 24 0 7) = u "0"
  ∧ decimal_str (decimal_div 24 100 100000001) = u "9.99999990000000099999999E-7"
  ∧ decimal_str (decimal_div 24 200 3) = u "66.6666666666666666666667".
Proof. vm_compute. repeat split. Qed.
