(* ===== verification/TsQuality.v ===== *)
(** * Release quality gate: [docs/release-validation/ts-quality-check.py]

    [run] turns the receiver inputs of a profile into a result: input errors, one row
    per input and the overall verdict.  The file system is the environment: what
    reading a path gives and where a path resolves to. *)

From stdpp Require Import sorting.
From S2P Require Import Prelude PyStr Codec PyFloat PyPath Json.

Local Open Scope Z_scope.

(** ** Profiles *)

Inductive tei_rule := TeiZero | TeiLess.
Inductive cc_rule := CcEqual | CcLess.

Record profile := Profile {
  p_product : str;
  p_pattern : str;
  p_receivers : list str;
  p_tei_numerator : Z;
  p_tei_denominator : Z;
  p_tei_op : tei_rule;
  p_cc_limit : Z;
  p_cc_op : cc_rule;
}.

Definition PROFILES : list (str * profile) :=
  [(u "asicen-w3u3-rx0-3",
     Profile (u "ASICEN") (u "PX-W3U3 receivers 0-3 simultaneous")
       [u "0"; u "1"; u "2"; u "3"] 0 1 TeiZero 0 CcEqual);
   (u "px4-rx0-5",
     Profile (u "PX4") (u "PX-Q3U4 receivers 0-5 simultaneous")
       [u "0"; u "1"; u "2"; u "3"; u "4"; u "5"] 0 1 TeiZero 0 CcEqual);
   (u "px4-rx6",
     Profile (u "PX4") (u "PX-Q3U4 receiver 6 single") [u "6"] 0 1 TeiZero 0 CcEqual);
   (u "px4-rx7",
     Profile (u "PX4") (u "PX-Q3U4 receiver 7 single") [u "7"] 1 2 TeiLess 40 CcLess);
   (u "pix-dt181",
     Profile (u "PIX") (u "PIX-DT181-PU0") [u "0"] 0 1 TeiZero 12 CcLess);
   (u "pix-dt295",
     Profile (u "PIX") (u "PIX-DT295") [u "0"] 0 1 TeiZero 12 CcLess);
   (u "siano-s1ud",
     Profile (u "Siano") (u "PX-S1UD receiver 0") [u "0"] 1 1000 TeiLess 10 CcLess)].

Definition ENVIRONMENTS : list str := [u "representative-linux"; u "windows"; u "macos"].

Fixpoint find_profile (name : str) (l : list (str * profile)) : option profile :=
  match l with
  | [] => None
  | (n, p) :: l => if decide (n = name) then Some p else find_profile name l
  end.

(** ** Loading one scan *)

(** What [Path.read_bytes()] does. *)
Inductive file := Contents (data : bytes) | Missing | Unreadable.

(** An [int] that is not a [bool], not negative. *)
Definition valid_count (v : option json) : bool :=
  match v with Some (JInt n) => 0 <=? n | _ => false end.

(** The text of a scan file: the encoding is chosen by the byte-order mark. *)
Definition decode_scan (data : bytes) : option str :=
  match data with
  | xff :: xfe :: _ => decode_utf16 data
  | xfe :: xff :: _ => decode_utf16 data
  | xef :: xbb :: xbf :: rest => decode_utf8 rest
  | _ => decode_utf8 data
  end.

Record scan := Scan {
  sc_packets : Z;
  sc_tei : Z;
  sc_continuity_errors : Z;
  sc_file : option json;
}.

Definition int_of (v : option json) : Z := match v with Some (JInt n) => n | _ => 0 end.

(** The checks on the decoded object, in order. *)
Definition check_scan (d : list (str * json)) : scan + str :=
  match List.find (λ key, negb (valid_count (dict_get key d)))
          [u "packets"; u "tei"; u "continuity_errors"] with
  | Some key => inr (key ++ u " must be a nonnegative integer")
  | None =>
      let packets := int_of (dict_get (u "packets") d) in
      let tei := int_of (dict_get (u "tei") d) in
      if packets =? 0 then inr (u "packet count is zero")
      else if packets <? tei then inr (u "TEI count exceeds packet count")
      else inl (Scan packets tei (int_of (dict_get (u "continuity_errors") d))
                     (dict_get (u "file") d))
  end.

(** [load_scan]: a scan or the error text (without the decoder's own message).  The
    [RecursionError] and the plain [ValueError] (an integer of more than 4300 digits) of
    the JSON parser are not caught. *)
Definition load_scan (limit : nat) (f : file) : res (scan + str) :=
  match f with
  | Missing => Ok (inr (u "missing scan JSON"))
  | Unreadable => Ok (inr (u "unreadable scan JSON: "))
  | Contents data =>
      match decode_scan data with
      | None => Ok (inr (u "unreadable scan JSON: "))
      | Some text =>
          match loads_default limit text with
          | Err (JSONDecodeError _) => Ok (inr (u "unreadable scan JSON: "))
          | Err e => Err e
          | Ok (JDict d) => Ok (check_scan d)
          | Ok _ => Ok (inr (u "scan JSON must be an object"))
          end
      end
  end.

(** ** Evaluating one scan *)

Inductive verdict := PASS | FAIL.
#[export] Instance verdict_eq_dec : EqDecision verdict.
Proof. solve_decision. Defined.
Definition verdict_of (x : bool) : verdict := if x then PASS else FAIL.

Record evaluation := Evaluation {
  ev_input : str;
  ev_receiver : str;
  ev_scan_file : option json;
  ev_packets : Z;
  ev_tei : Z;
  ev_tei_rate_percent_display_only : str;
  ev_tei_rule : str;
  ev_tei_result : verdict;
  ev_continuity_errors : Z;
  ev_cc_rule : str;
  ev_cc_result : verdict;
  ev_automated_result : verdict;
}.

Definition evaluate_scan (path receiver : str) (s : scan) (p : profile) : evaluation :=
  let tei_pass := match p_tei_op p with
    | TeiZero => sc_tei s =? 0
    | TeiLess => sc_tei s * 100 * p_tei_denominator p <? sc_packets s * p_tei_numerator p
    end in
  let tei_rule := match p_tei_op p with
    | TeiZero => u "TEI == 0"
    | TeiLess => u "TEI * 100 * " ++ dec_Z (p_tei_denominator p) ++ u " < packets * "
                 ++ dec_Z (p_tei_numerator p)
    end in
  let cc := sc_continuity_errors s in
  let cc_pass := match p_cc_op p with
    | CcEqual => cc =? p_cc_limit p
    | CcLess => cc <? p_cc_limit p
    end in
  let cc_rule := match p_cc_op p with
    | CcEqual => u "CC == " ++ dec_Z (p_cc_limit p)
    | CcLess => u "CC < " ++ dec_Z (p_cc_limit p)
    end in
  Evaluation path receiver (sc_file s) (sc_packets s) (sc_tei s)
    (decimal_str (decimal_div 24 (sc_tei s * 100) (sc_packets s)))
    tei_rule (verdict_of tei_pass) cc cc_rule (verdict_of cc_pass)
    (verdict_of (tei_pass && cc_pass)).

(** ** The run *)

Inductive row :=
| RowError (input receiver : str) (scan_file : option str) (error : str)
| RowResult (e : evaluation).

Definition row_result (r : row) : verdict :=
  match r with RowError _ _ _ _ => FAIL | RowResult e => ev_automated_result e end.

Record result := Result {
  res_product : str;
  res_profile : str;
  res_pattern : str;
  res_environment : str;
  res_tei_rate_limit_percent : str;
  res_cc_limit : Z;
  res_cc_comparison : str;
  res_results : list row;
  res_input_errors : list str;
  res_automated_result : verdict;
}.

Section run.
(** The recursion limit, [Path.read_bytes] and [Path.resolve]. *)
Context (limit : nat) (read_bytes : str → file) (resolve : str → str).

(** [RECEIVER=PATH], or a bare path for a single-receiver profile. *)
Definition parse_input (p : profile) (value : str) : (str * str) * list str :=
  match split1 61 value with
  | Some (receiver, path) => ((receiver, path_str path), [])
  | None =>
      match p_receivers p with
      | [receiver] => ((receiver, path_str value), [])
      | _ => (([], path_str value), [u "receiver label required for " ++ value])
      end
  end.

Record seen := Seen {
  seen_receivers : gset str;
  seen_paths : gset str;
  seen_errors : list str;
}.

(** The first loop over the inputs: duplicates and unexpected receivers. *)
Definition check_input (p : profile) (s : seen) (input : str * str) : seen :=
  let '(receiver, input_path) := input in
  let resolved := resolve input_path in
  Seen ({[receiver]} ∪ seen_receivers s) ({[resolved]} ∪ seen_paths s)
    (seen_errors s
     ++ (if decide (receiver ∈ seen_receivers s)
         then [u "duplicate receiver: " ++ receiver] else [])
     ++ (if decide (receiver ∈ p_receivers p) then []
         else [u "unexpected receiver: "
               ++ match receiver with [] => u "(missing)" | _ => receiver end])
     ++ (if decide (resolved ∈ seen_paths s)
         then [u "duplicate input path: " ++ resolved] else [])).

Definition missing_receivers (p : profile) (seen : gset str) : list str :=
  sorted (elements (list_to_set (p_receivers p) ∖ seen)).

(** The second loop: loading and evaluating, with the scan files already seen. *)
Definition evaluate_input (p : profile) (s : gset str * list str * list row)
    (input : str * str) : res (gset str * list str * list row) :=
  let '(seen_files, errors, rows) := s in
  let '(receiver, input_path) := input in
  loaded ← load_scan limit (read_bytes input_path);
  match loaded with
  | inr error =>
      Ok (seen_files, errors, rows ++ [RowError input_path receiver None error])
  | inl scan =>
      match sc_file scan with
      | Some (JStr f) =>
          if decide (f ∈ seen_files) then
            Ok (seen_files, errors ++ [u "duplicate scan file: " ++ f],
                rows ++ [RowError input_path receiver (Some f) (u "duplicate scan file")])
          else Ok ({[f]} ∪ seen_files, errors,
                   rows ++ [RowResult (evaluate_scan input_path receiver scan p)])
      | _ => Ok (seen_files, errors,
                 rows ++ [RowResult (evaluate_scan input_path receiver scan p)])
      end
  end.

Definition run (profile_name environment : str) (inputs : list str) : res result :=
  p ← of_option (KeyError "PROFILES") (find_profile profile_name PROFILES);
  let parsed := parse_input p <$> inputs in
  let parsed_inputs := parsed.*1 in
  let s := foldl (check_input p) (Seen ∅ ∅ (concat parsed.*2)) parsed_inputs in
  let missing := missing_receivers p (seen_receivers s) in
  let errors := seen_errors s ++
    (match missing with [] => [] | _ => [u "missing receivers: " ++ join (u ",") missing] end) in
  '(_, errors, rows) ← fold_res (evaluate_input p) (∅, errors, []) parsed_inputs;
  let passed := negb (bool_decide (rows = [])) && bool_decide (errors = [])
                && forallb (λ r, bool_decide (row_result r = PASS)) rows in
  Ok (Result (p_product p) profile_name (p_pattern p) environment
        (dec_Z (p_tei_numerator p) ++ u "/" ++ dec_Z (p_tei_denominator p))
        (p_cc_limit p) (match p_cc_op p with CcEqual => u "==" | CcLess => u "<" end)
        rows errors (verdict_of passed)).

(** [main]: the exit code and the printed result. *)
Definition main (profile_name environment : str) (inputs : list str) : res (Z * result) :=
  if decide (profile_name ∈ PROFILES.*1 ∧ environment ∈ ENVIRONMENTS ∧ inputs ≠ [])
  then r ← run profile_name environment inputs;
       Ok (match res_automated_result r with PASS => 0 | FAIL => 1 end, r)
  else Err (SystemExit 2 "usage").
End run.
