(* ===== verification/TsQualityProps.v ===== *)
(** * Properties of the release quality gate *)

From Stdlib Require Import QArith.
From stdpp Require Import sorting.
From S2P Require Import Prelude PyStr Codec PyFloat PyPath Json TsQuality.

Local Open Scope Z_scope.

(** ** One scan against a profile *)

(** A profile of the table: positive denominator, distinct non-empty receivers. *)
Definition profile_ok (p : profile) : Prop :=
  0 < p_tei_denominator p ∧ NoDup (p_receivers p) ∧ [] ∉ p_receivers p ∧ p_receivers p ≠ [].

#[export] Instance profile_ok_dec p : Decision (profile_ok p).
Proof. unfold profile_ok. apply _. Defined.

Lemma find_profile_elem name l p : find_profile name l = Some p → p ∈ l.*2.
Proof.
  induction l as [|[n q] l IH]; cbn; [done|]. case_decide; [intros [= ->]; by left|].
  intros Hf. right. auto.
Qed.

Lemma profiles_ok : Forall profile_ok PROFILES.*2.
Proof. apply (bool_decide_eq_true_1 _). vm_compute. reflexivity. Qed.

Lemma find_profile_ok name p : find_profile name PROFILES = Some p → profile_ok p.
Proof. intros H%find_profile_elem. by apply (proj1 (Forall_forall _ _) profiles_ok). Qed.

(** The TEI and continuity limits of a profile, as a user reads them. *)
Definition tei_within (p : profile) (s : scan) : Prop :=
  match p_tei_op p with
  | TeiZero => sc_tei s = 0
  | TeiLess => ((sc_tei s * 100) # Z.to_pos (sc_packets s)
                < p_tei_numerator p # Z.to_pos (p_tei_denominator p))%Q
  end.
Definition cc_within (p : profile) (s : scan) : Prop :=
  match p_cc_op p with
  | CcEqual => sc_continuity_errors s = p_cc_limit p
  | CcLess => sc_continuity_errors s < p_cc_limit p
  end.
Definition within (p : profile) (s : scan) : Prop := tei_within p s ∧ cc_within p s.

Lemma verdict_of_PASS x : verdict_of x = PASS ↔ x = true.
Proof. by destruct x. Qed.

Lemma evaluate_scan_spec path receiver s p :
  0 < sc_packets s → 0 < p_tei_denominator p →
  (ev_tei_result (evaluate_scan path receiver s p) = PASS ↔ tei_within p s)
  ∧ (ev_cc_result (evaluate_scan path receiver s p) = PASS ↔ cc_within p s)
  ∧ (ev_automated_result (evaluate_scan path receiver s p) = PASS ↔ within p s).
Proof.
  intros Hs Hp. unfold evaluate_scan, within; cbn. rewrite !verdict_of_PASS, andb_true_iff.
  assert ((match p_tei_op p with
    | TeiZero => sc_tei s =? 0
    | TeiLess => sc_tei s * 100 * p_tei_denominator p <? sc_packets s * p_tei_numerator p
    end) = true ↔ tei_within p s) as Ht.
  { unfold tei_within. destruct (p_tei_op p); [apply Z.eqb_eq|].
    rewrite Z.ltb_lt. unfold Qlt; cbn. rewrite !Z2Pos.id by done. lia. }
  assert ((match p_cc_op p with
    | CcEqual => sc_continuity_errors s =? p_cc_limit p
    | CcLess => sc_continuity_errors s <? p_cc_limit p
    end) = true ↔ cc_within p s) as Hc.
  { unfold cc_within. destruct (p_cc_op p); [apply Z.eqb_eq|apply Z.ltb_lt]. }
  rewrite Ht, Hc. done.
Qed.

(** A loaded scan counts at least one packet and no more errors than packets. *)
Definition scan_ok (s : scan) : Prop :=
  0 < sc_packets s ∧ 0 ≤ sc_tei s ≤ sc_packets s ∧ 0 ≤ sc_continuity_errors s.

Lemma valid_count_iff v : valid_count v = true ↔ ∃ n, v = Some (JInt n) ∧ 0 ≤ n.
Proof.
  destruct v as [[]|]; cbn; rewrite ?Z.leb_le; split; try naive_solver; by intros (? & ? & _).
Qed.

(** The guards of [check_scan], read as one condition. *)
Lemma check_scan_inl d s :
  check_scan d = inl s ↔
  dict_get (u "packets") d = Some (JInt (sc_packets s))
  ∧ dict_get (u "tei") d = Some (JInt (sc_tei s))
  ∧ dict_get (u "continuity_errors") d = Some (JInt (sc_continuity_errors s))
  ∧ dict_get (u "file") d = sc_file s
  ∧ scan_ok s.
Proof.
  unfold check_scan, scan_ok. cbn [List.find].
  destruct (valid_count (dict_get (u "packets") d)) eqn:Hp,
    (valid_count (dict_get (u "tei") d)) eqn:Ht,
    (valid_count (dict_get (u "continuity_errors") d)) eqn:Hc; cbn [negb];
    try (split; [done|]; intros (Gp & Gt & Gc & _ & ?);
         rewrite ?Gp in Hp; rewrite ?Gt in Ht; rewrite ?Gc in Hc; cbn in Hp, Ht, Hc; bool_prop; lia).
  apply valid_count_iff in Hp as (np & -> & ?), Ht as (nt & -> & ?), Hc as (nc & -> & ?).
  cbn [int_of]. destruct s as [sp st sc sf]; cbn.
  destruct (Z.eqb_spec np 0) as [->|]; [|destruct (Z.ltb_spec np nt)].
  1-2: split; [done|]; intros ([= <-] & [= <-] & _ & _ & ?); lia.
  split; [intros [= <- <- <- <-]; split_and!; try done; lia|].
  by intros ([= <-] & [= <-] & [= <-] & <- & _).
Qed.

Lemma load_scan_ok limit f s : load_scan limit f = Ok (inl s) → scan_ok s.
Proof.
  unfold load_scan. destruct f as [data| |]; try done.
  destruct (decode_scan data); [|done]. destruct (loads_default _ _) as [[]|[]]; try done.
  intros [= H]. apply check_scan_inl in H. tauto.
Qed.

(** ** The two loops of [run] *)

Section run.
Context (resolve : str → str) (p : profile).

Lemma check_inputs_spec l R P E :
  let s := foldl (check_input resolve p) (Seen R P E) l in
  seen_receivers s = list_to_set l.*1 ∪ R ∧
  (seen_errors s = [] ↔
     E = [] ∧ NoDup l.*1 ∧ (∀ x, x ∈ l.*1 → x ∉ R) ∧ (∀ x, x ∈ l.*1 → x ∈ p_receivers p)
     ∧ NoDup (resolve <$> l.*2) ∧ (∀ x, x ∈ resolve <$> l.*2 → x ∉ P)).
Proof.
  revert R P E. induction l as [|[r x] l IH]; intros R P E; cbn.
  { split; [set_solver|]. split; [|naive_solver].
    intros ->. split_and!; try constructor; set_solver. }
  destruct (IH ({[r]} ∪ R) ({[resolve x]} ∪ P) (E
     ++ (if decide (r ∈ R) then [u "duplicate receiver: " ++ r] else [])
     ++ (if decide (r ∈ p_receivers p) then []
         else [u "unexpected receiver: " ++ match r with [] => u "(missing)" | _ => r end])
     ++ (if decide (resolve x ∈ P) then [u "duplicate input path: " ++ resolve x] else [])))
    as [Hr He].
  split; [rewrite Hr; set_solver|]. rewrite He. clear IH Hr He.
  rewrite !app_nil, !NoDup_cons. setoid_rewrite elem_of_cons.
  setoid_rewrite not_elem_of_union. setoid_rewrite not_elem_of_singleton.
  destruct (decide (r ∈ R)), (decide (r ∈ p_receivers p)), (decide (resolve x ∈ P));
    naive_solver.
Qed.
End run.

(** The distinct-file discipline looks at the scans that name a file by a string. *)
Definition file_name (s : scan) : option str :=
  match sc_file s with Some (JStr f) => Some f | _ => None end.
Definition scan_files (scans : list scan) : list str := omap file_name scans.
Definition note_file (F : gset str) (s : scan) : gset str :=
  match file_name s with Some f => {[f]} ∪ F | None => F end.
Definition fresh_file (F : gset str) (s : scan) : Prop :=
  match file_name s with Some f => f ∉ F | None => True end.

Section evaluate.
Context (limit : nat) (read_bytes : str → file) (p : profile).

(** The input loads as [s] and [s] passes the profile. *)
Definition good (input : str * str) (s : scan) : Prop :=
  load_scan limit (read_bytes input.2) = Ok (inl s)
  ∧ ev_automated_result (evaluate_scan input.2 input.1 s p) = PASS.

Definition rows_pass (rows : list row) : Prop := Forall (λ r, row_result r = PASS) rows.

(** One step of the second loop, in terms of the scan it loads. *)
Lemma evaluate_input_scan F E rows input s :
  load_scan limit (read_bytes input.2) = Ok (inl s) →
  (fresh_file F s ∧ evaluate_input limit read_bytes p (F, E, rows) input =
    Ok (note_file F s, E, rows ++ [RowResult (evaluate_scan input.2 input.1 s p)]))
  ∨ (¬ fresh_file F s ∧ ∃ dup error, row_result error = FAIL ∧
       evaluate_input limit read_bytes p (F, E, rows) input =
       Ok (F, E ++ [dup], rows ++ [error])).
Proof.
  destruct input as [receiver path]; cbn [fst snd]. intros Hl.
  unfold evaluate_input, fresh_file, note_file, file_name. rewrite Hl. cbn [mbind res_bind].
  destruct (sc_file s) as [[| | | |f| |]|]; try (left; by split).
  case_decide; [right|left; by split]. split; [tauto|].
  by do 2 eexists; split; [|reflexivity].
Qed.

Lemma rows_pass_snoc rows r :
  rows_pass (rows ++ [r]) ↔ rows_pass rows ∧ row_result r = PASS.
Proof. unfold rows_pass. by rewrite Forall_app, Forall_singleton. Qed.

(** A passing input: nothing but its row and its file name is added. *)
Lemma evaluate_input_good F E rows input s :
  good input s → fresh_file F s →
  ∃ r, row_result r = PASS ∧
    evaluate_input limit read_bytes p (F, E, rows) input = Ok (note_file F s, E, rows ++ [r]).
Proof.
  intros [Hl Hp] Hf. destruct (evaluate_input_scan F E rows input s Hl) as [[_ H]|[? _]];
    [|done]. rewrite H. by eexists (RowResult _).
Qed.

(** One input that returned; if no error is recorded and its row passes, it was a
    passing input. *)
Lemma evaluate_input_inv F E rows input F' E' rows' :
  evaluate_input limit read_bytes p (F, E, rows) input = Ok (F', E', rows') →
  length rows' = S (length rows) ∧
  (E' = [] → rows_pass rows' →
   E = [] ∧ rows_pass rows ∧ ∃ s, good input s ∧ fresh_file F s ∧ F' = note_file F s).
Proof.
  intros H. destruct (load_scan limit (read_bytes input.2)) as [[s|error]|e] eqn:Hl.
  - unfold good. rewrite Hl.
    destruct (evaluate_input_scan F E rows input s Hl)
      as [[Hf H']|(Hf & dup & err & Herr & H')];
      rewrite H in H'; injection H' as -> -> ->;
      rewrite length_app, Nat.add_1_r, rows_pass_snoc; (split; [done|]); cbn [row_result].
    + intros -> (? & ?). eauto 10.
    + by intros [??]%app_nil.
  - destruct input as [receiver path]. unfold evaluate_input in H; cbn [snd] in Hl.
    rewrite Hl in H. injection H as <- <- <-. rewrite length_app, Nat.add_1_r, rows_pass_snoc.
    split; [done|]. by intros _ (_ & ?).
  - destruct input as [receiver path]. unfold evaluate_input in H; cbn [snd] in Hl.
    by rewrite Hl in H.
Qed.

Lemma scan_files_cons s l :
  scan_files (s :: l)
  = match file_name s with Some f => f :: scan_files l | None => scan_files l end.
Proof. done. Qed.

(** The whole second loop. *)
Lemma evaluate_inputs_inv inputs F E rows F' E' rows' :
  fold_res (evaluate_input limit read_bytes p) (F, E, rows) inputs = Ok (F', E', rows') →
  length rows' = (length rows + length inputs)%nat ∧
  (E' = [] → rows_pass rows' →
   E = [] ∧ rows_pass rows ∧ ∃ scans, Forall2 good inputs scans ∧ NoDup (scan_files scans)
     ∧ ∀ f, f ∈ scan_files scans → f ∉ F).
Proof.
  revert F E rows. induction inputs as [|i inputs IH]; intros F E rows; cbn [fold_res].
  - intros [= <- <- <-]. split; [cbn; lia|].
    intros -> ?. split_and!; [done..|]. exists []. split_and!; [constructor..|set_solver].
  - rewrite bind_Ok. intros ([[F1 E1] rows1] & H1 & H2).
    apply evaluate_input_inv in H1 as [Hlen H1]. apply IH in H2 as [Hlen2 H2]. clear IH.
    split; [cbn; lia|]. intros HE' Hr'.
    destruct (H2 HE' Hr') as (HE & Hr & scans & Hg & Hn & Hf).
    destruct (H1 HE Hr) as (-> & ? & s & Hs & Hfresh & ->). split_and!; [done..|].
    exists (s :: scans). split; [by constructor|].
    unfold fresh_file, note_file in *. rewrite scan_files_cons.
    destruct (file_name s); [rewrite NoDup_cons; set_solver|done].
Qed.

Lemma evaluate_inputs_good inputs scans F rows :
  Forall2 good inputs scans → NoDup (scan_files scans) →
  (∀ f, f ∈ scan_files scans → f ∉ F) → rows_pass rows →
  ∃ F' rows', fold_res (evaluate_input limit read_bytes p) (F, [], rows) inputs
              = Ok (F', [], rows') ∧ rows_pass rows'.
Proof.
  intros Hg. revert F rows. induction Hg as [|i s inputs scans Hi Hg IH];
    intros F rows Hn Hf Hr; [by exists F, rows|].
  rewrite scan_files_cons in Hn, Hf.
  destruct (evaluate_input_good F [] rows i s Hi) as (r & Hpass & He).
  { unfold fresh_file. destruct (file_name s); [set_solver|done]. }
  destruct (IH (note_file F s) (rows ++ [r])) as (F' & rows' & Hrest & Hpass').
  - destruct (file_name s); [by apply NoDup_cons in Hn as [??]|done].
  - unfold note_file. destruct (file_name s); [|done]. apply NoDup_cons in Hn. set_solver.
  - by apply rows_pass_snoc.
  - exists F', rows'. cbn [fold_res]. rewrite He. done.
Qed.
End evaluate.

(** ** The whole gate *)

Section gate.
Context (limit : nat) (read_bytes : str → file) (resolve : str → str).

Definition labelled (p : profile) (inputs : list str) : list (str * str) :=
  (parse_input p <$> inputs).*1.

(** A label error names a receiver that no profile has. *)
Lemma parse_input_label p value :
  profile_ok p → (parse_input p value).1.1 ∈ p_receivers p → (parse_input p value).2 = [].
Proof.
  intros (_ & _ & Hempty & Hne). unfold parse_input.
  destruct (split1 61 value) as [[??]|]; [done|].
  destruct (p_receivers p) as [|r [|r' l]]; done.
Qed.

Lemma labels_ok p inputs :
  profile_ok p → (∀ x, x ∈ (labelled p inputs).*1 → x ∈ p_receivers p) →
  concat (parse_input p <$> inputs).*2 = [].
Proof.
  intros Hp. unfold labelled. induction inputs as [|v inputs IH]; cbn; [done|]. intros H.
  rewrite parse_input_label, IH; [done| |done|apply H; by left].
  intros x Hx. apply H. by right.
Qed.

Lemma missing_nil p seen :
  missing_receivers p seen = [] ↔ ∀ x, x ∈ p_receivers p → x ∈ seen.
Proof.
  unfold missing_receivers.
  assert (∀ l, sorted l = [] ↔ l = []) as Hs.
  { intros l. split; [|by intros ->]. intros H. apply Permutation_nil. rewrite <- H.
    apply merge_sort_Permutation. }
  rewrite Hs, elements_empty_iff, elem_of_equiv_empty.
  setoid_rewrite elem_of_difference. setoid_rewrite elem_of_list_to_set.
  split; intros H x; [intros Hx; destruct (decide (x ∈ seen)); [done|]; by destruct (H x)|].
  intros [Hx Hn]. by apply Hn, H.
Qed.

(** What a passing run has: every receiver of the profile exactly once, distinct
    resolved paths, every scan readable, within the limits and of its own file. *)
Definition passes (p : profile) (inputs : list str) (scans : list scan) : Prop :=
  (labelled p inputs).*1 ≡ₚ p_receivers p
  ∧ NoDup (resolve <$> (labelled p inputs).*2)
  ∧ Forall2 (λ i s, load_scan limit (read_bytes i.2) = Ok (inl s) ∧ within p s)
      (labelled p inputs) scans
  ∧ NoDup (scan_files scans).

Lemma good_iff p i s :
  profile_ok p →
  good limit read_bytes p i s ↔
  load_scan limit (read_bytes i.2) = Ok (inl s) ∧ within p s.
Proof.
  intros (Hden & _). unfold good. split; intros [Hl H]; (split; [done|]);
    apply load_scan_ok in Hl as [? _]; by apply (evaluate_scan_spec i.2 i.1 s p).
Qed.

(** The error list of the first loop, with the missing receivers added. *)
Definition input_errors (p : profile) (inputs : list str) : list str :=
  let s := foldl (check_input resolve p) (Seen ∅ ∅ (concat (parse_input p <$> inputs).*2))
             (labelled p inputs) in
  let missing := missing_receivers p (seen_receivers s) in
  seen_errors s ++
    (match missing with [] => [] | _ => [u "missing receivers: " ++ join (u ",") missing] end).

Lemma input_errors_nil p inputs :
  profile_ok p →
  input_errors p inputs = [] ↔
  (labelled p inputs).*1 ≡ₚ p_receivers p ∧ NoDup (resolve <$> (labelled p inputs).*2).
Proof.
  intros Hp. unfold input_errors.
  destruct (check_inputs_spec resolve p (labelled p inputs) ∅ ∅
              (concat (parse_input p <$> inputs).*2)) as [Hr He].
  cbn zeta. set (S := foldl _ _ _) in *.
  assert (missing_receivers p (seen_receivers S) = []
          ↔ ∀ x, x ∈ p_receivers p → x ∈ (labelled p inputs).*1) as Hm.
  { rewrite missing_nil, Hr.
    setoid_rewrite elem_of_union. setoid_rewrite elem_of_list_to_set.
    split; intros H x Hx; [destruct (H x Hx) as [|[]%elem_of_empty]; done|left; auto]. }
  rewrite app_nil, He.
  assert (∀ m, match m with
     | [] => [] | _ => [u "missing receivers: " ++ join (u ",") m] end = [] ↔ m = []) as Hmatch
    by (by intros []).
  rewrite (Hmatch (missing_receivers _ _)), Hm.
  pose proof Hp as (_ & Hnd & _ & _). split.
  - intros [(_ & Hn & _ & Hsub & Hpaths & _) Hall]. split; [|done].
    apply NoDup_Permutation; [done..|]. split; auto.
  - intros [Hperm Hpaths].
    assert (∀ x, x ∈ (labelled p inputs).*1 → x ∈ p_receivers p) as Hsub.
    { intros x. by rewrite Hperm. }
    split_and!; [by apply labels_ok|by rewrite Hperm|set_solver|done|done|set_solver|].
    intros x. by rewrite Hperm.
Qed.

Lemma run_passes_iff name environment inputs :
  (∃ r, run limit read_bytes resolve name environment inputs = Ok r
        ∧ res_automated_result r = PASS) ↔
  ∃ p scans, find_profile name PROFILES = Some p ∧ passes p inputs scans.
Proof.
  unfold run. destruct (find_profile name PROFILES) as [p|] eqn:Hp; cbn [of_option mbind res_bind];
    [|by split; [intros (? & ? & _)|intros (? & ? & ? & _)]].
  pose proof (find_profile_ok _ _ Hp) as Hok.
  change (seen_errors _ ++ _) with (input_errors p inputs).
  change (parse_input p <$> inputs).*1 with (labelled p inputs).
  split.
  - intros (r & Hr & Hpass). apply bind_Ok in Hr as ([[F E] rows] & Hl & [= <-]).
    cbn [res_automated_result] in Hpass. apply verdict_of_PASS in Hpass. bool_prop.
    apply evaluate_inputs_inv in Hl as [_ Hl].
    destruct Hl as (He & _ & scans & Hg & Hn & _); [done|..].
    { apply Forall_forall. intros x Hx.
      match goal with H : forallb _ _ = true |- _ => rewrite forallb_elem in H;
        by apply H, bool_decide_eq_true in Hx end. }
    exists p, scans. split; [done|]. apply input_errors_nil in He as [??]; [|done].
    split_and!; [done..| |done]. eapply Forall2_impl; [done|]. intros ??. by apply good_iff.
  - intros (q & scans & [= <-] & Hperm & Hpaths & Hg & Hn).
    assert (input_errors p inputs = []) as -> by by apply input_errors_nil.
    destruct (evaluate_inputs_good limit read_bytes p (labelled p inputs) scans ∅ [])
      as (F & rows & Hl & Hr); [|done|set_solver|constructor|].
    { eapply Forall2_impl; [done|]. intros ??. by apply good_iff. }
    rewrite Hl. eexists; split; [reflexivity|]. cbn [res_automated_result].
    apply evaluate_inputs_inv in Hl as [Hlen _].
    apply verdict_of_PASS, andb_true_iff. split; [apply andb_true_iff; split|].
    + apply negb_true_iff, bool_decide_eq_false_2. intros ->.
      cbn in Hlen. destruct (labelled p inputs); [|done]. cbn in Hperm.
      apply Permutation_nil in Hperm. by destruct Hok as (_ & _ & _ & ?).
    + by apply bool_decide_eq_true_2.
    + apply forallb_elem. intros x Hx. apply bool_decide_eq_true_2.
      by apply (proj1 (Forall_forall _ _) Hr).
Qed.
End gate.

(** ** The properties *)

(** C12. The quality gate exits 0 exactly when the environment is a known one and the
    profile exists, every receiver of the profile is given exactly once and no other,
    the inputs resolve to distinct paths, every input loads as a scan whose TEI ratio
    and continuity errors are within the profile's limits, and no two scans name the
    same capture file. *)
Theorem gate_passes_iff limit read_bytes resolve name environment inputs :
  (∃ r, main limit read_bytes resolve name environment inputs = Ok (0, r)) ↔
  environment ∈ ENVIRONMENTS ∧
  ∃ p scans, find_profile name PROFILES = Some p ∧ passes limit read_bytes resolve p inputs scans.
Proof.
  pose proof (run_passes_iff limit read_bytes resolve name environment inputs) as Hrun.
  unfold main. split.
  - intros (r & H). case_decide as Hargs; [|done].
    apply bind_Ok in H as (v & Hv & [= Hcode <-]). split; [tauto|].
    apply Hrun. exists v. split; [done|]. by destruct (res_automated_result v).
  - intros (Henv & Hpass). apply Hrun in Hpass as Hr. destruct Hr as (r & Hr & Hv).
    destruct Hpass as (p & scans & Hp & Hperm & _).
    rewrite decide_True.
    + exists r. rewrite Hr. cbn [mbind res_bind]. by rewrite Hv.
    + split_and!; [|done|].
      * clear -Hp. revert Hp. generalize PROFILES as l.
        induction l as [|[n q] l IH]; cbn; [done|]. case_decide; [subst; left|right; auto].
      * intros ->. apply Permutation_nil in Hperm.
        by apply find_profile_ok in Hp as (_ & _ & _ & ?).
Qed.

(** A scan is accepted exactly when the file is a text that parses as a JSON object
    whose [packets], [tei] and [continuity_errors] are integers (not booleans, not
    floats) with [0 < packets], [0 <= tei <= packets] and [0 <= continuity_errors];
    the accepted scan carries these numbers. *)
Theorem load_scan_accepts limit f s :
  load_scan limit f = Ok (inl s) ↔
  ∃ data text d, f = Contents data ∧ decode_scan data = Some text
    ∧ loads_default limit text = Ok (JDict d)
    ∧ dict_get (u "packets") d = Some (JInt (sc_packets s))
    ∧ dict_get (u "tei") d = Some (JInt (sc_tei s))
    ∧ dict_get (u "continuity_errors") d = Some (JInt (sc_continuity_errors s))
    ∧ dict_get (u "file") d = sc_file s
    ∧ 0 < sc_packets s ∧ 0 ≤ sc_tei s ≤ sc_packets s ∧ 0 ≤ sc_continuity_errors s.
Proof.
  split.
  - unfold load_scan. destruct f as [data| |]; [|done..].
    destruct (decode_scan data) as [text|] eqn:Ht; [|done].
    destruct (loads_default limit text) as [[]|[]] eqn:Hl; try done.
    intros [= H]. apply check_scan_inl in H. unfold scan_ok in H. eauto 15.
  - intros (data & text & d & -> & Ht & Hl & H). unfold load_scan. rewrite Ht, Hl.
    do 2 f_equal. apply check_scan_inl. unfold scan_ok. tauto.
Qed.

(** C18. The integer comparison of the gate is the percentage limit exactly: the TEI check
    of a scan passes iff its TEI percentage [100 * tei / packets], as a rational, is below
    the profile's limit (or the TEI count is zero where the profile says so), and the
    scan passes iff moreover its continuity errors are within the profile's bound. *)
Theorem evaluate_scan_exact name p limit f s path receiver
    (Hp : find_profile name PROFILES = Some p) (Hs : load_scan limit f = Ok (inl s)) :
  (ev_tei_result (evaluate_scan path receiver s p) = PASS ↔ tei_within p s)
  ∧ (ev_automated_result (evaluate_scan path receiver s p) = PASS ↔ within p s).
Proof.
  apply find_profile_ok in Hp as (Hden & _). apply load_scan_ok in Hs as [Hpos _].
  by destruct (evaluate_scan_spec path receiver s p Hpos Hden) as (? & _ & ?).
Qed.

Lemma evaluate_scan_exact_witness :
  ∃ p s, find_profile (u "siano-s1ud") PROFILES = Some p
  ∧ load_scan 10 (Contents (dumps_bytes (JDict [(u "packets", JInt 10000000); (u "tei", JInt 99);
       (u "continuity_errors", JInt 9); (u "file", JStr (u "a.ts"))]))) = Ok (inl s)
  ∧ ((ev_tei_result (evaluate_scan (u "a.json") (u "0") s p) = PASS ↔ tei_within p s)
     ∧ (ev_automated_result (evaluate_scan (u "a.json") (u "0") s p) = PASS ↔ within p s)).
Proof.
  eexists (Profile _ _ _ _ _ _ _ _), (Scan 10000000 99 9 (Some (JStr (u "a.ts")))).
  split; [reflexivity|]. split; [vm_compute; reflexivity|].
  apply (evaluate_scan_exact (u "siano-s1ud") _ 10 (Contents (dumps_bytes (JDict
    [(u "packets", JInt 10000000); (u "tei", JInt 99);
     (u "continuity_errors", JInt 9); (u "file", JStr (u "a.ts"))])))).
  - reflexivity.
  - vm_compute. reflexivity.
Defined.

(** The gate passes a scan just under the limits and fails at the limit. *)
Example gate_at_limit :
  let text tei := dumps_bytes (JDict [(u "packets", JInt 10000000); (u "tei", JInt tei);
    (u "continuity_errors", JInt 9); (u "file", JStr (u "a.ts"))]) in
  let gate tei := fst <$> main 10 (λ _, Contents (text tei)) id (u "siano-s1ud") (u "windows")
                              [u "0=a.json"] in
  gate 99 = Ok 0 ∧ gate 100 = Ok 1.
Proof. vm_compute. split; reflexivity. Qed.
