(* ===== verification/ReleaseRuns.v ===== *)
(** * Release-candidate workflow runs: [scripts/release_runs.py]

    The version result document names two workflow runs; the metadata of both must be
    a successful dispatch of the candidate workflow on one source commit. *)

From S2P Require Import Prelude PyStr Codec Regex PyFloat Json.

Local Open Scope Z_scope.

(** ** The program *)

Definition RUN_ID : re := Cat (Chr (λ c, is_digit c && negb (c =? 48)%N)) (Star digit).
Definition RUN_FIELDS : gset str :=
  list_to_set [u "databaseId"; u "workflowName"; u "event"; u "status"; u "conclusion";
               u "headSha"].
Definition WORKFLOW_NAME : str := u "Release candidate".

(** [require] of this script. *)
Definition check (c : bool) (msg : string) : res unit := require c (RunError msg).

(** The stripped values of the lines [key: value]. *)
Definition values (key : str) (lines : list str) : list str :=
  omap (λ line, if starts_with (key ++ u ":") line
                then strip ∘ snd <$> split1 58 line else None) lines.

(** [int(raw)]: a [ValueError] beyond 4300 digits, which [main] does not catch. *)
Definition int_text (raw : str) : res Z :=
  require (length raw <=? 4300)%nat (ValueError "Exceeds the limit for integer string") ;;
  Ok (digits_value raw).

Definition run_id (key : str) (lines : list str) : res Z :=
  match values key lines with
  | [raw] =>
      check (fullmatch RUN_ID raw) "is unset or invalid" ;;
      int_text raw
  | _ => Err (RunError "must appear exactly once")
  end.

(** [read_run_ids]; [None] is a document that cannot be read. *)
Definition read_run_ids (document : option bytes) : res (Z * Z) :=
  text ← of_option (RunError "cannot read version result document") (document ≫= decode_utf8);
  let lines := splitlines text in
  candidate ← run_id (u "candidate_run_id") lines;
  reproduction ← run_id (u "reproduction_run_id") lines;
  check (negb (candidate =? reproduction)) "candidate and reproduction run IDs must differ" ;;
  Ok (candidate, reproduction).

Definition parse_run (limit : nat) (file : option bytes) : res (list (str * json)) :=
  text ← of_option (RunError "invalid workflow run metadata") (file ≫= decode_utf8);
  value ← try_except (loads_default limit text)
    (λ e, match e with ValueError _ | JSONDecodeError _ => Err (RunError "invalid workflow run metadata")
                     | _ => Err e end);
  match value with
  | JDict d =>
      check (bool_decide (dict_keys d = RUN_FIELDS))
        "workflow run metadata fields are incomplete or unexpected" ;;
      Ok d
  | _ => Err (RunError "workflow run metadata fields are incomplete or unexpected")
  end.

Definition verify_run (value : list (str * json)) (expected_id : Z) (candidate_sha : str)
    : res unit :=
  check (hex40 candidate_sha) "candidate SHA must be canonical lowercase 40-character hex" ;;
  check (match dict_get (u "databaseId") value with
         | Some (JInt n) => n =? expected_id
         | _ => false
         end) "workflow run ID does not match the version result document" ;;
  check (get_eq value (u "workflowName") (JStr WORKFLOW_NAME)
         && get_eq value (u "event") (JStr (u "workflow_dispatch"))
         && get_eq value (u "status") (JStr (u "completed"))
         && get_eq value (u "conclusion") (JStr (u "success"))
         && get_eq value (u "headSha") (JStr candidate_sha))
    "workflow/artifact run is not a successful candidate for the fixed source SHA".

Definition verify_pair (candidate reproduction : list (str * json))
    (candidate_id reproduction_id : Z) : res str :=
  match dict_get (u "headSha") candidate with
  | Some (JStr candidate_sha) =>
      check (hex40 candidate_sha)
        "candidate run head SHA must be canonical lowercase 40-character hex" ;;
      verify_run candidate candidate_id candidate_sha ;;
      verify_run reproduction reproduction_id candidate_sha ;;
      Ok candidate_sha
  | _ => Err (RunError "candidate run head SHA must be canonical lowercase 40-character hex")
  end.

Inductive command :=
| Read (document : str)
| Verify (document candidate_run reproduction_run : str).

Definition document_of (c : command) : str :=
  match c with Read d => d | Verify d _ _ => d end.

(** [main]: the exit code and the printed line. *)
Definition main (limit : nat) (read_bytes : str → option bytes) (c : command)
    : res (Z * str) :=
  try_except
    ('(candidate_id, reproduction_id) ← read_run_ids (read_bytes (document_of c));
     let ids := dec_Z candidate_id ++ u " " ++ dec_Z reproduction_id in
     match c with
     | Read _ => Ok (0, ids)
     | Verify _ candidate_run reproduction_run =>
         candidate ← parse_run limit (read_bytes candidate_run);
         reproduction ← parse_run limit (read_bytes reproduction_run);
         candidate_sha ← verify_pair candidate reproduction candidate_id reproduction_id;
         Ok (0, ids ++ u " " ++ candidate_sha)
     end)
    (λ e, match e with RunError _ => Ok (1, []) | _ => Err e end).
