(* ===== verification/ReleaseRunsProps.v ===== *)
(** * Properties of the release-candidate run checks *)

From S2P Require Import Prelude PyStr Codec Regex PyFloat Json ReleaseRuns.

Local Open Scope Z_scope.

(** ** Run identifiers *)

(** A run identifier of the document: the canonical decimal of a positive number that
    [int] converts. *)
Definition is_run_id (raw : str) (n : Z) : Prop :=
  raw = dec_Z n ∧ 0 < n ∧ (length raw ≤ 4300)%nat.

Lemma RUN_ID_lang raw :
  fullmatch RUN_ID raw = true ↔
  ∃ c s, raw = c :: s ∧ Forall (λ c, is_digit c = true) (c :: s) ∧ c ≠ 48%N.
Proof.
  rewrite fullmatch_spec. unfold RUN_ID, digit. rewrite lang_cat_inv. split.
  - intros (s1 & s2 & -> & H1 & H2%lang_star_chr). inversion H1; subst. bool_prop.
    eexists _, _. split; [reflexivity|]. split; [by constructor|done].
  - intros (c & s & -> & [Hc Hs]%Forall_cons & Hn). exists [c], s. split; [done|]. split.
    + constructor. rewrite Hc. by apply negb_true_iff, N.eqb_neq.
    + by apply lang_star_chr.
Qed.

Lemma run_id_Ok key lines n :
  run_id key lines = Ok n ↔ ∃ raw, values key lines = [raw] ∧ is_run_id raw n.
Proof.
  unfold run_id, is_run_id, check, int_text. split.
  - destruct (values key lines) as [|raw []]; try done. rewrite !require_then, Nat.leb_le.
    intros (Hm & Hlen & [= <-]). exists raw. split; [done|].
    apply RUN_ID_lang in Hm as (c & s & -> & Hd & Hc).
    rewrite dec_digits_value by done. split_and!; [done| |done].
    apply digits_value_pos; [by apply Forall_cons in Hd as [??]|done].
  - intros (raw & -> & -> & Hn & Hlen). rewrite !require_then, Nat.leb_le, RUN_ID_lang.
    destruct (dec_Z_canonical n Hn) as (c & s & Hd & Hs & Hc & Hv).
    split; [by exists c, s|]. split; [done|]. by rewrite Hd, Hv.
Qed.

(** The document gives the two identifiers. *)
Definition names_runs (document : option bytes) (candidate reproduction : Z) : Prop :=
  ∃ text raw1 raw2, document ≫= decode_utf8 = Some text
  ∧ values (u "candidate_run_id") (splitlines text) = [raw1] ∧ is_run_id raw1 candidate
  ∧ values (u "reproduction_run_id") (splitlines text) = [raw2] ∧ is_run_id raw2 reproduction
  ∧ candidate ≠ reproduction.

Lemma read_run_ids_spec document c r :
  read_run_ids document = Ok (c, r) ↔ names_runs document c r.
Proof.
  unfold read_run_ids, names_runs, check. rewrite bind_Ok. setoid_rewrite of_option_Ok.
  setoid_rewrite bind_Ok. setoid_rewrite run_id_Ok. setoid_rewrite bind_Ok.
  setoid_rewrite run_id_Ok. setoid_rewrite require_then. setoid_rewrite negb_true_iff.
  setoid_rewrite Z.eqb_neq. split.
  - intros (text & Ht & c' & (raw1 & ? & ?) & r' & (raw2 & ? & ?) & ? & [= -> ->]). eauto 10.
  - intros (text & raw1 & raw2 & ? & ? & ? & ? & ? & ?). eauto 15.
Qed.

(** ** Run metadata *)

(** The metadata of a successful dispatch of the candidate workflow. *)
Definition successful_run (id : Z) (sha : str) : list (str * json) :=
  [(u "databaseId", JInt id); (u "workflowName", JStr WORKFLOW_NAME);
   (u "event", JStr (u "workflow_dispatch")); (u "status", JStr (u "completed"));
   (u "conclusion", JStr (u "success")); (u "headSha", JStr sha)].

Lemma successful_run_NoDup id sha : NoDup (successful_run id sha).*1.
Proof.
  change (successful_run id sha).*1 with (successful_run 0 []).*1.
  by apply (bool_decide_unpack _).
Qed.

Lemma dict_keys_successful_run id sha : dict_keys (successful_run id sha) = RUN_FIELDS.
Proof. done. Qed.

(** Checking the fields of an object with exactly the six keys fixes the object. *)
Lemma verify_run_Ok d id sha v :
  NoDup d.*1 → dict_keys d = RUN_FIELDS →
  verify_run d id sha = Ok v ↔ hex40 sha = true ∧ d ≡ₚ successful_run id sha.
Proof.
  intros Hnd Hkeys. unfold verify_run, check. rewrite !require_then, require_Ok, !andb_true_iff,
    !get_eq_str. split.
  - intros (Hsha & Hid & ((((Hw & He) & Hs) & Hc) & Hh)). split; [done|].
    apply dict_ext; [done|apply successful_run_NoDup|]. intros k.
    destruct (decide (k ∈ RUN_FIELDS)) as [Hk|Hk].
    + assert (dict_get (u "databaseId") d = Some (JInt id)) as Hd.
      { destruct (dict_get _ d) as [[]|]; try done. by apply Z.eqb_eq in Hid as ->. }
      unfold RUN_FIELDS in Hk. rewrite elem_of_list_to_set, !elem_of_cons in Hk.
      destruct Hk as [->|[->|[->|[->|[->|[->|[]%elem_of_nil]]]]]]; by etrans.
    + assert (∀ d' : dict json, dict_keys d' = RUN_FIELDS → dict_get k d' = None) as Hn.
      { intros d' Hd'. rewrite <- Hd', elem_of_dict_keys in Hk.
        by apply eq_None_not_Some. }
      by rewrite (Hn d), (Hn (successful_run id sha)).
  - intros [Hsha Hp]. split; [done|].
    assert (∀ k, dict_get k d = dict_get k (successful_run id sha)) as Hg
      by (intros k; by apply dict_get_perm).
    rewrite !Hg. split; [apply Z.eqb_refl|]. done.
Qed.

(** A file that parses as a JSON object. *)
Definition holds_object (limit : nat) (file : option bytes) (d : list (str * json)) : Prop :=
  ∃ text, file ≫= decode_utf8 = Some text ∧ loads_default limit text = Ok (JDict d).

Lemma parse_run_Ok limit file d :
  parse_run limit file = Ok d ↔ holds_object limit file d ∧ dict_keys d = RUN_FIELDS.
Proof.
  unfold parse_run, holds_object, check. rewrite bind_Ok. setoid_rewrite of_option_Ok.
  split.
  - intros (text & Ht & (v & Hv & H)%bind_Ok). rewrite try_except_Ok in Hv by (by intros []).
    destruct v; try done. apply require_then in H as [Hk [= <-]]. bool_prop. eauto.
  - intros [(text & Ht & Hl) Hk]. exists text. split; [done|]. rewrite Hl.
    cbn [try_except mbind res_bind]. by rewrite bool_decide_eq_true_2.
Qed.

Lemma verify_pair_Ok candidate reproduction c r sha :
  NoDup candidate.*1 → dict_keys candidate = RUN_FIELDS →
  NoDup reproduction.*1 → dict_keys reproduction = RUN_FIELDS →
  verify_pair candidate reproduction c r = Ok sha ↔
  hex40 sha = true ∧ candidate ≡ₚ successful_run c sha ∧ reproduction ≡ₚ successful_run r sha.
Proof.
  intros Hc1 Hc2 Hr1 Hr2. unfold verify_pair, check. split.
  - destruct (dict_get _ candidate) as [[]|]; try done.
    rewrite require_then.
    intros (_ & (v1 & [? ?]%verify_run_Ok & (v2 & [? ?]%verify_run_Ok & [= <-])%bind_Ok)%bind_Ok);
      done.
  - intros (Hs & Hc & Hr).
    rewrite (dict_get_perm _ candidate _ Hc1 Hc).
    change (dict_get (u "headSha") (successful_run c sha)) with (Some (JStr sha)). cbn iota.
    rewrite require_then. split; [done|].
    rewrite bind_Ok. exists tt. rewrite verify_run_Ok by done. split; [done|].
    rewrite bind_Ok. exists tt. by rewrite verify_run_Ok.
Qed.

(** ** The properties *)

(** [read] prints the two run identifiers exactly when the document, read as UTF-8,
    has one line for each key, each holding the canonical decimal of a positive number,
    and the two numbers differ. *)
Theorem read_reports_runs limit read_bytes document out :
  main limit read_bytes (Read document) = Ok (0, out) ↔
  ∃ c r, names_runs (read_bytes document) c r ∧ out = dec_Z c ++ u " " ++ dec_Z r.
Proof.
  unfold main, document_of. setoid_rewrite <- read_run_ids_spec. split.
  - destruct (read_run_ids _) as [[c r]|[]]; try done. intros [= <-]. eauto.
  - intros (c & r & -> & ->). done.
Qed.

(** C14. [verify] succeeds exactly when the document names two distinct runs and the two
    metadata files are objects holding, with these identifiers, a completed successful
    dispatch of the candidate workflow on one and the same 40-hex commit, and nothing
    else; it prints the two identifiers and that commit. *)
Theorem verify_accepts_runs limit read_bytes document candidate reproduction out :
  main limit read_bytes (Verify document candidate reproduction) = Ok (0, out) ↔
  ∃ c r sha d1 d2, names_runs (read_bytes document) c r
  ∧ holds_object limit (read_bytes candidate) d1 ∧ d1 ≡ₚ successful_run c sha
  ∧ holds_object limit (read_bytes reproduction) d2 ∧ d2 ≡ₚ successful_run r sha
  ∧ hex40 sha = true ∧ out = dec_Z c ++ u " " ++ dec_Z r ++ u " " ++ sha.
Proof.
  assert (∀ file d, holds_object limit file d → NoDup d.*1) as Hnd.
  { intros file d (text & _ & Hl). by eapply loads_default_NoDup. }
  assert (∀ d id sha, d ≡ₚ successful_run id sha → dict_keys d = RUN_FIELDS) as Hkeys.
  { intros d id sha Hp. rewrite <- (dict_keys_successful_run id sha). unfold dict_keys.
    apply set_eq. intros x. by rewrite !elem_of_list_to_set, Hp. }
  unfold main, document_of. setoid_rewrite <- read_run_ids_spec. split.
  - destruct (_ ≫= _) as [[? ?]|[]] eqn:H; try done. intros [= -> ->].
    apply bind_Ok in H as ([c r] & Hids & H).
    apply bind_Ok in H as (d1 & [H1 Hk1]%parse_run_Ok & H).
    apply bind_Ok in H as (d2 & [H2 Hk2]%parse_run_Ok & H).
    apply bind_Ok in H as (sha & Hpair & [= <-]).
    apply verify_pair_Ok in Hpair as (Hs & Hp1 & Hp2); [|by eauto..].
    exists c, r, sha, d1, d2. rewrite <- !app_assoc. done.
  - intros (c & r & sha & d1 & d2 & -> & H1 & Hp1 & H2 & Hp2 & Hs & ->).
    cbn [mbind res_bind].
    assert (parse_run limit (read_bytes candidate) = Ok d1) as -> by (apply parse_run_Ok; eauto).
    assert (parse_run limit (read_bytes reproduction) = Ok d2) as -> by (apply parse_run_Ok; eauto).
    cbn [mbind res_bind].
    assert (verify_pair d1 d2 c r = Ok sha) as -> by (apply verify_pair_Ok; eauto).
    cbn. by rewrite <- !app_assoc.
Qed.

(** A rejected document or run is reported with exit code 1 and no output, and the
    only exceptions that leave [main] are the interpreter's: an identifier beyond the
    integer conversion limit and metadata nested beyond the recursion limit. *)
Theorem runs_exit_code limit read_bytes c :
  match main limit read_bytes c with
  | Ok (code, out) => code = 0 ∨ code = 1 ∧ out = []
  | Err e => e = ValueError "Exceeds the limit for integer string"
             ∨ e = RuntimeError "RecursionError"
  end.
Proof.
  set (P e := (∃ m, e = RunError m) ∨ e = ValueError "Exceeds the limit for integer string"
              ∨ e = RuntimeError "RecursionError").
  assert (∀ m, P (RunError m)) as HR by (intros m; left; by eexists).
  assert (raises_only P (read_run_ids (read_bytes (document_of c)))) as Hids.
  { unfold read_run_ids, run_id, int_text, check. raises; try apply HR; right; by left. }
  assert (∀ file, raises_only P (parse_run limit file)) as Hparse.
  { intros file. unfold parse_run, check. raises; try apply HR.
    apply raises_try. intros e He. pose proof (loads_default_raises limit a) as Hl.
    rewrite He in Hl. destruct Hl as [[m [-> | ->]]| ->]; [apply HR..|right; by right]. }
  unfold main. destruct (_ ≫= _) as [[code out]|e] eqn:Hm; cbn [try_except].
  - left. apply bind_Ok in Hm as ([? ?] & _ & Hm). destruct c; [by injection Hm as <- _|].
    by repeat (apply bind_Ok in Hm as (? & _ & Hm) || injection Hm as <- _).
  - assert (P e) as He; [|destruct He as [[m ->]|[-> | ->]]; auto].
    eapply raises_Err; [exact Hm|]. unfold verify_pair, verify_run, check.
    raises; try apply HR; auto.
Qed.
