(* ===== verification/Archive.v ===== *)
(** * Reading a release archive: [scripts/release_verify.py], [safe_name] to [read_archive]

    The archive libraries are the environment ([Archives]): opening gives the member
    headers and, for each member, the bytes reading it yields and how the reading ends.
    Everything the script decides about them is here. *)

From S2P Require Import Prelude PyStr PyDict Codec Regex Sha256 PyPath.

Local Open Scope Z_scope.

(** ** The environment *)

(** The Unicode database beyond ASCII: [str.casefold] of one character, and the other
    decimal digits ([\d]). *)
Class Unicode := {
  fold_char : N → str;
  decimal_digit : N → bool;
}.

(** What reading a member gives in all, and the exception met at its end, if any. *)
Record stream := Stream { st_data : bytes; st_fail : option exn }.

Record zip_info := ZipInfo {
  zi_filename : str;
  zi_external_attr : Z;
  zi_create_system : Z;
  zi_flag_bits : Z;
  zi_compress_type : Z;
  zi_file_size : Z;
  zi_open : res stream;
}.

Record tar_info := TarInfo {
  ti_name : str;
  ti_mode : Z;
  ti_size : Z;
  ti_isfile : bool;
  ti_sparse : bool;
  ti_extract : res (option stream);
}.

(** [zipfile.ZipFile(...)] with its [infolist()], and the members a streamed
    [tarfile.open(..., "r|gz")] yields before it ends or raises. *)
Class Archives := {
  zip_open : bytes → res (list zip_info);
  tar_open : bytes → list tar_info * option exn;
}.

(** ** Constants *)

Definition MAX_ARCHIVE_BYTES : Z := 1024 * 1024 * 1024.
Definition MAX_MEMBER_BYTES : Z := 128 * 1024 * 1024.
Definition MAX_TOTAL_BYTES : Z := 1024 * 1024 * 1024.
Definition MAX_MEMBERS : Z := 50000.
Definition MAX_METADATA_BYTES : Z := 8 * 1024 * 1024.
Definition CHUNK_BYTES : Z := 1024 * 1024.

Definition check (c : bool) (msg : string) : res unit := require c (VerificationError msg).

(** ** Member names *)

Definition safe_char (c : N) : bool :=
  negb ((c <? 32) || (c =? 127))%N && negb (c =? 92)%N && negb (c =? 58)%N.

Definition safe_part (part : str) : bool :=
  negb (bool_decide (part ∈ [[]; u "."; u ".."])).

Definition safe_name (name : str) : res unit :=
  check (negb (bool_decide (name = [])) && (lenZ name <=? 1024)) "invalid archive path length" ;;
  check (forallb safe_char name && forallb safe_part (split_on 47 name)
         && negb (starts_with (u "/") name)) "unsafe archive path".

Section archive.
  Context `{Unicode} `{Digest} `{Archives}.

(** [str.casefold]. *)
Definition fold_one (c : N) : str :=
  (if c <? 128 then [if (65 <=? c) && (c <=? 90) then c + 32 else c] else fold_char c)%N.
Definition casefold (s : str) : str := concat (fold_one <$> s).

(** ** Members *)

Record member := Member {
  m_kind : str;
  m_mode : Z;
  m_size : Z;
  m_digest : str;
  m_data : option bytes;
  m_link_target : option str;
}.

(** [stream.read(n)]: the next bytes and the stream that is left.  A read that reaches
    the failure raises it. *)
Definition read (n : Z) (st : stream) : res (bytes * stream) :=
  let chunk := takeZ n (st_data st) in
  if lenZ chunk <? n then
    match st_fail st with
    | Some e => Err e
    | None => Ok (chunk, Stream [] None)
    end
  else Ok (chunk, Stream (dropZ n (st_data st)) (st_fail st)).

(** The [while True] loop: the bytes seen, hashed and kept.  Each turn takes at least one
    byte, so the stream's length bounds the number of turns. *)
Fixpoint read_loop (fuel : nat) (st : stream) (size : Z) (keep : bool) (seen : Z)
    (hashed chunks : bytes) : res (Z * bytes * bytes) :=
  match fuel with
  | O => Err (RuntimeError "fuel")
  | S fuel =>
      '(chunk, st) ← read (Z.min CHUNK_BYTES (size - seen + 1)) st;
      match chunk with
      | [] => Ok (seen, hashed, chunks)
      | _ =>
          let seen := seen + lenZ chunk in
          check (seen <=? size) "member length mismatch" ;;
          read_loop fuel st size keep seen (hashed ++ chunk)
            (if keep then chunks ++ chunk else chunks)
      end
  end.

Definition read_member (st : stream) (size : Z) (keep : bool) : res member :=
  check ((0 <=? size) && (size <=? MAX_MEMBER_BYTES)) "archive member size limit" ;;
  check (negb keep || (size <=? MAX_METADATA_BYTES)) "metadata size limit" ;;
  '(seen, hashed, chunks) ← read_loop (S (S (length (st_data st)))) st size keep 0 [] [];
  check (seen =? size) "truncated archive member" ;;
  Ok (Member (u "file") 0 size (hexdigest hashed) (if keep then Some chunks else None) None).

(** ** The archive *)

Record state := State {
  members : dict member;
  folded : gset str;
  total : Z;
}.
#[export] Instance state_eta : Eta state := λ s, State (members s) (folded s) (total s).

Definition keep_names : gset str :=
  list_to_set [u "README.md"; u "DEPENDENCY-NOTICE.txt"; u "manifest.json"; u "SHA256SUMS";
    u "repository/VERSION"; u "source-manifest.json"; u "evidence/binary-audit.json";
    u "evidence/sianod-binary-audit.json"; u "evidence/sianoctl-binary-audit.json"].

Definition kept (name : str) : bool :=
  bool_decide (name ∈ keep_names) || starts_with (u "repository/docs/release-validation/") name.

(** [add]. *)
Definition add (s : state) (name : str) (mode size : Z) (st : stream) : res state :=
  safe_name name ;;
  check (bool_decide (name ∉ dict_keys (members s))) "duplicate archive member" ;;
  check (bool_decide (casefold name ∉ folded s)) "case-colliding archive member" ;;
  check (lenZ (members s) <? MAX_MEMBERS) "archive member count limit" ;;
  check ((0 <=? mode) && (mode <=? 0x1FF)) "unsupported archive mode" ;;
  let s := s <| folded := {[casefold name]} ∪ folded s |> <| total := total s + size |> in
  check (total s <=? MAX_TOTAL_BYTES) "archive expanded size limit" ;;
  item ← read_member st size (kept name);
  Ok (s <| members := dict_set name
             (Member (m_kind item) mode (m_size item) (m_digest item) (m_data item) None)
             (members s) |>).

(** [stat.S_ISREG] and [stat.S_IMODE]: the masks 0o170000 and 0o7777, the type 0o100000. *)
Definition S_ISREG (mode : Z) : bool := Z.land mode 0xF000 =? 0x8000.
Definition S_IMODE (mode : Z) : Z := Z.land mode 0xFFF.

Definition zip_supported (i : zip_info) : bool :=
  let mode := Z.shiftr (zi_external_attr i) 16 in
  (zi_create_system i =? 3) && S_ISREG mode && negb (ends_with (u "/") (zi_filename i))
  && (Z.land (zi_flag_bits i) 1 =? 0)
  && ((zi_compress_type i =? 0) || (zi_compress_type i =? 8)).

Definition add_zip (s : state) (i : zip_info) : res state :=
  check (zip_supported i) "unsupported ZIP member" ;;
  st ← zi_open i;
  add s (zi_filename i) (S_IMODE (Z.shiftr (zi_external_attr i) 16)) (zi_file_size i) st.

Definition add_tar (s : state) (i : tar_info) : res state :=
  check (ti_isfile i && negb (ti_sparse i)) "unsupported TAR member" ;;
  o ← ti_extract i;
  st ← of_option (VerificationError "cannot read archive member") o;
  add s (ti_name i) (ti_mode i) (ti_size i) st.

Definition start : state := State [] ∅ 0.

(** The exceptions that [read_archive] turns into its own. *)
Definition archive_error {A} (e : exn) : res A :=
  match e with
  | OSError _ | RuntimeError _ => Err (VerificationError "cannot read archive")
  | _ => Err e
  end.

(** [read_archive]: [None] is a path that is not a regular file. *)
Definition read_archive (name : str) (file : option bytes) : res (dict member) :=
  content ← of_option (VerificationError "not a regular archive") file;
  check (lenZ content <=? MAX_ARCHIVE_BYTES) "archive size limit" ;;
  try_except
    (s ← (if ends_with (u ".zip") name then
            infos ← zip_open content;
            check (lenZ infos <=? MAX_MEMBERS) "archive member count limit" ;;
            fold_res add_zip start infos
          else
            check (ends_with (u ".tar.gz") name) "unsupported archive format" ;;
            let '(infos, failure) := tar_open content in
            s ← fold_res add_tar start infos;
            match failure with Some e => Err e | None => Ok s end);
     Ok (members s))
    archive_error.

End archive.
