(* ===== verification/ArchiveProps.v ===== *)
(** * Properties of the archive reader *)

From S2P Require Import Prelude PyStr PyDict Codec Regex Sha256 PyPath Archive.

Local Open Scope Z_scope.

(** ** Safe names stay inside the directory they are extracted to *)

(** Following the components of a path from a directory, as an extractor does. *)
Fixpoint walk (dir parts : list str) : list str :=
  match parts with
  | [] => dir
  | p :: parts =>
      if decide (p = [] ∨ p = u ".") then walk dir parts
      else if decide (p = u "..") then walk (take (pred (length dir)) dir) parts
      else walk (dir ++ [p]) parts
  end.

Lemma safe_part_spec p : safe_part p = true ↔ p ≠ [] ∧ p ≠ u "." ∧ p ≠ u "..".
Proof.
  unfold safe_part. rewrite negb_true_iff, bool_decide_eq_false.
  rewrite !elem_of_cons, elem_of_nil. tauto.
Qed.

Lemma walk_safe dir parts :
  Forall (λ p, safe_part p = true) parts → walk dir parts = dir ++ parts.
Proof.
  intros H. revert dir. induction H as [|p parts Hp _ IH]; intros dir; cbn [walk];
    [by rewrite app_nil_r|].
  apply safe_part_spec in Hp as (? & ? & ?).
  rewrite decide_False by tauto. rewrite decide_False by done. by rewrite IH, <- app_assoc.
Qed.

Lemma split_on_nonempty c s : split_on c s ≠ [].
Proof. destruct s as [|x s]; cbn; [done|]. destruct (x =? c)%N; [done|]. by destruct (split_on c s). Qed.

Lemma join_split_on c s : join [c] (split_on c s) = s.
Proof.
  induction s as [|x s IH]; [done|]. cbn [split_on].
  pose proof (split_on_nonempty c s) as Hne.
  destruct (N.eqb_spec x c) as [->|].
  - cbn [join]. destruct (split_on c s); [done|]. cbn. by rewrite <- IH.
  - destruct (split_on c s) as [|w ws]; [done|]. rewrite <- IH. destruct ws; done.
Qed.

#[export] Instance split_on_inj c : Inj (=) (=) (split_on c).
Proof. intros s t H. by rewrite <- (join_split_on c s), H, join_split_on. Qed.

Lemma safe_name_Ok name v :
  safe_name name = Ok v ↔
  (name ≠ [] ∧ lenZ name ≤ 1024)
  ∧ Forall (λ c, safe_char c = true) name
  ∧ Forall (λ p, safe_part p = true) (split_on 47 name)
  ∧ starts_with (u "/") name = false.
Proof.
  unfold safe_name, check. rewrite require_then, require_Ok, !andb_true_iff, !negb_true_iff,
    bool_decide_eq_false, Z.leb_le, !forallb_elem, !Forall_forall. tauto.
Qed.

(** ** Reading one member *)

Section member.
Context `{Unicode} `{Digest} `{Archives}.

Lemma takeZ_whole {A} n (l : list A) : lenZ l ≤ n → takeZ n l = l.
Proof. unfold lenZ. intros. rewrite takeZ_take, take_ge; [done|lia]. Qed.

Lemma lenZ_takeZ {A} n (l : list A) : 0 ≤ n ≤ lenZ l → lenZ (takeZ n l) = n.
Proof. unfold lenZ. intros. rewrite takeZ_take, length_take. lia. Qed.

(** The loop in closed form: a stream longer than the declared size is a mismatch, any
    other one is read to its end. *)
Lemma read_loop_closed fuel st size keep seen hashed chunks :
  (length (st_data st) < fuel)%nat → seen ≤ size →
  read_loop fuel st size keep seen hashed chunks =
    if seen + lenZ (st_data st) <=? size then
      match st_fail st with
      | Some e => Err e
      | None => Ok (seen + lenZ (st_data st), hashed ++ st_data st,
                    if keep then chunks ++ st_data st else chunks)
      end
    else Err (VerificationError "member length mismatch").
Proof.
  revert st seen hashed chunks. induction fuel as [|fuel IH]; intros [data fail]; [cbn; lia|].
  cbn [st_data st_fail]. intros seen hashed chunks Hfuel Hseen.
  cbn [read_loop]. unfold read. cbn [st_data st_fail].
  assert (0 < CHUNK_BYTES) as Hc by done. 
  assert (0 < Z.min CHUNK_BYTES (size - seen + 1) ≤ size - seen + 1) as Hn by lia.
  revert Hn. generalize (Z.min CHUNK_BYTES (size - seen + 1)) as n. intros n Hbound.
  destruct (Z.ltb_spec (lenZ (takeZ n data)) n) as [Hn|Hn].
  - assert (lenZ data < n) as Hlen.
    { unfold lenZ in *. rewrite takeZ_take, length_take in Hn. lia. }
    rewrite takeZ_whole by lia.
    destruct (Z.leb_spec (seen + lenZ data) size); [|lia].
    destruct fail; [done|]. cbn [mbind res_bind]. destruct data as [|x data].
    + cbn. rewrite Z.add_0_r, !app_nil_r. by destruct keep.
    + unfold check, require. rewrite (proj2 (Z.leb_le _ size)) by done.
      cbn [mbind res_bind]. rewrite IH by (cbn in *; lia). cbn [st_data st_fail].
      rewrite Z.add_0_r, !app_nil_r.
      rewrite (proj2 (Z.leb_le _ size)) by done. by destruct keep.
  - assert (n ≤ lenZ data) as Hlen.
    { unfold lenZ in *. rewrite takeZ_take, length_take in Hn. lia. }
    pose proof (lenZ_takeZ n data ltac:(lia)) as Htake.
    assert (takeZ n data ++ dropZ n data = data) as Hsplit
      by (rewrite takeZ_take, dropZ_drop; apply take_drop).
    cbn [mbind res_bind]. destruct (takeZ n data) as [|x chunk] eqn:Hchunk; [unfold lenZ in Htake; cbn in Htake; lia|].
    rewrite Htake. unfold check, require. destruct (Z.leb_spec (seen + n) size); cbn [mbind res_bind].
    + rewrite IH; cbn [st_data st_fail]; [| |lia].
      * assert (lenZ data = n + lenZ (dropZ n data)) as ->.
        { rewrite <- Hsplit at 1. unfold lenZ in *. rewrite length_app. lia. }
        rewrite Z.add_assoc, <- app_assoc, Hsplit.
        destruct keep; [by rewrite <- app_assoc, Hsplit|done].
      * unfold lenZ in *. rewrite dropZ_drop, length_drop. lia.
    + destruct (Z.leb_spec (seen + lenZ data) size); [lia|done].
Qed.

(** What an accepted member is. *)
Definition member_of (size : Z) (keep : bool) (data : bytes) : member :=
  Member (u "file") 0 size (hexdigest data) (if keep then Some data else None) None.

Definition size_ok (size : Z) (keep : bool) : Prop :=
  0 ≤ size ≤ MAX_MEMBER_BYTES ∧ (keep = true → size ≤ MAX_METADATA_BYTES).

Lemma read_member_Ok st size keep m :
  read_member st size keep = Ok m ↔
  size_ok size keep ∧ st_fail st = None ∧ lenZ (st_data st) = size
  ∧ m = member_of size keep (st_data st).
Proof.
  unfold read_member, check, size_ok, member_of.
  rewrite !require_then, !andb_true_iff, !Z.leb_le, orb_true_iff, negb_true_iff, Z.leb_le.
  assert ((keep = false ∨ size ≤ MAX_METADATA_BYTES) ↔ (keep = true → size ≤ MAX_METADATA_BYTES))
    as -> by (destruct keep; naive_solver).
  split.
  - intros (Hsize & Hkeep & H'). rewrite read_loop_closed in H' by lia.
    rewrite Z.add_0_l in H'. destruct (Z.leb_spec (lenZ (st_data st)) size); [|done].
    destruct (st_fail st); [done|]. cbn in H'. apply require_then in H' as [Hl [= <-]].
    apply Z.eqb_eq in Hl. split_and!; try apply Hsize; try done. by destruct keep.
  - intros ([Hsize Hkeep] & Hfail & Hl & ->). split; [done|]. split; [done|].
    rewrite read_loop_closed, Z.add_0_l, Hl, Z.leb_refl, Hfail by lia. cbn.
    rewrite Z.eqb_refl. cbn. by destruct keep.
Qed.

(** ** The whole archive *)

(** A member header as [add] receives it. *)
Record entry := Entry { e_name : str; e_mode : Z; e_size : Z; e_stream : stream }.

Definition zip_entry (i : zip_info) : option entry :=
  if zip_supported i then
    match zi_open i with
    | Ok st => Some (Entry (zi_filename i) (S_IMODE (Z.shiftr (zi_external_attr i) 16))
                       (zi_file_size i) st)
    | Err _ => None
    end
  else None.

Definition tar_entry (i : tar_info) : option entry :=
  if ti_isfile i && negb (ti_sparse i) then
    match ti_extract i with
    | Ok (Some st) => Some (Entry (ti_name i) (ti_mode i) (ti_size i) st)
    | _ => None
    end
  else None.

(** The entries of an archive file, [None] when the library or the format refuses it. *)
Definition entries_of (name : str) (content : bytes) : option (list entry) :=
  if ends_with (u ".zip") name then
    match zip_open content with
    | Ok infos => if lenZ infos <=? MAX_MEMBERS then mapM zip_entry infos else None
    | Err _ => None
    end
  else if ends_with (u ".tar.gz") name then
    match tar_open content with
    | (infos, None) => mapM tar_entry infos
    | (_, Some _) => None
    end
  else None.

(** What [add] requires of one entry by itself. *)
Definition entry_ok (e : entry) : Prop :=
  safe_name (e_name e) = Ok tt ∧ 0 ≤ e_mode e ≤ 0x1FF ∧ size_ok (e_size e) (kept (e_name e))
  ∧ st_fail (e_stream e) = None ∧ lenZ (st_data (e_stream e)) = e_size e.

(** The member recorded for an entry. *)
Definition item_of (e : entry) : str * member :=
  (e_name e, Member (u "file") (e_mode e) (e_size e) (hexdigest (st_data (e_stream e)))
               (if kept (e_name e) then Some (st_data (e_stream e)) else None) None).

Definition total_size (l : list entry) : Z := foldr (λ e z, e_size e + z) 0 l.

Lemma add_Ok s e s' :
  add s (e_name e) (e_mode e) (e_size e) (e_stream e) = Ok s' ↔
  entry_ok e ∧ e_name e ∉ (members s).*1 ∧ casefold (e_name e) ∉ folded s
  ∧ lenZ (members s) < MAX_MEMBERS ∧ total s + e_size e ≤ MAX_TOTAL_BYTES
  ∧ s' = State (members s ++ [item_of e]) ({[casefold (e_name e)]} ∪ folded s)
           (total s + e_size e).
Proof.
  assert (∀ n (d : dict member), n ∉ dict_keys d ↔ n ∉ d.*1) as Hkeys.
  { intros n d. unfold dict_keys. by rewrite elem_of_list_to_set. }
  unfold add, check, entry_ok.
  assert (∀ (k : res state), (safe_name (e_name e) ;; k) = Ok s' ↔
            safe_name (e_name e) = Ok tt ∧ k = Ok s') as ->.
  { intros k. destruct (safe_name (e_name e)) as [[]|]; cbn; naive_solver. }
  rewrite !require_then, !bool_decide_eq_true, andb_true_iff, Z.ltb_lt, !Z.leb_le, Hkeys, bind_Ok.
  setoid_rewrite read_member_Ok. unfold member_of. cbn [members folded total]. split.
  - intros (Hs & Hn & Hf & Hc & Hm & Ht & m & (Hsz & Hfail & Hl & ->) & [= <-]).
    rewrite dict_set_new by done. done.
  - intros ((Hs & Hm & Hsz & Hfail & Hl) & Hn & Hf & Hc & Ht & ->).
    split_and!; try done; try apply Hm. eexists. split; [done|]. cbn.
    by rewrite dict_set_new.
Qed.

(** The members of an archive whose entries are all accepted. *)
Definition archive_ok (l : list entry) : Prop :=
  Forall entry_ok l ∧ NoDup (casefold ∘ e_name <$> l) ∧ lenZ l ≤ MAX_MEMBERS
  ∧ total_size l ≤ MAX_TOTAL_BYTES.

Definition add_entry (s : state) (e : entry) : res state :=
  add s (e_name e) (e_mode e) (e_size e) (e_stream e).

Lemma total_size_nonneg l : Forall entry_ok l → 0 ≤ total_size l.
Proof.
  induction 1 as [|e l (_ & _ & [? _] & _) _ IH]; [done|].
  unfold total_size in *. cbn. lia.
Qed.

(** The state after no entry, and after one. *)
Lemma state_nil s :
  State (members s ++ (item_of <$> [])) (list_to_set (casefold ∘ e_name <$> []) ∪ folded s)
    (total s + total_size []) = s.
Proof.
  destruct s as [ms fs t]. cbn [members folded total]. f_equal.
  - apply app_nil_r.
  - apply union_empty_l_L.
  - apply Z.add_0_r.
Qed.

Lemma state_cons s e l :
  let s1 := State (members s ++ [item_of e]) ({[casefold (e_name e)]} ∪ folded s)
              (total s + e_size e) in
  State (members s ++ (item_of <$> e :: l))
    (list_to_set (casefold ∘ e_name <$> e :: l) ∪ folded s) (total s + total_size (e :: l))
  = State (members s1 ++ (item_of <$> l))
      (list_to_set (casefold ∘ e_name <$> l) ∪ folded s1) (total s1 + total_size l).
Proof.
  assert (total_size (e :: l) = e_size e + total_size l) as Ht1 by done.
  cbn [folded total members]. rewrite Ht1, Z.add_assoc, <- app_assoc. f_equal.
  apply set_eq. set_solver.
Qed.

(** The loop over the entries, from a state that knows the folded names it holds. *)
Lemma add_all_Ok s l s' :
  (∀ n, n ∈ (members s).*1 → casefold n ∈ folded s) →
  lenZ (members s) ≤ MAX_MEMBERS → total s ≤ MAX_TOTAL_BYTES →
  fold_res add_entry s l = Ok s' ↔
  Forall entry_ok l ∧ NoDup (casefold ∘ e_name <$> l)
  ∧ (∀ e, e ∈ l → casefold (e_name e) ∉ folded s)
  ∧ lenZ (members s) + lenZ l ≤ MAX_MEMBERS ∧ total s + total_size l ≤ MAX_TOTAL_BYTES
  ∧ s' = State (members s ++ (item_of <$> l))
           (list_to_set (casefold ∘ e_name <$> l) ∪ folded s) (total s + total_size l).
Proof.
  revert s. induction l as [|e l IH]; intros s Hknown Hlen Htot; cbn [fold_res].
  - rewrite state_nil.
    unfold lenZ, total_size in *. cbn in *. split; [|by intros (_ & _ & _ & _ & _ & ->)].
    intros [= <-]. split_and!; try constructor; try lia. by intros ? ?%elem_of_nil.
  - rewrite bind_Ok. unfold add_entry at 1. setoid_rewrite add_Ok.
    set (s1 := State (members s ++ [item_of e]) ({[casefold (e_name e)]} ∪ folded s)
                 (total s + e_size e)).
    assert (lenZ (e :: l) = 1 + lenZ l) as Hl1 by (unfold lenZ; cbn; lia).
    assert (lenZ (members s1) = lenZ (members s) + 1) as Hl2
      by (unfold lenZ; cbn; rewrite length_app; cbn; lia).
    assert (total_size (e :: l) = e_size e + total_size l) as Ht1 by done.
    assert (∀ n, n ∈ (members s1).*1 → casefold n ∈ folded s1) as Hknown1.
    { cbn. intros n. rewrite fmap_app. set_solver. }
    rewrite (state_cons s e l). fold s1.
    split.
    + intros (s2 & (He & Hn & Hc & Hm & Ht & ->) & H').
      apply IH in H' as (Hok & Hnd & Hfresh & Hm' & Ht' & ->); [|done|lia|done].
      cbn [folded total s1] in Hfresh, Ht'. split_and!; try (by constructor || lia || done).
      * rewrite fmap_cons, NoDup_cons. split; [|done].
        intros (e' & He' & Hin)%list_elem_of_fmap. apply (Hfresh e' Hin). cbn in He'. set_solver.
      * set_solver.
    + intros ([He Hok]%Forall_cons & [Hnew Hnd]%NoDup_cons & Hfresh & Hm & Ht & ->).
      pose proof (total_size_nonneg l Hok).
      assert (casefold (e_name e) ∉ folded s) as Hc by (apply Hfresh; left).
      exists s1. split.
      * split_and!; try done; try lia; [|unfold lenZ in *; lia].
        intros Hn%Hknown. done.
      * apply IH; [done|unfold lenZ in *; lia|cbn; lia|].
        split_and!; try done; try (cbn; lia); try lia.
        cbn [folded s1]. intros e' He' [Heq%elem_of_singleton|Hin]%elem_of_union.
        -- apply Hnew. apply list_elem_of_fmap. by exists e'.
        -- by apply (Hfresh e'); [right|].
Qed.

Lemma add_zip_Ok s i s' : add_zip s i = Ok s' ↔ ∃ e, zip_entry i = Some e ∧ add_entry s e = Ok s'.
Proof.
  unfold add_zip, zip_entry, check. rewrite require_then.
  destruct (zip_supported i); [|naive_solver].
  destruct (zi_open i) as [st|]; cbn; [|naive_solver]. split.
  - intros [_ ?]. by eexists.
  - by intros (e & [= <-] & ?).
Qed.

Lemma add_tar_Ok s i s' : add_tar s i = Ok s' ↔ ∃ e, tar_entry i = Some e ∧ add_entry s e = Ok s'.
Proof.
  unfold add_tar, tar_entry, check. rewrite require_then.
  destruct (_ && _); [|naive_solver].
  destruct (ti_extract i) as [[st|]|]; cbn; [|naive_solver..]. split.
  - intros [_ ?]. by eexists.
  - by intros (e & [= <-] & ?).
Qed.

(** [read_archive], in full. *)
Lemma read_archive_Ok name file ms :
  read_archive name file = Ok ms ↔
  ∃ content l, file = Some content ∧ lenZ content ≤ MAX_ARCHIVE_BYTES
    ∧ entries_of name content = Some l ∧ archive_ok l ∧ ms = item_of <$> l.
Proof.
  assert (∀ l s', fold_res add_entry start l = Ok s' ↔ archive_ok l ∧
            s' = State (item_of <$> l) (list_to_set (casefold ∘ e_name <$> l)) (total_size l))
    as Hall.
  { intros l s'. rewrite add_all_Ok by (done || set_solver). cbn [members folded total start].
    rewrite union_empty_r_L, !Z.add_0_l. unfold archive_ok. cbn [app]. 
    assert (∀ e, e ∈ l → casefold (e_name e) ∉ (∅ : gset str)) by set_solver.
    unfold lenZ at 1. cbn [length]. tauto. }
  unfold read_archive, entries_of, check. rewrite bind_Ok. setoid_rewrite of_option_Ok.
  setoid_rewrite require_then. setoid_rewrite Z.leb_le.
  setoid_rewrite try_except_Ok; [|by intros [] ?].
  split.
  - intros (content & -> & Hlen & (s & Hs & [= <-])%bind_Ok). exists content.
    destruct (ends_with (u ".zip") name).
    + apply bind_Ok in Hs as (infos & -> & Hs). apply require_then in Hs as [Hn Hs].
      rewrite Hn. apply (fold_decode _ zip_entry add_entry) in Hs as (l & Hl & Hs);
        [|apply add_zip_Ok].
      apply Hall in Hs as [? ->]. by exists l.
    + apply require_then in Hs as [-> Hs]. destruct (tar_open content) as [infos fail].
      apply bind_Ok in Hs as (s1 & Hs1 & Hs). destruct fail; [done|]. injection Hs as <-.
      apply (fold_decode _ tar_entry add_entry) in Hs1 as (l & Hl & Hs1); [|apply add_tar_Ok].
      apply Hall in Hs1 as [? ->]. by exists l.
  - intros (content & l & -> & Hlen & He & Hok & ->). exists content. split; [done|].
    split; [done|]. apply bind_Ok.
    exists (State (item_of <$> l) (list_to_set (casefold ∘ e_name <$> l)) (total_size l)).
    split; [|done]. destruct (ends_with (u ".zip") name).
    + destruct (zip_open content) as [infos|]; [|done]. cbn [mbind res_bind].
      destruct (_ <=? _); [|done]. cbn. apply (fold_decode _ zip_entry add_entry);
        [apply add_zip_Ok|]. exists l. split; [done|]. by apply Hall.
    + destruct (ends_with _ name); [|done]. cbn [require mbind res_bind].
      destruct (tar_open content) as [infos []]; [done|].
      apply bind_Ok. eexists. split; [|done]. apply (fold_decode _ tar_entry add_entry);
        [apply add_tar_Ok|]. exists l. split; [done|]. by apply Hall.
Qed.
End member.

(** ** The properties *)

(** C13. Containment: a name that [safe_name] accepts leads, component by component, from
    any directory to a path below it, never through the parent or the root, and two
    different accepted names never lead to the same path. *)
Theorem safe_name_contained (name : str) (Hname : safe_name name = Ok tt) :
  (∀ dir, walk dir (split_on 47 name) = dir ++ split_on 47 name)
  ∧ (∀ dir other, safe_name other = Ok tt →
       walk dir (split_on 47 other) = walk dir (split_on 47 name) → other = name)
  ∧ Forall (λ c, 32 ≤ Z.of_N c ∧ c ≠ 127%N ∧ c ≠ 92%N ∧ c ≠ 58%N) name.
Proof.
  assert (∀ n, safe_name n = Ok tt → ∀ dir, walk dir (split_on 47 n) = dir ++ split_on 47 n) as Hw.
  { intros n Hn dir. apply safe_name_Ok in Hn as (_ & _ & Hp & _). by apply walk_safe. }
  split_and!; [by apply Hw| |].
  - intros dir other Hother. rewrite !Hw by done. intros H%app_inv_head. by apply (inj (split_on 47)).
  - apply safe_name_Ok in Hname as (_ & Hc & _). eapply Forall_impl; [done|].
    intros c H. unfold safe_char in H. bool_prop. lia.
Qed.

Lemma safe_name_contained_witness :
  safe_name (u "repository/docs/README.md") = Ok tt ∧
  ((∀ dir, walk dir (split_on 47 (u "repository/docs/README.md"))
           = dir ++ split_on 47 (u "repository/docs/README.md"))
   ∧ (∀ dir other, safe_name other = Ok tt →
       walk dir (split_on 47 other) = walk dir (split_on 47 (u "repository/docs/README.md"))
       → other = u "repository/docs/README.md")
   ∧ Forall (λ c, 32 ≤ Z.of_N c ∧ c ≠ 127%N ∧ c ≠ 92%N ∧ c ≠ 58%N)
       (u "repository/docs/README.md")).
Proof. split; [reflexivity|]. apply safe_name_contained. reflexivity. Defined.

(** An unsafe name does leave the directory. *)
Example walk_escapes :
  walk [u "out"; u "d"] (split_on 47 (u "../x")) = [u "out"; u "x"]
  ∧ safe_name (u "../x") ≠ Ok tt.
Proof. split; [vm_compute; reflexivity|by vm_compute]. Qed.

(** C19. Reading a member always ends: it returns exactly when the declared size is within
    the limits and the stream ends without failure after that many bytes, and the member
    then records the SHA-256 of all of them (and the bytes, when they are kept);
    otherwise it raises a verification error or the stream's own failure. *)
Theorem read_member_total `{Unicode} `{Digest} `{Archives} (st : stream) (size : Z) (keep : bool) :
  (∀ m, read_member st size keep = Ok m ↔
     0 ≤ size ≤ MAX_MEMBER_BYTES ∧ (keep = true → size ≤ MAX_METADATA_BYTES)
     ∧ st_fail st = None ∧ lenZ (st_data st) = size ∧ m = member_of size keep (st_data st))
  ∧ raises_only (λ e, (∃ msg, e = VerificationError msg) ∨ st_fail st = Some e)
      (read_member st size keep).
Proof.
  split.
  - intros m. rewrite read_member_Ok. unfold size_ok. tauto.
  - unfold read_member, check. apply raises_bind; [apply raises_require; eauto|].
    intros [] Hsize. apply require_Ok in Hsize. bool_prop.
    raises; try (left; by eexists). rewrite read_loop_closed by (done || lia).
    raises; eauto.
Qed.

(** C11. The reader of an archive accepts exactly the files within the size limit whose
    library listing is complete and made of supported regular members with safe names
    that stay distinct under case folding, at most 50000 of them, permissions within
    0o777, readable contents of the declared sizes, and at most 1 GiB in all; the
    dictionary then has one item per member, in order, with the digest of its contents. *)
Theorem read_archive_accepts `{Unicode} `{Digest} `{Archives} (name : str) (file : option bytes)
    (ms : dict member) :
  read_archive name file = Ok ms ↔
  ∃ content l, file = Some content ∧ lenZ content ≤ MAX_ARCHIVE_BYTES
    ∧ entries_of name content = Some l ∧ archive_ok l ∧ ms = item_of <$> l.
Proof. apply read_archive_Ok. Qed.
