(* ===== verification/ReleaseText.v ===== *)
(** * Texts of a release archive: [scripts/release_verify.py]

    JSON with the verifier's hooks, checksum lists, dependency notices, and the
    comparison of two of them up to the approved identity fields. *)

From S2P Require Import Prelude PyStr PyDict Codec Regex PyFloat Json Sha256 Archive.

Local Open Scope Z_scope.

(** A new item of a dictionary; a key that is there already is an error. *)
Definition insert_new {A} (msg : string) (result : dict A) (kv : str * A) : res (dict A) :=
  check (bool_decide (kv.1 ∉ dict_keys result)) msg ;;
  Ok (dict_set kv.1 kv.2 result).

(** ** JSON *)

Section json.
(** The recursion limit of the parser. *)
Context (limit : nat).

(** The object hook: a repeated key is an error. *)
Definition unique_pairs (items : list (str * json)) : res (dict json) :=
  fold_res (insert_new "duplicate JSON key") [] items.

Definition no_constant (value : str) : res json :=
  Err (VerificationError "invalid JSON constant").

(** [parse_json]: the script's own errors are [ValueError]s and are wrapped too; the only
    [RuntimeError] of the parser is [RecursionError]. *)
Definition parse_json (data : bytes) : res (dict json) :=
  let invalid {A} : res A := Err (VerificationError "invalid JSON") in
  value ← match decode_utf8 data with
          | None => invalid
          | Some text => try_except (loads unique_pairs no_constant limit text)
              (λ e, match e with
                    | ValueError _ | JSONDecodeError _ | VerificationError _
                    | RuntimeError _ => invalid
                    | _ => Err e
                    end)
          end;
  match value with
  | JDict d => Ok d
  | _ => Err (VerificationError "must be an object")
  end.

Definition canonical_json (value : dict json) : bytes := dumps_bytes (JDict value).

Definition canonical_json_file (data : bytes) (value : dict json) : bool :=
  let canonical := canonical_json value in
  bool_decide (data = canonical ∨ data = canonical ++ [x0a]).

Definition ends_with_newline (data : bytes) : bool := bool_decide (last data = Some x0a).

Definition matching_json_style (before after : bytes) : res unit :=
  check (Bool.eqb (ends_with_newline before) (ends_with_newline after)) "JSON line ending changed".

(** [compare_json_identity]: the two objects are equal once the field is copied. *)
Definition compare_json_identity (before after : bytes) (field expected : str)
    : res (dict json * dict json) :=
  old ← parse_json before;
  new ← parse_json after;
  matching_json_style before after ;;
  check (canonical_json_file before old && canonical_json_file after new)
    "noncanonical JSON encoding" ;;
  check (negb (py_eq (default JNull (dict_get field old)) (default JNull (dict_get field new)))
         && get_eq new field (JStr expected)) "invalid identity field change" ;;
  let normalized := dict_set field (default JNull (dict_get field new)) old in
  check (py_eq (JDict normalized) (JDict new)) "JSON field changed outside identity" ;;
  Ok (old, new).
End json.

(** ** Checksum lists *)

Definition sum_name_char (c : N) : bool :=
  (is_digit c || (65 <=? c) && (c <=? 90) || (97 <=? c) && (c <=? 122)
   || bool_decide (c ∈ [95; 46; 47; 45]))%N.

(** One line: 64 hexadecimal digits, two spaces, a file name. *)
Definition sum_line (line : str) : option (str * str) :=
  let digest := take 64 line in
  let rest := drop 64 line in
  if hex64 digest && starts_with (u "  ") rest
     && fullmatch (plus (Chr sum_name_char)) (drop 2 rest)
  then Some (drop 2 rest, digest) else None.

Definition parse_sums (data : bytes) (expected : gset str) : res (dict str) :=
  text ← of_option (VerificationError "is not ASCII") (decode_ascii data);
  result ← fold_res (λ result line,
      item ← of_option (VerificationError "invalid line") (sum_line line);
      insert_new "duplicate entry" result item) [] (splitlines text);
  check (bool_decide (dict_keys result = expected)) "inventory mismatch" ;;
  Ok result.

(** ** Dependency notices *)

Definition notice_key : re := plus (Chr (λ c,
  (97 <=? c) && (c <=? 122) || is_digit c || bool_decide (c ∈ [95; 46; 45]))%N).

(** One line: a field, or any other text. *)
Definition notice_line (line : str) : option str * str :=
  match split1 61 line with
  | Some (key, value) => if fullmatch notice_key key then (Some key, value) else (None, line)
  | None => (None, line)
  end.

Definition notice_step (s : list (option str * str) * gset str) (line : str)
    : res (list (option str * str) * gset str) :=
  let '(result, seen) := s in
  match notice_line line with
  | (Some key, value) =>
      check (bool_decide (key ∉ seen)) "duplicate notice field" ;;
      Ok (result ++ [(Some key, value)], {[key]} ∪ seen)
  | other => Ok (result ++ [other], seen)
  end.

Definition notice_lines (data : bytes) : res (list (option str * str)) :=
  text ← of_option (VerificationError "notice is not UTF-8") (decode_utf8 data);
  s ← fold_res notice_step ([], ∅) (splitlines text);
  Ok s.1.

(** [dict(item for item in lines if item[0] is not None)]. *)
Definition notice_fields (lines : list (option str * str)) : dict str :=
  dict_of_pairs (omap (λ item, (λ key, (key, item.2)) <$> item.1) lines).

Definition compare_line (fields : dict str) (changed : gset str)
    (pair : (option str * str) * (option str * str)) : res (gset str) :=
  let '(line, line') := pair in
  if decide (line = line') then Ok changed
  else match line.1, line'.1 with
       | Some key, Some key' =>
           check (bool_decide (key = key')) "notice content changed outside identity fields" ;;
           check (bool_decide (dict_get key fields = Some line'.2))
             "unexpected notice identity change" ;;
           Ok ({[key]} ∪ changed)
       | _, _ => Err (VerificationError "notice content changed outside identity fields")
       end.

Definition compare_notice (before after : bytes) (fields : dict str) : res unit :=
  old ← notice_lines before;
  new ← notice_lines after;
  check (length old =? length new)%nat "notice line count changed" ;;
  changed ← fold_res (compare_line fields) ∅ (zip old new);
  check (bool_decide (changed = dict_keys fields)) "notice identity fields did not all change".
