(* ===== verification/ReleaseVerify.v ===== *)
(** * Release verification: [scripts/release_verify.py]

    The tag bundle must be the candidate bundle up to the identity of the commit: the
    manifests, the pairwise comparison of archives, the bundles, the git history between
    the two commits and [verify_release] itself. *)

From S2P Require Import Prelude PyStr PyDict Codec Regex PyFloat Json Sha256 PyPath.
From S2P Require Import Archive ReleaseText.

Local Open Scope Z_scope.

(** ** Constants *)

Definition PLATFORMS : list str :=
  [u "linux-x86_64"; u "linux-aarch64"; u "darwin-arm64"; u "android-aarch64";
   u "android-armv7a"; u "android-x86_64"; u "windows-x64"].
Definition EVIDENCE : list str :=
  [u "evidence/binary-audit.json"; u "evidence/sianod-binary-audit.json";
   u "evidence/sianoctl-binary-audit.json"].
Definition PX4_DOCUMENTS : list str :=
  [u "README.md"; u "SPEC.md"; u "docs/platforms/validation-results.md";
   u "docs/release-validation.md"; u "docs/releasing.md"].
Definition NOTICE : str := u "DEPENDENCY-NOTICE.txt".
Definition SUMS : str := u "SHA256SUMS".

(** Three decimal numbers without leading zeros, separated by dots. *)
Definition number_re : re :=
  Alt (lit (u "0")) (Cat (Chr (λ c, is_digit c && negb (c =? 48)%N)) (Star digit)).
Definition VERSION : re :=
  Cat number_re (Cat (lit (u ".")) (Cat number_re (Cat (lit (u ".")) number_re))).

Definition dot (x y : str) : str := x ++ u "." ++ y.

(** [expected_assets]: the archive names of a version. *)
Definition asset_name (version platform : str) : str :=
  u "siano-ts-" ++ version ++ u "-" ++ platform ++ u "."
  ++ (if decide (platform = u "windows-x64") then u "zip" else u "tar.gz").
Definition source_asset (version : str) : str :=
  u "siano-ts-" ++ version ++ u "-source.tar.gz".
Definition expected_assets (version : str) : res (list str) :=
  check (fullmatch VERSION version) "version must be strict X.Y.Z" ;;
  Ok ((asset_name version <$> PLATFORMS) ++ [source_asset version]).

Section verify.
Context `{Unicode} `{Digest} `{Archives}.
(** The recursion limit of the JSON parser. *)
Context (limit : nat).

(** The bytes kept of a member: [members[name].data or b""]. *)
Definition data_or_empty (m : member) : bytes := default [] (m_data m).

(** ** Checksums inside an archive *)

Definition verify_inner_sums (members : dict member) : res unit :=
  match dict_get SUMS members with
  | Some (Member _ _ _ _ (Some data) _) =>
      sums ← parse_sums data (dict_keys members ∖ {[SUMS]});
      for_each (λ '(name, digest),
        m ← item members name;
        check (bool_decide (m_digest m = digest)) "inner checksum mismatch") sums
  | _ => Err (VerificationError "missing inner SHA256SUMS")
  end.

(** ** Manifests *)

(** [re.match(r"siano-ts-(\d+\.\d+\.\d+)-", archive_name).group(1)]. *)
Definition py_digit (c : N) : bool := is_digit c || (128 <=? c)%N && decimal_digit c.
Fixpoint take_while (p : N → bool) (s : str) : str * str :=
  match s with
  | c :: s' => if p c then let '(d, r) := take_while p s' in (c :: d, r) else ([], s)
  | [] => ([], [])
  end.
Definition digit_run (s : str) : option (str * str) :=
  match take_while py_digit s with
  | ([], _) => None
  | r => Some r
  end.
Definition archive_version (archive_name : str) : option str :=
  s ← strip_prefix (u "siano-ts-") archive_name;
  '(major, s) ← digit_run s; s ← strip_prefix (u ".") s;
  '(minor, s) ← digit_run s; s ← strip_prefix (u ".") s;
  '(patch, s) ← digit_run s; _ ← strip_prefix (u "-") s;
  Some (dot major (dot minor patch)).

Definition programs_of (platform : str) : list str :=
  if decide (platform = u "windows-x64")
  then [u "sianod.exe"; u "sianoctl.exe"; u "siano-ts.exe"]
  else [u "sianod"; u "sianoctl"; u "siano-ts"].

Definition archive_platform (archive_name : str) : option str :=
  List.find (λ value, contains (u "-" ++ value ++ u ".") archive_name) PLATFORMS.

(** One record of [files]: the size and the digest of the member. *)
Definition check_record (members : dict member) (entry : str * json) : res unit :=
  let '(name, record) := entry in
  match record with
  | JDict r =>
      check (bool_decide (dict_keys r = {[u "size"; u "sha256"]})) "manifest record mismatch" ;;
      match dict_get (u "size") r with
      | Some (JInt size) =>
          m ← item members name;
          check ((size =? m_size m) && get_eq r (u "sha256") (JStr (m_digest m)))
            "manifest record mismatch"
      | _ => Err (VerificationError "manifest record mismatch")
      end
  | _ => Err (VerificationError "manifest record mismatch")
  end.

(** [manifest["files"]]: an object with one record per other member. *)
Definition check_files (members : dict member) (own : str) (manifest : dict json)
    : res (dict json) :=
  match dict_get (u "files") manifest with
  | Some (JDict files) =>
      check (bool_decide (dict_keys files = dict_keys members ∖ {[own; SUMS]}))
        "manifest file inventory mismatch" ;;
      for_each (check_record members) files ;;
      Ok files
  | _ => Err (VerificationError "manifest file inventory mismatch")
  end.

(** The kept bytes of a member that must be there. *)
Definition kept_data (members : dict member) (name : str) : res bytes :=
  match dict_get name members with
  | Some (Member _ _ _ _ (Some data) _) => Ok data
  | _ => Err (VerificationError "missing or oversized metadata")
  end.

Definition check_evidence (members : dict member) (platform source_sha : str)
    (evidence_program : str * str) : res unit :=
  let '(name, program) := evidence_program in
  data ← kept_data members name;
  evidence ← parse_json limit data;
  check (canonical_json_file data evidence) "noncanonical binary evidence" ;;
  check (bool_decide (dict_keys evidence
                      = {[u "schema"; u "platform"; u "source_ref"; u "binary"]})
         && get_eq evidence (u "schema") (JInt 2)
         && get_eq evidence (u "platform") (JStr platform)
         && get_eq evidence (u "source_ref") (JStr source_sha)) "binary evidence mismatch" ;;
  match dict_get (u "binary") evidence with
  | Some (JDict binary) =>
      check (bool_decide (dict_keys binary = {[u "name"; u "sha256"]})
             && get_eq binary (u "name") (JStr program)) "binary evidence mismatch" ;;
      m ← item members program;
      check (get_eq binary (u "sha256") (JStr (m_digest m))) "binary evidence mismatch"
  | _ => Err (VerificationError "binary evidence mismatch")
  end.

(** [parse_binary_manifest]: the manifest and its [files]. *)
Definition parse_binary_manifest (members : dict member) (archive_name source_sha : str)
    : res (dict json * dict json) :=
  data ← kept_data members (u "manifest.json");
  manifest ← parse_json limit data;
  check (canonical_json_file data manifest) "noncanonical manifest.json" ;;
  platform ← of_option (VerificationError "unknown binary archive")
               (archive_platform archive_name);
  version ← of_option (VerificationError "binary manifest identity mismatch")
              (archive_version archive_name);
  check (get_eq manifest (u "schema") (JInt 1)
         && get_eq manifest (u "version") (JStr version)
         && get_eq manifest (u "platform") (JStr platform)
         && get_eq manifest (u "source_ref") (JStr source_sha))
    "binary manifest identity mismatch" ;;
  check (get_eq manifest (u "programs") (JList (JStr <$> programs_of platform)))
    "binary program inventory mismatch" ;;
  files ← check_files members (u "manifest.json") manifest;
  check (bool_decide (list_to_set EVIDENCE ⊆ dict_keys members)) "binary evidence missing" ;;
  for_each (check_evidence members platform source_sha) (zip EVIDENCE (programs_of platform)) ;;
  Ok (manifest, files).

Definition parse_source_manifest (members : dict member) (version commit tree : str)
    : res (dict json * dict json) :=
  data ← kept_data members (u "source-manifest.json");
  manifest ← parse_json limit data;
  check (canonical_json_file data manifest) "noncanonical source-manifest.json" ;;
  check (get_eq manifest (u "version") (JStr version)
         && get_eq manifest (u "source_ref") (JStr commit)
         && get_eq manifest (u "resolved_commit") (JStr commit)
         && get_eq manifest (u "tree") (JStr tree)) "source manifest identity mismatch" ;;
  files ← check_files members (u "source-manifest.json") manifest;
  m ← of_option (VerificationError "source archive VERSION mismatch")
        (dict_get (u "repository/VERSION") members);
  text ← of_option (ValueError "not ASCII") (encode_ascii (version ++ [10%N]));
  check (bool_decide (m_data m = Some text)) "source archive VERSION mismatch" ;;
  Ok (manifest, files).

(** ** Comparing two archives *)

Definition compare_member_sets (before after : dict member) (allowed : gset str) : res unit :=
  check (bool_decide (dict_keys before = dict_keys after)) "archive member inventory changed" ;;
  for_each (λ '(name, left_),
    right_ ← item after name;
    check (bool_decide ((m_kind left_, m_mode left_, m_link_target left_)
                        = (m_kind right_, m_mode right_, m_link_target right_)))
      "archive member type/mode/link changed" ;;
    check (bool_decide (name ∈ allowed)
           || bool_decide ((m_size left_, m_digest left_) = (m_size right_, m_digest right_)))
      "archive payload changed") before.

(** The members whose digest changed. *)
Definition changed_members (before after : dict member) : res (gset str) :=
  fold_res (λ (changed : gset str) '(name, left_),
    right_ ← item after name;
    Ok (if decide (m_digest left_ = m_digest right_) then changed else {[name]} ∪ changed))
  ∅ before.

(** [manifest["files"][name]["size"]]. *)
Definition record_size (files : dict json) (name : str) : res json :=
  record ← item files name;
  match record with
  | JDict r => item r (u "size")
  | _ => Err (TypeError "record")
  end.

(** The expected [files]: the named records are taken from the tag's manifest. *)
Definition take_record (new_files : dict json) (expected : dict json) (name : str)
    : res (dict json) :=
  record ← item new_files name;
  Ok (dict_set name record expected).

Definition same_size (old_files new_files : dict json) (name : str) : res unit :=
  old_size ← record_size old_files name;
  new_size ← record_size new_files name;
  check (py_eq old_size new_size) "identity member size changed".

Definition notice_dict (data : bytes) : res (dict str) := notice_fields <$> notice_lines data.

(** [notice.get(key) == value] for each expected field. *)
Definition has_fields (notice expected : dict str) : bool :=
  forallb (λ kv, bool_decide (dict_get kv.1 notice = Some kv.2)) expected.

(** The dependency notices: their identities and nothing else changed. *)
Definition compare_notices (before after : dict member) (old_identity new_identity : dict str)
    : res unit :=
  old ← item before NOTICE;
  new ← item after NOTICE;
  match m_data old, m_data new with
  | Some old_data, Some new_data =>
      old_notice ← notice_dict old_data;
      new_notice ← notice_dict new_data;
      check (has_fields old_notice old_identity && has_fields new_notice new_identity)
        "dependency notice identity mismatch" ;;
      compare_notice old_data new_data new_identity
  | _, _ => Err (VerificationError "missing dependency notice")
  end.

Definition binary_allowed : gset str :=
  list_to_set ([u "manifest.json"; NOTICE; SUMS] ++ EVIDENCE).

Definition verify_binary_pair (before after : dict member)
    (archive_name candidate_sha tag_sha : str) : res unit :=
  compare_member_sets before after binary_allowed ;;
  '(old_manifest, old_files) ← parse_binary_manifest before archive_name candidate_sha;
  '(new_manifest, new_files) ← parse_binary_manifest after archive_name tag_sha;
  old ← item before (u "manifest.json");
  new ← item after (u "manifest.json");
  matching_json_style (data_or_empty old) (data_or_empty new) ;;
  let expected := dict_set (u "source_ref") (JStr tag_sha) old_manifest in
  expected_files ← fold_res (λ files name,
      same_size old_files new_files name ;; take_record new_files files name)
    old_files (NOTICE :: EVIDENCE);
  let expected := dict_set (u "files") (JDict expected_files) expected in
  check (py_eq (JDict expected) (JDict new_manifest))
    "binary manifest changed outside approved identity" ;;
  compare_notices before after [(u "source.ref", candidate_sha)] [(u "source.ref", tag_sha)] ;;
  for_each (λ name,
    old ← item before name;
    new ← item after name;
    compare_json_identity limit (data_or_empty old) (data_or_empty new) (u "source_ref") tag_sha ;;
    Ok tt) EVIDENCE ;;
  changed ← changed_members before after;
  check (bool_decide (changed ⊆ binary_allowed)) "binary changed outside allowlist".

Definition result_document (version : str) : str :=
  u "docs/release-validation/" ++ version ++ u ".md".
Definition notes_document (tag : str) : str := u "release-notes/" ++ tag ++ u ".md".

(** The documents a release may edit. *)
Definition document_paths (version tag : str) : list str :=
  PX4_DOCUMENTS ++ [notes_document tag; u "release-notes/" ++ tag ++ u ".json";
                    result_document version].

Definition source_document_members (members : dict member) (version tag : str)
    : res (gset str) :=
  let in_repository := app (u "repository/") in
  check (bool_decide (in_repository (result_document version) ∈ dict_keys members)
         && bool_decide (in_repository (notes_document tag) ∈ dict_keys members))
    "candidate source archive must contain the version record and release notes" ;;
  Ok (list_to_set (u "README.md" :: (in_repository <$> document_paths version tag))
      ∩ dict_keys members).

Definition source_identity (commit tree : str) : dict str :=
  [(u "source.ref", commit); (u "source.resolved_commit", commit); (u "source.tree", tree)].

Definition verify_source_pair (before after : dict member)
    (version candidate_sha tag_sha candidate_tree tag_tree tag : str) : res unit :=
  documents ← source_document_members before version tag;
  check (bool_decide (u "repository/" ++ result_document version ∈ dict_keys after))
    "version result document is missing from tag source inventory" ;;
  let allowed := {[u "source-manifest.json"; NOTICE; SUMS]} ∪ documents in
  compare_member_sets before after allowed ;;
  '(old, old_files) ← parse_source_manifest before version candidate_sha candidate_tree;
  '(new, new_files) ← parse_source_manifest after version tag_sha tag_tree;
  old_member ← item before (u "source-manifest.json");
  new_member ← item after (u "source-manifest.json");
  matching_json_style (data_or_empty old_member) (data_or_empty new_member) ;;
  let expected := dict_set (u "tree") (JStr tag_tree)
                    (dict_set (u "resolved_commit") (JStr tag_sha)
                       (dict_set (u "source_ref") (JStr tag_sha) old)) in
  same_size old_files new_files NOTICE ;;
  expected_files ← fold_res (take_record new_files) old_files (NOTICE :: elements documents);
  let expected := dict_set (u "files") (JDict expected_files) expected in
  check (py_eq (JDict expected) (JDict new))
    "source manifest changed outside approved identity/document" ;;
  compare_notices before after (source_identity candidate_sha candidate_tree)
    (source_identity tag_sha tag_tree) ;;
  changed ← changed_members before after;
  check (bool_decide (changed ⊆ allowed)) "source archive changed outside allowlist".
End verify.
