(* ===== verification/ReleaseSamples.v ===== *)
(** * Sample archives

    A small binary archive and a small source archive, for the concrete inputs of the
    theorems: the members' texts are real encodings, the digests are short labels. *)

From S2P Require Import Prelude PyStr PyDict Codec Regex PyFloat Json Sha256 PyPath.
From S2P Require Import Archive ReleaseText ReleaseVerify.

Local Open Scope Z_scope.

#[export] Instance ascii_unicode : Unicode := {| fold_char c := [c]; decimal_digit _ := false |}.

Definition text_member (digest : str) (data : bytes) : member :=
  Member (u "file") 0x1A4 (lenZ data) digest (Some data) None.
Definition payload (digest : str) (size : Z) : member :=
  Member (u "file") 0x1ED size digest None None.

Definition record_of (m : member) : json :=
  JDict [(u "size", JInt (m_size m)); (u "sha256", JStr (m_digest m))].

(** A canonical object, ended by a newline. *)
Definition json_text (d : dict json) : bytes := canonical_json d ++ [x0a].

Definition evidence_of (sha program digest : str) : dict json :=
  [(u "schema", JInt 2); (u "platform", JStr (u "linux-x86_64")); (u "source_ref", JStr sha);
   (u "binary", JDict [(u "name", JStr program); (u "sha256", JStr digest)])].

(** The binary archive built from commit [sha]; [schema] is the manifest's schema. *)
Definition sample_binary (schema : json) (sha : str) : dict member :=
  let programs := [(u "sianod", payload (u "d0") 100); (u "sianoctl", payload (u "d1") 200);
                   (u "siano-ts", payload (u "d2") 300)] in
  let evidence := zip_with (λ name (program : str * member),
      (name, text_member (u "e" ++ sha) (json_text (evidence_of sha program.1 (m_digest program.2)))))
    EVIDENCE programs in
  let notice := (NOTICE, text_member (u "n" ++ sha)
      (nb <$> (u "source.ref=" ++ sha ++ [10%N]))) in
  let described := notice :: evidence ++ programs in
  let manifest := [(u "schema", schema); (u "version", JStr (u "1.2.3"));
     (u "platform", JStr (u "linux-x86_64")); (u "source_ref", JStr sha);
     (u "programs", JList (JStr <$> programs.*1));
     (u "files", JDict (prod_map id record_of <$> described))] in
  (u "manifest.json", text_member (u "m" ++ sha) (json_text manifest))
  :: (SUMS, payload (u "s" ++ sha) 10) :: described.

Definition sample_name : str := u "siano-ts-1.2.3-linux-x86_64.tar.gz".

(** The source archive of [commit] with [tree]; [notes] is the digest of the release notes. *)
Definition sample_source (commit tree notes : str) : dict member :=
  let notice := text_member (u "n" ++ commit)
      (nb <$> (u "source.ref=" ++ commit ++ [10%N] ++ u "source.resolved_commit=" ++ commit
               ++ [10%N] ++ u "source.tree=" ++ tree ++ [10%N])) in
  let described :=
    [(NOTICE, notice);
     (u "repository/VERSION", text_member (u "v") (b "1.2.3" ++ [x0a]));
     (u "repository/docs/release-validation/1.2.3.md", text_member notes (b "record"));
     (u "repository/release-notes/v1.2.3.md", payload notes 20);
     (u "repository/siano-ts.c", payload (u "c") 300)] in
  let manifest := [(u "version", JStr (u "1.2.3")); (u "source_ref", JStr commit);
     (u "resolved_commit", JStr commit); (u "tree", JStr tree);
     (u "files", JDict (prod_map id record_of <$> described))] in
  (u "source-manifest.json", text_member (u "m" ++ commit) (json_text manifest))
  :: (SUMS, payload (u "s" ++ commit) 10) :: described.
