(* ===== verification/Release.v ===== *)
(** * The release gate: [scripts/release_verify.py], [verify_git_identity], [verify_bundle]
    and [verify_release]

    Git is the environment: what each command line gives.  So are the directories. *)

From stdpp Require Import sorting.
From S2P Require Import Prelude PyStr PyDict Codec Regex PyFloat Json Sha256 PyPath.
From S2P Require Import Archive ReleaseText ReleaseVerify.

Local Open Scope Z_scope.

(** ** The environment *)

(** One finished command; [None] when it cannot be started or times out. *)
Record completed := Completed { returncode : Z; stdout : bytes }.
Class Git := { git : list str → option completed }.

(** The bundle directories: whether a path is a directory that is not a symbolic link,
    its entries, and the contents of a regular file of it that is not one. *)
Class Bundles := {
  is_directory : str → bool;
  iterdir : str → list str;
  regular_file : str → str → option bytes;
}.

(** ** Git *)

(** [bytes.strip()]. *)
Definition byte_space (x : byte) : bool :=
  ((bn x =? 32) || (9 <=? bn x) && (bn x <=? 13))%N.
Fixpoint bytes_lstrip (l : bytes) : bytes :=
  match l with
  | x :: l' => if byte_space x then bytes_lstrip l' else l
  | [] => []
  end.
Definition bytes_strip (l : bytes) : bytes := reverse (bytes_lstrip (reverse (bytes_lstrip l))).

Section git.
Context `{Git}.

Definition git_value (args : list str) : res str :=
  match git args with
  | Some (Completed 0 out) =>
      text ← of_option (ValueError "ascii codec") (decode_ascii out);
      Ok (strip text)
  | _ => Err (VerificationError "git identity check failed")
  end.

Definition candidate_document_paths (version tag candidate_sha : str) : res (gset str) :=
  existing ← fold_res (λ (existing : gset str) path,
      match git [u "cat-file"; u "-t"; candidate_sha ++ u ":" ++ path] with
      | None => Err (VerificationError "candidate document check failed")
      | Some result =>
          Ok (if decide (returncode result = 0 ∧ bytes_strip (stdout result) = b "blob")
              then {[path]} ∪ existing else existing)
      end) ∅ (document_paths version tag);
  check (bool_decide (result_document version ∈ existing)
         && bool_decide (notes_document tag ∈ existing))
    "candidate must already contain the version record and release notes" ;;
  Ok existing.

Definition rev_parse (what : str) : res str :=
  git_value [u "rev-parse"; u "--verify"; what].

(** The state of the loop over the commits. *)
Record history := History {
  previous : str;
  index : nat;
  changed_notes_at : option nat;
  changed_record_at : option nat;
}.

Definition first_change (changed : gset str) (doc : str) (index : nat) (at_ : option nat)
    : option nat :=
  match at_ with
  | Some i => Some i
  | None => if decide (doc ∈ changed) then Some index else None
  end.

Definition follow_commit (allowed : gset str) (version : str) (h : history) (commit : str)
    : res history :=
  parents ← words <$> git_value [u "show"; u "-s"; u "--format=%P"; commit];
  check (bool_decide (parents = [previous h]))
    "candidate-to-tag document commits must be a linear chain" ;;
  diff ← git_value [u "diff"; u "--name-only"; u "-z"; previous h; commit];
  let changed : gset str := list_to_set (filter (λ w, w ≠ []) (split_on 0 diff)) in
  check (negb (bool_decide (changed = ∅)) && bool_decide (changed ⊆ allowed))
    "candidate-to-tag commits may change only approved existing documents" ;;
  Ok (History commit (S (index h))
        (first_change changed (notes_document (u "v" ++ version)) (index h) (changed_notes_at h))
        (first_change changed (result_document version) (index h) (changed_record_at h))).

Definition verify_git_identity (version candidate_sha tag_sha : str) : res (str * str) :=
  check (hex40 candidate_sha && hex40 tag_sha)
    "source SHAs must be canonical 40-character object IDs" ;;
  candidate_commit ← rev_parse (candidate_sha ++ u "^{commit}");
  check (bool_decide (candidate_commit = candidate_sha))
    "candidate commit is not present in source checkout" ;;
  tag_commit ← rev_parse (tag_sha ++ u "^{commit}");
  check (bool_decide (tag_commit = tag_sha)) "tag commit is not present in source checkout" ;;
  head_commit ← rev_parse (u "HEAD^{commit}");
  check (bool_decide (head_commit = tag_sha))
    "source checkout is not at the release tag commit" ;;
  check (match git [u "merge-base"; u "--is-ancestor"; candidate_sha; tag_sha] with
         | Some result => returncode result =? 0
         | None => false
         end) "candidate commit is not an ancestor of tag commit" ;;
  candidate_tree ← rev_parse (candidate_sha ++ u "^{tree}");
  tag_tree ← rev_parse (tag_sha ++ u "^{tree}");
  allowed ← candidate_document_paths version (u "v" ++ version) candidate_sha;
  commits ← splitlines <$> git_value [u "rev-list"; u "--first-parent"; u "--reverse";
                                      candidate_sha ++ u ".." ++ tag_sha];
  check (negb (bool_decide (commits = []))) "tag commit must follow the candidate commit" ;;
  h ← fold_res (follow_commit allowed version) (History candidate_sha 0 None None) commits;
  check (bool_decide (previous h = tag_sha)
         && match changed_record_at h, changed_notes_at h with
            | Some record, Some notes => (record <? notes)%nat
            | _, _ => false
            end) "tag history must update the version result before release notes" ;;
  Ok (candidate_tree, tag_tree).
End git.

(** ** Bundles *)

Section release.
Context `{Unicode} `{Digest} `{Archives} `{Git} `{Bundles}.
Context (limit : nat).

(** [sha256(path)]. *)
Definition sha256 (file : option bytes) : res str :=
  content ← of_option (VerificationError "not a regular file") file;
  check (lenZ content <=? MAX_ARCHIVE_BYTES) "input size limit" ;;
  Ok (hexdigest content).

(** One archive of the bundle. *)
Definition load_asset (directory : str) (checksums : dict str)
    (archives : dict (dict member)) (name : str) : res (dict (dict member)) :=
  let file := regular_file directory name in
  check (bool_decide (is_Some file)) "missing regular archive" ;;
  digest ← sha256 file;
  expected ← item checksums name;
  check (bool_decide (digest = expected)) "outer checksum mismatch" ;;
  members ← read_archive name file;
  verify_inner_sums members ;;
  Ok (dict_set name members archives).

Definition verify_bundle (directory version : str) : res (dict str * dict (dict member)) :=
  check (is_directory directory) "not a bundle directory" ;;
  expected ← expected_assets version;
  check (bool_decide (list_to_set (iterdir directory)
                      = (list_to_set expected ∪ {[SUMS]} : gset str))) "bundle inventory mismatch" ;;
  data ← of_option (VerificationError "invalid outer SHA256SUMS") (regular_file directory SUMS);
  check (lenZ data <=? MAX_METADATA_BYTES) "invalid outer SHA256SUMS" ;;
  checksums ← parse_sums data (list_to_set expected);
  archives ← fold_res (load_asset directory checksums) [] (sorted (remove_dups expected));
  Ok (checksums, archives).

(** The chunk-wise comparison of two files; the fuel is the length of the first. *)
Fixpoint same_chunks (fuel : nat) (a c : bytes) : bool :=
  match fuel with
  | O => false
  | S fuel =>
      bool_decide (takeZ CHUNK_BYTES a = takeZ CHUNK_BYTES c)
      && match takeZ CHUNK_BYTES a with
         | [] => true
         | _ => same_chunks fuel (dropZ CHUNK_BYTES a) (dropZ CHUNK_BYTES c)
         end
  end.

(** A file opened for reading. *)
Definition read_bytes (directory name : str) : res bytes :=
  of_option (OSError "cannot open") (regular_file directory name).

Record result := Result {
  r_tag : str;
  r_candidate_sha : str;
  r_tag_sha : str;
  r_candidate_tree : str;
  r_tag_tree : str;
  r_candidate_sha256sums_sha256 : str;
  r_tag_sha256sums_sha256 : str;
  r_assets : list str;
}.

Definition verify_release (candidate_dir reproduction_dir tag_dir tag candidate_sha tag_sha : str)
    : res result :=
  let version := tail tag in
  check (starts_with (u "v") tag && fullmatch VERSION version) "tag must be strict vX.Y.Z" ;;
  '(candidate_tree, tag_tree) ← verify_git_identity version candidate_sha tag_sha;
  '(_, candidate) ← verify_bundle candidate_dir version;
  '(_, reproduction) ← verify_bundle reproduction_dir version;
  '(_, tagged) ← verify_bundle tag_dir version;
  candidate_sums ← read_bytes candidate_dir SUMS;
  reproduction_sums ← read_bytes reproduction_dir SUMS;
  check (bool_decide (candidate_sums = reproduction_sums))
    "independent candidate outer SHA256SUMS differ byte-for-byte" ;;
  assets ← expected_assets version;
  for_each (λ name,
    left_ ← read_bytes candidate_dir name;
    right_ ← read_bytes reproduction_dir name;
    check (same_chunks (S (length left_)) left_ right_) "independent candidate archive differs")
    assets ;;
  for_each (λ name,
    before ← item candidate name;
    after ← item tagged name;
    if decide (name = source_asset version)
    then verify_source_pair limit before after version candidate_sha tag_sha
           candidate_tree tag_tree tag
    else verify_binary_pair limit before after name candidate_sha tag_sha) assets ;;
  tag_sums ← read_bytes tag_dir SUMS;
  Ok (Result tag candidate_sha tag_sha candidate_tree tag_tree (hexdigest candidate_sums)
        (hexdigest tag_sums) assets).

(** [main]: the exit code and the printed result. *)
Definition main (candidate_dir reproduction_dir tag_dir tag candidate_sha tag_sha : str)
    : res (Z * option result) :=
  try_except
    (r ← verify_release candidate_dir reproduction_dir tag_dir tag candidate_sha tag_sha;
     Ok (0, Some r))
    (λ e, match e with VerificationError _ => Ok (1, None) | _ => Err e end).
End release.
