(* ===== verification/ReleaseFixture.v ===== *)
(** * A small accepted release

    Concrete instances of the environment: a digest that looks at the length only, a git
    with a two-commit history, archive libraries whose file contents name the commit and
    the platform, and bundle directories holding the eight archives of version 1.2.3. *)

From S2P Require Import Prelude PyStr PyDict Codec Regex PyFloat Json Sha256 PyPath.
From S2P Require Import Archive ReleaseText ReleaseVerify ReleaseSamples Release.

Local Open Scope Z_scope.

Definition length_hex (data : bytes) : str :=
  replicate 64 (97 + N.of_nat (length data) mod 6)%N.
Lemma length_hex_ok data : hex64 (length_hex data) = true.
Proof.
  apply hex64_spec. unfold length_hex. split; [apply length_replicate|].
  apply Forall_replicate. pose proof (N.mod_lt (N.of_nat (length data)) 6 ltac:(done)).
  revert H. generalize (N.of_nat (length data) mod 6)%N. intros x Hx.
  unfold is_hex. apply orb_true_iff. right. apply andb_true_iff. rewrite !N.leb_le. lia.
Qed.
Definition length_digest : Digest := {| hexdigest := length_hex; hexdigest_hex := length_hex_ok |}.
#[local] Existing Instance length_digest.

Definition version : str := u "1.2.3".
Definition sha (c : N) : str := replicate 40 c.
Definition candidate : str := sha 97.
Definition middle : str := sha 98.
Definition tagged : str := sha 99.
Definition tree_of (commit : str) : str := if decide (commit = candidate) then sha 100 else sha 101.

(** ** Archives *)

Record contents := Contents { c_name : str; c_mode : Z; c_data : bytes }.

Definition text (s : str) : bytes := nb <$> s.
Definition record (f : contents) : str * json :=
  (c_name f, JDict [(u "size", JInt (lenZ (c_data f))); (u "sha256", JStr (hexdigest (c_data f)))]).

(** The manifest and the checksum list of the described files. *)
Definition sealed (manifest_name : str) (manifest : dict json) (files : list contents)
    : list contents :=
  let m := Contents manifest_name 0x1A4
             (json_text (manifest ++ [(u "files", JDict (record <$> files))])) in
  let sums := concat ((λ f, hexdigest (c_data f) ++ u "  " ++ c_name f ++ [10%N]) <$> m :: files) in
  Contents SUMS 0x1A4 (text sums) :: m :: files.

Definition notice (fields : list (str * str)) : contents :=
  Contents NOTICE 0x1A4
    (text (concat ((λ kv : str * str, kv.1 ++ u "=" ++ kv.2 ++ [10%N]) <$> fields))).

Definition binary_archive (platform commit : str) : list contents :=
  let programs := (λ p, Contents p 0x1ED (text p)) <$> programs_of platform in
  let evidence := zip_with (λ name p, Contents name 0x1A4 (json_text
      [(u "schema", JInt 2); (u "platform", JStr platform); (u "source_ref", JStr commit);
       (u "binary", JDict [(u "name", JStr (c_name p)); (u "sha256", JStr (hexdigest (c_data p)))])]))
    EVIDENCE programs in
  sealed (u "manifest.json")
    [(u "schema", JInt 1); (u "version", JStr version); (u "platform", JStr platform);
     (u "source_ref", JStr commit); (u "programs", JList (JStr <$> programs_of platform))]
    (notice [(u "source.ref", commit)] :: evidence ++ programs).

Definition source_archive (commit : str) : list contents :=
  sealed (u "source-manifest.json")
    [(u "version", JStr version); (u "source_ref", JStr commit);
     (u "resolved_commit", JStr commit); (u "tree", JStr (tree_of commit))]
    [notice [(u "source.ref", commit); (u "source.resolved_commit", commit);
             (u "source.tree", tree_of commit)];
     Contents (u "repository/VERSION") 0x1A4 (text (version ++ [10%N]));
     Contents (u "repository/" ++ result_document version) 0x1A4 (text commit);
     Contents (u "repository/" ++ notes_document (u "v" ++ version)) 0x1A4 (text commit)].

(** The file of an archive holds the commit, a slash and the platform. *)
Definition archive_file (commit platform : str) : bytes := text (commit ++ u "/" ++ platform).
Definition members_of (content : bytes) : list contents :=
  match split1 47 (bn <$> content) with
  | Some (commit, platform) =>
      if decide (platform = u "source") then source_archive commit
      else binary_archive platform commit
  | None => []
  end.
Definition sample_archives : Archives := {|
  zip_open content := Ok ((λ f, ZipInfo (c_name f) (Z.shiftl (0x8000 + c_mode f) 16) 3 0 8
      (lenZ (c_data f)) (Ok (Stream (c_data f) None))) <$> members_of content);
  tar_open content := ((λ f, TarInfo (c_name f) (c_mode f) (lenZ (c_data f)) true false
      (Ok (Some (Stream (c_data f) None)))) <$> members_of content, None);
|}.
#[local] Existing Instance sample_archives.

(** ** Git *)

Definition output (lines : list str) : option completed :=
  Some (Completed 0 (text (concat ((λ l, l ++ [10%N]) <$> lines)))).
Definition sample_git : Git := {| git args :=
  match args with
  | [_; _; what] =>
      if decide (args = [u "cat-file"; u "-t"; what]) then output [u "blob"]
      else if decide (what = candidate ++ u "^{commit}") then output [candidate]
      else if decide (what = candidate ++ u "^{tree}") then output [tree_of candidate]
      else if decide (what = tagged ++ u "^{tree}") then output [tree_of tagged]
      else output [tagged]
  | [_; _; _; last] =>
      if decide (last = tagged) then
        if decide (args = [u "show"; u "-s"; u "--format=%P"; tagged]) then output [middle]
        else Some (Completed 0 [])
      else if decide (last = middle) then output [candidate]
      else output [middle; tagged]
  | [_; _; _; _; commit] =>
      Some (Completed 0 (text ((if decide (commit = middle) then result_document version
                                else notes_document (u "v" ++ version)) ++ [0%N])))
  | _ => None
  end |}.
#[local] Existing Instance sample_git.

(** ** Bundles *)

Definition assets : list (str * str) :=
  ((λ p, (asset_name version p, p)) <$> PLATFORMS) ++ [(source_asset version, u "source")].
Definition commit_of (directory : str) : str :=
  if decide (directory = u "tag") then tagged else candidate.
Definition sample_sums (directory : str) : bytes :=
  text (concat ((λ a, hexdigest (archive_file (commit_of directory) a.2) ++ u "  " ++ a.1 ++ [10%N])
                <$> assets)).
Definition sample_bundles : Bundles := {|
  is_directory _ := true;
  iterdir _ := SUMS :: assets.*1;
  regular_file directory name :=
    if decide (name = SUMS) then Some (sample_sums directory)
    else archive_file (commit_of directory) <$> dict_get name assets;
|}.
#[local] Existing Instance sample_bundles.

Definition sample_release : res result :=
  verify_release 20 (u "candidate") (u "reproduction") (u "tag") (u "v1.2.3") candidate tagged.

Lemma sample_release_accepted :
  sample_release = Ok (Result (u "v1.2.3") candidate tagged (tree_of candidate) (tree_of tagged)
    (hexdigest (sample_sums (u "candidate"))) (hexdigest (sample_sums (u "tag"))) assets.*1).
Proof. vm_compute. reflexivity. Qed.

(** The bundle of the tag, as [verify_release] verified it. *)
Lemma sample_bundle_accepted :
  ∃ checksums archives, verify_bundle (u "tag") version = Ok (checksums, archives).
Proof.
  pose proof sample_release_accepted as Hr. unfold sample_release, verify_release in Hr.
  change (tail (u "v1.2.3")) with version in Hr. cbn zeta in Hr. unfold check in Hr.
  apply require_then in Hr as [_ Hr].
  apply bind_Ok in Hr as ([? ?] & _ & Hr). apply bind_Ok in Hr as ([? ?] & _ & Hr).
  apply bind_Ok in Hr as ([? ?] & _ & Hr). apply bind_Ok in Hr as ([sums archives] & Hb & _).
  by exists sums, archives.
Qed.
