(* ===== verification/ReleaseTextProps.v ===== *)
(** * Properties of the release texts *)

From S2P Require Import Prelude PyStr PyDict Codec Regex PyFloat Json Sha256 Archive ReleaseText.

Local Open Scope Z_scope.

(** ** Collecting distinct items *)

Lemma insert_new_Ok {A} msg (d : dict A) kv r :
  insert_new msg d kv = Ok r ↔ kv.1 ∉ d.*1 ∧ r = d ++ [kv].
Proof.
  unfold insert_new, check. rewrite require_then, bool_decide_eq_true, dict_keys_elem.
  destruct kv as [k v]; cbn. split; intros [Hk H]; (split; [done|]).
  - injection H as <-. by rewrite dict_set_new.
  - subst. by rewrite dict_set_new.
Qed.

Lemma collect_Ok {A} msg (items : list (str * A)) d r :
  fold_res (insert_new msg) d items = Ok r ↔
  NoDup items.*1 ∧ (∀ k, k ∈ items.*1 → k ∉ d.*1) ∧ r = d ++ items.
Proof.
  revert d. induction items as [|[k v] items IH]; intros d; cbn [fold_res].
  - rewrite app_nil_r. split.
    + intros [= <-]. split_and!; [constructor|by intros ? ?%elem_of_nil|done].
    + by intros (_ & _ & ->).
  - rewrite bind_Ok. setoid_rewrite insert_new_Ok. setoid_rewrite IH.
    rewrite fmap_cons, NoDup_cons. cbn [fst]. split.
    + intros (d' & [Hk ->] & Hnd & Hfresh & ->). rewrite <- app_assoc. split_and!; [|done| |done].
      * intros Hin. apply (Hfresh k Hin). rewrite fmap_app, elem_of_app. right. by left.
      * intros k' [-> |Hin]%elem_of_cons; [done|]. intros Hd. apply (Hfresh k' Hin).
        rewrite fmap_app, elem_of_app. by left.
    + intros ([Hk Hnd] & Hfresh & ->). exists (d ++ [(k, v)]). split_and!; [apply Hfresh; left|done|done| |].
      * intros k' Hin. rewrite fmap_app, elem_of_app. cbn. rewrite list_elem_of_singleton.
        intros [Hd| ->]; [|done]. apply (Hfresh k'); [by right|done].
      * by rewrite <- app_assoc.
Qed.

(** ** JSON *)

Section json.
Context (limit : nat).

Lemma parse_json_NoDup data d : parse_json limit data = Ok d → NoDup d.*1.
Proof.
  unfold parse_json. intros (v & Hv & H)%bind_Ok. destruct v; try done. injection H as <-.
  destruct (decode_utf8 data); [|done]. rewrite try_except_Ok in Hv by (by intros []).
  apply loads_object in Hv as (pairs & Hp); [|done].
  unfold unique_pairs in Hp. by apply collect_Ok in Hp as (? & _ & ->).
Qed.

Lemma parse_json_raises data :
  raises_only (λ e, ∃ msg, e = VerificationError msg) (parse_json limit data).
Proof.
  unfold parse_json. apply raises_bind; [|intros a _; destruct a; raises; eauto].
  destruct (decode_utf8 data) as [s|]; [|by eexists]. apply raises_try. intros e He.
  assert (raises_only (λ e, loads_exn e ∨ ∃ msg, e = VerificationError msg)
            (loads unique_pairs no_constant limit s)) as Hr.
  { apply loads_raises; [auto| |].
    - intros l. unfold unique_pairs. apply raises_fold. intros d kv. unfold insert_new, check.
      raises. eauto.
    - intros c. right. by eexists. }
  rewrite He in Hr. destruct Hr as [[[m [-> | ->]]| ->]|[m ->]]; by eexists.
Qed.
(** *** The canonical encoding *)

Lemma last_canonical_json d : last (canonical_json d) = Some (nb 125).
Proof.
  unfold canonical_json, dumps_bytes, dumps. cbn [dump].
  assert (∀ left_ items, last (dump_block left_ (u "}") 0 items) = Some 125%N) as Hl.
  { intros left_ [|i l]; unfold dump_block; change (u "}") with [125%N];
      rewrite ?app_assoc, last_snoc; done. }
  rewrite fmap_last. by rewrite Hl.
Qed.

(** The encoding with or without a final newline. *)
Definition encoding (d : dict json) (nl : bool) : bytes :=
  canonical_json d ++ (if nl then [x0a] else []).

Lemma canonical_json_file_spec data d :
  canonical_json_file data d = true ↔ data = encoding d (ends_with_newline data).
Proof.
  unfold canonical_json_file, encoding, ends_with_newline. rewrite bool_decide_eq_true. split.
  - intros [-> | ->].
    + rewrite last_canonical_json. rewrite bool_decide_eq_false_2 by done. by rewrite app_nil_r.
    + rewrite last_snoc. by rewrite bool_decide_eq_true_2.
  - intros ->. destruct (bool_decide _); [by right|left; apply app_nil_r].
Qed.

Lemma encoding_newline d nl : ends_with_newline (encoding d nl) = nl.
Proof.
  unfold ends_with_newline, encoding. destruct nl.
  - rewrite last_snoc. by apply bool_decide_eq_true_2.
  - rewrite app_nil_r, last_canonical_json. by apply bool_decide_eq_false_2.
Qed.

(** The encodings of two objects in the same style. *)
Definition encodes (before after : bytes) (old new : dict json) : Prop :=
  parse_json limit before = Ok old ∧ parse_json limit after = Ok new
  ∧ ∃ nl, before = encoding old nl ∧ after = encoding new nl.

(** Equal up to one field, which has the new value. *)
Definition same_but (field expected : str) (old new : dict json) : Prop :=
  dict_get field new = Some (JStr expected) ∧ dict_get field old ≠ Some (JStr expected)
  ∧ ∀ k, k ≠ field → option_py_eq (dict_get k old) (dict_get k new).

Lemma compare_json_identity_Ok before after field expected old new :
  compare_json_identity limit before after field expected = Ok (old, new) ↔
  encodes before after old new ∧ same_but field expected old new.
Proof.
  unfold compare_json_identity, matching_json_style, check, encodes, same_but. split.
  - intros (o & Ho & (n & Hn & H)%bind_Ok)%bind_Ok.
    rewrite !require_then, !andb_true_iff, !canonical_json_file_spec, get_eq_str in H.
    destruct H as (Hnl%eqb_prop & [Hco Hcn] & [Hdiff Hnew] & Hrest & [= -> ->]).
    split; [split_and!; [done..|]; exists (ends_with_newline before); by rewrite Hnl at 2|].
    split; [done|]. rewrite Hnew in Hdiff, Hrest. split.
    + intros Hold. rewrite Hold in Hdiff. cbn in Hdiff. by rewrite bool_decide_eq_true_2 in Hdiff.
    + intros k Hk. apply py_eq_dict with (k := k) in Hrest.
      * rewrite dict_get_set, decide_False in Hrest by done. done.
      * by apply dict_set_NoDup, (parse_json_NoDup before).
      * by apply (parse_json_NoDup after).
  - intros ((Ho & Hn & nl & Hb & Ha) & Hnew & Hold & Hrest).
    rewrite Ho, Hn. cbn [mbind res_bind].
    rewrite !require_then, !andb_true_iff, !canonical_json_file_spec, get_eq_str.
    rewrite Hb, Ha, !encoding_newline. split_and!; try done.
    + by destruct nl.
    + rewrite Hnew. apply negb_true_iff, not_true_iff_false. 
      change (default JNull (Some (JStr expected))) with (JStr expected). rewrite py_eq_str. intros Heq. apply Hold.
      destruct (dict_get field old); cbn in Heq; [by rewrite Heq|done].
    + rewrite Hnew. apply py_eq_dict;
        [by apply dict_set_NoDup, (parse_json_NoDup before)|by apply (parse_json_NoDup after)|].
      intros k. rewrite dict_get_set. case_decide as Hk; [|by apply Hrest].
      subst. rewrite Hnew. cbn. by apply bool_decide_eq_true_2.
Qed.
End json.

(** ** Checksum lists *)

Lemma parse_sums_Ok data expected r :
  parse_sums data expected = Ok r ↔
  ∃ text, decode_ascii data = Some text ∧ mapM sum_line (splitlines text) = Some r
    ∧ NoDup r.*1 ∧ dict_keys r = expected.
Proof.
  unfold parse_sums, check. rewrite bind_Ok. setoid_rewrite of_option_Ok.
  setoid_rewrite bind_Ok. setoid_rewrite require_then. setoid_rewrite bool_decide_eq_true.
  assert (∀ lines r, fold_res (λ result line,
      item ← of_option (VerificationError "invalid line") (sum_line line);
      insert_new "duplicate entry" result item) [] lines = Ok r
      ↔ mapM sum_line lines = Some r ∧ NoDup r.*1) as Hfold.
  { intros lines r'. rewrite (fold_decode _ sum_line (insert_new "duplicate entry")).
    - setoid_rewrite collect_Ok. split.
      + by intros (es & ? & ? & _ & ->).
      + intros [? ?]. exists r'. split_and!; [done..| |done]. by intros ?? ?%elem_of_nil.
    - intros s i s'. rewrite bind_Ok. by setoid_rewrite of_option_Ok. }
  split.
  - intros (text & Ht & r' & Hr & Hk & [= <-]). apply Hfold in Hr as [? ?]. eauto.
  - intros (text & Ht & Hr & Hn & Hk). exists text. split; [done|].
    exists r. split; [by apply Hfold|done].
Qed.

Lemma sum_line_Some line name digest :
  sum_line line = Some (name, digest) → line = digest ++ u "  " ++ name ∧ hex64 digest = true.
Proof.
  unfold sum_line. destruct (hex64 (take 64 line)) eqn:Hh; [|done].
  destruct (starts_with (u "  ") (drop 64 line)) eqn:Hs; [|done]. cbn [andb].
  destruct (fullmatch _ _); [|done]. intros [= <- <-]. split; [|done].
  apply starts_with_spec in Hs as (r & Hr). rewrite Hr.
  rewrite <- (take_drop 64 line) at 1. by rewrite Hr.
Qed.

(** ** Dependency notices *)

(** The text of a line. *)
Definition line_text (item : option str * str) : str :=
  match item.1 with Some key => key ++ u "=" ++ item.2 | None => item.2 end.

Lemma split1_Some c s x y : split1 c s = Some (x, y) → s = x ++ [c] ++ y.
Proof.
  revert x y. induction s as [|z s IH]; intros x y; cbn; [done|].
  destruct (N.eqb_spec z c) as [->|]; [by intros [= <- <-]|].
  destruct (split1 c s) as [[x' y']|]; [|done]. intros [= <- <-]. cbn. f_equal. by apply IH.
Qed.

Lemma line_text_line line : line_text (notice_line line) = line.
Proof.
  unfold notice_line. destruct (split1 61 line) as [[k v]|] eqn:Hs; [|done].
  apply split1_Some in Hs. destruct (fullmatch notice_key k); [|done]. by rewrite Hs.
Qed.

(** The keys of the fields of a notice. *)
Definition field_keys (lines : list (option str * str)) : list str := omap fst lines.

Lemma notice_fold_Ok lines result seen s' :
  fold_res notice_step (result, seen) lines = Ok s' ↔
  NoDup (field_keys (notice_line <$> lines))
  ∧ (∀ k, k ∈ field_keys (notice_line <$> lines) → k ∉ seen)
  ∧ s' = (result ++ (notice_line <$> lines),
          list_to_set (field_keys (notice_line <$> lines)) ∪ seen).
Proof.
  revert result seen. induction lines as [|line lines IH]; intros result seen; cbn [fold_res].
  - rewrite app_nil_r. cbn. rewrite union_empty_l_L. split.
    + intros [= <-]. split_and!; [constructor|by intros ? ?%elem_of_nil|done].
    + by intros (_ & _ & ->).
  - rewrite fmap_cons.
    assert (notice_step (result, seen) line = match notice_line line with
      | (Some key, value) =>
          require (bool_decide (key ∉ seen)) (VerificationError "duplicate notice field") ;;
          Ok (result ++ [(Some key, value)], {[key]} ∪ seen)
      | other => Ok (result ++ [other], seen)
      end) as -> by done.
    destruct (notice_line line) as [[key|] value]; cbn [field_keys omap list_omap fst].
    + rewrite NoDup_cons. fold (field_keys (notice_line <$> lines)).
      change (omap fst (notice_line <$> lines)) with (field_keys (notice_line <$> lines)).
      destruct (bool_decide_reflect (key ∉ seen)) as [Hk|Hk]; cbn [require mbind res_bind].
      * rewrite IH. split.
        -- intros (Hn & Hf & ->). split_and!; [|done| |].
           ++ intros Hin. apply (Hf key Hin). set_solver.
           ++ intros k [-> |Hin]%elem_of_cons; [done|]. specialize (Hf k Hin). set_solver.
           ++ rewrite <- app_assoc. cbn. f_equal. apply set_eq. set_solver.
        -- intros ([Hnew Hn] & Hf & ->). split_and!; [done| |].
           ++ intros k Hin [->%elem_of_singleton|Hs]%elem_of_union; [done|].
              apply (Hf k); [by right|done].
           ++ rewrite <- app_assoc. cbn. f_equal. apply set_eq. set_solver.
      * split; [done|]. intros (_ & Hf & _). destruct Hk. apply Hf. left.
    + cbn [mbind res_bind]. rewrite IH, <- app_assoc. done.
Qed.

Lemma notice_lines_Ok data r :
  notice_lines data = Ok r ↔
  ∃ text, decode_utf8 data = Some text ∧ r = notice_line <$> splitlines text
          ∧ NoDup (field_keys r).
Proof.
  unfold notice_lines. rewrite bind_Ok. setoid_rewrite of_option_Ok. setoid_rewrite bind_Ok.
  setoid_rewrite notice_fold_Ok. split.
  - intros (text & ? & s & (Hn & _ & ->) & [= <-]). by exists text.
  - intros (text & ? & -> & Hn). exists text. split; [done|]. eexists. split_and!; [done| |done|done].
    by intros ?? ?%elem_of_empty.
Qed.

(** *** Comparing two notices *)

Lemma elem_of_field_keys k lines : k ∈ field_keys lines ↔ ∃ v, (Some k, v) ∈ lines.
Proof.
  unfold field_keys. rewrite list_elem_of_omap. split.
  - intros ([o v] & Hin & Ho). cbn in Ho. subst. by exists v.
  - intros (v & Hin). by exists (Some k, v).
Qed.

(** A field key occurs at one position only. *)
Lemma zip_field_unique k (old new : list (option str * str)) l l' m m' :
  NoDup (field_keys old) → (l, l') ∈ zip old new → (m, m') ∈ zip old new →
  l.1 = Some k → m.1 = Some k → l' = m'.
Proof.
  revert new. induction old as [|o old IH]; intros [|n new] Hnd Hl Hm Hlk Hmk; cbn in *;
    try (by apply elem_of_nil in Hl).
  assert (∀ x x', (x, x') ∈ zip old new → x.1 = Some k → k ∈ field_keys old) as Hin.
  { intros x x' Hx Hk. apply elem_of_field_keys. exists x.2. rewrite <- Hk, <- surjective_pairing.
    by apply elem_of_zip_l in Hx. }
  assert (NoDup (field_keys old) ∧ (o.1 = Some k → k ∉ field_keys old)) as [Hnd' Ho].
  { destruct o as [[ko|] v]; cbn in Hnd; [|done]. apply NoDup_cons in Hnd as [? ?].
    split; [done|]. cbn. by intros [= ->]. }
  apply elem_of_cons in Hl as [[= -> ->]|Hl], Hm as [[= -> ->]|Hm]; try done.
  - by destruct (Ho Hlk (Hin _ _ Hm Hmk)).
  - by destruct (Ho Hmk (Hin _ _ Hl Hlk)).
  - by eapply IH.
Qed.

(** The keys of the lines that differ. *)
Definition diff_keys (old new : list (option str * str)) : list str :=
  omap (λ p, if decide (p.1 = p.2) then None else p.1.1) (zip old new).

Section compare.
Context (fields : dict str).

(** What [compare_line] allows of a line and its counterpart. *)
Definition line_allowed (l l' : option str * str) : Prop :=
  l = l' ∨ ∃ k, l.1 = Some k ∧ l'.1 = Some k ∧ dict_get k fields = Some l'.2.

Lemma compare_lines_Ok pairs C C' :
  fold_res (compare_line fields) C pairs = Ok C' ↔
  Forall (λ p, line_allowed p.1 p.2) pairs
  ∧ C' = list_to_set (omap (λ p, if decide (p.1 = p.2) then None else p.1.1) pairs) ∪ C.
Proof.
  revert C. induction pairs as [|[l l'] pairs IH]; intros C; cbn [fold_res].
  - rewrite Forall_nil. cbn. rewrite union_empty_l_L. split; [by intros [= <-]|by intros [_ ->]].
  - rewrite Forall_cons, bind_Ok. setoid_rewrite IH. clear IH.
    unfold compare_line, check, line_allowed. cbn [fst snd omap list_omap].
    destruct (decide (l = l')) as [->|Hne].
    + split; [intros (C1 & [= <-] & ? & ?); auto|]. intros ([_ ?] & ->). eauto.
    + destruct l as [[k|] v], l' as [[k'|] v']; cbn [fst snd];
        try (split; [by intros (? & ? & _)|by intros ([[?|(? & ? & ? & _)] _] & _)]).
      setoid_rewrite require_then. setoid_rewrite require_then.
      setoid_rewrite bool_decide_eq_true. cbn [list_to_set]. split.
      * intros (C1 & (-> & Hk & [= <-]) & Hall & ->). split_and!; [|done|set_solver].
        right. eauto.
      * intros ([[?|(k0 & [= ->] & [= ->] & Hk)] Hall] & ->); [done|].
        exists ({[k0]} ∪ C). split_and!; [done..|set_solver].
Qed.

(** The identity fields of a line are set, the rest of it is kept. *)
Definition set_field (l : option str * str) : option str * str :=
  match l with
  | (Some k, v) => (Some k, default v (dict_get k fields))
  | l => l
  end.

Lemma compare_lines_spec old new :
  NoDup (field_keys old) → length old = length new →
  fold_res (compare_line fields) ∅ (zip old new) = Ok (dict_keys fields) ↔
  new = set_field <$> old
  ∧ ∀ k v, dict_get k fields = Some v → ∃ v', (Some k, v') ∈ old ∧ v' ≠ v.
Proof.
  intros Hnd Hlen. rewrite compare_lines_Ok, union_empty_r_L. split.
  - intros [Hall Hkeys]. rewrite Forall_forall in Hall.
    assert (∀ k, is_Some (dict_get k fields) → ∃ l l', (l, l') ∈ zip old new ∧ l.1 = Some k ∧ l ≠ l')
      as Hdiff.
    { intros k Hk%elem_of_dict_keys. rewrite Hkeys, elem_of_list_to_set, list_elem_of_omap in Hk.
      destruct Hk as ([l l'] & Hin & Hk). cbn in Hk. case_decide; [done|]. eauto. }
    split.
    + assert (∀ l l', (l, l') ∈ zip old new → l' = set_field l) as Hset.
      { intros l l' Hin. destruct (Hall _ Hin) as [Heq|(k & Hk & Hk' & Hv)]; cbn [fst snd] in *.
        - subst l'. destruct l as [[k|] v]; [|done]. cbn.
          destruct (dict_get k fields) as [w|] eqn:Hw; [|done].
          destruct (Hdiff k ltac:(by eexists)) as (m & m' & Hm & Hmk & Hne).
          destruct (Hall _ Hm) as [?|(k1 & ? & Hk1' & Hv)]; [done|]. cbn [fst snd] in *.
          assert ((Some k, v) = m') as <- by (by eapply (zip_field_unique k)).
          cbn in *. congruence.
        - destruct l as [o v], l' as [o' v']; cbn in *. subst. by rewrite Hv. }
      clear -Hlen Hset. revert new Hlen Hset.
      induction old as [|l old IH]; intros [|l' new] Hlen Hset; try done.
      cbn. f_equal; [apply Hset; left|]. apply IH; [by apply (f_equal pred) in Hlen|].
      intros m m' Hm. apply Hset. by right.
    + intros k v Hv. destruct (Hdiff k ltac:(by eexists)) as ([o w] & l' & Hin & Hk & Hne).
      cbn in Hk. subst o. exists w. split; [by apply elem_of_zip_l in Hin|].
      destruct (Hall _ Hin) as [?|(k1 & [= ->] & Hk1 & Hv1)]; [done|].
      destruct l' as [o' w']. cbn in *. congruence.
  - intros [-> Hold]. clear Hlen.
    assert (zip old (set_field <$> old) = (λ l, (l, set_field l)) <$> old) as ->.
    { clear. induction old as [|l old IH]; [done|]. cbn. by rewrite IH. }
    split.
    + apply Forall_fmap, Forall_forall. intros [[k|] v] _; unfold line_allowed; cbn; [|by left].
      destruct (dict_get k fields) as [w|] eqn:Hw; [right; exists k; by rewrite Hw|by left].
    + apply set_eq. intros k. rewrite elem_of_dict_keys, elem_of_list_to_set, list_elem_of_omap. split.
      * intros [v Hv]. destruct (Hold k v Hv) as (v' & Hin & Hne).
        exists ((Some k, v'), set_field (Some k, v')). split; [apply list_elem_of_fmap; by eexists|].
        cbn. rewrite Hv. cbn. rewrite decide_False by congruence. done.
      * intros (p & (l & -> & Hin)%list_elem_of_fmap & Hk). cbn in Hk.
        case_decide as Heq; [done|]. destruct l as [[k0|] v]; cbn in *; [|done].
        injection Hk as ->. by destruct (dict_get k fields).
Qed.
End compare.

Lemma compare_notice_Ok before after fields v :
  compare_notice before after fields = Ok v ↔
  ∃ old new, notice_lines before = Ok old ∧ notice_lines after = Ok new
    ∧ new = set_field fields <$> old
    ∧ ∀ k v, dict_get k fields = Some v → ∃ v', (Some k, v') ∈ old ∧ v' ≠ v.
Proof.
  assert (∀ old, notice_lines before = Ok old → NoDup (field_keys old)) as Hnd.
  { by intros old (? & _ & _ & ?)%notice_lines_Ok. }
  unfold compare_notice, check. split.
  - intros (old & Ho & (new & Hn & H)%bind_Ok)%bind_Ok. exists old, new.
    apply require_then in H as [Hlen%Nat.eqb_eq (changed & Hc & Hk)%bind_Ok].
    apply require_Ok, bool_decide_eq_true in Hk as ->.
    by apply (compare_lines_spec fields old new (Hnd old Ho) Hlen) in Hc as [? ?].
  - intros (old & new & Ho & Hn & Heq & Hold). rewrite Ho, Hn. cbn [mbind res_bind].
    assert (length old = length new) as Hlen by by rewrite Heq, length_fmap.
    apply require_then. split; [by apply Nat.eqb_eq|]. apply bind_Ok. exists (dict_keys fields).
    split; [by apply (compare_lines_spec fields old new (Hnd old Ho) Hlen)|].
    apply require_Ok. by apply bool_decide_eq_true.
Qed.

(** Replacing the value of a field in a line of text. *)
Definition replace_value (fields : dict str) (line : str) : str :=
  match notice_line line with
  | (Some key, _) => match dict_get key fields with
                     | Some value => key ++ u "=" ++ value
                     | None => line
                     end
  | (None, _) => line
  end.

Lemma replace_value_text fields line :
  replace_value fields line = line_text (set_field fields (notice_line line)).
Proof.
  unfold replace_value. pose proof (line_text_line line) as Hl.
  destruct (notice_line line) as [[k|] v]; cbn [set_field]; [|done].
  by destruct (dict_get k fields).
Qed.

Lemma compare_notice_inv before after fields :
  compare_notice before after fields = Ok tt →
  ∃ old_text new_text, decode_utf8 before = Some old_text ∧ decode_utf8 after = Some new_text
    ∧ splitlines new_text = replace_value fields <$> splitlines old_text
    ∧ ∀ key value, dict_get key fields = Some value →
        ∃ line old_value, line ∈ splitlines old_text ∧ line = key ++ u "=" ++ old_value
          ∧ old_value ≠ value.
Proof.
  intros Hok.
  apply compare_notice_Ok in Hok as (old & new & Ho & Hn & Heq & Hold).
  apply notice_lines_Ok in Ho as (old_text & Hot & -> & _).
  apply notice_lines_Ok in Hn as (new_text & Hnt & -> & _).
  exists old_text, new_text. split_and!; [done..| |].
  - apply (f_equal (fmap line_text)) in Heq. rewrite <- !list_fmap_compose in Heq.
    rewrite <- (list_fmap_id (splitlines new_text)).
    etrans; [|etrans; [exact Heq|]]; apply list_fmap_ext; intros i line _; cbn.
    + by rewrite line_text_line.
    + by rewrite replace_value_text.
  - intros key value Hk. destruct (Hold key value Hk) as (w & Hin & Hne).
    apply list_elem_of_fmap in Hin as (line & Hl & Hin). exists line, w. split_and!; [done| |done].
    rewrite <- (line_text_line line), <- Hl. done.
Qed.

(** ** The properties *)

(** An accepted dependency notice is the candidate's, line by line, with the value of
    each identity field replaced by the tag's and nothing else touched; every identity
    field occurs in the candidate's notice with another value. *)
Theorem compare_notice_sound (before after : bytes) (fields : dict str)
    (Hok : compare_notice before after fields = Ok tt) :
  ∃ old_text new_text, decode_utf8 before = Some old_text ∧ decode_utf8 after = Some new_text
    ∧ splitlines new_text = replace_value fields <$> splitlines old_text
    ∧ ∀ key value, dict_get key fields = Some value →
        ∃ line old_value, line ∈ splitlines old_text ∧ line = key ++ u "=" ++ old_value
          ∧ old_value ≠ value.
Proof. by apply compare_notice_inv. Qed.

Lemma compare_notice_sound_witness :
  let before := b "libusb.version=1.0.30
source.ref=aaaa
" in
  let after := b "libusb.version=1.0.30
source.ref=bbbb
" in
  let fields := [(u "source.ref", u "bbbb")] in
  compare_notice before after fields = Ok tt ∧
  ∃ old_text new_text, decode_utf8 before = Some old_text ∧ decode_utf8 after = Some new_text
    ∧ splitlines new_text = replace_value fields <$> splitlines old_text
    ∧ ∀ key value, dict_get key fields = Some value →
        ∃ line old_value, line ∈ splitlines old_text ∧ line = key ++ u "=" ++ old_value
          ∧ old_value ≠ value.
Proof.
  intros before after fields. split; [vm_compute; reflexivity|].
  apply (compare_notice_sound before after fields). vm_compute. reflexivity.
Defined.

(** A checksum list is accepted exactly when it is ASCII, every line is 64 lowercase
    hexadecimal digits, two spaces and a name, no name is listed twice and the names are
    the expected ones; the result pairs each name with the digest of its line. *)
Theorem parse_sums_accepts (data : bytes) (expected : gset str) (r : dict str) :
  parse_sums data expected = Ok r ↔
  ∃ text, decode_ascii data = Some text ∧ mapM sum_line (splitlines text) = Some r
    ∧ NoDup r.*1 ∧ dict_keys r = expected.
Proof. apply parse_sums_Ok. Qed.

(** Two identity-bearing JSON texts are accepted exactly when both are objects in the
    canonical encoding, both with or both without a final newline, the identity field has
    the expected value in the new one and another value in the old one, and every other
    key has (Python-)equal values or is absent in both. *)
Theorem compare_json_identity_accepts (limit : nat) (before after : bytes) (field expected : str)
    (old new : dict json) :
  compare_json_identity limit before after field expected = Ok (old, new) ↔
  encodes limit before after old new ∧ same_but field expected old new.
Proof. apply compare_json_identity_Ok. Qed.

(** Whatever the bytes, [parse_json] raises nothing but a verification error (not the
    parser's [ValueError] or [RecursionError]), and an object it returns has no repeated
    key. *)
Theorem parse_json_safe (limit : nat) (data : bytes) :
  raises_only (λ e, ∃ msg, e = VerificationError msg) (parse_json limit data)
  ∧ ∀ d, parse_json limit data = Ok d → NoDup d.*1.
Proof. split; [apply parse_json_raises|apply parse_json_NoDup]. Qed.
