(* ===== verification/ReleaseVerifyProps.v ===== *)
(** * Properties of the archive comparison

    What an accepted manifest says of its archive, and how an accepted tag archive differs
    from the candidate's. *)

From S2P Require Import Prelude PyStr PyDict Codec Regex PyFloat Json Sha256 PyPath.
From S2P Require Import Archive ReleaseText ReleaseTextProps ReleaseVerify ReleaseSamples.

Local Open Scope Z_scope.

Section verify.
Context `{Unicode} `{Digest} `{Archives} (limit : nat).

(** ** Lookups *)

Lemma kept_data_Ok members name data :
  kept_data members name = Ok data ↔ ∃ m, dict_get name members = Some m ∧ m_data m = Some data.
Proof.
  unfold kept_data. destruct (dict_get name members) as [[? ? ? ? [d|] ?]|]; cbn.
  - split; [intros [= ->]; by eexists|]. by intros (m & [= <-] & [= ->]).
  - split; [done|]. by intros (m & [= <-] & ?).
  - split; [done|]. by intros (m & ? & _).
Qed.

Lemma kept_data_or_empty members name data m :
  kept_data members name = Ok data → dict_get name members = Some m → data_or_empty m = data.
Proof.
  intros (m' & Hm & Hd)%kept_data_Ok Hm'. unfold data_or_empty.
  assert (m = m') as -> by congruence. by rewrite Hd.
Qed.

(** ** What a manifest says of its archive *)

(** The record of a member: its size and its digest, and nothing else. *)
Definition describes (record : json) (m : member) : Prop :=
  ∃ r, record = JDict r ∧ dict_keys r = {[u "size"; u "sha256"]}
  ∧ dict_get (u "size") r = Some (JInt (m_size m))
  ∧ dict_get (u "sha256") r = Some (JStr (m_digest m)).

(** [files] lists every member but the manifest itself and the checksum list. *)
Definition inventory (members : dict member) (own : str) (files : dict json) : Prop :=
  ∀ name, match dict_get name members with
          | Some m => name = own ∨ name = SUMS
                      ∨ ∃ record, dict_get name files = Some record ∧ describes record m
          | None => dict_get name files = None
          end.

Lemma check_record_Ok members name record v :
  check_record members (name, record) = Ok v ↔
  ∃ m, dict_get name members = Some m ∧ describes record m.
Proof.
  unfold check_record, describes, check. destruct record; try (split; [done|];
    by intros (? & _ & ? & [=] & _)).
  rewrite require_then, bool_decide_eq_true. split.
  - intros [Hk Hs]. destruct (dict_get (u "size") d) as [[]|] eqn:Hsize; try done.
    apply bind_Ok in Hs as (m & Hm%item_Ok & Hc). apply require_Ok, andb_true_iff in Hc
      as [->%Z.eqb_eq Hsha%get_eq_str]. eauto 10.
  - intros (m & Hm & r & [= <-] & Hk & Hsize & Hsha). split; [done|]. rewrite Hsize.
    apply bind_Ok. exists m. split; [by apply item_Ok|].
    apply require_Ok, andb_true_iff. by rewrite Z.eqb_refl, get_eq_str.
Qed.

Lemma check_files_inv members own manifest files :
  check_files members own manifest = Ok files →
  dict_get (u "files") manifest = Some (JDict files) ∧ inventory members own files.
Proof.
  unfold check_files, check. destruct (dict_get _ manifest) as [[]|]; try done.
  rewrite require_then, bool_decide_eq_true. intros [Hk Hf].
  apply bind_Ok in Hf as ([] & Hall%for_each_Ok & [= <-]). split; [done|].
  assert (∀ name, is_Some (dict_get name d) ↔
            is_Some (dict_get name members) ∧ name ≠ own ∧ name ≠ SUMS) as Hdom.
  { intros name. rewrite <- !elem_of_dict_keys, Hk. set_solver. }
  intros name. specialize (Hdom name). destruct (dict_get name members) as [m|] eqn:Hm.
  - destruct (decide (name = own)); [auto|]. destruct (decide (name = SUMS)); [auto|].
    right; right. destruct (proj2 Hdom) as [record Hr]; [split_and!; [by eexists|done..]|].
    exists record. split; [done|]. apply dict_get_Some_elem in Hr.
    rewrite Forall_forall in Hall. apply Hall, check_record_Ok in Hr as (m' & ? & ?). congruence.
  - destruct (dict_get name d); [|done]. destruct (proj1 Hdom) as [[? ?] _]; [by eexists|done].
Qed.

(** ** Member sets *)

(** The two archives have the same members, with the same kind, mode and link, and,
    outside [allowed], with the same size and digest. *)
Definition same_members (before after : dict member) (allowed : gset str) : Prop :=
  dict_keys before = dict_keys after
  ∧ ∀ name m, dict_get name before = Some m →
      ∃ m', dict_get name after = Some m' ∧ m_kind m = m_kind m' ∧ m_mode m = m_mode m'
        ∧ m_link_target m = m_link_target m'
        ∧ (name ∉ allowed → m_size m = m_size m' ∧ m_digest m = m_digest m').

Lemma compare_member_sets_inv before after allowed v :
  compare_member_sets before after allowed = Ok v → same_members before after allowed.
Proof.
  unfold compare_member_sets, check, same_members.
  rewrite require_then, bool_decide_eq_true. intros [Hk Hall%for_each_Ok]. split; [done|].
  intros name m Hm%dict_get_Some_elem. rewrite Forall_forall in Hall.
  apply Hall in Hm. apply bind_Ok in Hm as (m' & Hm'%item_Ok & H').
  rewrite require_then, bool_decide_eq_true, require_Ok, orb_true_iff, !bool_decide_eq_true in H'.
  destruct H' as [[= ? ? ?] Hp]. exists m'. split_and!; [done..|].
  intros Hn. destruct Hp as [|[= ? ?]]; done.
Qed.

(** ** Notices *)

(** The notice of [after] is the one of [before] with the identity fields replaced. *)
Definition same_notice (before after : dict member) (old_identity new_identity : dict str) : Prop :=
  ∃ old_data new_data old_text new_text,
    kept_data before NOTICE = Ok old_data ∧ kept_data after NOTICE = Ok new_data
    ∧ decode_utf8 old_data = Some old_text ∧ decode_utf8 new_data = Some new_text
    ∧ splitlines new_text = replace_value new_identity <$> splitlines old_text
    ∧ ∀ key value, (key, value) ∈ old_identity → key ++ u "=" ++ value ∈ splitlines old_text.

Lemma notice_fields_elem data lines k v :
  notice_lines data = Ok lines → dict_get k (notice_fields lines) = Some v →
  ∃ text, decode_utf8 data = Some text ∧ k ++ u "=" ++ v ∈ splitlines text.
Proof.
  intros (text & Ht & -> & Hnd)%notice_lines_Ok Hk. exists text. split; [done|].
  unfold notice_fields in Hk. rewrite dict_of_pairs_id in Hk.
  - apply dict_get_Some_elem, list_elem_of_omap in Hk as ([o w] & Hin & Ho). cbn in Ho.
    apply fmap_Some in Ho as (k' & -> & [= <- <-]).
    apply list_elem_of_fmap in Hin as (line & Hl & Hin).
    rewrite <- (line_text_line line), <- Hl in Hin. exact Hin.
  - assert (∀ l : list (option str * str),
      (omap (λ item, (λ key, (key, item.2)) <$> item.1) l).*1 = field_keys l) as ->; [|done].
    intros l. induction l as [|[[key|] w] l IH]; cbn; [done| |done]. f_equal. exact IH.
Qed.

Lemma compare_notices_inv before after old_identity new_identity v :
  compare_notices before after old_identity new_identity = Ok v →
  same_notice before after old_identity new_identity.
Proof.
  unfold compare_notices, check, same_notice, notice_dict.
  intros (old & Hold%item_Ok & (new & Hnew%item_Ok & H')%bind_Ok)%bind_Ok.
  destruct (m_data old) as [old_data|] eqn:Hod; [|done].
  destruct (m_data new) as [new_data|] eqn:Hnd; [|done].
  apply bind_Ok in H' as (old_notice & (old_lines & Ho & <-)%fmap_Ok & H').
  apply bind_Ok in H' as (new_notice & (new_lines & Hn & <-)%fmap_Ok & H').
  apply require_then in H' as [[Hhas _]%andb_true_iff Hc]. destruct v.
  apply compare_notice_inv in Hc as (old_text & new_text & Hot & Hnt & Hl & _).
  exists old_data, new_data, old_text, new_text. split_and!; try done.
  - apply kept_data_Ok. by exists old.
  - apply kept_data_Ok. by exists new.
  - intros key value Hin. unfold has_fields in Hhas. rewrite forallb_elem in Hhas.
    apply Hhas, bool_decide_eq_true in Hin. cbn in Hin.
    destruct (notice_fields_elem _ _ _ _ Ho Hin) as (text & ? & ?). congruence.
Qed.

(** ** Binary archives *)

(** What an accepted binary manifest says. *)
Definition binary_manifest (members : dict member) (archive_name source_sha : str)
    (manifest files : dict json) : Prop :=
  ∃ platform version data,
    archive_platform archive_name = Some platform
    ∧ archive_version archive_name = Some version
    ∧ kept_data members (u "manifest.json") = Ok data
    ∧ parse_json limit data = Ok manifest
    ∧ dict_get (u "version") manifest = Some (JStr version)
    ∧ dict_get (u "platform") manifest = Some (JStr platform)
    ∧ dict_get (u "source_ref") manifest = Some (JStr source_sha)
    ∧ dict_get (u "files") manifest = Some (JDict files)
    ∧ inventory members (u "manifest.json") files
    ∧ Forall2 (λ name program, ∃ m data evidence binary,
        dict_get program members = Some m ∧ kept_data members name = Ok data
        ∧ parse_json limit data = Ok evidence
        ∧ dict_get (u "source_ref") evidence = Some (JStr source_sha)
        ∧ dict_get (u "platform") evidence = Some (JStr platform)
        ∧ dict_get (u "binary") evidence = Some (JDict binary)
        ∧ dict_get (u "name") binary = Some (JStr program)
        ∧ dict_get (u "sha256") binary = Some (JStr (m_digest m)))
        EVIDENCE (programs_of platform).

Lemma check_evidence_inv members platform source_sha name program v :
  check_evidence limit members platform source_sha (name, program) = Ok v →
  ∃ m data evidence binary,
    dict_get program members = Some m ∧ kept_data members name = Ok data
    ∧ parse_json limit data = Ok evidence
    ∧ dict_get (u "source_ref") evidence = Some (JStr source_sha)
    ∧ dict_get (u "platform") evidence = Some (JStr platform)
    ∧ dict_get (u "binary") evidence = Some (JDict binary)
    ∧ dict_get (u "name") binary = Some (JStr program)
    ∧ dict_get (u "sha256") binary = Some (JStr (m_digest m)).
Proof.
  unfold check_evidence, check.
  intros (data & Hd & (evidence & He & H')%bind_Ok)%bind_Ok.
  rewrite !require_then, !andb_true_iff, !get_eq_str in H'.
  destruct H' as (_ & (((_ & _) & Hp) & Hs) & H').
  destruct (dict_get (u "binary") evidence) as [[]|] eqn:Hb; try done.
  rewrite require_then, andb_true_iff, get_eq_str in H'. destruct H' as [[_ Hn] H'].
  apply bind_Ok in H' as (m & Hm%item_Ok & Hsha). apply require_Ok, get_eq_str in Hsha.
  by exists m, data, evidence, d.
Qed.

Lemma parse_binary_manifest_inv members archive_name source_sha manifest files :
  parse_binary_manifest limit members archive_name source_sha = Ok (manifest, files) →
  binary_manifest members archive_name source_sha manifest files.
Proof.
  unfold parse_binary_manifest, check.
  intros (data & Hd & (man & Hm & H')%bind_Ok)%bind_Ok. apply require_then in H' as [_ H'].
  apply bind_Ok in H' as (platform & Hp%of_option_Ok & H').
  apply bind_Ok in H' as (version & Hv%of_option_Ok & H').
  rewrite !require_then, !andb_true_iff, !get_eq_str in H'.
  destruct H' as ((((_ & Hver) & Hplat) & Hsrc) & _ & H').
  apply bind_Ok in H' as (fs & [Hf Hinv]%check_files_inv & H').
  apply require_then in H' as [_ H'].
  apply bind_Ok in H' as ([] & Hev%for_each_Ok & [= -> ->]).
  exists platform, version, data. split_and!; try done.
  assert (length EVIDENCE = length (programs_of platform)) as Hlen
    by (unfold programs_of; by destruct (decide _)).
  rewrite Forall_forall in Hev. apply Forall2_same_length_lookup_2; [done|].
  intros i name program Hi Hj. eapply check_evidence_inv, Hev.
  apply list_elem_of_lookup. exists i. apply lookup_zip_with_Some. eauto.
Qed.

(** How an accepted tag archive differs from the candidate's. *)
Definition approved_binary (before after : dict member)
    (archive_name candidate_sha tag_sha : str) : Prop :=
  same_members before after binary_allowed
  ∧ same_notice before after [(u "source.ref", candidate_sha)] [(u "source.ref", tag_sha)]
  ∧ (∀ name, name ∈ EVIDENCE → ∃ old_data new_data old new,
       kept_data before name = Ok old_data ∧ kept_data after name = Ok new_data
       ∧ encodes limit old_data new_data old new
       ∧ same_but (u "source_ref") tag_sha old new)
  ∧ (∀ name m m', name ∈ NOTICE :: EVIDENCE → dict_get name before = Some m →
       dict_get name after = Some m' → m_size m = m_size m')
  ∧ ∃ old new old_files new_files,
      binary_manifest before archive_name candidate_sha old old_files
      ∧ binary_manifest after archive_name tag_sha new new_files
      ∧ ∀ k, k ≠ u "source_ref" → k ≠ u "files" →
          option_py_eq (dict_get k old) (dict_get k new).

Lemma binary_manifest_evidence members archive_name sha manifest files name :
  binary_manifest members archive_name sha manifest files → name ∈ EVIDENCE →
  ∃ data, kept_data members name = Ok data.
Proof.
  intros (platform & version & data & _ & _ & _ & _ & _ & _ & _ & _ & _ & Hev) Hname.
  apply list_elem_of_lookup in Hname as [i Hi].
  destruct (Forall2_lookup_l _ _ _ _ _ Hev Hi) as (program & _ & m & d & ? & ? & _ & ? & _).
  by exists d.
Qed.

(** The records of the two manifests give the sizes of the members. *)
Lemma same_size_inv before after own old_files new_files name v m m' :
  inventory before own old_files → inventory after own new_files → name ≠ own → name ≠ SUMS →
  dict_get name before = Some m → dict_get name after = Some m' →
  same_size old_files new_files name = Ok v → m_size m = m_size m'.
Proof.
  intros Hi Hi' Hown Hsums Hm Hm' Hs.
  assert (∀ members files n, inventory members own files → dict_get name members = Some n →
            record_size files name = Ok (JInt (m_size n))) as Hrec.
  { intros members files n Hinv Hn. specialize (Hinv name). rewrite Hn in Hinv.
    destruct Hinv as [?|[?|(record & Hr & r & -> & _ & Hsz & _)]]; [done..|].
    unfold record_size, item. rewrite Hr. cbn. by rewrite Hsz. }
  unfold same_size in Hs. rewrite (Hrec _ _ _ Hi Hm), (Hrec _ _ _ Hi' Hm') in Hs.
  cbn [mbind res_bind] in Hs. unfold check in Hs. by apply require_Ok, py_eq_int in Hs.
Qed.

(** Taking the named records from the other manifest checks their sizes. *)
Lemma take_records_inv old_files new_files names files expected :
  fold_res (λ files name, same_size old_files new_files name ;; take_record new_files files name)
    files names = Ok expected →
  ∀ name, name ∈ names → same_size old_files new_files name = Ok tt.
Proof.
  revert files. induction names as [|n names IH]; intros files; cbn [fold_res];
    [by intros _ ? ?%elem_of_nil|].
  intros (f1 & ([] & Hs & _)%bind_Ok & Hrest)%bind_Ok name [-> |Hin]%elem_of_cons; [done|].
  by eapply IH.
Qed.

(** The keys besides the set ones are compared as they are. *)
Lemma manifest_rest old_data new_data old new k expected_files tag_sha :
  parse_json limit old_data = Ok old → parse_json limit new_data = Ok new →
  py_eq (JDict (dict_set (u "files") (JDict expected_files)
                  (dict_set (u "source_ref") (JStr tag_sha) old))) (JDict new) = true →
  k ≠ u "source_ref" → k ≠ u "files" → option_py_eq (dict_get k old) (dict_get k new).
Proof.
  intros Ho Hn Heq Hk1 Hk2. apply py_eq_dict with (k := k) in Heq.
  - by rewrite !dict_get_set, !decide_False in Heq by done.
  - by do 2 apply dict_set_NoDup; apply (parse_json_NoDup limit old_data).
  - by apply (parse_json_NoDup limit new_data).
Qed.

Lemma verify_binary_pair_inv before after archive_name candidate_sha tag_sha v :
  verify_binary_pair limit before after archive_name candidate_sha tag_sha = Ok v →
  approved_binary before after archive_name candidate_sha tag_sha.
Proof.
  unfold verify_binary_pair, check. intros H'.
  apply bind_Ok in H' as ([] & Hsets%compare_member_sets_inv & H').
  apply bind_Ok in H' as ([old old_files] & Hbin_old%parse_binary_manifest_inv & H').
  apply bind_Ok in H' as ([new new_files] & Hbin_new%parse_binary_manifest_inv & H').
  apply bind_Ok in H' as (mo & _ & H'). apply bind_Ok in H' as (mn & _ & H').
  apply bind_Ok in H' as ([] & _ & H').
  apply bind_Ok in H' as (expected & Hrec & H'). apply require_then in H' as [Hrest H'].
  apply bind_Ok in H' as ([] & Hnotice%compare_notices_inv & H').
  apply bind_Ok in H' as ([] & Hev%for_each_Ok & _).
  pose proof Hbin_old as (_ & _ & od & _ & _ & _ & Hod & _ & _ & _ & _ & Hinv_old & _).
  pose proof Hbin_new as (_ & _ & nd & _ & _ & _ & Hnd & _ & _ & _ & _ & Hinv_new & _).
  unfold approved_binary. split_and!; [done..| | |].
  - intros name Hname. rewrite Forall_forall in Hev. specialize (Hev name Hname). cbn beta in Hev.
    destruct (binary_manifest_evidence _ _ _ _ _ _ Hbin_old Hname) as [old_data Hold].
    destruct (binary_manifest_evidence _ _ _ _ _ _ Hbin_new Hname) as [new_data Hnew].
    apply bind_Ok in Hev as (m1 & Hm1%item_Ok & Hev).
    apply bind_Ok in Hev as (m2 & Hm2%item_Ok & Hev).
    apply bind_Ok in Hev as ([o n] & Hcmp & _).
    rewrite (kept_data_or_empty _ _ _ _ Hold Hm1), (kept_data_or_empty _ _ _ _ Hnew Hm2) in Hcmp.
    apply compare_json_identity_Ok in Hcmp as [? ?]. by exists old_data, new_data, o, n.
  - intros name m m' Hname Hm Hm'.
    eapply (same_size_inv before after (u "manifest.json")); try done.
    + intros ->. revert Hname. by apply (bool_decide_unpack (u "manifest.json" ∉ NOTICE :: EVIDENCE)).
    + intros ->. revert Hname. by apply (bool_decide_unpack (SUMS ∉ NOTICE :: EVIDENCE)).
    + by eapply take_records_inv.
  - exists old, new, old_files, new_files. split_and!; [done..|].
    intros k Hk1 Hk2. by eapply manifest_rest.
Qed.

(** ** Source archives *)

Definition source_manifest (members : dict member) (version commit tree : str)
    (manifest files : dict json) : Prop :=
  ∃ data m,
    kept_data members (u "source-manifest.json") = Ok data
    ∧ parse_json limit data = Ok manifest
    ∧ dict_get (u "version") manifest = Some (JStr version)
    ∧ dict_get (u "source_ref") manifest = Some (JStr commit)
    ∧ dict_get (u "resolved_commit") manifest = Some (JStr commit)
    ∧ dict_get (u "tree") manifest = Some (JStr tree)
    ∧ dict_get (u "files") manifest = Some (JDict files)
    ∧ inventory members (u "source-manifest.json") files
    ∧ dict_get (u "repository/VERSION") members = Some m
    ∧ m_data m = encode_ascii (version ++ [10%N]).

Lemma parse_source_manifest_inv members version commit tree manifest files :
  parse_source_manifest limit members version commit tree = Ok (manifest, files) →
  source_manifest members version commit tree manifest files.
Proof.
  unfold parse_source_manifest, check.
  intros (data & Hd & (man & Hm & H')%bind_Ok)%bind_Ok. apply require_then in H' as [_ H'].
  rewrite require_then, !andb_true_iff, !get_eq_str in H'.
  destruct H' as ((((Hver & Hsrc) & Hres) & Htree) & H').
  apply bind_Ok in H' as (fs & [Hf Hinv]%check_files_inv & H').
  apply bind_Ok in H' as (m & Hv%of_option_Ok & H').
  apply bind_Ok in H' as (text & Ht%of_option_Ok & H').
  rewrite require_then, bool_decide_eq_true in H'. destruct H' as [Hdata [= -> ->]].
  exists data, m. split_and!; try done. by rewrite Ht.
Qed.

(** The documents that may be edited between the candidate and the tag. *)
Definition editable (version tag : str) : gset str :=
  list_to_set (u "README.md" :: (app (u "repository/") <$> document_paths version tag)).
Definition source_allowed (version tag : str) : gset str :=
  {[u "source-manifest.json"; NOTICE; SUMS]} ∪ editable version tag.

Lemma source_document_members_inv members version tag documents :
  source_document_members members version tag = Ok documents → documents ⊆ editable version tag.
Proof.
  unfold source_document_members, check. rewrite require_then. intros [_ [= <-]].
  unfold editable. apply intersection_subseteq_l.
Qed.

Lemma same_members_mono before after allowed allowed' :
  allowed ⊆ allowed' → same_members before after allowed → same_members before after allowed'.
Proof.
  intros Hsub [Hk Hm]. split; [done|]. intros name m Hin.
  destruct (Hm name m Hin) as (m' & ? & ? & ? & ? & Hp). exists m'. split_and!; try done.
  intros Hn. apply Hp. set_solver.
Qed.

Definition approved_source (before after : dict member)
    (version candidate_sha tag_sha candidate_tree tag_tree tag : str) : Prop :=
  same_members before after (source_allowed version tag)
  ∧ same_notice before after (source_identity candidate_sha candidate_tree)
      (source_identity tag_sha tag_tree)
  ∧ ∃ old new old_files new_files,
      source_manifest before version candidate_sha candidate_tree old old_files
      ∧ source_manifest after version tag_sha tag_tree new new_files
      ∧ ∀ k, k ∉ [u "source_ref"; u "resolved_commit"; u "tree"; u "files"] →
          option_py_eq (dict_get k old) (dict_get k new).

Lemma verify_source_pair_inv before after version candidate_sha tag_sha candidate_tree tag_tree
    tag v :
  verify_source_pair limit before after version candidate_sha tag_sha candidate_tree tag_tree tag
    = Ok v →
  approved_source before after version candidate_sha tag_sha candidate_tree tag_tree tag.
Proof.
  unfold verify_source_pair, check. intros H'.
  apply bind_Ok in H' as (documents & Hdocs%source_document_members_inv & H').
  apply require_then in H' as [_ H'].
  apply bind_Ok in H' as ([] & Hsets%compare_member_sets_inv & H').
  apply bind_Ok in H' as ([old old_files] & Hold%parse_source_manifest_inv & H').
  apply bind_Ok in H' as ([new new_files] & Hnew%parse_source_manifest_inv & H').
  apply bind_Ok in H' as (mo & _ & H'). apply bind_Ok in H' as (mn & _ & H').
  apply bind_Ok in H' as ([] & _ & H'). apply bind_Ok in H' as ([] & _ & H').
  apply bind_Ok in H' as (expected & _ & H'). apply require_then in H' as [Hrest H'].
  apply bind_Ok in H' as ([] & Hnotice%compare_notices_inv & _).
  unfold approved_source. split_and!; [|done|].
  - eapply same_members_mono, Hsets. unfold source_allowed. by apply union_mono_l.
  - exists old, new, old_files, new_files. split_and!; [done..|].
    destruct Hold as (od & _ & _ & Hod & _). destruct Hnew as (nd & _ & _ & Hnd & _).
    intros k Hk. rewrite !not_elem_of_cons in Hk. destruct Hk as (? & ? & ? & ? & _).
    apply py_eq_dict with (k := k) in Hrest.
    + by rewrite !dict_get_set, !decide_False in Hrest by done.
    + by do 4 apply dict_set_NoDup; apply (parse_json_NoDup limit od).
    + by apply (parse_json_NoDup limit nd).
Qed.

End verify.

(** ** The properties *)

(** A binary archive whose manifest is accepted is described by it: version, platform
    and commit are the expected ones, every member but the manifest and the checksum list
    has a record with exactly its size and digest and no other record exists, and each
    evidence file names the program of its place with the digest of that very member. *)
Theorem parse_binary_manifest_sound `{Unicode} (limit : nat)
    (members : dict member) (archive_name source_sha : str) (manifest files : dict json)
    (Hok : parse_binary_manifest limit members archive_name source_sha = Ok (manifest, files)) :
  binary_manifest limit members archive_name source_sha manifest files.
Proof. by apply parse_binary_manifest_inv. Qed.

Lemma parse_binary_manifest_sound_witness :
  ∃ manifest files,
    parse_binary_manifest 20 (sample_binary (JInt 1) (u "aa")) sample_name (u "aa")
      = Ok (manifest, files)
    ∧ binary_manifest 20 (sample_binary (JInt 1) (u "aa")) sample_name (u "aa") manifest files.
Proof.
  eexists _, _. split; [vm_compute; reflexivity|].
  apply (parse_binary_manifest_sound 20). vm_compute. reflexivity.
Defined.

(** A tag's binary archive is accepted only if it is the candidate's up to the commit
    identity: same members, kinds and modes; outside the manifest, notice, checksum list
    and evidence the same sizes and digests; a notice equal line by line up to the value of
    source.ref; evidence in canonical form equal up to source_ref and of the same size;
    both manifests describe their archives and agree on every other key. *)
Theorem verify_binary_pair_sound `{Unicode} (limit : nat)
    (before after : dict member) (archive_name candidate_sha tag_sha : str)
    (Hok : verify_binary_pair limit before after archive_name candidate_sha tag_sha = Ok tt) :
  approved_binary limit before after archive_name candidate_sha tag_sha.
Proof. by eapply verify_binary_pair_inv. Qed.

Lemma verify_binary_pair_sound_witness :
  verify_binary_pair 20 (sample_binary (JInt 1) (u "aa")) (sample_binary (JInt 1) (u "bb"))
    sample_name (u "aa") (u "bb") = Ok tt
  ∧ approved_binary 20 (sample_binary (JInt 1) (u "aa")) (sample_binary (JInt 1) (u "bb"))
      sample_name (u "aa") (u "bb").
Proof.
  split; [vm_compute; reflexivity|]. apply (verify_binary_pair_sound 20).
  vm_compute. reflexivity.
Defined.

(** A tag's source archive is accepted only if it is the candidate's up to the commit
    identity and the editable release documents: the same members with the same kinds and
    modes, the same sizes and digests outside these, a notice equal line by line up to the
    three identity values, and manifests that describe their archives and agree on every
    other key. *)
Theorem verify_source_pair_sound (limit : nat)
    (before after : dict member) (version candidate_sha tag_sha candidate_tree tag_tree tag : str)
    (Hok : verify_source_pair limit before after version candidate_sha tag_sha candidate_tree
             tag_tree tag = Ok tt) :
  approved_source limit before after version candidate_sha tag_sha candidate_tree tag_tree tag.
Proof. by eapply verify_source_pair_inv. Qed.

Lemma verify_source_pair_sound_witness :
  verify_source_pair 20 (sample_source (u "aa") (u "ta") (u "x"))
    (sample_source (u "bb") (u "tb") (u "y")) (u "1.2.3") (u "aa") (u "bb") (u "ta") (u "tb")
    (u "v1.2.3") = Ok tt
  ∧ approved_source 20 (sample_source (u "aa") (u "ta") (u "x"))
      (sample_source (u "bb") (u "tb") (u "y")) (u "1.2.3") (u "aa") (u "bb") (u "ta") (u "tb")
      (u "v1.2.3").
Proof.
  split; [vm_compute; reflexivity|]. apply (verify_source_pair_sound 20).
  vm_compute. reflexivity.
Defined.

(** The manifests are compared with Python's [==], for which [True == 1]: a tag archive
    whose manifest has the boolean [true] for the schema number of the candidate's
    manifest, a change outside the approved identity, is accepted. *)
Theorem verify_binary_pair_accepts_boolean_schema :
  ∃ before after old new,
    verify_binary_pair 20 before after sample_name (u "aa") (u "bb") = Ok tt
    ∧ (∃ files, parse_binary_manifest 20 before sample_name (u "aa") = Ok (old, files))
    ∧ (∃ files, parse_binary_manifest 20 after sample_name (u "bb") = Ok (new, files))
    ∧ dict_get (u "schema") old = Some (JInt 1) ∧ dict_get (u "schema") new = Some (JBool true).
Proof.
  exists (sample_binary (JInt 1) (u "aa")), (sample_binary (JBool true) (u "bb")).
  eexists _, _. split; [vm_compute; reflexivity|].
  split; [eexists; vm_compute; reflexivity|]. split; [eexists; vm_compute; reflexivity|].
  split; reflexivity.
Qed.
