(* ===== verification/ReleaseExact.v ===== *)
(** * Exactly which archives the gate accepts

    The manifests and the archive pairs, characterised: what [ReleaseVerifyProps] shows to be
    necessary, with the conditions on encoding, schema and inventory that make it
    sufficient. *)

From S2P Require Import Prelude PyStr PyDict Codec Regex PyFloat Json JsonKeys Sha256 PyPath.
From S2P Require Import Archive ReleaseText ReleaseTextProps ReleaseVerify ReleaseVerifyProps ReleaseSamples.

Local Open Scope Z_scope.

Section exact.
Context `{Unicode} `{Digest} `{Archives} (limit : nat).

(** ** The records of a manifest *)

(** [files] has one record for every member but the manifest and the checksum list, and
    each describes its member. *)
Definition records_of (members : dict member) (own : str) (files : dict json) : Prop :=
  dict_keys files = dict_keys members ∖ {[own; SUMS]}
  ∧ Forall (λ kv, ∃ m, dict_get kv.1 members = Some m ∧ describes kv.2 m) files.

Lemma check_files_Ok members own manifest files :
  check_files members own manifest = Ok files ↔
  dict_get (u "files") manifest = Some (JDict files) ∧ records_of members own files.
Proof.
  unfold check_files, check, records_of.
  assert (∀ d, for_each (check_record members) d = Ok tt ↔
    Forall (λ kv, ∃ m, dict_get kv.1 members = Some m ∧ describes kv.2 m) d) as Hall.
  { intros d. rewrite for_each_Ok. apply Forall_iff. intros [k v]. apply check_record_Ok. }
  destruct (dict_get (u "files") manifest) as [[]|]; try naive_solver.
  rewrite require_then, bool_decide_eq_true, bind_Ok. setoid_rewrite <- Hall. split.
  - by intros (Hk & [] & Hd & [= ->]).
  - intros ([= ->] & Hk & Hd). split; [done|]. by exists tt.
Qed.

Lemma records_get members own files k :
  records_of members own files → k ∉ ({[own; SUMS]} : gset str) →
  match dict_get k members with
  | Some m => ∃ record, dict_get k files = Some record ∧ describes record m
  | None => dict_get k files = None
  end.
Proof.
  intros [Hk Hall] Hnot.
  assert (is_Some (dict_get k files) ↔ is_Some (dict_get k members)) as Hdom.
  { rewrite <- !elem_of_dict_keys, Hk. set_solver. }
  destruct (dict_get k members) as [m|] eqn:Hm.
  - destruct (proj2 Hdom) as [record Hr]; [by eexists|]. exists record. split; [done|].
    apply dict_get_Some_elem in Hr. rewrite Forall_forall in Hall.
    apply Hall in Hr as (m' & Hm' & Hd). cbn in *. congruence.
  - destruct (dict_get k files); [|done]. destruct (proj1 Hdom) as [? ?]; [by eexists|done].
Qed.

Lemma records_own members own files k :
  records_of members own files → k ∈ ({[own; SUMS]} : gset str) → dict_get k files = None.
Proof.
  intros [Hk _] Hin. apply dict_get_None. rewrite <- dict_keys_elem, Hk. set_solver.
Qed.

(** Records of members with the same size and digest are equal objects. *)
Lemma describes_eq r r' m m' :
  describes r m → describes r' m' → unique_keys r → unique_keys r' →
  m_size m = m_size m' → m_digest m = m_digest m' → py_eq r r' = true.
Proof.
  intros (d & -> & Hk & Hs & Hd) (d' & -> & Hk' & Hs' & Hd') [Hu _] [Hu' _] Hsize Hdigest.
  apply py_eq_dict; [done..|]. intros k.
  destruct (decide (k = u "size")) as [-> |Hn]; [rewrite Hs, Hs', Hsize; by apply py_eq_int|].
  destruct (decide (k = u "sha256")) as [-> |Hn'];
    [rewrite Hd, Hd', Hdigest; by apply py_eq_str|].
  assert (∀ d0, dict_keys d0 = ({[u "size"; u "sha256"]} : gset str) →
            dict_get (A := json) k d0 = None) as Hnone.
  { intros d0 Hd0. apply dict_get_None. rewrite <- dict_keys_elem, Hd0. set_solver. }
  by rewrite !Hnone.
Qed.

(** ** Binary manifests *)

(** The evidence of a program: canonical, of schema 2, for the platform and commit, and with
    the name and the digest of the program, and nothing else. *)
Definition evidence_for (members : dict member) (platform source_sha name program : str) : Prop :=
  ∃ m data evidence binary,
    dict_get program members = Some m ∧ kept_data members name = Ok data
    ∧ parse_json limit data = Ok evidence ∧ canonical_json_file data evidence = true
    ∧ dict_keys evidence = {[u "schema"; u "platform"; u "source_ref"; u "binary"]}
    ∧ get_eq evidence (u "schema") (JInt 2) = true
    ∧ dict_get (u "platform") evidence = Some (JStr platform)
    ∧ dict_get (u "source_ref") evidence = Some (JStr source_sha)
    ∧ dict_get (u "binary") evidence = Some (JDict binary)
    ∧ dict_keys binary = {[u "name"; u "sha256"]}
    ∧ dict_get (u "name") binary = Some (JStr program)
    ∧ dict_get (u "sha256") binary = Some (JStr (m_digest m)).

Lemma check_evidence_Ok members platform source_sha name program :
  check_evidence limit members platform source_sha (name, program) = Ok tt ↔
  evidence_for members platform source_sha name program.
Proof.
  unfold check_evidence, evidence_for, check. split.
  - intros (data & Hd & (evidence & He & H')%bind_Ok)%bind_Ok.
    rewrite !require_then, !andb_true_iff, !get_eq_str, bool_decide_eq_true in H'.
    destruct H' as (Hc & (((Hk & Hschema) & Hp) & Hs) & H').
    destruct (dict_get (u "binary") evidence) as [[]|] eqn:Hb; try done.
    rewrite require_then, andb_true_iff, get_eq_str, bool_decide_eq_true in H'.
    destruct H' as [[Hkb Hn] (m & Hm%item_Ok & Hsha%require_Ok%get_eq_str)%bind_Ok].
    by exists m, data, evidence, d.
  - intros (m & data & evidence & binary & Hm & Hd & He & Hc & Hk & Hschema & Hp & Hs & Hb & Hkb & Hn & Hsha).
    rewrite Hd. cbn [mbind res_bind]. rewrite He. cbn [mbind res_bind].
    rewrite !require_then, !andb_true_iff, !get_eq_str, !bool_decide_eq_true, Hb.
    split_and!; try done. rewrite require_then, andb_true_iff, get_eq_str, bool_decide_eq_true.
    split; [done|]. apply bind_Ok. exists m. split; [by apply item_Ok|].
    by apply require_Ok, get_eq_str.
Qed.

Lemma programs_equal d platform :
  get_eq d (u "programs") (JList (JStr <$> programs_of platform)) = true ↔
  dict_get (u "programs") d = Some (JList (JStr <$> programs_of platform)).
Proof.
  assert (∀ l s, list_eqb py_eq l (JStr <$> s) = true ↔ l = JStr <$> s) as Hl.
  { intros l. induction l as [|v l IH]; intros [|s ss]; cbn [list_eqb fmap list_fmap]; try done.
    rewrite andb_true_iff, py_eq_str, IH. naive_solver. }
  unfold get_eq. destruct (dict_get (u "programs") d) as [v|]; [|done]. cbn [default].
  transitivity (v = JList (JStr <$> programs_of platform)); [|naive_solver].
  destruct v as [| | | | |l|]; try (by split).
  change (list_eqb py_eq l (JStr <$> programs_of platform) = true
          ↔ JList l = JList (JStr <$> programs_of platform)).
  rewrite Hl. naive_solver.
Qed.

(** The manifest of a binary archive: canonical, of schema 1, with the version and platform
    of the archive's name, the commit, the programs of the platform in their order, one
    record per member, and evidence for the programs. *)
Definition binary_description (members : dict member) (archive_name source_sha : str)
    (manifest files : dict json) : Prop :=
  ∃ platform version data,
    archive_platform archive_name = Some platform
    ∧ archive_version archive_name = Some version
    ∧ kept_data members (u "manifest.json") = Ok data
    ∧ parse_json limit data = Ok manifest ∧ canonical_json_file data manifest = true
    ∧ get_eq manifest (u "schema") (JInt 1) = true
    ∧ dict_get (u "version") manifest = Some (JStr version)
    ∧ dict_get (u "platform") manifest = Some (JStr platform)
    ∧ dict_get (u "source_ref") manifest = Some (JStr source_sha)
    ∧ dict_get (u "programs") manifest = Some (JList (JStr <$> programs_of platform))
    ∧ dict_get (u "files") manifest = Some (JDict files)
    ∧ records_of members (u "manifest.json") files
    ∧ Forall2 (evidence_for members platform source_sha) EVIDENCE (programs_of platform).

Lemma for_each_evidence members platform source_sha :
  for_each (check_evidence limit members platform source_sha) (zip EVIDENCE (programs_of platform))
    = Ok tt
  ↔ Forall2 (evidence_for members platform source_sha) EVIDENCE (programs_of platform).
Proof.
  assert (∀ names programs, length names = length programs →
    for_each (check_evidence limit members platform source_sha) (zip_with pair names programs) = Ok tt
    ↔ Forall2 (evidence_for members platform source_sha) names programs) as Hgen.
  { intros names. induction names as [|n names IH]; intros [|p ps] Hlen; try done.
    cbn [zip_with]. rewrite for_each_Ok, Forall_cons, <- for_each_Ok with (u := tt), IH by (by injection Hlen).
    by rewrite check_evidence_Ok, Forall2_cons. }
  apply Hgen. unfold programs_of. by destruct (decide _).
Qed.

Lemma evidence_present members platform source_sha :
  Forall2 (evidence_for members platform source_sha) EVIDENCE (programs_of platform) →
  list_to_set EVIDENCE ⊆ dict_keys members.
Proof.
  intros Hall k Hk%elem_of_list_to_set. apply list_elem_of_lookup in Hk as [i Hi].
  destruct (Forall2_lookup_l _ _ _ _ _ Hall Hi) as (program & _ & m & d & ? & ? & _ & Hd & _).
  apply kept_data_Ok in Hd as (m' & Hm' & _). apply elem_of_dict_keys. by eexists.
Qed.

Lemma parse_binary_manifest_Ok members archive_name source_sha manifest files :
  parse_binary_manifest limit members archive_name source_sha = Ok (manifest, files) ↔
  binary_description members archive_name source_sha manifest files.
Proof.
  unfold parse_binary_manifest, binary_description, check. split.
  - intros (data & Hd & (man & Hm & H')%bind_Ok)%bind_Ok. apply require_then in H' as [Hc H'].
    apply bind_Ok in H' as (platform & Hp%of_option_Ok & (version & Hv%of_option_Ok & H')%bind_Ok).
    rewrite !require_then, !andb_true_iff, !get_eq_str, programs_equal in H'.
    destruct H' as ((((Hschema & Hver) & Hplat) & Hsrc) & Hprog & H').
    apply bind_Ok in H' as (fs & [Hf Hrec]%check_files_Ok & H').
    apply require_then in H' as [_ ([] & Hev%for_each_evidence & [= -> ->])%bind_Ok].
    by exists platform, version, data.
  - intros (platform & version & data & Hp & Hv & Hd & Hm & Hc & Hschema & Hver & Hplat & Hsrc
      & Hprog & Hf & Hrec & Hev).
    rewrite Hd. cbn [mbind res_bind]. rewrite Hm. cbn [mbind res_bind]. rewrite Hp, Hv.
    cbn [mbind res_bind of_option].
    rewrite !require_then, !andb_true_iff, !get_eq_str, programs_equal. split_and!; try done.
    apply bind_Ok. exists files. split; [by apply check_files_Ok|].
    apply require_then. split; [by apply bool_decide_eq_true, (evidence_present _ _ _ Hev)|].
    apply bind_Ok. exists tt. split; [by apply for_each_evidence|done].
Qed.

(** ** Member sets *)

Lemma compare_member_sets_Ok before after allowed :
  NoDup before.*1 →
  compare_member_sets before after allowed = Ok tt ↔ same_members before after allowed.
Proof.
  intros Hnd. split; [apply compare_member_sets_inv|]. intros [Hk Hall].
  unfold compare_member_sets, check. rewrite require_then, bool_decide_eq_true. split; [done|].
  apply for_each_Ok, Forall_forall. intros [name m] Hin%dict_get_elem; [|done].
  destruct (Hall name m Hin) as (m' & Hm' & Hkind & Hmode & Hlink & Hp).
  apply bind_Ok. exists m'. split; [by apply item_Ok|].
  rewrite require_then, bool_decide_eq_true, require_Ok, orb_true_iff, !bool_decide_eq_true.
  split; [by rewrite Hkind, Hmode, Hlink|]. destruct (decide (name ∈ allowed)); [by left|right].
  destruct Hp as [-> ->]; done.
Qed.

(** The members that changed are allowed to. *)
Lemma changed_members_allowed before after allowed :
  NoDup before.*1 → same_members before after allowed →
  ∃ changed, changed_members before after = Ok changed ∧ changed ⊆ allowed.
Proof.
  intros Hnd [_ Hall]. unfold changed_members.
  assert (∀ name m, (name, m) ∈ before → ∃ m', dict_get name after = Some m'
    ∧ (m_digest m ≠ m_digest m' → name ∈ allowed)) as Hm.
  { intros name m (m' & Hm' & _ & _ & _ & Hp)%dict_get_elem%Hall; [|done]. exists m'.
    split; [done|]. intros Hne. destruct (decide (name ∈ allowed)) as [|Hn]; [done|].
    by destruct (Hp Hn) as [_ ?]. }
  clear Hall Hnd. assert (∅ ⊆ allowed) as Hstart by set_solver. revert Hstart.
  generalize (∅ : gset str). induction before as [|[name m] before IH]; intros changed Hc;
    cbn [fold_res]; [by exists changed|].
  destruct (Hm name m) as (m' & Hm' & Hp); [by left|]. cbn beta iota.
  rewrite (proj2 (item_Ok after name m') Hm'). cbn [mbind res_bind]. apply IH; [by intros ???; apply Hm; right|].
  case_decide; [done|]. set_solver.
Qed.

(** ** Notices *)

Lemma notice_fields_get data lines k v :
  notice_lines data = Ok lines → dict_get k (notice_fields lines) = Some v ↔ (Some k, v) ∈ lines.
Proof.
  intros (text & _ & _ & Hnd)%notice_lines_Ok.
  set (pairs := omap (λ item : option str * str, (λ key, (key, item.2)) <$> item.1) lines).
  assert (pairs.*1 = field_keys lines) as Hkeys.
  { subst pairs. clear Hnd. induction lines as [|[[key|] w] l IH]; cbn; [done| |done]. f_equal.
    exact IH. }
  assert (notice_fields lines = pairs) as ->.
  { unfold notice_fields. fold pairs. apply dict_of_pairs_id. by rewrite Hkeys. }
  transitivity ((k, v) ∈ pairs).
  - split; [apply dict_get_Some_elem|apply dict_get_elem; by rewrite Hkeys].
  - unfold pairs. rewrite list_elem_of_omap. split.
    + intros ([o w] & Hin & Ho). apply fmap_Some in Ho as (k' & Hk & [= -> ->]). cbn in Hk.
      by rewrite <- Hk.
    + intros Hin. by exists (Some k, v).
Qed.

(** The notices: the old one has the old identity, and the new one is the old one with the
    values of the new identity, all of which are new. *)
Definition notice_replaced (before after : dict member) (old_identity new_identity : dict str) : Prop :=
  ∃ old_data new_data old new,
    kept_data before NOTICE = Ok old_data ∧ kept_data after NOTICE = Ok new_data
    ∧ notice_lines old_data = Ok old ∧ notice_lines new_data = Ok new
    ∧ new = set_field new_identity <$> old
    ∧ (∀ k v, (k, v) ∈ old_identity → (Some k, v) ∈ old)
    ∧ ∀ k v, dict_get k new_identity = Some v → ∃ v', (Some k, v') ∈ old ∧ v' ≠ v.

Lemma has_fields_iff data lines expected :
  notice_lines data = Ok lines →
  has_fields (notice_fields lines) expected = true
  ↔ ∀ k v, (k, v) ∈ expected → (Some k, v) ∈ lines.
Proof.
  intros Hl. unfold has_fields. rewrite forallb_elem. split.
  - intros Hall k v Hin. apply Hall, bool_decide_eq_true in Hin.
    by apply (notice_fields_get data) in Hin.
  - intros Hall [k v] Hin. apply bool_decide_eq_true. cbn. rewrite notice_fields_get; eauto.
Qed.

Lemma compare_notices_Ok before after old_identity new_identity :
  NoDup new_identity.*1 →
  compare_notices before after old_identity new_identity = Ok tt ↔
  notice_replaced before after old_identity new_identity.
Proof.
  intros Hnd. unfold compare_notices, check, notice_replaced, notice_dict. split.
  - intros (old & Hold%item_Ok & (new & Hnew%item_Ok & H')%bind_Ok)%bind_Ok.
    destruct (m_data old) as [old_data|] eqn:Hod, (m_data new) as [new_data|] eqn:Hnd'; try done.
    apply bind_Ok in H' as (old_notice & (ol & Ho & <-)%fmap_Ok & H').
    apply bind_Ok in H' as (new_notice & (nl & Hn & <-)%fmap_Ok & H').
    apply require_then in H' as [[Hhas _]%andb_true_iff Hc].
    apply compare_notice_Ok in Hc as (ol' & nl' & Ho' & Hn' & Heq & Hne).
    assert (ol' = ol) as -> by congruence. assert (nl' = nl) as -> by congruence.
    exists old_data, new_data, ol, nl. split_and!; try done.
    + apply kept_data_Ok. by exists old.
    + apply kept_data_Ok. by exists new.
    + by apply (has_fields_iff old_data).
  - intros (old_data & new_data & old & new & (mo & Hmo & Hod)%kept_data_Ok
      & (mn & Hmn & Hnd')%kept_data_Ok & Ho & Hn & Heq & Hold & Hne).
    unfold item. rewrite Hmo, Hmn. cbn [of_option mbind res_bind]. rewrite Hod, Hnd', Ho, Hn.
    cbn [fmap res_fmap mbind res_bind]. rewrite require_then, andb_true_iff.
    rewrite (has_fields_iff old_data), (has_fields_iff new_data) by done. split_and!; [done| |].
    + intros k v Hin%dict_get_elem; [|done]. destruct (Hne k v Hin) as (v' & Hv' & _).
      rewrite Heq. apply list_elem_of_fmap. exists (Some k, v'). split; [|done]. cbn. by rewrite Hin.
    + apply compare_notice_Ok. by exists old, new.
Qed.

(** ** The expected manifest *)

Lemma take_records_Ok (f : str → res unit) (new_files files expected : dict json) names :
  fold_res (λ files name, f name ;; take_record new_files files name) files names = Ok expected ↔
  Forall (λ name, f name = Ok tt ∧ is_Some (dict_get name new_files)) names
  ∧ expected = foldl (λ d name, dict_set name (default JNull (dict_get name new_files)) d) files names.
Proof.
  revert files. induction names as [|n names IH]; intros files; cbn [fold_res foldl].
  - split; [by intros [= <-]|by intros [_ ->]].
  - rewrite bind_Ok, Forall_cons. setoid_rewrite IH. unfold take_record, item. split.
    + intros (f' & ([] & Hs & (r & Hr%of_option_Ok & [= <-])%bind_Ok)%bind_Ok & Hall & ->).
      rewrite Hr. split_and!; [done|by eexists|done|done].
    + intros [[[Hs [r Hr]] Hall] ->]. rewrite Hr. eexists. split; [|by split].
      by rewrite Hs.
Qed.

Lemma take_records_get (new_files files : dict json) names k :
  Forall (λ name, is_Some (dict_get name new_files)) names →
  dict_get k (foldl (λ d name, dict_set name (default JNull (dict_get name new_files)) d) files names)
  = if decide (k ∈ names) then dict_get k new_files else dict_get k files.
Proof.
  revert files. induction names as [|n names IH]; intros files; cbn [foldl].
  - intros _. by rewrite decide_False by apply not_elem_of_nil.
  - intros [[r Hr] Hall]%Forall_cons. rewrite IH by done. rewrite dict_get_set.
    destruct (decide (k ∈ names)); [by rewrite decide_True by (by right)|].
    destruct (decide (n = k)) as [-> |]; [by rewrite decide_True, Hr by left|].
    rewrite decide_False; [done|]. by rewrite elem_of_cons; intros [?|?].
Qed.

Lemma take_records_NoDup (new_files files : dict json) names :
  NoDup files.*1 →
  NoDup (foldl (λ d name, dict_set name (default JNull (dict_get name new_files)) d) files names).*1.
Proof.
  revert files. induction names as [|n names IH]; intros files Hf; [done|]. by apply IH, dict_set_NoDup.
Qed.

(** The size of a described member, as the manifest has it. *)
Lemma record_size_described members own files name m :
  records_of members own files → name ∉ ({[own; SUMS]} : gset str) →
  dict_get name members = Some m → record_size files name = Ok (JInt (m_size m)).
Proof.
  intros Hrec Hn Hm. pose proof (records_get _ _ _ _ Hrec Hn) as Hr. rewrite Hm in Hr.
  destruct Hr as (record & Hr & r & -> & _ & Hs & _). unfold record_size, item. rewrite Hr. cbn.
  by rewrite Hs.
Qed.

Lemma same_size_Ok before after own old_files new_files name m m' :
  records_of before own old_files → records_of after own new_files →
  name ∉ ({[own; SUMS]} : gset str) →
  dict_get name before = Some m → dict_get name after = Some m' →
  same_size old_files new_files name = Ok tt ↔ m_size m = m_size m'.
Proof.
  intros Hb Ha Hn Hm Hm'. unfold same_size, check.
  rewrite (record_size_described before own old_files name m Hb Hn Hm).
  rewrite (record_size_described after own new_files name m' Ha Hn Hm').
  cbn [mbind res_bind]. by rewrite require_Ok, py_eq_int.
Qed.

(** Updating the records of the allowed members gives the new records: all other members
    are the same. *)
Lemma expected_files_equal before after own allowed names old_files new_files :
  unique_keys (JDict old_files) → unique_keys (JDict new_files) →
  records_of before own old_files → records_of after own new_files →
  same_members before after allowed →
  (∀ k, k ∈ allowed → k ∈ names ∨ k ∈ ({[own; SUMS]} : gset str)) →
  Forall (λ name, is_Some (dict_get name new_files)) names →
  py_eq (JDict (foldl (λ d name, dict_set name (default JNull (dict_get name new_files)) d) old_files names))
    (JDict new_files) = true.
Proof.
  intros Huo Hun Hb Ha [Hkeys Hsame] Hallowed Hnames.
  pose proof (proj1 (proj1 (unique_keys_dict _) Huo)) as Hndo.
  pose proof (proj1 (proj1 (unique_keys_dict _) Hun)) as Hndn.
  apply py_eq_dict; [by apply take_records_NoDup|done|]. intros k. rewrite take_records_get by done.
  destruct (decide (k ∈ ({[own; SUMS]} : gset str))) as [Hown|Hown].
  { rewrite (records_own _ _ _ _ Hb Hown), (records_own _ _ _ _ Ha Hown). by case_decide. }
  pose proof (records_get _ _ _ _ Hb Hown) as Hrb. pose proof (records_get _ _ _ _ Ha Hown) as Hra.
  destruct (dict_get k after) as [m'|] eqn:Hm'.
  - destruct Hra as (r' & Hr' & Hd'). rewrite Hr'.
    assert (is_Some (dict_get k before)) as [m Hm].
    { apply elem_of_dict_keys. rewrite Hkeys. apply elem_of_dict_keys. by eexists. }
    rewrite Hm in Hrb. destruct Hrb as (r & Hr & Hd). rewrite Hr.
    pose proof (unique_keys_get _ _ _ Hun Hr'). pose proof (unique_keys_get _ _ _ Huo Hr).
    case_decide as Hk; cbn [option_py_eq]; [by apply (describes_eq r' r' m' m')|].
    destruct (Hsame k m Hm) as (m2 & Hm2 & _ & _ & _ & Hp).
    assert (m2 = m') as -> by (rewrite Hm' in Hm2; by injection Hm2).
    destruct Hp as [? ?]; [by intros [?|?]%Hallowed|]. by apply (describes_eq r r' m m').
  - rewrite Hra. assert (dict_get k before = None) as Hm.
    { apply dict_get_None. rewrite <- dict_keys_elem, Hkeys, dict_keys_elem. by apply dict_get_None. }
    rewrite Hm in Hrb. rewrite Hrb. by case_decide.
Qed.
Lemma records_is_Some members own files name :
  records_of members own files → name ∉ ({[own; SUMS]} : gset str) → name ∈ dict_keys members →
  is_Some (dict_get name files).
Proof.
  intros Hrec Hn [m Hm]%elem_of_dict_keys. pose proof (records_get _ _ _ _ Hrec Hn) as Hr.
  rewrite Hm in Hr. destruct Hr as (r & Hr & _). by eexists.
Qed.

(** Comparing the manifests once some keys are set. *)
Lemma manifest_equal (old new : dict json) (sets : list (str * json)) :
  NoDup old.*1 → NoDup new.*1 → NoDup sets.*1 →
  py_eq (JDict (foldr (λ kv d, dict_set kv.1 kv.2 d) old sets)) (JDict new) = true ↔
  (∀ k, k ∉ sets.*1 → option_py_eq (dict_get k old) (dict_get k new))
  ∧ Forall (λ kv, option_py_eq (Some kv.2) (dict_get kv.1 new)) sets.
Proof.
  intros Ho Hn Hs.
  assert (∀ k, dict_get k (foldr (λ kv d, dict_set kv.1 kv.2 d) old sets)
    = match dict_get k sets with Some v => Some v | None => dict_get k old end) as Hget.
  { clear. intros k. induction sets as [|[k' v] sets IH]; cbn; [done|].
    rewrite dict_get_set, IH. by case_decide. }
  rewrite py_eq_dict; [|clear -Ho; induction sets; [done|by apply dict_set_NoDup]|done].
  setoid_rewrite Hget. rewrite Forall_forall. split.
  - intros Hall. split.
    + intros k Hk%dict_get_None. specialize (Hall k). by rewrite Hk in Hall.
    + intros [k v] Hin%dict_get_elem; [|done]. specialize (Hall k). by rewrite Hin in Hall.
  - intros [Hrest Hset] k. destruct (dict_get k sets) as [v|] eqn:Hk.
    + apply dict_get_Some_elem in Hk. by apply Hset in Hk.
    + apply dict_get_None in Hk. by apply Hrest.
Qed.

(** ** Pairs of binary archives *)

(** A tag's archive is the candidate's up to the commit: the members agree outside the
    approved names; in the notice the value of [source.ref] is replaced; the evidence files
    are canonical, in one style, and differ in [source_ref] only; these members keep their
    sizes; and the manifests describe the archives, end alike and agree on every key but
    [source_ref] and [files]. *)
Definition binary_pair (before after : dict member) (archive_name candidate_sha tag_sha : str) : Prop :=
  same_members before after binary_allowed
  ∧ notice_replaced before after [(u "source.ref", candidate_sha)] [(u "source.ref", tag_sha)]
  ∧ (∀ name, name ∈ EVIDENCE → ∃ old_data new_data old new,
       kept_data before name = Ok old_data ∧ kept_data after name = Ok new_data
       ∧ encodes limit old_data new_data old new
       ∧ same_but (u "source_ref") tag_sha old new)
  ∧ (∀ name m m', name ∈ NOTICE :: EVIDENCE → dict_get name before = Some m →
       dict_get name after = Some m' → m_size m = m_size m')
  ∧ ∃ old_data new_data old new old_files new_files,
      kept_data before (u "manifest.json") = Ok old_data
      ∧ kept_data after (u "manifest.json") = Ok new_data
      ∧ ends_with_newline old_data = ends_with_newline new_data
      ∧ binary_description before archive_name candidate_sha old old_files
      ∧ binary_description after archive_name tag_sha new new_files
      ∧ ∀ k, k ≠ u "source_ref" → k ≠ u "files" →
          option_py_eq (dict_get k old) (dict_get k new).

(** The identity members are described ones. *)
Lemma identity_described name :
  name ∈ NOTICE :: EVIDENCE → name ∉ ({[u "manifest.json"; SUMS]} : gset str).
Proof.
  assert (Forall (λ name, name ∉ ({[u "manifest.json"; SUMS]} : gset str)) (NOTICE :: EVIDENCE)) as Hall
    by (apply (bool_decide_unpack _); vm_compute; exact I).
  rewrite Forall_forall in Hall. apply Hall.
Qed.

(** The evidence of the two archives. *)
Lemma compare_evidence_Ok before after tag_sha name old_data new_data :
  kept_data before name = Ok old_data → kept_data after name = Ok new_data →
  (old ← item before name; new ← item after name;
   compare_json_identity limit (data_or_empty old) (data_or_empty new) (u "source_ref") tag_sha ;;
   Ok tt) = Ok tt ↔
  ∃ old new, encodes limit old_data new_data old new ∧ same_but (u "source_ref") tag_sha old new.
Proof.
  intros Ho Hn. pose proof Ho as (mo & Hmo & _)%kept_data_Ok. pose proof Hn as (mn & Hmn & _)%kept_data_Ok.
  rewrite (proj2 (item_Ok before name mo) Hmo), (proj2 (item_Ok after name mn) Hmn).
  cbn [mbind res_bind]. rewrite (kept_data_or_empty _ _ _ _ Ho Hmo), (kept_data_or_empty _ _ _ _ Hn Hmn).
  rewrite bind_Ok. split.
  - intros ([old new] & Hc%compare_json_identity_Ok & _). by exists old, new.
  - intros (old & new & Hc%compare_json_identity_Ok). by exists (old, new).
Qed.
Lemma same_sizes_Ok before after own allowed names old_files new_files :
  same_members before after allowed →
  records_of before own old_files → records_of after own new_files →
  (∀ name, name ∈ names → name ∉ ({[own; SUMS]} : gset str)) →
  (∀ name, name ∈ names → name ∈ dict_keys before) →
  Forall (λ name, same_size old_files new_files name = Ok tt) names ↔
  ∀ name m m', name ∈ names → dict_get name before = Some m →
    dict_get name after = Some m' → m_size m = m_size m'.
Proof.
  intros [_ Hmembers] Hor Hnr Hdescribed Hin. rewrite Forall_forall. split.
  - intros Hall name m m' Hname Hm Hm'.
    apply (same_size_Ok before after own old_files new_files name); auto.
  - intros Hall name Hname. destruct (proj1 (elem_of_dict_keys _ _) (Hin name Hname)) as [m Hm].
    destruct (Hmembers name m Hm) as (m' & Hm' & _).
    apply (same_size_Ok before after own old_files new_files name m m'); auto.
    by apply (Hall name).
Qed.

Lemma expected_binary_Ok (old new new_files : dict json) tag_sha :
  NoDup old.*1 → NoDup new.*1 → dict_get (u "files") new = Some (JDict new_files) →
  dict_get (u "source_ref") new = Some (JStr tag_sha) → ∀ e,
  py_eq (JDict (dict_set (u "files") (JDict e) (dict_set (u "source_ref") (JStr tag_sha) old))) (JDict new) = true
  ↔ (∀ k, k ≠ u "source_ref" → k ≠ u "files" → option_py_eq (dict_get k old) (dict_get k new))
    ∧ py_eq (JDict e) (JDict new_files) = true.
Proof.
  intros Ho Hn Hnf Href e.
  rewrite (manifest_equal old new [(u "files", JDict e); (u "source_ref", JStr tag_sha)]);
    [|done..|by apply (bool_decide_unpack _); vm_compute].
  rewrite !Forall_cons, Forall_nil. cbn [fst snd fmap list_fmap]. rewrite Hnf, Href.
  cbn [option_py_eq]. rewrite py_eq_str.
  setoid_rewrite not_elem_of_cons. setoid_rewrite list_elem_of_singleton. naive_solver.
Qed.

(** With the members compared, the manifests agree exactly when the identity members keep
    their sizes and the other keys are equal. *)
Lemma binary_manifests_Ok before after archive_name candidate_sha tag_sha old new old_files new_files :
  same_members before after binary_allowed → NOTICE ∈ dict_keys before →
  binary_description before archive_name candidate_sha old old_files →
  binary_description after archive_name tag_sha new new_files →
  (∃ expected_files,
     fold_res (λ files name, same_size old_files new_files name ;; take_record new_files files name)
       old_files (NOTICE :: EVIDENCE) = Ok expected_files
     ∧ py_eq (JDict (dict_set (u "files") (JDict expected_files)
                       (dict_set (u "source_ref") (JStr tag_sha) old))) (JDict new) = true)
  ↔ (∀ name m m', name ∈ NOTICE :: EVIDENCE → dict_get name before = Some m →
       dict_get name after = Some m' → m_size m = m_size m')
    ∧ ∀ k, k ≠ u "source_ref" → k ≠ u "files" → option_py_eq (dict_get k old) (dict_get k new).
Proof.
  intros Hsame Hnotice
    (platform & ? & ? & _ & _ & _ & Ho & _ & _ & _ & _ & _ & _ & Hof & Hor & Hev%evidence_present)
    (? & ? & ? & _ & _ & _ & Hn & _ & _ & _ & _ & Href & _ & Hnf & Hnr & _).
  apply parse_json_keys in Ho, Hn.
  pose proof (unique_keys_get _ _ _ Ho Hof) as Huo. pose proof (unique_keys_get _ _ _ Hn Hnf) as Hun.
  apply unique_keys_dict in Ho as [Ho _], Hn as [Hn _]. pose proof Hsame as [Hkeys Hmembers].
  assert (∀ name, name ∈ NOTICE :: EVIDENCE → name ∈ dict_keys before) as Hin.
  { intros name [-> |Hname]%elem_of_cons; [done|].
    apply Hev. by apply elem_of_list_to_set. }
  assert (Forall (λ name, is_Some (dict_get name new_files)) (NOTICE :: EVIDENCE)) as Hsome.
  { apply Forall_forall. intros name Hname. eapply (records_is_Some after); [done|by apply identity_described|].
    rewrite <- Hkeys. by apply Hin. }
  assert (Forall (λ name, same_size old_files new_files name = Ok tt) (NOTICE :: EVIDENCE) ↔
    ∀ name m m', name ∈ NOTICE :: EVIDENCE → dict_get name before = Some m →
      dict_get name after = Some m' → m_size m = m_size m') as Hsizes
    by (eapply same_sizes_Ok; eauto using identity_described).
  rewrite <- Hsizes. setoid_rewrite take_records_Ok. setoid_rewrite Forall_and.
  setoid_rewrite (expected_binary_Ok old new new_files tag_sha Ho Hn Hnf Href). split.
  - intros (e & [[? _] ->] & ? & _). done.
  - intros [? ?]. eexists. split_and!; [done..|].
    apply (expected_files_equal before after (u "manifest.json") binary_allowed); try done.
    unfold binary_allowed. set_solver.
Qed.
Lemma for_each_evidence_pair before after tag_sha names :
  (∀ name, name ∈ names → ∃ data, kept_data before name = Ok data) →
  (∀ name, name ∈ names → ∃ data, kept_data after name = Ok data) →
  for_each (λ name, old ← item before name; new ← item after name;
    compare_json_identity limit (data_or_empty old) (data_or_empty new) (u "source_ref") tag_sha ;;
    Ok tt) names = Ok tt ↔
  ∀ name, name ∈ names → ∃ old_data new_data old new,
    kept_data before name = Ok old_data ∧ kept_data after name = Ok new_data
    ∧ encodes limit old_data new_data old new ∧ same_but (u "source_ref") tag_sha old new.
Proof.
  intros Hb Ha. rewrite for_each_Ok, Forall_forall. split.
  - intros Hall name Hname. destruct (Hb name Hname) as [od Hod], (Ha name Hname) as [nd Hnd].
    destruct (proj1 (compare_evidence_Ok _ _ _ _ _ _ Hod Hnd) (Hall name Hname)) as (old & new & ? & ?).
    by exists od, nd, old, new.
  - intros Hall name Hname. destruct (Hall name Hname) as (od & nd & old & new & Hod & Hnd & ? & ?).
    apply (compare_evidence_Ok _ _ _ _ _ _ Hod Hnd). by exists old, new.
Qed.

(** The two manifests end alike. *)
Lemma matching_style_Ok {A} before after name (k : res A) a old_data new_data :
  kept_data before name = Ok old_data → kept_data after name = Ok new_data →
  (old ← item before name; new ← item after name;
   matching_json_style (data_or_empty old) (data_or_empty new) ;; k) = Ok a ↔
  ends_with_newline old_data = ends_with_newline new_data ∧ k = Ok a.
Proof.
  intros Ho Hn. pose proof Ho as (mo & Hmo & _)%kept_data_Ok. pose proof Hn as (mn & Hmn & _)%kept_data_Ok.
  rewrite (proj2 (item_Ok before name mo) Hmo), (proj2 (item_Ok after name mn) Hmn).
  cbn [mbind res_bind]. rewrite (kept_data_or_empty _ _ _ _ Ho Hmo), (kept_data_or_empty _ _ _ _ Hn Hmn).
  unfold matching_json_style, check. rewrite require_then. split; intros [H' ?]; (split; [|done]).
  - by apply eqb_prop.
  - rewrite H'. apply eqb_reflx.
Qed.

Lemma description_kept members archive_name sha manifest files :
  binary_description members archive_name sha manifest files →
  (∃ data, kept_data members (u "manifest.json") = Ok data)
  ∧ ∀ name, name ∈ EVIDENCE → ∃ data, kept_data members name = Ok data.
Proof.
  intros (platform & version & data & _ & _ & Hd & _ & _ & _ & _ & _ & _ & _ & _ & _ & Hall).
  split; [by exists data|]. intros name Hname. apply list_elem_of_lookup in Hname as [i Hi].
  destruct (Forall2_lookup_l _ _ _ _ _ Hall Hi) as (program & _ & m & d & ? & ? & _ & Hk & _).
  by exists d.
Qed.

Lemma verify_binary_pair_Ok before after archive_name candidate_sha tag_sha :
  NoDup before.*1 →
  verify_binary_pair limit before after archive_name candidate_sha tag_sha = Ok tt ↔
  binary_pair before after archive_name candidate_sha tag_sha.
Proof.
  intros Hnd.
  assert (∀ sha, NoDup ([(u "source.ref", sha)] : dict str).*1) as Hid by (intros; apply NoDup_singleton).
  unfold verify_binary_pair, check, binary_pair. split.
  - intros ([] & Hsets%compare_member_sets_Ok & H')%bind_Ok; [|done].
    apply bind_Ok in H' as ([old old_files] & Hold%parse_binary_manifest_Ok & H').
    apply bind_Ok in H' as ([new new_files] & Hnew%parse_binary_manifest_Ok & H').
    destruct (description_kept _ _ _ _ _ Hold) as [[od Hod] Hkb].
    destruct (description_kept _ _ _ _ _ Hnew) as [[nd Hnd'] Hka].
    apply (matching_style_Ok _ _ _ _ _ _ _ Hod Hnd') in H'. destruct H' as [Hstyle H'].
    apply bind_Ok in H' as (expected & Hrec & H').
    apply require_then in H' as [Hman ([] & Hnotice%compare_notices_Ok & H')%bind_Ok]; [|done].
    apply bind_Ok in H' as ([] & Hev & _).
    pose proof (proj1 (for_each_evidence_pair before after tag_sha EVIDENCE Hkb Hka) Hev) as Hpairs. clear Hev.
    pose proof Hnotice as (_ & _ & _ & _ & (m & Hm & _)%kept_data_Ok & _).
    assert (NOTICE ∈ dict_keys before) as Hin by (apply elem_of_dict_keys; by exists m).
    destruct (proj1 (binary_manifests_Ok _ _ _ _ _ _ _ _ _ Hsets Hin Hold Hnew)) as [Hsizes Hrest];
      [by exists expected|].
    split_and!; try done. by exists od, nd, old, new, old_files, new_files.
  - intros (Hsets & Hnotice & Hev & Hsizes & od & nd & old & new & old_files & new_files
      & Hod & Hnd' & Hstyle & Hold & Hnew & Hrest).
    pose proof Hnotice as (_ & _ & _ & _ & (m & Hm & _)%kept_data_Ok & _).
    assert (NOTICE ∈ dict_keys before) as Hin by (apply elem_of_dict_keys; by exists m).
    destruct (description_kept _ _ _ _ _ Hold) as [_ Hkb]. destruct (description_kept _ _ _ _ _ Hnew) as [_ Hka].
    destruct (proj2 (binary_manifests_Ok _ _ _ _ _ _ _ _ _ Hsets Hin Hold Hnew)) as (expected & Hrec & Hman);
      [done|].
    destruct (changed_members_allowed _ _ _ Hnd Hsets) as (changed & Hchanged & Hsub).
    apply bind_Ok. exists tt. split; [by apply compare_member_sets_Ok|].
    apply bind_Ok. exists (old, old_files). split; [by apply parse_binary_manifest_Ok|].
    apply bind_Ok. exists (new, new_files). split; [by apply parse_binary_manifest_Ok|].
    apply (matching_style_Ok _ _ _ _ _ _ _ Hod Hnd'). split; [done|].
    apply bind_Ok. exists expected. split; [done|]. apply require_then. split; [done|].
    apply bind_Ok. exists tt. split; [by apply compare_notices_Ok|].
    apply bind_Ok. exists tt. split; [by apply (for_each_evidence_pair before after tag_sha EVIDENCE Hkb Hka)|].
    apply bind_Ok. exists changed. split; [done|]. by apply require_Ok, bool_decide_eq_true.
Qed.
(** ** Pairs of source archives *)

(** The manifest of a source archive: canonical, with the version, the commit as asked for
    and as resolved, and its tree, one record per member, and the version's file. *)
Definition source_description (members : dict member) (version commit tree : str)
    (manifest files : dict json) : Prop :=
  ∃ data m text,
    kept_data members (u "source-manifest.json") = Ok data
    ∧ parse_json limit data = Ok manifest ∧ canonical_json_file data manifest = true
    ∧ dict_get (u "version") manifest = Some (JStr version)
    ∧ dict_get (u "source_ref") manifest = Some (JStr commit)
    ∧ dict_get (u "resolved_commit") manifest = Some (JStr commit)
    ∧ dict_get (u "tree") manifest = Some (JStr tree)
    ∧ dict_get (u "files") manifest = Some (JDict files)
    ∧ records_of members (u "source-manifest.json") files
    ∧ dict_get (u "repository/VERSION") members = Some m
    ∧ encode_ascii (version ++ [10%N]) = Some text ∧ m_data m = Some text.

Lemma parse_source_manifest_Ok members version commit tree manifest files :
  parse_source_manifest limit members version commit tree = Ok (manifest, files) ↔
  source_description members version commit tree manifest files.
Proof.
  unfold parse_source_manifest, source_description, check. split.
  - intros (data & Hd & (man & Hm & H')%bind_Ok)%bind_Ok. apply require_then in H' as [Hc H'].
    rewrite require_then, !andb_true_iff, !get_eq_str in H'.
    destruct H' as ((((Hver & Hsrc) & Hres) & Htree) & H').
    apply bind_Ok in H' as (fs & [Hf Hrec]%check_files_Ok & H').
    apply bind_Ok in H' as (m & Hv%of_option_Ok & (text & Ht%of_option_Ok & H')%bind_Ok).
    rewrite require_then, bool_decide_eq_true in H'. destruct H' as [Hdata [= -> ->]].
    by exists data, m, text.
  - intros (data & m & text & Hd & Hm & Hc & Hver & Hsrc & Hres & Htree & Hf & Hrec & Hv & Ht & Hdata).
    rewrite Hd. cbn [mbind res_bind]. rewrite Hm. cbn [mbind res_bind].
    rewrite !require_then, !andb_true_iff, !get_eq_str. split_and!; try done.
    apply bind_Ok. exists files. split; [by apply check_files_Ok|].
    rewrite Hv, Ht. cbn [mbind res_bind of_option]. rewrite require_then. by rewrite bool_decide_eq_true.
Qed.

(** A name that is no member need not be allowed to change. *)
Lemma same_members_keys before after allowed names :
  same_members before after (allowed ∪ (names ∩ dict_keys before)) ↔
  same_members before after (allowed ∪ names).
Proof.
  unfold same_members. apply and_iff_compat_l, forall_proper. intros name.
  apply forall_proper. intros m. split; intros Hm Hget;
    destruct (Hm Hget) as (m' & ? & ? & ? & ? & Hp); exists m'; split_and!; try done; intros Hn; apply Hp.
  - set_solver.
  - assert (name ∈ dict_keys before) by (apply elem_of_dict_keys; by exists m). set_solver.
Qed.

(** A tag's source archive is the candidate's up to the commit and the editable documents:
    both have the version record, and the candidate the release notes. *)
Definition source_pair (before after : dict member)
    (version candidate_sha tag_sha candidate_tree tag_tree tag : str) : Prop :=
  u "repository/" ++ result_document version ∈ dict_keys before
  ∧ u "repository/" ++ notes_document tag ∈ dict_keys before
  ∧ same_members before after (source_allowed version tag)
  ∧ notice_replaced before after (source_identity candidate_sha candidate_tree)
      (source_identity tag_sha tag_tree)
  ∧ (∀ m m', dict_get NOTICE before = Some m → dict_get NOTICE after = Some m' →
       m_size m = m_size m')
  ∧ ∃ old_data new_data old new old_files new_files,
      kept_data before (u "source-manifest.json") = Ok old_data
      ∧ kept_data after (u "source-manifest.json") = Ok new_data
      ∧ ends_with_newline old_data = ends_with_newline new_data
      ∧ source_description before version candidate_sha candidate_tree old old_files
      ∧ source_description after version tag_sha tag_tree new new_files
      ∧ ∀ k, k ∉ [u "source_ref"; u "resolved_commit"; u "tree"; u "files"] →
          option_py_eq (dict_get k old) (dict_get k new).

(** No document is the manifest or the checksum list. *)
Lemma editable_described version tag name :
  name ∈ NOTICE :: elements (editable version tag) →
  name ∉ ({[u "source-manifest.json"; SUMS]} : gset str).
Proof.
  rewrite elem_of_cons, elem_of_elements. unfold editable. rewrite elem_of_list_to_set, elem_of_cons.
  intros [-> |[-> |(doc & -> & _)%list_elem_of_fmap]];
    rewrite elem_of_union, !elem_of_singleton; intros [Heq|Heq]; discriminate Heq.
Qed.

Lemma expected_source_Ok (old new new_files : dict json) tag_sha tag_tree :
  NoDup old.*1 → NoDup new.*1 → dict_get (u "files") new = Some (JDict new_files) →
  dict_get (u "source_ref") new = Some (JStr tag_sha) →
  dict_get (u "resolved_commit") new = Some (JStr tag_sha) →
  dict_get (u "tree") new = Some (JStr tag_tree) → ∀ e,
  py_eq (JDict (dict_set (u "files") (JDict e) (dict_set (u "tree") (JStr tag_tree)
    (dict_set (u "resolved_commit") (JStr tag_sha) (dict_set (u "source_ref") (JStr tag_sha) old)))))
    (JDict new) = true
  ↔ (∀ k, k ∉ [u "source_ref"; u "resolved_commit"; u "tree"; u "files"] →
       option_py_eq (dict_get k old) (dict_get k new))
    ∧ py_eq (JDict e) (JDict new_files) = true.
Proof.
  intros Ho Hn Hnf Href Hres Htree e.
  rewrite (manifest_equal old new [(u "files", JDict e); (u "tree", JStr tag_tree);
      (u "resolved_commit", JStr tag_sha); (u "source_ref", JStr tag_sha)]);
    [|done..|by apply (bool_decide_unpack _); vm_compute].
  rewrite !Forall_cons, Forall_nil. cbn [fst snd fmap list_fmap].
  rewrite Hnf, Href, Hres, Htree. cbn [option_py_eq]. rewrite !py_eq_str.
  repeat setoid_rewrite not_elem_of_cons. naive_solver.
Qed.

(** With the members compared, the manifests agree exactly when the notice keeps its size
    and the other keys are equal. *)
Lemma source_manifests_Ok before after version tag candidate_sha tag_sha candidate_tree tag_tree
    old new old_files new_files :
  let documents := editable version tag ∩ dict_keys before in
  same_members before after (source_allowed version tag) → NOTICE ∈ dict_keys before →
  source_description before version candidate_sha candidate_tree old old_files →
  source_description after version tag_sha tag_tree new new_files →
  (same_size old_files new_files NOTICE = Ok tt ∧ ∃ expected_files,
     fold_res (take_record new_files) old_files (NOTICE :: elements documents) = Ok expected_files
     ∧ py_eq (JDict (dict_set (u "files") (JDict expected_files) (dict_set (u "tree") (JStr tag_tree)
         (dict_set (u "resolved_commit") (JStr tag_sha) (dict_set (u "source_ref") (JStr tag_sha) old)))))
         (JDict new) = true)
  ↔ (∀ m m', dict_get NOTICE before = Some m → dict_get NOTICE after = Some m' →
       m_size m = m_size m')
    ∧ ∀ k, k ∉ [u "source_ref"; u "resolved_commit"; u "tree"; u "files"] →
        option_py_eq (dict_get k old) (dict_get k new).
Proof.
  intros documents Hsame Hnotice (? & ? & ? & _ & Ho & _ & _ & _ & _ & _ & Hof & Hor & _)
    (? & ? & ? & _ & Hn & _ & _ & Href & Hres & Htree & Hnf & Hnr & _).
  apply parse_json_keys in Ho, Hn.
  pose proof (unique_keys_get _ _ _ Ho Hof) as Huo. pose proof (unique_keys_get _ _ _ Hn Hnf) as Hun.
  apply unique_keys_dict in Ho as [Ho _], Hn as [Hn _]. pose proof Hsame as [Hkeys _].
  assert (∀ name, name ∈ NOTICE :: elements documents →
    name ∈ dict_keys before ∧ name ∉ ({[u "source-manifest.json"; SUMS]} : gset str)) as Hin.
  { intros name Hname. split; [set_solver|]. apply (editable_described version tag).
    revert Hname. rewrite !elem_of_cons, !elem_of_elements. intros [?|[? _]%elem_of_intersection]; auto. }
  assert (Forall (λ name, is_Some (dict_get name new_files)) (NOTICE :: elements documents)) as Hsome.
  { apply Forall_forall. intros name [Hk Hd]%Hin. eapply (records_is_Some after); [done..|].
    by rewrite <- Hkeys. }
  assert (same_size old_files new_files NOTICE = Ok tt ↔
    ∀ m m', dict_get NOTICE before = Some m → dict_get NOTICE after = Some m' → m_size m = m_size m')
    as Hsizes.
  { transitivity (Forall (λ name, same_size old_files new_files name = Ok tt) [NOTICE]);
      [by rewrite Forall_singleton|].
    rewrite same_sizes_Ok by (done || by intros ? ->%list_elem_of_singleton; done || apply Hin; left).
    setoid_rewrite list_elem_of_singleton. naive_solver. }
  rewrite <- Hsizes. clear Hsizes. apply and_iff_compat_l.
  setoid_rewrite (take_records_Ok (λ _, Ok tt)).
  setoid_rewrite (expected_source_Ok old new new_files tag_sha tag_tree Ho Hn Hnf Href Hres Htree).
  split; [by intros (e & _ & ? & _)|]. intros Hrest. eexists. split_and!; [|done|done|].
  - by eapply Forall_impl.
  - apply (expected_files_equal before after (u "source-manifest.json")
      ({[u "source-manifest.json"; NOTICE; SUMS]} ∪ documents)); try done; [by apply same_members_keys|].
    set_solver.
Qed.
Lemma source_document_members_Ok members version tag documents :
  source_document_members members version tag = Ok documents ↔
  u "repository/" ++ result_document version ∈ dict_keys members
  ∧ u "repository/" ++ notes_document tag ∈ dict_keys members
  ∧ documents = editable version tag ∩ dict_keys members.
Proof.
  unfold source_document_members, check. rewrite require_then, andb_true_iff, !bool_decide_eq_true.
  unfold editable. split; [by intros [[? ?] [= <-]]|by intros (? & ? & ->)].
Qed.

Lemma verify_source_pair_Ok before after version candidate_sha tag_sha candidate_tree tag_tree tag :
  NoDup before.*1 →
  verify_source_pair limit before after version candidate_sha tag_sha candidate_tree tag_tree tag = Ok tt ↔
  source_pair before after version candidate_sha tag_sha candidate_tree tag_tree tag.
Proof.
  intros Hnd.
  assert (NoDup (source_identity tag_sha tag_tree).*1) as Hid
    by (apply (bool_decide_unpack (NoDup [u "source.ref"; u "source.resolved_commit"; u "source.tree"]));
        vm_compute; exact I).
  unfold verify_source_pair, check, source_pair. rewrite bind_Ok.
  setoid_rewrite source_document_members_Ok. setoid_rewrite require_then. split.
  - intros (documents & (Hrec & Hnotes & ->) & Hafter & H').
    apply bind_Ok in H' as ([] & Hsets%compare_member_sets_Ok & H'); [|done].
    apply (proj1 (same_members_keys _ _ _ _)) in Hsets.
    apply bind_Ok in H' as ([old old_files] & Hold%parse_source_manifest_Ok & H').
    apply bind_Ok in H' as ([new new_files] & Hnew%parse_source_manifest_Ok & H').
    pose proof Hold as (od & _ & _ & Hod & _). pose proof Hnew as (nd & _ & _ & Hnd' & _).
    apply (matching_style_Ok _ _ _ _ _ _ _ Hod Hnd') in H'. destruct H' as [Hstyle H'].
    apply bind_Ok in H' as ([] & Hsize & (expected & Hexp & H')%bind_Ok).
    apply require_then in H' as [Hman ([] & Hnotice%compare_notices_Ok & _)%bind_Ok]; [|done].
    pose proof Hnotice as (_ & _ & _ & _ & (m & Hm & _)%kept_data_Ok & _).
    assert (NOTICE ∈ dict_keys before) as Hin by (apply elem_of_dict_keys; by exists m).
    destruct (proj1 (source_manifests_Ok _ _ _ _ _ _ _ _ _ _ _ _ Hsets Hin Hold Hnew)) as [Hsizes Hrest];
      [split; [done|by exists expected]|].
    split_and!; try done. by exists od, nd, old, new, old_files, new_files.
  - intros (Hrec & Hnotes & Hsets & Hnotice & Hsizes & od & nd & old & new & old_files & new_files
      & Hod & Hnd' & Hstyle & Hold & Hnew & Hrest).
    pose proof Hnotice as (_ & _ & _ & _ & (m & Hm & _)%kept_data_Ok & _).
    assert (NOTICE ∈ dict_keys before) as Hin by (apply elem_of_dict_keys; by exists m).
    destruct (proj2 (source_manifests_Ok _ _ _ _ _ _ _ _ _ _ _ _ Hsets Hin Hold Hnew))
      as (Hsize & expected & Hexp & Hman); [done|].
    apply (proj2 (same_members_keys _ _ _ _)) in Hsets.
    destruct (changed_members_allowed _ _ _ Hnd Hsets) as (changed & Hchanged & Hsub).
    eexists. split; [done|]. split; [apply bool_decide_eq_true; by destruct Hsets as [<- _]|].
    apply bind_Ok. exists tt. split; [by apply compare_member_sets_Ok|].
    apply bind_Ok. exists (old, old_files). split; [by apply parse_source_manifest_Ok|].
    apply bind_Ok. exists (new, new_files). split; [by apply parse_source_manifest_Ok|].
    apply (matching_style_Ok _ _ _ _ _ _ _ Hod Hnd'). split; [done|].
    apply bind_Ok. exists tt. split; [done|].
    apply bind_Ok. exists expected. split; [done|]. apply require_then. split; [done|].
    apply bind_Ok. exists tt. split; [by apply compare_notices_Ok|].
    apply bind_Ok. exists changed. split; [done|]. by apply require_Ok, bool_decide_eq_true.
Qed.
End exact.

(** ** The properties *)

(** C15. The manifest of a binary archive is accepted, with its [files], exactly when it
    describes the archive: canonical, of schema 1, for the version and platform of the
    archive's name, the commit and the programs of the platform; with one record of size
    and digest for every member but itself and the checksum list; and with canonical
    evidence, of schema 2, for each program in its place. *)
Theorem parse_binary_manifest_accepts `{Unicode} (limit : nat) (members : dict member)
    (archive_name source_sha : str) (manifest files : dict json) :
  parse_binary_manifest limit members archive_name source_sha = Ok (manifest, files) ↔
  binary_description limit members archive_name source_sha manifest files.
Proof. apply parse_binary_manifest_Ok. Qed.




