(* ===== verification/ReleaseProps.v ===== *)
(** * Properties of the release gate *)

From stdpp Require Import sorting.
From S2P Require Import Prelude PyStr PyDict Codec Regex PyFloat Json Sha256 PyPath.
From S2P Require Import Archive ArchiveProps ReleaseText ReleaseTextProps ReleaseVerify.
From S2P Require Import ReleaseVerifyProps Release ReleaseSamples ReleaseFixture.

Local Open Scope Z_scope.

(** ** The history between the candidate and the tag *)

Section git.
Context `{Git}.

(** What git reports of a commit: its parents, and the paths changed since another. *)
Definition parents_of (commit : str) : res (list str) :=
  words <$> git_value [u "show"; u "-s"; u "--format=%P"; commit].
Definition changes_of (previous commit : str) : res (gset str) :=
  (λ diff, list_to_set (filter (λ w, w ≠ []) (split_on 0 diff)))
  <$> git_value [u "diff"; u "--name-only"; u "-z"; previous; commit].

(** A linear chain of commits, each with the approved paths it changes. *)
Inductive chain (allowed : gset str) : str → list (str * gset str) → str → Prop :=
| chain_nil c : chain allowed c [] c
| chain_cons previous commit changed rest last :
    parents_of commit = Ok [previous] → changes_of previous commit = Ok changed →
    changed ≠ ∅ → changed ⊆ allowed →
    chain allowed commit rest last →
    chain allowed previous ((commit, changed) :: rest) last.

(** The position of the first commit that changes [doc]. *)
Fixpoint first_at (doc : str) (commits : list (str * gset str)) : option nat :=
  match commits with
  | [] => None
  | (_, changed) :: rest => if decide (doc ∈ changed) then Some 0%nat else S <$> first_at doc rest
  end.

Lemma first_at_Some doc commits i :
  first_at doc commits = Some i →
  (∃ c, commits !! i = Some c ∧ doc ∈ c.2)
  ∧ ∀ j c, (j < i)%nat → commits !! j = Some c → doc ∉ c.2.
Proof.
  revert i. induction commits as [|[c changed] rest IH]; intros i; cbn; [done|].
  case_decide as Hd.
  - intros [= <-]. split; [by exists (c, changed)|]. intros; lia.
  - intros (k & Hk & ->)%fmap_Some. apply IH in Hk as [(c' & Hc & Hin) Hfirst].
    split; [by exists c'|]. intros [|j] c0 Hj; cbn; [by intros [= <-]|]. apply Hfirst. lia.
Qed.

Definition offset (base : nat) (at_ : option nat) (found : option nat) : option nat :=
  match at_ with Some i => Some i | None => (λ k, (base + k)%nat) <$> found end.

Lemma follow_commit_inv allowed version h commit h' :
  follow_commit allowed version h commit = Ok h' →
  ∃ changed, parents_of commit = Ok [previous h] ∧ changes_of (previous h) commit = Ok changed
    ∧ changed ≠ ∅ ∧ changed ⊆ allowed
    ∧ h' = History commit (S (index h))
        (first_change changed (notes_document (u "v" ++ version)) (index h) (changed_notes_at h))
        (first_change changed (result_document version) (index h) (changed_record_at h)).
Proof.
  unfold follow_commit, check, changes_of, parents_of.
  intros (parents & Hp & H')%bind_Ok. apply require_then in H' as [Hpar H'].
  apply bind_Ok in H' as (diff & Hd & H').
  rewrite require_then, andb_true_iff, negb_true_iff, bool_decide_eq_false, bool_decide_eq_true in H'.
  apply bool_decide_eq_true in Hpar as ->.
  destruct H' as [[Hne Hsub] [= <-]]. rewrite Hd. eauto 10.
Qed.

Lemma offset_first_change doc changed base at_ commits c :
  offset (S base) (first_change changed doc base at_) (first_at doc commits)
  = offset base at_ (first_at doc ((c, changed) :: commits)).
Proof.
  unfold offset, first_change. cbn. destruct at_; [done|]. case_decide; cbn; [f_equal; lia|].
  destruct (first_at doc commits); cbn; [f_equal; lia|done].
Qed.

Lemma follow_commits_inv allowed version h commits h' :
  fold_res (follow_commit allowed version) h commits = Ok h' →
  ∃ history, history.*1 = commits ∧ chain allowed (previous h) history (previous h')
    ∧ changed_notes_at h'
      = offset (index h) (changed_notes_at h) (first_at (notes_document (u "v" ++ version)) history)
    ∧ changed_record_at h'
      = offset (index h) (changed_record_at h) (first_at (result_document version) history).
Proof.
  revert h. induction commits as [|commit commits IH]; intros h; cbn [fold_res].
  - intros [= <-]. exists []. cbn. split_and!; [done|constructor| |];
      by destruct (changed_notes_at h), (changed_record_at h).
  - intros (h1 & (changed & Hp & Hc & Hne & Hsub & ->)%follow_commit_inv & Hrest)%bind_Ok.
    apply IH in Hrest as (history & Hl & Hchain & Hn & Hr).
    cbn [previous index changed_notes_at changed_record_at] in *.
    exists ((commit, changed) :: history). split_and!.
    + cbn. by rewrite Hl.
    + by econstructor.
    + by rewrite Hn, (offset_first_change _ _ _ _ _ commit).
    + by rewrite Hr, (offset_first_change _ _ _ _ _ commit).
Qed.

(** The approved documents: the release's own, present in the candidate commit. *)
Definition approved_documents (version tag candidate_sha : str) (allowed : gset str) : Prop :=
  result_document version ∈ allowed ∧ notes_document tag ∈ allowed
  ∧ ∀ path, path ∈ allowed ↔ path ∈ document_paths version tag
      ∧ ∃ result, git [u "cat-file"; u "-t"; candidate_sha ++ u ":" ++ path] = Some result
          ∧ returncode result = 0 ∧ bytes_strip (stdout result) = b "blob".

Lemma candidate_document_paths_inv version tag candidate_sha allowed :
  candidate_document_paths version tag candidate_sha = Ok allowed →
  approved_documents version tag candidate_sha allowed.
Proof.
  unfold candidate_document_paths, check, approved_documents.
  intros (existing & Hf & Hc)%bind_Ok. apply require_then in Hc as [Hc [= ->]].
  bool_prop. split_and!; [done..|]. clear -Hf.
  enough (∀ paths s, fold_res (λ (existing : gset str) path,
      match git [u "cat-file"; u "-t"; candidate_sha ++ u ":" ++ path] with
      | None => Err (VerificationError "candidate document check failed")
      | Some result =>
          Ok (if decide (returncode result = 0 ∧ bytes_strip (stdout result) = b "blob")
              then {[path]} ∪ existing else existing)
      end) s paths = Ok allowed →
      ∀ path, path ∈ allowed ↔ path ∈ s ∨ path ∈ paths ∧ ∃ result,
        git [u "cat-file"; u "-t"; candidate_sha ++ u ":" ++ path] = Some result
        ∧ returncode result = 0 ∧ bytes_strip (stdout result) = b "blob") as Hall.
  { intros path. rewrite (Hall _ _ Hf path). set_solver. }
  clear. intros paths. induction paths as [|p paths IH]; intros s; cbn [fold_res].
  - intros [= ->] path. set_solver.
  - intros (s1 & Hs1 & Hrest)%bind_Ok path. rewrite (IH _ Hrest path). clear IH Hrest.
    destruct (git _) as [result|] eqn:Hg; [|done]. injection Hs1 as <-.
    rewrite elem_of_cons. case_decide as Hd.
    + rewrite elem_of_union, elem_of_singleton. split; [|naive_solver].
      intros [[->|?]|[? ?]]; [right; split; [by left|by exists result]|by left|right; auto].
    + split; [naive_solver|]. intros [?|[[->|?] (r & Hr & ?)]]; [by left| |right; eauto].
      rewrite Hg in Hr. by injection Hr as ->.
Qed.

(** What an accepted history is: a linear chain of commits from the candidate to the tag,
    each changing only approved documents, the record before the notes. *)
Definition git_identity (version candidate_sha tag_sha candidate_tree tag_tree : str) : Prop :=
  hex40 candidate_sha = true ∧ hex40 tag_sha = true
  ∧ rev_parse (u "HEAD^{commit}") = Ok tag_sha
  ∧ rev_parse (candidate_sha ++ u "^{tree}") = Ok candidate_tree
  ∧ rev_parse (tag_sha ++ u "^{tree}") = Ok tag_tree
  ∧ ∃ allowed history record notes,
      approved_documents version (u "v" ++ version) candidate_sha allowed
      ∧ chain allowed candidate_sha history tag_sha
      ∧ first_at (result_document version) history = Some record
      ∧ first_at (notes_document (u "v" ++ version)) history = Some notes
      ∧ (record < notes)%nat.

Lemma verify_git_identity_inv version candidate_sha tag_sha candidate_tree tag_tree :
  verify_git_identity version candidate_sha tag_sha = Ok (candidate_tree, tag_tree) →
  git_identity version candidate_sha tag_sha candidate_tree tag_tree.
Proof.
  unfold verify_git_identity, check, git_identity. rewrite require_then, andb_true_iff.
  intros [[Hc Ht] H']. split; [done|]; split; [done|].
  apply bind_Ok in H' as (c1 & _ & H'). apply require_then in H' as [_ H'].
  apply bind_Ok in H' as (c2 & _ & H'). apply require_then in H' as [_ H'].
  apply bind_Ok in H' as (head_ & Hhead & H'). apply require_then in H' as [->%bool_decide_eq_true H'].
  apply require_then in H' as [_ H'].
  apply bind_Ok in H' as (ct & Hct & H'). apply bind_Ok in H' as (tt_ & Htt & H').
  apply bind_Ok in H' as (allowed & Hall%candidate_document_paths_inv & H').
  apply bind_Ok in H' as (commits & _ & H'). apply require_then in H' as [_ H'].
  apply bind_Ok in H' as (h & Hh & H'). apply require_then in H' as [Hend [= -> ->]].
  apply andb_true_iff in Hend as [Hlast%bool_decide_eq_true Hord].
  apply follow_commits_inv in Hh as (history & _ & Hchain & Hn & Hr).
  cbn [previous index changed_notes_at changed_record_at offset] in *.
  destruct (changed_record_at h) as [record|]; [|done].
  destruct (changed_notes_at h) as [notes|]; [|done]. apply Nat.ltb_lt in Hord.
  split_and!; [done..|]. exists allowed, history, record, notes.
  rewrite Hlast in Hchain. split_and!; try done.
  - destruct (first_at (result_document version) history); [by injection Hr as ->|done].
  - destruct (first_at (notes_document _) history); [by injection Hn as ->|done].
Qed.
End git.

(** ** Bundles *)

Section release.
Context `{Unicode} `{Digest} `{Archives} `{Git} `{Bundles} (limit : nat).

(** The checksum list inside an archive names every other member with its digest. *)
Definition inner_sums (members : dict member) : Prop :=
  ∃ data sums, kept_data members SUMS = Ok data
    ∧ parse_sums data (dict_keys members ∖ {[SUMS]}) = Ok sums
    ∧ ∀ name m, dict_get name members = Some m → name ≠ SUMS →
        dict_get name sums = Some (m_digest m).

Lemma verify_inner_sums_inv members v : verify_inner_sums members = Ok v → inner_sums members.
Proof.
  intros H'. assert (∃ data, kept_data members SUMS = Ok data) as [data Hd].
  { unfold verify_inner_sums in H'. unfold kept_data.
    destruct (dict_get SUMS members) as [[? ? ? ? [data|] ?]|]; try done. by exists data. }
  assert (∃ sums, parse_sums data (dict_keys members ∖ {[SUMS]}) = Ok sums ∧
    ∀ name digest, (name, digest) ∈ sums →
      ∃ m, dict_get name members = Some m ∧ m_digest m = digest) as (sums & Hs & Hall).
  { apply kept_data_Ok in Hd as (m & Hm & Hmd). unfold verify_inner_sums in H'.
    rewrite Hm in H'. destruct m as [k md sz dg mdata lk]. cbn in Hmd. subst mdata.
    apply bind_Ok in H' as (sums & Hs & Hall%for_each_Ok). exists sums. split; [done|].
    intros name digest Hin. rewrite Forall_forall in Hall. specialize (Hall _ Hin). cbn in Hall.
    apply bind_Ok in Hall as (m & Hm'%item_Ok & Hc).
    apply require_Ok, bool_decide_eq_true in Hc. by exists m. }
  exists data, sums. split_and!; [done..|]. intros name m Hm Hname.
  apply parse_sums_Ok in Hs as (_ & _ & _ & _ & Hk).
  assert (is_Some (dict_get name sums)) as [digest Hdig].
  { rewrite <- elem_of_dict_keys, Hk, elem_of_difference, elem_of_dict_keys.
    split; [by exists m|]. by rewrite elem_of_singleton. }
  rewrite Hdig. apply dict_get_Some_elem, Hall in Hdig as (m' & ? & <-). congruence.
Qed.

(** One archive of a verified bundle. *)
Definition asset_ok (directory : str) (checksums : dict str) (name : str)
    (members : dict member) : Prop :=
  ∃ content, regular_file directory name = Some content
    ∧ dict_get name checksums = Some (hexdigest content)
    ∧ read_archive name (Some content) = Ok members
    ∧ inner_sums members.

Lemma load_asset_inv directory checksums archives name archives' :
  load_asset directory checksums archives name = Ok archives' →
  ∃ members, asset_ok directory checksums name members ∧ archives' = dict_set name members archives.
Proof.
  unfold load_asset, sha256, check. cbn zeta. rewrite require_then. intros [Hs H'].
  apply bool_decide_eq_true in Hs as [content Hc]. rewrite Hc in H'.
  apply bind_Ok in H' as (digest & Hd & H').
  cbn [of_option mbind res_bind] in Hd. apply require_then in Hd as [_ [= <-]].
  apply bind_Ok in H' as (expected & He%item_Ok & H').
  apply require_then in H' as [<-%bool_decide_eq_true H'].
  apply bind_Ok in H' as (members & Hm & H').
  apply bind_Ok in H' as ([] & Hi%verify_inner_sums_inv & [= <-]).
  exists members. split; [|done]. by exists content.
Qed.

Lemma load_assets_inv directory checksums names archives archives' :
  fold_res (load_asset directory checksums) archives names = Ok archives' →
  (∀ name members, dict_get name archives = Some members → asset_ok directory checksums name members) →
  (∀ name members, dict_get name archives' = Some members →
     asset_ok directory checksums name members)
  ∧ ∀ name, name ∈ names ∨ is_Some (dict_get name archives) → is_Some (dict_get name archives').
Proof.
  revert archives. induction names as [|n names IH]; intros archives; cbn [fold_res].
  - intros [= <-] Hall. split; [done|]. by intros name [?%elem_of_nil|?].
  - intros (a1 & (ms & Hok & ->)%load_asset_inv & Hrest)%bind_Ok Hall.
    apply IH in Hrest as [Hall' Hdom].
    + split; [done|]. intros name Hin. apply Hdom. rewrite dict_get_set. case_decide; [right; by eexists|].
      destruct Hin as [[->|?]%elem_of_cons|?]; [done|by left|by right].
    + intros name members. rewrite dict_get_set. case_decide as Hn; [|apply Hall].
      by intros [= <-]; subst.
Qed.

(** A verified bundle: the directory holds exactly the version's archives and their
    checksum list, and every archive is sound. *)
Definition bundle_ok (directory version : str) (archives : dict (dict member)) : Prop :=
  ∃ assets data checksums, expected_assets version = Ok assets
    ∧ (list_to_set (iterdir directory) : gset str) = list_to_set assets ∪ {[SUMS]}
    ∧ regular_file directory SUMS = Some data
    ∧ parse_sums data (list_to_set assets) = Ok checksums
    ∧ ∀ name, name ∈ assets → ∃ members, dict_get name archives = Some members
        ∧ asset_ok directory checksums name members.

Lemma verify_bundle_inv directory version checksums archives :
  verify_bundle directory version = Ok (checksums, archives) →
  bundle_ok directory version archives.
Proof.
  unfold verify_bundle, check. rewrite require_then. intros [_ H'].
  apply bind_Ok in H' as (assets & Ha & H').
  rewrite require_then, bool_decide_eq_true in H'. destruct H' as [Hi H'].
  apply bind_Ok in H' as (data & Hd%of_option_Ok & H'). apply require_then in H' as [_ H'].
  apply bind_Ok in H' as (sums & Hs & H').
  apply bind_Ok in H' as (arch & Hf & [= -> ->]).
  exists assets, data, checksums. split_and!; try done.
  apply load_assets_inv in Hf as [Hall Hdom]; [|done].
  intros name Hin. destruct (Hdom name) as [members Hm].
  { left. unfold sorted. rewrite merge_sort_Permutation. by apply elem_of_remove_dups. }
  exists members. split; [done|]. by apply Hall.
Qed.

(** ** The release *)

(** The chunk-wise comparison is equality. *)
Lemma same_chunks_eq fuel a c : same_chunks fuel a c = true → a = c.
Proof.
  assert (0 < CHUNK_BYTES) as Hpos by done.
  assert (∀ l : bytes, takeZ CHUNK_BYTES l = [] → l = []) as Hnil.
  { intros l Hl. rewrite takeZ_take in Hl. destruct l; [done|].
    destruct (Z.to_nat CHUNK_BYTES) eqn:E; [lia|done]. }
  revert a c. induction fuel as [|fuel IH]; intros a c; cbn [same_chunks]; [done|].
  rewrite andb_true_iff, bool_decide_eq_true. intros [Heq Hrest].
  destruct (takeZ CHUNK_BYTES a) as [|x chunk] eqn:Ha.
  - by rewrite (Hnil a Ha), (Hnil c) by done.
  - apply IH in Hrest. rewrite dropZ_drop in Hrest. rewrite dropZ_drop in Hrest.
    rewrite <- (take_drop (Z.to_nat CHUNK_BYTES) a), <- (take_drop (Z.to_nat CHUNK_BYTES) c).
    rewrite <- !takeZ_take, Hrest, Ha. by rewrite Heq.
Qed.

Lemma same_chunks_refl a : same_chunks (S (length a)) a a = true.
Proof.
  assert (∀ fuel l, (length l < fuel)%nat → same_chunks fuel l l = true) as Hall; [|by apply Hall; lia].
  assert (0 < CHUNK_BYTES) as Hpos by done.
  induction fuel as [|fuel IH]; intros l Hl; cbn [same_chunks]; [lia|].
  rewrite bool_decide_eq_true_2 by done. cbn [andb].
  destruct (takeZ CHUNK_BYTES l) as [|x chunk] eqn:Hc; [done|]. apply IH.
  rewrite dropZ_drop, length_drop. destruct l; [done|]. cbn [length] in *. lia.
Qed.

(** One asset of an accepted release: the two candidate builds are the same bytes, and the
    tag's archive is the candidate's up to the approved changes. *)
Definition asset_approved (candidate_dir reproduction_dir tag_dir version candidate_sha tag_sha
    candidate_tree tag_tree tag name : str) : Prop :=
  ∃ content tag_content before after,
    regular_file candidate_dir name = Some content
    ∧ regular_file reproduction_dir name = Some content
    ∧ regular_file tag_dir name = Some tag_content
    ∧ read_archive name (Some content) = Ok before
    ∧ read_archive name (Some tag_content) = Ok after
    ∧ if decide (name = source_asset version)
      then approved_source limit before after version candidate_sha tag_sha
             candidate_tree tag_tree tag
      else approved_binary limit before after name candidate_sha tag_sha.

(** An archive of a verified bundle is there, and is the one read. *)
Lemma bundle_file dir version archives assets name :
  bundle_ok dir version archives → expected_assets version = Ok assets → name ∈ assets →
  ∃ content, regular_file dir name = Some content.
Proof.
  intros (assets' & data & sums & Ha' & _ & _ & _ & Hall) Ha Hname.
  assert (assets' = assets) as -> by congruence.
  destruct (Hall name Hname) as (_ & _ & content & Hfile & _). by exists content.
Qed.

Lemma bundle_read dir version archives assets name ms content :
  bundle_ok dir version archives → expected_assets version = Ok assets → name ∈ assets →
  dict_get name archives = Some ms → regular_file dir name = Some content →
  read_archive name (Some content) = Ok ms.
Proof.
  intros (assets' & data & sums & Ha' & _ & _ & _ & Hall) Ha Hname Hms Hfile.
  assert (assets' = assets) as -> by congruence.
  destruct (Hall name Hname) as (ms' & Hms' & content' & Hfile' & _ & Hread & _). congruence.
Qed.

Lemma verify_release_inv candidate_dir reproduction_dir tag_dir tag candidate_sha tag_sha r :
  verify_release limit candidate_dir reproduction_dir tag_dir tag candidate_sha tag_sha = Ok r →
  ∃ version assets candidate reproduction tagged sums,
    tag = u "v" ++ version ∧ expected_assets version = Ok assets ∧ r_assets r = assets
    ∧ git_identity version candidate_sha tag_sha (r_candidate_tree r) (r_tag_tree r)
    ∧ bundle_ok candidate_dir version candidate ∧ bundle_ok reproduction_dir version reproduction
    ∧ bundle_ok tag_dir version tagged
    ∧ regular_file candidate_dir SUMS = Some sums ∧ regular_file reproduction_dir SUMS = Some sums
    ∧ ∀ name, name ∈ assets → asset_approved candidate_dir reproduction_dir tag_dir version
        candidate_sha tag_sha (r_candidate_tree r) (r_tag_tree r) tag name.
Proof.
  unfold verify_release, check. cbn zeta. rewrite require_then, andb_true_iff.
  intros [[Htag _] H']. apply starts_with_spec in Htag as (version & Htag). subst tag.
  change (tail (u "v" ++ version)) with version in *.
  apply bind_Ok in H' as ([candidate_tree tag_tree] & Hgit%verify_git_identity_inv & H').
  apply bind_Ok in H' as ([s1 candidate] & Hc%verify_bundle_inv & H').
  apply bind_Ok in H' as ([s2 reproduction] & Hr%verify_bundle_inv & H').
  apply bind_Ok in H' as ([s3 tagged] & Ht%verify_bundle_inv & H').
  apply bind_Ok in H' as (csums & Hcs%of_option_Ok & H').
  apply bind_Ok in H' as (rsums & Hrs%of_option_Ok & H').
  apply require_then in H' as [<-%bool_decide_eq_true H'].
  apply bind_Ok in H' as (assets & Ha & H').
  apply bind_Ok in H' as ([] & Hsame%for_each_Ok & H').
  apply bind_Ok in H' as ([] & Hpairs%for_each_Ok & H').
  apply bind_Ok in H' as (tsums & _ & [= <-]).
  exists version, assets, candidate, reproduction, tagged, csums.
  cbn [r_assets r_candidate_tree r_tag_tree]. split_and!; try done. intros name Hname.
  rewrite Forall_forall in Hsame, Hpairs. specialize (Hsame name Hname). specialize (Hpairs name Hname).
  cbn beta in Hsame, Hpairs.
  apply bind_Ok in Hsame as (l & Hl%of_option_Ok & Hsame).
  apply bind_Ok in Hsame as (l' & Hl'%of_option_Ok & Hsame).
  apply require_Ok, same_chunks_eq in Hsame as <-.
  apply bind_Ok in Hpairs as (before & Hb%item_Ok & Hpairs).
  apply bind_Ok in Hpairs as (after & Hafter%item_Ok & Hpairs).
  destruct (bundle_file _ _ _ _ _ Ht Ha Hname) as [tag_content Htc].
  exists l, tag_content, before, after. split_and!; try done.
  - by apply (bundle_read _ _ _ _ _ _ _ Hc Ha Hname).
  - by apply (bundle_read _ _ _ _ _ _ _ Ht Ha Hname).
  - destruct (decide (name = source_asset version)).
    + by apply verify_source_pair_inv in Hpairs.
    + by apply verify_binary_pair_inv in Hpairs.
Qed.
End release.

(** ** The properties *)

(** An accepted history leads from the candidate to the release tag, which is checked
    out, by a linear chain of commits; each changes at least one document and only
    approved documents of the release that the candidate already has, and the version
    record is first changed strictly before the release notes. *)
Theorem verify_git_identity_sound `{Git} (version candidate_sha tag_sha candidate_tree tag_tree : str)
    (Hok : verify_git_identity version candidate_sha tag_sha = Ok (candidate_tree, tag_tree)) :
  git_identity version candidate_sha tag_sha candidate_tree tag_tree.
Proof. by apply verify_git_identity_inv. Qed.

Lemma verify_git_identity_sound_witness :
  let G := sample_git in
  verify_git_identity version candidate tagged = Ok (tree_of candidate, tree_of tagged)
  ∧ git_identity version candidate tagged (tree_of candidate) (tree_of tagged).
Proof.
  split; [vm_compute; reflexivity|]. apply verify_git_identity_sound. vm_compute. reflexivity.
Defined.

(** A verified bundle directory holds the checksum list and exactly the archives of
    the version; every archive has the digest the list gives it, is readable within the
    limits, and lists the digest of each of its other members. *)
Theorem verify_bundle_sound `{Unicode} `{Digest} `{Archives} `{Bundles}
    (directory version : str) (checksums : dict str) (archives : dict (dict member))
    (Hok : verify_bundle directory version = Ok (checksums, archives)) :
  bundle_ok directory version archives.
Proof. by eapply verify_bundle_inv. Qed.

Lemma verify_bundle_sound_witness :
  let D := length_digest in let A := sample_archives in let B := sample_bundles in
  ∃ checksums archives, verify_bundle (u "tag") version = Ok (checksums, archives)
    ∧ bundle_ok (u "tag") version archives.
Proof.
  intros D A B. destruct sample_bundle_accepted as (checksums & archives & Hb).
  exists checksums, archives. split; [exact Hb|]. apply (verify_bundle_sound _ _ _ _ Hb).
Defined.

(** The gate as a whole: a release is accepted only if its history is, the three
    bundles verify, both candidate builds have byte-identical checksum lists and archives,
    and every archive of the tag is the candidate's up to the approved changes. *)
Theorem verify_release_sound `{Unicode} `{Digest} `{Archives} `{Git} `{Bundles} (limit : nat)
    (candidate_dir reproduction_dir tag_dir tag candidate_sha tag_sha : str) (r : result)
    (Hok : verify_release limit candidate_dir reproduction_dir tag_dir tag candidate_sha tag_sha
           = Ok r) :
  ∃ version assets candidate reproduction tagged sums,
    tag = u "v" ++ version ∧ expected_assets version = Ok assets ∧ r_assets r = assets
    ∧ git_identity version candidate_sha tag_sha (r_candidate_tree r) (r_tag_tree r)
    ∧ bundle_ok candidate_dir version candidate ∧ bundle_ok reproduction_dir version reproduction
    ∧ bundle_ok tag_dir version tagged
    ∧ regular_file candidate_dir SUMS = Some sums ∧ regular_file reproduction_dir SUMS = Some sums
    ∧ ∀ name, name ∈ assets → asset_approved limit candidate_dir reproduction_dir tag_dir version
        candidate_sha tag_sha (r_candidate_tree r) (r_tag_tree r) tag name.
Proof. by apply verify_release_inv. Qed.

Lemma verify_release_sound_witness :
  let D := length_digest in let A := sample_archives in let G := sample_git in
  let B := sample_bundles in
  ∃ r, sample_release = Ok r ∧
  ∃ version assets candidate_archives reproduction_archives tag_archives sums,
    u "v1.2.3" = u "v" ++ version ∧ expected_assets version = Ok assets ∧ r_assets r = assets
    ∧ git_identity version candidate tagged (r_candidate_tree r) (r_tag_tree r)
    ∧ bundle_ok (u "candidate") version candidate_archives
    ∧ bundle_ok (u "reproduction") version reproduction_archives
    ∧ bundle_ok (u "tag") version tag_archives
    ∧ regular_file (u "candidate") SUMS = Some sums
    ∧ regular_file (u "reproduction") SUMS = Some sums
    ∧ ∀ name, name ∈ assets → asset_approved 20 (u "candidate") (u "reproduction") (u "tag")
        version candidate tagged (r_candidate_tree r) (r_tag_tree r) (u "v1.2.3") name.
Proof.
  intros D A G B. eexists. split; [exact sample_release_accepted|].
  exact (verify_release_sound 20 _ _ _ _ _ _ _ sample_release_accepted).
Defined.

(** C1. What a user of the release gets: in every binary archive of an accepted tag, each
    member outside the five approved names has the permissions of the candidate's member
    of that name, and contents of the same length and the same SHA-256 digest. *)
Theorem release_payload_unchanged `{Unicode} `{Digest} `{Archives} `{Git} `{Bundles} (limit : nat)
    (candidate_dir reproduction_dir tag_dir tag candidate_sha tag_sha : str) (r : result)
    (name : str) (content : bytes) (l : list entry) (e : entry)
    (Hok : verify_release limit candidate_dir reproduction_dir tag_dir tag candidate_sha tag_sha
           = Ok r)
    (Hname : name ∈ r_assets r) (Hbin : name ≠ source_asset (tail tag))
    (Hfile : regular_file candidate_dir name = Some content)
    (Hl : entries_of name content = Some l) (He : e ∈ l)
    (Hpayload : e_name e ∉ binary_allowed) :
  ∃ tag_content l' e', regular_file tag_dir name = Some tag_content
    ∧ entries_of name tag_content = Some l' ∧ e' ∈ l'
    ∧ e_name e' = e_name e ∧ e_mode e' = e_mode e
    ∧ lenZ (st_data (e_stream e')) = lenZ (st_data (e_stream e))
    ∧ hexdigest (st_data (e_stream e')) = hexdigest (st_data (e_stream e)).
Proof.
  apply verify_release_inv in Hok
    as (version & assets & _ & _ & _ & _ & -> & _ & <- & _ & _ & _ & _ & _ & _ & Hall).
  change (tail (u "v" ++ version)) with version in Hbin.
  destruct (Hall name Hname) as (c & tc & before & after & Hc & _ & Htc & Hb & Ha & Happ).
  rewrite decide_False in Happ by done. destruct Happ as [[_ Hsame] _].
  apply read_archive_Ok in Hb as (c1 & l1 & [= <-] & _ & Hl1 & Hok1 & ->).
  apply read_archive_Ok in Ha as (c2 & l2 & [= <-] & _ & Hl2 & Hok2 & ->).
  assert (l1 = l) as -> by congruence.
  assert (∀ l e, archive_ok l → e ∈ l → dict_get (e_name e) (item_of <$> l) = Some (item_of e).2)
    as Hget.
  { intros l0 e0 (_ & Hnd & _) Hin. apply dict_get_elem.
    - rewrite <- list_fmap_compose. rewrite list_fmap_compose in Hnd. by apply NoDup_fmap_1 in Hnd.
    - apply list_elem_of_fmap. by exists e0. }
  destruct (Hsame _ _ (Hget l e Hok1 He)) as (m' & Hm' & _ & Hmode & _ & Hp).
  destruct (Hp Hpayload) as [Hsize Hdig].
  apply dict_get_Some_elem, list_elem_of_fmap in Hm' as (e' & Heq & He').
  injection Heq as Hn ->. cbn in Hmode, Hsize, Hdig.
  destruct Hok1 as [Hok1 _]. destruct Hok2 as [Hok2 _]. rewrite Forall_forall in Hok1, Hok2.
  apply Hok1 in He as (_ & _ & _ & _ & Hlen). pose proof He' as Hin'.
  apply Hok2 in He' as (_ & _ & _ & _ & Hlen').
  exists tc, l2, e'. split_and!; try done. by rewrite Hlen, Hlen'.
Qed.

Lemma release_payload_unchanged_witness :
  let D := length_digest in let A := sample_archives in let B := sample_bundles in
  let name := asset_name version (u "linux-x86_64") in
  let e := Entry (u "sianod") 0x1ED 6 (Stream (text (u "sianod")) None) in
  e_name e ∉ binary_allowed ∧
  ∃ tag_content l' e', regular_file (u "tag") name = Some tag_content
    ∧ entries_of name tag_content = Some l' ∧ e' ∈ l'
    ∧ e_name e' = e_name e ∧ e_mode e' = e_mode e
    ∧ lenZ (st_data (e_stream e')) = lenZ (st_data (e_stream e))
    ∧ hexdigest (st_data (e_stream e')) = hexdigest (st_data (e_stream e)).
Proof.
  intros D A B name e. assert (e_name e ∉ binary_allowed) as Hpayload
    by (apply (bool_decide_unpack _); vm_compute; exact I).
  split; [exact Hpayload|].
  set (l := default [] (entries_of name (archive_file candidate (u "linux-x86_64")))).
  apply (release_payload_unchanged 20 _ _ _ _ _ _ _ name
           (archive_file candidate (u "linux-x86_64")) l e sample_release_accepted).
  - apply (bool_decide_unpack _). vm_compute. exact I.
  - apply (bool_decide_unpack _). vm_compute. exact I.
  - vm_compute. reflexivity.
  - unfold l. vm_compute. reflexivity.
  - apply list_elem_of_lookup. exists 6%nat. vm_compute. reflexivity.
  - exact Hpayload.
Defined.
