(* ===== verification/ReleaseGate.v ===== *)
(** * Exactly which releases the gate accepts

    The history between the candidate and the tag, the bundles, and the release as a whole:
    the conditions of [ReleaseProps], completed to be sufficient. *)

From stdpp Require Import sorting.
From S2P Require Import Prelude PyStr PyDict Codec Regex PyFloat Json Sha256 PyPath.
From S2P Require Import Archive ArchiveProps ReleaseText ReleaseTextProps ReleaseVerify.
From S2P Require Import ReleaseVerifyProps ReleaseExact Release ReleaseSamples ReleaseFixture ReleaseProps.

Local Open Scope Z_scope.

(** ** The history *)

Section git.
Context `{Git}.

Lemma follow_commit_Ok allowed version h commit h' :
  follow_commit allowed version h commit = Ok h' ↔
  ∃ changed, parents_of commit = Ok [previous h] ∧ changes_of (previous h) commit = Ok changed
    ∧ changed ≠ ∅ ∧ changed ⊆ allowed
    ∧ h' = History commit (S (index h))
        (first_change changed (notes_document (u "v" ++ version)) (index h) (changed_notes_at h))
        (first_change changed (result_document version) (index h) (changed_record_at h)).
Proof.
  split; [apply follow_commit_inv|]. intros (changed & Hp & Hc & Hne & Hsub & ->).
  unfold parents_of in Hp. unfold changes_of in Hc. apply fmap_Ok in Hc as (diff & Hd & Hc).
  unfold follow_commit, check. rewrite Hp. cbn [mbind res_bind]. rewrite require_then. split.
  { by apply bool_decide_eq_true. }
  rewrite Hd. cbn [mbind res_bind]. rewrite Hc, require_then, andb_true_iff, negb_true_iff.
  by rewrite bool_decide_eq_false, bool_decide_eq_true.
Qed.

(** The loop over the commits follows a chain and keeps the first positions. *)
Lemma follow_commits_Ok allowed version h commits h' :
  fold_res (follow_commit allowed version) h commits = Ok h' ↔
  ∃ history, history.*1 = commits ∧ chain allowed (previous h) history (previous h')
    ∧ index h' = (index h + length commits)%nat
    ∧ changed_notes_at h'
      = offset (index h) (changed_notes_at h) (first_at (notes_document (u "v" ++ version)) history)
    ∧ changed_record_at h'
      = offset (index h) (changed_record_at h) (first_at (result_document version) history).
Proof.
  revert h. induction commits as [|commit commits IH]; intros h; cbn [fold_res].
  - split.
    + intros [= <-]. exists []. cbn. split_and!; [done|constructor|lia| |];
        by destruct (changed_notes_at h), (changed_record_at h).
    + intros (history & ->%fmap_nil_inv & Hchain & Hi & Hn & Hr). inversion Hchain; subst.
      destruct h as [p i n r], h' as [p' i' n' r']. cbn in *. subst. rewrite Nat.add_0_r.
      by destruct n, r.
  - rewrite bind_Ok. setoid_rewrite follow_commit_Ok. setoid_rewrite IH. split.
    + intros (h1 & (changed & Hp & Hc & Hne & Hsub & ->) & history & Hl & Hchain & Hi & Hn & Hr).
      cbn [previous index changed_notes_at changed_record_at] in *.
      exists ((commit, changed) :: history). split_and!; [by cbn; f_equal|by econstructor|cbn; lia| |].
      * by rewrite Hn, (offset_first_change _ _ _ _ _ commit).
      * by rewrite Hr, (offset_first_change _ _ _ _ _ commit).
    + intros ([|[c changed] history] & Hl & Hchain & Hi & Hn & Hr); [done|]. injection Hl as -> Hl.
      inversion Hchain; subst. eexists. split; [by exists changed|].
      cbn [previous index changed_notes_at changed_record_at] in *. exists history.
      rewrite !(offset_first_change _ _ _ _ _ commit). split_and!; try done. cbn in Hi. lia.
Qed.

(** Git answers for every document. *)
Definition documents_answered (version candidate_sha : str) : Prop :=
  Forall (λ path, is_Some (git [u "cat-file"; u "-t"; candidate_sha ++ u ":" ++ path]))
    (document_paths version (u "v" ++ version)).

Definition is_document (candidate_sha path : str) : Prop :=
  ∃ result, git [u "cat-file"; u "-t"; candidate_sha ++ u ":" ++ path] = Some result
    ∧ returncode result = 0 ∧ bytes_strip (stdout result) = b "blob".

Lemma documents_fold (candidate_sha : str) (paths : list str) (s s' : gset str) :
  fold_res (λ (existing : gset str) path,
      match git [u "cat-file"; u "-t"; candidate_sha ++ u ":" ++ path] with
      | None => Err (VerificationError "candidate document check failed")
      | Some result =>
          Ok (if decide (returncode result = 0 ∧ bytes_strip (stdout result) = b "blob")
              then {[path]} ∪ existing else existing)
      end) s paths = Ok s' ↔
  Forall (λ path, is_Some (git [u "cat-file"; u "-t"; candidate_sha ++ u ":" ++ path])) paths
  ∧ ∀ path, path ∈ s' ↔ path ∈ s ∨ path ∈ paths ∧ is_document candidate_sha path.
Proof.
  revert s. induction paths as [|p paths IH]; intros s; cbn [fold_res].
  - split; [intros [= ->]; split; [constructor|set_solver]|].
    intros [_ Hs]. f_equal. apply set_eq. set_solver.
  - rewrite bind_Ok, Forall_cons. setoid_rewrite IH. unfold is_document.
    destruct (git [_; _; candidate_sha ++ u ":" ++ p]) as [result|] eqn:Hg; cycle 1.
    { split; [by intros (? & ? & _)|by intros [[[? ?] _] _]]. }
    assert (∀ path, (path ∈ (if decide (returncode result = 0 ∧ bytes_strip (stdout result) = b "blob")
              then {[p]} ∪ s else s) ∨ path ∈ paths ∧ is_document candidate_sha path)
      ↔ (path ∈ s ∨ path ∈ p :: paths ∧ is_document candidate_sha path)) as Hstep.
    { intros path. rewrite elem_of_cons. unfold is_document. case_decide as Hd.
      - rewrite elem_of_union, elem_of_singleton. naive_solver.
      - naive_solver. }
    unfold is_document in Hstep. split.
    + intros (s1 & [= <-] & Hall & Hs'). split; [split; [by eexists|done]|].
      intros path. by rewrite Hs', Hstep.
    + intros [[_ Hall] Hs']. eexists. split; [done|]. split; [done|]. intros path.
      by rewrite Hs', Hstep.
Qed.

Lemma candidate_document_paths_Ok version candidate_sha allowed :
  candidate_document_paths version (u "v" ++ version) candidate_sha = Ok allowed ↔
  documents_answered version candidate_sha
  ∧ approved_documents version (u "v" ++ version) candidate_sha allowed.
Proof.
  unfold candidate_document_paths, check, approved_documents, documents_answered.
  rewrite bind_Ok. setoid_rewrite documents_fold. setoid_rewrite require_then.
  setoid_rewrite andb_true_iff. setoid_rewrite bool_decide_eq_true. split.
  - intros (existing & [Hall Hs] & [Hr Hn] & [= ->]). split_and!; try done.
    intros path. rewrite Hs. unfold is_document. set_solver.
  - intros (Hall & Hr & Hn & Hs). exists allowed. split_and!; try done.
    intros path. rewrite Hs. unfold is_document. set_solver.
Qed.

(** An accepted history: both commits exist, the tag's is checked out and follows the
    candidate's by the commits that git lists, a linear chain of changes to approved
    documents in which the record is changed before the notes. *)
Definition history_accepted (version candidate_sha tag_sha candidate_tree tag_tree : str) : Prop :=
  hex40 candidate_sha = true ∧ hex40 tag_sha = true
  ∧ rev_parse (candidate_sha ++ u "^{commit}") = Ok candidate_sha
  ∧ rev_parse (tag_sha ++ u "^{commit}") = Ok tag_sha
  ∧ rev_parse (u "HEAD^{commit}") = Ok tag_sha
  ∧ (∃ result, git [u "merge-base"; u "--is-ancestor"; candidate_sha; tag_sha] = Some result
       ∧ returncode result = 0)
  ∧ rev_parse (candidate_sha ++ u "^{tree}") = Ok candidate_tree
  ∧ rev_parse (tag_sha ++ u "^{tree}") = Ok tag_tree
  ∧ documents_answered version candidate_sha
  ∧ ∃ allowed history record notes,
      approved_documents version (u "v" ++ version) candidate_sha allowed
      ∧ splitlines <$> git_value [u "rev-list"; u "--first-parent"; u "--reverse";
                                  candidate_sha ++ u ".." ++ tag_sha] = Ok history.*1
      ∧ chain allowed candidate_sha history tag_sha
      ∧ first_at (result_document version) history = Some record
      ∧ first_at (notes_document (u "v" ++ version)) history = Some notes
      ∧ (record < notes)%nat.

Lemma ancestor_Ok candidate_sha tag_sha :
  match git [u "merge-base"; u "--is-ancestor"; candidate_sha; tag_sha] with
  | Some result => returncode result =? 0
  | None => false
  end = true ↔
  ∃ result, git [u "merge-base"; u "--is-ancestor"; candidate_sha; tag_sha] = Some result
    ∧ returncode result = 0.
Proof. destruct (git _) as [result|]; [rewrite Z.eqb_eq|]; naive_solver. Qed.

Lemma verify_git_identity_Ok version candidate_sha tag_sha candidate_tree tag_tree :
  verify_git_identity version candidate_sha tag_sha = Ok (candidate_tree, tag_tree) ↔
  history_accepted version candidate_sha tag_sha candidate_tree tag_tree.
Proof.
  unfold verify_git_identity, check, history_accepted. rewrite require_then, andb_true_iff. split.
  - intros [[Hc Ht] H']. split; [done|]; split; [done|].
    apply bind_Ok in H' as (c1 & Hc1 & H'). apply require_then in H' as [->%bool_decide_eq_true H'].
    apply bind_Ok in H' as (c2 & Hc2 & H'). apply require_then in H' as [->%bool_decide_eq_true H'].
    apply bind_Ok in H' as (head_ & Hhead & H'). apply require_then in H' as [->%bool_decide_eq_true H'].
    apply require_then in H' as [Hanc%ancestor_Ok H'].
    apply bind_Ok in H' as (ct & Hct & H'). apply bind_Ok in H' as (tt_ & Htt & H').
    apply bind_Ok in H' as (allowed & [Hans Happ]%candidate_document_paths_Ok & H').
    apply bind_Ok in H' as (commits & Hcommits & H'). apply require_then in H' as [_ H'].
    apply bind_Ok in H' as (h & Hh & H'). apply require_then in H' as [Hend [= -> ->]].
    apply andb_true_iff in Hend as [Hlast%bool_decide_eq_true Hord].
    apply follow_commits_Ok in Hh as (history & <- & Hchain & _ & Hn & Hr).
    cbn [previous index changed_notes_at changed_record_at offset] in *.
    rewrite option_fmap_id in Hn, Hr. rewrite Hn, Hr in Hord.
    destruct (first_at (result_document version) history) as [record|] eqn:Hrec; [|done].
    destruct (first_at (notes_document _) history) as [notes|] eqn:Hnotes; [|done].
    rewrite Hlast in Hchain. split_and!; try done.
    exists allowed, history, record, notes. split_and!; try done. by apply Nat.ltb_lt.
  - intros (Hc & Ht & Hc1 & Hc2 & Hhead & Hanc%ancestor_Ok & Hct & Htt & Hans & allowed & history
      & record & notes & Happ & Hcommits & Hchain & Hrec & Hnotes & Hord).
    split; [done|]. rewrite Hc1. cbn [mbind res_bind]. rewrite require_then.
    split; [by apply bool_decide_eq_true|]. rewrite Hc2. cbn [mbind res_bind]. rewrite require_then.
    split; [by apply bool_decide_eq_true|]. rewrite Hhead. cbn [mbind res_bind]. rewrite !require_then.
    split; [by apply bool_decide_eq_true|]. split; [done|]. rewrite Hct, Htt. cbn [mbind res_bind].
    apply bind_Ok. exists allowed. split; [by apply candidate_document_paths_Ok|].
    rewrite Hcommits. cbn [mbind res_bind]. rewrite require_then. split.
    { apply negb_true_iff, bool_decide_eq_false. by destruct history. }
    apply bind_Ok. exists (History tag_sha (length history.*1) (Some notes) (Some record)). split.
    + apply follow_commits_Ok. exists history. cbn [previous index changed_notes_at changed_record_at offset].
      by rewrite Hrec, Hnotes.
    + cbn [previous index changed_notes_at changed_record_at]. rewrite require_then, andb_true_iff.
      by rewrite bool_decide_eq_true, Nat.ltb_lt.
Qed.
End git.

(** ** Bundles *)

Section release.
Context `{Unicode} `{Digest} `{Archives} `{Git} `{Bundles} (limit : nat).

Lemma verify_inner_sums_Ok members : verify_inner_sums members = Ok tt ↔ inner_sums members.
Proof.
  split; [apply verify_inner_sums_inv|].
  intros (data & sums & (m & Hm & Hd)%kept_data_Ok & Hs & Hall). unfold verify_inner_sums.
  rewrite Hm. destruct m as [k md sz dg mdata lk]. cbn in Hd. subst mdata. rewrite Hs.
  cbn [mbind res_bind]. apply for_each_Ok, Forall_forall. intros [name digest] Hin.
  apply parse_sums_Ok in Hs as (_ & _ & _ & Hnd & Hk).
  assert (name ∈ dict_keys members ∖ {[SUMS]}) as [Hname Hne]%elem_of_difference.
  { rewrite <- Hk. apply dict_keys_elem, list_elem_of_fmap. by exists (name, digest). }
  apply elem_of_dict_keys in Hname as [m Hm']. apply bind_Ok. exists m. split; [by apply item_Ok|].
  apply require_Ok, bool_decide_eq_true. apply dict_get_elem in Hin; [|done].
  rewrite (Hall name m Hm') in Hin by set_solver. by injection Hin.
Qed.

Lemma load_asset_Ok directory checksums archives name archives' :
  load_asset directory checksums archives name = Ok archives' ↔
  ∃ members, asset_ok directory checksums name members ∧ archives' = dict_set name members archives.
Proof.
  split; [apply load_asset_inv|]. intros (members & (content & Hc & Hd & Hr & Hi) & ->).
  pose proof Hr as (? & ? & [= <-] & Hsize & _)%read_archive_Ok.
  unfold load_asset, sha256, check. cbn zeta. rewrite Hc, require_then.
  split; [by apply bool_decide_eq_true|]. cbn [of_option mbind res_bind].
  apply bind_Ok. exists (hexdigest content). split.
  { apply require_then. split; [by apply Z.leb_le|done]. }
  apply bind_Ok. exists (hexdigest content). split; [by apply item_Ok|].
  apply require_then. split; [by apply bool_decide_eq_true|].
  rewrite Hr. cbn [mbind res_bind]. apply bind_Ok. exists tt.
  split; [by apply verify_inner_sums_Ok|done].
Qed.

Lemma load_assets_Ok directory checksums names archives archives' :
  NoDup (archives.*1 ++ names) →
  fold_res (load_asset directory checksums) archives names = Ok archives' ↔
  ∃ loaded, archives' = archives ++ loaded ∧ loaded.*1 = names
    ∧ Forall (λ kv, asset_ok directory checksums kv.1 kv.2) loaded.
Proof.
  revert archives. induction names as [|n names IH]; intros archives Hnd; cbn [fold_res].
  - split.
    + intros [= <-]. exists []. by rewrite app_nil_r.
    + intros (loaded & -> & ->%fmap_nil_inv & _). by rewrite app_nil_r.
  - assert (n ∉ archives.*1) as Hn.
    { intros Hin. apply NoDup_app in Hnd as (_ & Hd & _). apply (Hd n Hin). left. }
    assert (∀ ms, NoDup ((archives ++ [(n, ms)]).*1 ++ names)) as Hnd'.
    { intros ms. rewrite fmap_app, <- app_assoc. exact Hnd. }
    rewrite bind_Ok. setoid_rewrite load_asset_Ok. split.
    + intros (a1 & (ms & Hok & ->) & Hrest). rewrite dict_set_new in Hrest by done.
      apply IH in Hrest as (loaded & -> & <- & Hall); [|done].
      exists ((n, ms) :: loaded). rewrite <- app_assoc. split_and!; [done..|by constructor].
    + intros ([|[n' ms] loaded] & -> & Hl & Hall); [done|]. injection Hl as -> Hl.
      apply Forall_cons in Hall as [Hok Hall]. eexists. split; [by exists ms|].
      rewrite dict_set_new by done. apply IH; [done|]. exists loaded. by rewrite <- app_assoc.
Qed.

(** A verified bundle: a directory of exactly the version's archives and their checksum
    list, and the archives read, in the order of their names. *)
Definition bundle_verified (directory version : str) (checksums : dict str)
    (archives : dict (dict member)) : Prop :=
  is_directory directory = true ∧ ∃ assets data,
    expected_assets version = Ok assets
    ∧ (list_to_set (iterdir directory) : gset str) = list_to_set assets ∪ {[SUMS]}
    ∧ regular_file directory SUMS = Some data ∧ lenZ data ≤ MAX_METADATA_BYTES
    ∧ parse_sums data (list_to_set assets) = Ok checksums
    ∧ archives.*1 = sorted (remove_dups assets)
    ∧ Forall (λ kv, asset_ok directory checksums kv.1 kv.2) archives.

Lemma sorted_NoDup (l : list str) : NoDup (sorted (remove_dups l)).
Proof. unfold sorted. rewrite merge_sort_Permutation. apply NoDup_remove_dups. Qed.

Lemma verify_bundle_Ok directory version checksums archives :
  verify_bundle directory version = Ok (checksums, archives) ↔
  bundle_verified directory version checksums archives.
Proof.
  unfold verify_bundle, check, bundle_verified. rewrite require_then. apply and_iff_compat_l. split.
  - intros (assets & Ha & [Hi H']%require_then)%bind_Ok. apply bool_decide_eq_true in Hi.
    apply bind_Ok in H' as (data & Hd%of_option_Ok & [Hsize%Z.leb_le H']%require_then).
    apply bind_Ok in H' as (sums & Hs & H'). apply bind_Ok in H' as (arch & Hl & [= -> ->]).
    apply load_assets_Ok in Hl as (loaded & -> & Hl & Hall); [|apply sorted_NoDup].
    by exists assets, data.
  - intros (assets & data & Ha & Hi & Hd & Hsize & Hs & Hl & Hall).
    apply bind_Ok. exists assets. split; [done|]. apply require_then.
    split; [by apply bool_decide_eq_true|]. rewrite Hd. cbn [of_option mbind res_bind].
    apply require_then. split; [by apply Z.leb_le|]. rewrite Hs. cbn [mbind res_bind].
    apply bind_Ok. exists archives. split; [|done].
    apply load_assets_Ok; [apply sorted_NoDup|]. by exists archives.
Qed.

Lemma bundle_archive_keys directory version checksums archives name members :
  bundle_verified directory version checksums archives →
  dict_get name archives = Some members → NoDup members.*1.
Proof.
  intros (_ & assets & data & _ & _ & _ & _ & _ & _ & Hall) Hm%dict_get_Some_elem.
  rewrite Forall_forall in Hall. apply Hall in Hm as (content & _ & _ & Hr & _). cbn [fst snd] in Hr.
  apply read_archive_Ok in Hr as (? & l & _ & _ & _ & (_ & Hnd & _) & ->).
  rewrite <- list_fmap_compose. rewrite list_fmap_compose in Hnd. by apply NoDup_fmap_1 in Hnd.
Qed.

(** ** The release *)

(** An archive of the tag is the candidate's up to the approved changes. *)
Definition asset_pair (candidate tagged : dict (dict member)) (version candidate_sha tag_sha
    candidate_tree tag_tree tag name : str) : Prop :=
  ∃ before after, dict_get name candidate = Some before ∧ dict_get name tagged = Some after
  ∧ if decide (name = source_asset version)
    then source_pair limit before after version candidate_sha tag_sha candidate_tree tag_tree tag
    else binary_pair limit before after name candidate_sha tag_sha.

(** An accepted release, with its result. *)
Definition release_accepted (candidate_dir reproduction_dir tag_dir tag candidate_sha tag_sha : str)
    (r : result) : Prop :=
  ∃ version assets candidate_tree tag_tree candidate_sums tag_sums candidate tagged,
    tag = u "v" ++ version ∧ expected_assets version = Ok assets
    ∧ history_accepted version candidate_sha tag_sha candidate_tree tag_tree
    ∧ (∃ sums, bundle_verified candidate_dir version sums candidate)
    ∧ (∃ sums reproduction, bundle_verified reproduction_dir version sums reproduction)
    ∧ (∃ sums, bundle_verified tag_dir version sums tagged)
    ∧ regular_file candidate_dir SUMS = Some candidate_sums
    ∧ regular_file reproduction_dir SUMS = Some candidate_sums
    ∧ regular_file tag_dir SUMS = Some tag_sums
    ∧ Forall (λ name, ∃ content, regular_file candidate_dir name = Some content
                ∧ regular_file reproduction_dir name = Some content) assets
    ∧ Forall (asset_pair candidate tagged version candidate_sha tag_sha candidate_tree tag_tree tag) assets
    ∧ r = Result tag candidate_sha tag_sha candidate_tree tag_tree (hexdigest candidate_sums)
            (hexdigest tag_sums) assets.

Lemma same_builds_Ok candidate_dir reproduction_dir assets :
  for_each (λ name,
    left_ ← read_bytes candidate_dir name;
    right_ ← read_bytes reproduction_dir name;
    check (same_chunks (S (length left_)) left_ right_) "independent candidate archive differs")
    assets = Ok tt ↔
  Forall (λ name, ∃ content, regular_file candidate_dir name = Some content
            ∧ regular_file reproduction_dir name = Some content) assets.
Proof.
  rewrite for_each_Ok. apply Forall_iff. intros name. unfold read_bytes, check.
  rewrite bind_Ok. setoid_rewrite of_option_Ok. setoid_rewrite bind_Ok. setoid_rewrite of_option_Ok.
  setoid_rewrite require_Ok. split.
  - intros (l & Hl & r & Hr & ->%same_chunks_eq). by exists r.
  - intros (content & Hl & Hr). exists content. split; [done|]. exists content. split; [done|].
    apply same_chunks_refl.
Qed.

Lemma asset_pairs_Ok candidate_dir version sums candidate tagged candidate_sha tag_sha
    candidate_tree tag_tree tag assets :
  bundle_verified candidate_dir version sums candidate →
  for_each (λ name,
    before ← item candidate name;
    after ← item tagged name;
    if decide (name = source_asset version)
    then verify_source_pair limit before after version candidate_sha tag_sha
           candidate_tree tag_tree tag
    else verify_binary_pair limit before after name candidate_sha tag_sha) assets = Ok tt ↔
  Forall (asset_pair candidate tagged version candidate_sha tag_sha candidate_tree tag_tree tag) assets.
Proof.
  intros Hb. rewrite for_each_Ok. apply Forall_iff. intros name. unfold asset_pair.
  rewrite bind_Ok. setoid_rewrite item_Ok. setoid_rewrite bind_Ok. setoid_rewrite item_Ok.
  assert (∀ before after, dict_get name candidate = Some before →
    (if decide (name = source_asset version)
     then verify_source_pair limit before after version candidate_sha tag_sha candidate_tree tag_tree tag
     else verify_binary_pair limit before after name candidate_sha tag_sha) = Ok tt ↔
    if decide (name = source_asset version)
    then source_pair limit before after version candidate_sha tag_sha candidate_tree tag_tree tag
    else binary_pair limit before after name candidate_sha tag_sha) as Hpair.
  { intros before after Hm. pose proof (bundle_archive_keys _ _ _ _ _ _ Hb Hm).
    case_decide; [by apply verify_source_pair_Ok|by apply verify_binary_pair_Ok]. }
  split.
  - intros (before & Hbefore & after & Hafter & Hp%Hpair); [|done]. by exists before, after.
  - intros (before & after & Hbefore & Hafter & Hp%Hpair); [|done]. exists before. split; [done|].
    by exists after.
Qed.

Lemma read_bytes_Ok directory name content :
  regular_file directory name = Some content → read_bytes directory name = Ok content.
Proof. intros Hf. unfold read_bytes. by rewrite Hf. Qed.

Lemma verify_release_Ok candidate_dir reproduction_dir tag_dir tag candidate_sha tag_sha r :
  verify_release limit candidate_dir reproduction_dir tag_dir tag candidate_sha tag_sha = Ok r ↔
  release_accepted candidate_dir reproduction_dir tag_dir tag candidate_sha tag_sha r.
Proof.
  unfold verify_release, check. cbn zeta. rewrite require_then, andb_true_iff. split.
  - intros [[Htag _] H']. apply starts_with_spec in Htag as (version & ->).
    change (tail (u "v" ++ version)) with version in *.
    apply bind_Ok in H' as ([ct tree] & Hgit%verify_git_identity_Ok & H').
    apply bind_Ok in H' as ([s1 candidate] & Hc%verify_bundle_Ok & H').
    apply bind_Ok in H' as ([s2 reproduction] & Hr%verify_bundle_Ok & H').
    apply bind_Ok in H' as ([s3 tagged] & Ht%verify_bundle_Ok & H').
    apply bind_Ok in H' as (csums & Hcs%of_option_Ok & H').
    apply bind_Ok in H' as (rsums & Hrs%of_option_Ok & H').
    apply require_then in H' as [<-%bool_decide_eq_true H'].
    apply bind_Ok in H' as (assets & Ha & H').
    apply bind_Ok in H' as ([] & Hsame%same_builds_Ok & H').
    apply bind_Ok in H' as ([] & Hpairs & H').
    apply (asset_pairs_Ok _ _ _ _ _ _ _ _ _ _ _ Hc) in Hpairs.
    apply bind_Ok in H' as (tsums & Hts%of_option_Ok & [= <-]).
    exists version, assets, ct, tree, csums, tsums, candidate, tagged. split_and!; eauto.
  - intros (version & assets & ct & tree & csums & tsums & candidate & tagged & -> & Ha & Hgit
      & (s1 & Hc) & (s2 & reproduction & Hr) & (s3 & Ht) & Hcs & Hrs & Hts & Hsame & Hpairs & ->).
    change (tail (u "v" ++ version)) with version.
    pose proof Ha as Hv. unfold expected_assets, check in Hv. apply require_then in Hv as [Hv _].
    split; [split; [apply starts_with_spec; by exists version|done]|].
    apply bind_Ok. exists (ct, tree). split; [by apply verify_git_identity_Ok|].
    apply bind_Ok. exists (s1, candidate). split; [by apply verify_bundle_Ok|].
    apply bind_Ok. exists (s2, reproduction). split; [by apply verify_bundle_Ok|].
    apply bind_Ok. exists (s3, tagged). split; [by apply verify_bundle_Ok|].
    rewrite (read_bytes_Ok _ _ _ Hcs), (read_bytes_Ok _ _ _ Hrs). cbn [mbind res_bind]. apply require_then.
    split; [by apply bool_decide_eq_true|]. rewrite Ha. cbn [mbind res_bind].
    apply bind_Ok. exists tt. split; [by apply same_builds_Ok|].
    apply bind_Ok. exists tt. split; [by apply (asset_pairs_Ok _ _ _ _ _ _ _ _ _ _ _ Hc)|].
    by rewrite (read_bytes_Ok _ _ _ Hts).
Qed.
End release.

(** ** The properties *)

(** C10. The history between the candidate and the tag is accepted, with the two trees,
    exactly when both commits exist and the tag's is checked out, the candidate is its
    ancestor, git answers for every document, and the commits that git lists between them
    are a linear chain of changes to approved documents of the candidate in which the
    version record is first changed before the release notes. *)
Theorem verify_git_identity_accepts `{Git} (version candidate_sha tag_sha candidate_tree tag_tree : str) :
  verify_git_identity version candidate_sha tag_sha = Ok (candidate_tree, tag_tree) ↔
  history_accepted version candidate_sha tag_sha candidate_tree tag_tree.
Proof. apply verify_git_identity_Ok. Qed.

(** C16. A bundle is verified, with its checksums and archives, exactly when it is a
    directory of the version's archives and their checksum list and nothing else, the list
    names each archive with its digest, and each archive is readable within the limits and
    lists the digest of every other member of its own. *)
Theorem verify_bundle_accepts `{Unicode} `{Digest} `{Archives} `{Bundles} (directory version : str)
    (checksums : dict str) (archives : dict (dict member)) :
  verify_bundle directory version = Ok (checksums, archives) ↔
  bundle_verified directory version checksums archives.
Proof. apply verify_bundle_Ok. Qed.

(** C2. The gate as a whole: a release is accepted, with its result, exactly when its
    history is, the three bundles verify, the two candidate builds have the same checksum
    list and archives byte for byte, and every archive of the tag is the candidate's up to
    the approved changes. *)
Theorem verify_release_accepts `{Unicode} `{Digest} `{Archives} `{Git} `{Bundles} (limit : nat)
    (candidate_dir reproduction_dir tag_dir tag candidate_sha tag_sha : str) (r : result) :
  verify_release limit candidate_dir reproduction_dir tag_dir tag candidate_sha tag_sha = Ok r ↔
  release_accepted limit candidate_dir reproduction_dir tag_dir tag candidate_sha tag_sha r.
Proof. apply verify_release_Ok. Qed.

(** The sample release is accepted. *)
#[local] Existing Instances length_digest sample_archives sample_git sample_bundles.
Example sample_release_as_stated :
  ∃ r, release_accepted 20 (u "candidate") (u "reproduction") (u "tag") (u "v1.2.3") candidate tagged r.
Proof. eexists. apply verify_release_Ok. exact sample_release_accepted. Qed.
