(* ===== verification/PyRe.v ===== *)
(** * Backtracking regular expressions: [re.match], [re.search], [re.findall]

    Patterns with anchors, captured groups and ordered alternatives are matched as
    CPython does, by backtracking: the first way to match, in the order of the pattern,
    gives the groups.  [run_spec] states when there is one.  Repetitions have bodies
    that consume a character, as in all the scripts' patterns. *)

From S2P Require Import Prelude PyStr Codec Regex.

Inductive pat :=
| Nothing
| Class_ (p : N → bool)
| Seq (p q : pat)
| Or (p q : pat)
| Many (p : pat)
| Few (p : pat)
| Group (p : pat)
| LineStart
| LineEnd
| WordEdge (word : N → bool)
| TextStart
| TextEnd
| Ahead (p : pat).

(** A position in the text: the character before it, what follows, and the groups
    captured so far, latest first. *)
Record pos := Pos { before : option N; rest : str; groups : list str }.

(** [^] and [$] with [re.MULTILINE]; without it they are [TextStart] and [End]. *)
Definition at_line_start (s : pos) : bool :=
  match before s with None => true | Some c => (c =? 10)%N end.
Definition at_line_end (s : pos) : bool :=
  match rest s with [] => true | c :: _ => (c =? 10)%N end.

(** [\b], for the characters [\w]: between a word character and another or none. *)
Definition at_word_edge (word : N → bool) (s : pos) : bool :=
  xorb (default false (word <$> before s)) (default false (word <$> head (rest s))).

Section star.
Context {A : Type} (body : pos → (pos → option A) → option A).

(** Repetition: the body again and then what follows ([greedy]), or the other order.
    The body consumes, so the length of the rest bounds the repetitions. *)
Fixpoint star (greedy : bool) (fuel : nat) (s : pos) (k : pos → option A) : option A :=
  match fuel with
  | O => k s
  | S fuel =>
      let again := body s (λ s', if length (rest s') <? length (rest s)
                                 then star greedy fuel s' k else None) in
      if greedy then match again with Some a => Some a | None => k s end
      else match k s with Some a => Some a | None => again end
  end.
End star.

(** [run p s k]: the first match of [p] at [s] from which [k] goes on. *)
Fixpoint run {A} (p : pat) (s : pos) (k : pos → option A) {struct p} : option A :=
  match p with
  | Nothing => k s
  | Class_ f =>
      match rest s with
      | c :: r => if f c then k (Pos (Some c) r (groups s)) else None
      | [] => None
      end
  | Seq p q => run p s (λ s, run q s k)
  | Or p q => match run p s k with Some a => Some a | None => run q s k end
  | Many p => star (run p) true (length (rest s)) s k
  | Few p => star (run p) false (length (rest s)) s k
  | Group p =>
      run p s (λ s', k (Pos (before s') (rest s')
                          (take (length (rest s) - length (rest s')) (rest s) :: groups s')))
  | LineStart => if at_line_start s then k s else None
  | LineEnd => if at_line_end s then k s else None
  | WordEdge word => if at_word_edge word s then k s else None
  | TextStart => match before s with None => k s | _ => None end
  | TextEnd => match rest s with [] => k s | _ => None end
  | Ahead p => match run p s (λ _, Some tt) with Some _ => k s | None => None end
  end.

Definition Text (s : string) : pat := foldr (λ c p, Seq (Class_ (N.eqb c)) p) Nothing (u s).
Definition Some_ (p : pat) : pat := Seq p (Many p).
Definition Opt (p : pat) : pat := Or p Nothing.
Fixpoint Ors (ps : list pat) : pat :=
  match ps with
  | [] => Class_ (λ _, false)
  | [p] => p
  | p :: ps => Or p (Ors ps)
  end.
(** [$] without [re.MULTILINE]: the end, or before a final newline. *)
Definition End : pat := Or TextEnd (Ahead (Seq (Class_ (N.eqb 10)) TextEnd)).
Definition begin (s : str) : pos := Pos None s [].

(** A match: the groups, first to last, and the text left. *)
Definition match_at (p : pat) (s : pos) : option (list str * pos) :=
  run p (Pos (before s) (rest s) []) (λ s', Some (reverse (groups s'), s')).

Definition re_match (p : pat) (s : str) : option (list str) := fst <$> match_at p (begin s).

Fixpoint search_from (p : pat) (prev : option N) (s : str) : option (list str) :=
  match match_at p (Pos prev s []) with
  | Some (gs, _) => Some gs
  | None => match s with [] => None | c :: s' => search_from p (Some c) s' end
  end.
Definition re_search (p : pat) (s : str) : option (list str) := search_from p None s.
Definition searches (p : pat) (s : str) : bool := bool_decide (is_Some (re_search p s)).

(** [re.findall] for a pattern that consumes; each match with its whole text. *)
Fixpoint findall_from (fuel : nat) (p : pat) (prev : option N) (s : str) : list (str * list str) :=
  match fuel with
  | O => []
  | S fuel =>
      match match_at p (Pos prev s []) with
      | Some (gs, s') =>
          (take (length s - length (rest s')) s, gs) :: findall_from fuel p (before s') (rest s')
      | None => match s with [] => [] | c :: s' => findall_from fuel p (Some c) s' end
      end
  end.
Definition re_findall (p : pat) (s : str) : list (str * list str) :=
  findall_from (S (length s)) p None s.

(** [re.finditer]'s matches: where each starts. *)
Fixpoint starts_from (fuel : nat) (p : pat) (at_ : nat) (prev : option N) (s : str) : list nat :=
  match fuel with
  | O => []
  | S fuel =>
      match match_at p (Pos prev s []) with
      | Some (_, s') =>
          at_ :: starts_from fuel p (at_ + (length s - length (rest s'))) (before s') (rest s')
      | None => match s with [] => [] | c :: s' => starts_from fuel p (S at_) (Some c) s' end
      end
  end.
Definition re_starts (p : pat) (s : str) : list nat := starts_from (S (length s)) p 0 None s.

(** The usual classes. *)
Definition space : pat := Class_ is_space.
Definition nonspace : pat := Class_ (negb ∘ is_space).
Definition not_newline : pat := Class_ (λ c, negb (c =? 10)%N).
Definition anything : pat := Class_ (λ _, true).
Definition dec_digit : pat := Class_ is_digit.
Definition hex_digit_any (c : N) : bool := (is_hex c || (65 <=? c) && (c <=? 70))%N.

Example re_tests :
  re_search (Seq (Text "x=") (Group (Some_ dec_digit))) (u "a x=12;x=3") = Some [u "12"]
  ∧ re_findall (Seq (Text "x=") (Group (Some_ dec_digit))) (u "a x=12;x=3")
    = [(u "x=12", [u "12"]); (u "x=3", [u "3"])]
  ∧ re_match (Seq (Group (Many anything)) (Group dec_digit)) (u "a12b") = Some [u "a1"; u "2"]
  ∧ searches (Seq (Text "a") End) (u "ba" ++ [10%N]) = true
  ∧ searches (Seq (Text "a") TextEnd) (u "ba" ++ [10%N]) = false.
Proof. vm_compute. repeat split. Qed.

(** ** What a match is *)

(** [matches p s s']: [p] can match from [s] to [s']. *)
Inductive matches : pat → pos → pos → Prop :=
| m_nothing s : matches Nothing s s
| m_class f prev c r gs : f c = true → matches (Class_ f) (Pos prev (c :: r) gs) (Pos (Some c) r gs)
| m_seq p q s1 s2 s3 : matches p s1 s2 → matches q s2 s3 → matches (Seq p q) s1 s3
| m_or_l p q s s' : matches p s s' → matches (Or p q) s s'
| m_or_r p q s s' : matches q s s' → matches (Or p q) s s'
| m_many p s s' : repeats p s s' → matches (Many p) s s'
| m_few p s s' : repeats p s s' → matches (Few p) s s'
| m_group p s s' : matches p s s' →
    matches (Group p) s (Pos (before s') (rest s')
      (take (length (rest s) - length (rest s')) (rest s) :: groups s'))
| m_line_start s : at_line_start s = true → matches LineStart s s
| m_line_end s : at_line_end s = true → matches LineEnd s s
| m_word_edge word s : at_word_edge word s = true → matches (WordEdge word) s s
| m_text_start s : before s = None → matches TextStart s s
| m_text_end s : rest s = [] → matches TextEnd s s
| m_ahead p s s' : matches p s s' → matches (Ahead p) s s
with repeats : pat → pos → pos → Prop :=
| r_done p s : repeats p s s
| r_more p s1 s2 s3 : matches p s1 s2 → length (rest s2) < length (rest s1) →
    repeats p s2 s3 → repeats p s1 s3.

Section star_spec.
Context {A : Type} (p : pat) (body : pos → (pos → option A) → option A).
Context (body_sound : ∀ s k a, body s k = Some a → ∃ s', matches p s s' ∧ k s' = Some a).
Context (body_complete : ∀ s s' k, matches p s s' → is_Some (k s') → is_Some (body s k)).

Lemma star_sound greedy fuel s k a :
  star body greedy fuel s k = Some a → ∃ s', repeats p s s' ∧ k s' = Some a.
Proof using body_sound.
  revert s. induction fuel as [|fuel IH]; intros s; cbn [star]; [exists s; by split; [constructor|]|].
  set (again := body s _).
  assert (again = Some a → ∃ s', repeats p s s' ∧ k s' = Some a) as Hagain.
  { intros (s1 & H1 & H2)%body_sound. case_match eqn:Hl; [|done].
    apply Nat.ltb_lt in Hl. apply IH in H2 as (s' & ? & ?). exists s'. split; [|done].
    by apply (r_more _ _ s1). }
  assert (k s = Some a → ∃ s', repeats p s s' ∧ k s' = Some a) as Hstop
    by (exists s; by split; [constructor|]).
  destruct greedy; case_match eqn:E; intros H; auto; try (apply Hagain; congruence);
    apply Hstop; congruence.
Qed.

Lemma star_complete greedy fuel s s' k :
  repeats p s s' → length (rest s) ≤ fuel → is_Some (k s') → is_Some (star body greedy fuel s k).
Proof using body_complete.
  revert s. induction fuel as [|fuel IH]; intros s Hr Hf Hk.
  { inversion Hr; subst; [done|lia]. }
  cbn [star]. set (again := body s _).
  assert (is_Some (k s) ∨ is_Some again) as Hor.
  { inversion Hr as [|? ? s2 ? Hm Hl Hr2]; subst; [by left|]. right.
    eapply body_complete; [done|]. cbn beta. rewrite (proj2 (Nat.ltb_lt _ _) Hl).
    apply IH; [done|lia|done]. }
  destruct greedy; case_match eqn:E; try done; destruct Hor as [Hor|Hor]; try done;
    rewrite E in Hor; by inversion Hor.
Qed.
End star_spec.

(** The matcher finds a match exactly when there is one. *)
Lemma run_sound p : ∀ {A} s (k : pos → option A) a,
  run p s k = Some a → ∃ s', matches p s s' ∧ k s' = Some a.
Proof.
  induction p; intros A s k a; cbn [run].
  - exists s. by split; [constructor|].
  - destruct s as [prev [|c r] gs]; cbn; [done|]. case_match eqn:E; [|done].
    eexists; split; [by constructor|done].
  - intros (s2 & H1 & (s3 & H2 & H3)%IHp2)%IHp1. exists s3. split; [by econstructor|done].
  - destruct (run p1 s k) as [a'|] eqn:E.
    + intros [= ->]. apply IHp1 in E as (s' & ? & ?). exists s'. by split; [apply m_or_l|].
    + intros (s' & ? & ?)%IHp2. exists s'. by split; [apply m_or_r|].
  - intros (s' & ? & ?)%(star_sound p); [|apply IHp]. exists s'. by split; [constructor|].
  - intros (s' & ? & ?)%(star_sound p); [|apply IHp]. exists s'. by split; [constructor|].
  - intros (s' & ? & ?)%IHp. eexists. split; [by apply m_group|done].
  - case_match eqn:E; [|done]. exists s. by split; [constructor|].
  - case_match eqn:E; [|done]. exists s. by split; [constructor|].
  - case_match eqn:E; [|done]. exists s. by split; [constructor|].
  - destruct (before s) eqn:E; [done|]. exists s. by split; [constructor|].
  - destruct (rest s) eqn:E; [|done]. exists s. by split; [constructor|].
  - destruct (run p s _) as [[]|] eqn:E; [|done]. apply IHp in E as (s' & ? & _).
    exists s. by split; [econstructor|].
Qed.

Lemma run_complete p : ∀ {A} s s' (k : pos → option A),
  matches p s s' → is_Some (k s') → is_Some (run p s k).
Proof.
  induction p; intros A s s' k Hm Hk; inversion Hm; subst; cbn [run]; try done.
  - cbn. by match goal with H : _ = true |- _ => rewrite H end.
  - eapply IHp1; [done|]. by eapply IHp2.
  - edestruct (IHp1 A s s' k) as [x Hx]; [done..|]. by rewrite Hx.
  - case_match; [done|]. by eapply IHp2.
  - eapply (star_complete p); [apply IHp|done..].
  - eapply (star_complete p); [apply IHp|done..].
  - by eapply IHp.
  - by match goal with H : _ = true |- _ => rewrite H end.
  - by match goal with H : _ = true |- _ => rewrite H end.
  - by match goal with H : _ = true |- _ => rewrite H end.
  - by match goal with H : before _ = None |- _ => rewrite H end.
  - by match goal with H : rest _ = [] |- _ => rewrite H end.
  - match goal with H : matches _ _ _ |- _ => rename H into Hp end.
    edestruct (IHp unit _ _ (λ _, Some tt) Hp) as [x Hx]; [done|]. by rewrite Hx.
Qed.

(** [re.match] and [re.search] succeed exactly when some match exists. *)
Lemma match_at_spec p s :
  is_Some (match_at p s) ↔ ∃ s', matches p (Pos (before s) (rest s) []) s'.
Proof.
  unfold match_at. split.
  - intros [[gs s'] (s1 & H & _)%run_sound]. by exists s1.
  - intros [s' H]. by eapply run_complete.
Qed.

Lemma re_match_spec p s : is_Some (re_match p s) ↔ ∃ s', matches p (begin s) s'.
Proof. unfold re_match. by rewrite fmap_is_Some, match_at_spec. Qed.

Lemma before_cons {A} (d1 d2 : option A) c l :
  default d1 (Some <$> last (c :: l)) = default (Some c) (Some <$> last l) ∧
  default d1 (Some <$> last (c :: l)) = default d2 (Some <$> last (c :: l)).
Proof.
  destruct (last_is_Some (c :: l)) as [_ [y Hy]]; [done|]. rewrite Hy. split; [|done].
  destruct l as [|x l]; [by injection Hy as ->|]. rewrite last_cons_cons in Hy. by rewrite Hy.
Qed.

Lemma search_from_spec p prev s :
  is_Some (search_from p prev s) ↔
  ∃ s1 s2 s', s = s1 ++ s2 ∧ matches p (Pos (default prev (Some <$> last s1)) s2 []) s'.
Proof.
  revert prev. induction s as [|c s IH]; intros prev; cbn [search_from].
  - pose proof (match_at_spec p (Pos prev [] [])) as Hm. cbn [before rest] in Hm.
    destruct (match_at _ _) as [[gs s']|].
    + split; [intros _|by eexists]. destruct Hm as [[s1 H] _]; [by eexists|]. by exists [], [], s1.
    + split; [by intros [? ?]|]. intros (s1 & s2 & s' & Hs & H).
      symmetry in Hs. apply app_eq_nil in Hs as [-> ->]. destruct Hm as [_ Hm]. destruct Hm as [? [=]]. by exists s'.
  - pose proof (match_at_spec p (Pos prev (c :: s) [])) as Hm. cbn [before rest] in Hm.
    destruct (match_at _ _) as [[gs s']|].
    + split; [intros _|by eexists]. destruct Hm as [[s1 H] _]; [by eexists|]. by exists [], (c :: s), s1.
    + rewrite IH. split.
      * intros (s1 & s2 & s' & -> & H). exists (c :: s1), s2, s'. split; [done|].
        by rewrite (proj1 (before_cons _ None c s1)).
      * intros ([|c' s1] & s2 & s' & Hs & H).
        { cbn in Hs, H. subst s2. destruct Hm as [_ Hm]. destruct Hm as [? [=]]. by exists s'. }
        injection Hs as <- ->. exists s1, s2, s'. split; [done|].
        by rewrite (proj1 (before_cons _ None c s1)) in H.
Qed.

Lemma searches_spec p s :
  searches p s = true ↔ ∃ s1 s2 s', s = s1 ++ s2 ∧ matches p (Pos (last s1) s2 []) s'.
Proof.
  unfold searches, re_search. rewrite bool_decide_eq_true, search_from_spec.
  assert (∀ s1 : str, default None (Some <$> last s1) = last s1) as Hd
    by (intros s1; by destruct (last s1)).
  by setoid_rewrite Hd.
Qed.
