(* ===== verification/JsonBytes.v ===== *)
(** * [json.loads] on bytes

    The encoding is detected from the first bytes ([json.detect_encoding]) and the text
    is decoded with the error handler [surrogatepass], which lets lone surrogates
    through.  A decoding error is a [UnicodeDecodeError], a subclass of [ValueError]. *)

From S2P Require Import Prelude PyStr Codec PyFloat Json.

Local Open Scope N_scope.

Inductive encoding := UTF8 | UTF8_SIG | UTF16 | UTF16_LE | UTF16_BE | UTF32 | UTF32_LE | UTF32_BE.

Definition detect_encoding (data : bytes) : encoding :=
  match data with
  | xff :: xfe :: x00 :: x00 :: _ | x00 :: x00 :: xfe :: xff :: _ => UTF32
  | xff :: xfe :: _ | xfe :: xff :: _ => UTF16
  | xef :: xbb :: xbf :: _ => UTF8_SIG
  | b0 :: b1 :: b2 :: b3 :: _ =>
      if bn b0 =? 0 then (if bn b1 =? 0 then UTF32_BE else UTF16_BE)
      else if bn b1 =? 0 then (if (bn b2 =? 0) && (bn b3 =? 0) then UTF32_LE else UTF16_LE)
      else UTF8
  | [b0; b1] =>
      if bn b0 =? 0 then UTF16_BE else if bn b1 =? 0 then UTF16_LE else UTF8
  | _ => UTF8
  end.

(** One encoded character and its length: the sequences of UTF-8, surrogates included. *)
Fixpoint utf8_pass (l : bytes) : option str :=
  match l with
  | [] => Some []
  | x0 :: l1 =>
    let c0 := bn x0 in
    if c0 <? 128 then cons c0 <$> utf8_pass l1
    else if c0 <? 194 then None
    else if c0 <? 224 then
      match l1 with
      | x1 :: l2 =>
        if cont x1 then cons ((c0 - 192) * 64 + (bn x1 - 128)) <$> utf8_pass l2 else None
      | _ => None
      end
    else if c0 <? 240 then
      match l1 with
      | x1 :: x2 :: l3 =>
        let c := (c0 - 224) * 4096 + (bn x1 - 128) * 64 + (bn x2 - 128) in
        if cont x1 && cont x2 && (2048 <=? c) then cons c <$> utf8_pass l3 else None
      | _ => None
      end
    else if c0 <? 245 then
      match l1 with
      | x1 :: x2 :: x3 :: l4 =>
        let c := (c0 - 240) * 262144 + (bn x1 - 128) * 4096
                 + (bn x2 - 128) * 64 + (bn x3 - 128) in
        if cont x1 && cont x2 && cont x3 && (65536 <=? c) && (c <? 1114112)
        then cons c <$> utf8_pass l4 else None
      | _ => None
      end
    else None
  end.

(** Pairs of surrogates are combined, others pass. *)
Fixpoint utf16_pass (us : list N) : str :=
  match us with
  | [] => []
  | c :: us =>
    match us with
    | d :: us' =>
      if (55296 <=? c) && (c <? 56320) && (56320 <=? d) && (d <? 57344)
      then (65536 + (c - 55296) * 1024 + (d - 56320)) :: utf16_pass us'
      else c :: utf16_pass us
    | [] => [c]
    end
  end.

Fixpoint utf32_pass (big : bool) (l : bytes) : option str :=
  match l with
  | [] => Some []
  | x0 :: x1 :: x2 :: x3 :: l =>
    let c := if big then bn x0 * 16777216 + bn x1 * 65536 + bn x2 * 256 + bn x3
             else bn x3 * 16777216 + bn x2 * 65536 + bn x1 * 256 + bn x0 in
    if c <? 1114112 then cons c <$> utf32_pass big l else None
  | _ => None
  end.

Definition decode_pass (e : encoding) (data : bytes) : option str :=
  match e with
  | UTF8 => utf8_pass data
  | UTF8_SIG => utf8_pass (drop 3 data)
  | UTF16 => utf16_pass <$> utf16_units (bool_decide (head data = Some xfe)) (drop 2 data)
  | UTF16_LE => utf16_pass <$> utf16_units false data
  | UTF16_BE => utf16_pass <$> utf16_units true data
  | UTF32 => utf32_pass (bool_decide (head data = Some x00)) (drop 4 data)
  | UTF32_LE => utf32_pass false data
  | UTF32_BE => utf32_pass true data
  end.

Definition decode_json (data : bytes) : option str := decode_pass (detect_encoding data) data.

Example decode_json_tests :
  decode_json (b "{}") = Some (u "{}")
  ∧ decode_json [x7b; x00; x7d; x00] = Some (u "{}")
  ∧ decode_json [xff; xfe; x3d; xd8; x00; xde] = Some [0x1F600]
  ∧ decode_json [xed; xa0; x80] = Some [0xD800]
  ∧ decode_json [xc0; x80] = None.
Proof. vm_compute. repeat split. Qed.

(** The text that UTF-8 decoding gives is also what JSON decoding gives, unless the first
    bytes look like another encoding. *)
Lemma utf8_pass_decode l s : decode_utf8 l = Some s → utf8_pass l = Some s.
Proof.
  revert s. induction l as [l IH] using (well_founded_induction (well_founded_ltof _ length)).
  unfold ltof in IH. intros s. destruct l as [|x0 l1]; [done|].
  cbn [decode_utf8 utf8_pass].
  assert (∀ c l', (length l' < length (x0 :: l1))%nat →
    cons c <$> decode_utf8 l' = Some s → cons c <$> utf8_pass l' = Some s) as Hnext.
  { intros c l' Hl. rewrite !fmap_Some. intros (s' & Hs & ->). eauto. }
  cbn [length] in Hnext. destruct (_ <? 128); [apply Hnext; lia|].
  destruct (_ <? 194); [done|]. destruct (_ <? 224).
  { destruct l1 as [|x1 l2]; [done|]. destruct (cont x1); [|done]. apply Hnext. cbn. lia. }
  destruct (_ <? 240).
  { destruct l1 as [|x1 [|x2 l3]]; [done..|]. case_match eqn:E; [|done].
    apply andb_true_iff in E as [E _]. rewrite E. apply Hnext. cbn. lia. }
  destruct (_ <? 245); [|done]. destruct l1 as [|x1 [|x2 [|x3 l4]]]; [done..|].
  case_match; [|done]. apply Hnext. cbn. lia.
Qed.

Section loads_bytes.
Context (pairs_hook : list (str * json) → res (dict json)).
Context (constant_hook : str → res json) (limit : nat).

(** [json.loads(data, object_pairs_hook=..., parse_constant=...)]. *)
Definition loads_bytes (data : bytes) : res json :=
  text ← of_option (ValueError "UnicodeDecodeError") (decode_json data);
  loads pairs_hook constant_hook limit text.
End loads_bytes.
