(* ===== verification/Struct.v ===== *)
(** * Binary structures

    [int.from_bytes(data[i:j], "little")] and [struct.unpack_from] with little-endian
    formats.  A slice is clipped to the data; an unpacking that does not fit raises. *)

From S2P Require Import Prelude PyStr.

Local Open Scope Z_scope.

(** [int.from_bytes(data[i:j], "little")]. *)
Definition field (data : bytes) (i j : Z) : Z := le_int (slice i j data).

(** The format characters in use: [H], [I] and [i]. *)
Inductive code := U16 | U32 | I32.

Definition code_size (c : code) : Z :=
  match c with U16 => 2 | U32 | I32 => 4 end.

Definition signed32 (n : Z) : Z := if n <? 2 ^ 31 then n else n - 2 ^ 32.

Definition code_value (c : code) (n : Z) : Z :=
  match c with I32 => signed32 n | _ => n end.

Fixpoint unpack (format : list code) (data : bytes) (offset : Z) : list Z :=
  match format with
  | [] => []
  | c :: format =>
      code_value c (field data offset (offset + code_size c))
      :: unpack format data (offset + code_size c)
  end.

Definition calcsize (format : list code) : Z := foldr (λ c n, code_size c + n) 0 format.

(** [struct.unpack_from("<...", data, offset)] for [offset >= 0]. *)
Definition unpack_from (format : list code) (data : bytes) (offset : Z) : res (list Z) :=
  require (offset + calcsize format <=? lenZ data) (StructError "unpack_from") ;;
  Ok (unpack format data offset).

(** [range(start, stop, step)] for [step > 0]. *)
Definition range (start stop step : Z) : list Z :=
  (λ i, start + step * i) <$> seqZ 0 ((stop - start + step - 1) / step).

Example struct_tests :
  unpack_from [U32; I32; U16] (b "abcd" ++ [xff; xff; xff; xff; x34; x12]) 0
    = Ok [0x64636261; -1; 0x1234]
  ∧ unpack_from [U32] (b "abcd") 1 = Err (StructError "unpack_from")
  ∧ range 5 62 28 = [5; 33; 61] ∧ range 5 5 28 = [].
Proof. vm_compute. repeat split. Qed.

(** [raw.split(b"\0", 1)[0]]. *)
Definition until_nul (raw : bytes) : bytes :=
  (fix go l := match l with
               | x :: l => if (bn x =? 0)%N then [] else x :: go l
               | [] => []
               end) raw.

(** ** Bounds *)

(** A field never exceeds its width, and is exact when it lies in the data. *)
Lemma lenZ_slice_le {A} i j (l : list A) : lenZ (slice i j l) ≤ Z.max 0 (j - i).
Proof. unfold slice, lenZ. rewrite takeZ_take, dropZ_drop, length_take. lia. Qed.

Lemma field_bound data i j : i ≤ j → 0 ≤ field data i j < 256 ^ (j - i).
Proof.
  intros Hij. unfold field. pose proof (le_int_bound (slice i j data)) as H.
  pose proof (lenZ_slice_le i j data).
  assert (256 ^ lenZ (slice i j data) ≤ 256 ^ (j - i)) by (apply Z.pow_le_mono_r; lia). lia.
Qed.

Lemma field_u32 data i : 0 ≤ field data i (i + 4) < 2 ^ 32.
Proof. pose proof (field_bound data i (i + 4) ltac:(lia)) as H. by replace (i + 4 - i) with 4 in H by lia. Qed.

Lemma field_u16 data i : 0 ≤ field data i (i + 2) < 2 ^ 16.
Proof. pose proof (field_bound data i (i + 2) ltac:(lia)) as H. by replace (i + 2 - i) with 2 in H by lia. Qed.

Lemma unpack_from_fits format data offset :
  offset + calcsize format ≤ lenZ data →
  unpack_from format data offset = Ok (unpack format data offset).
Proof. intros H. unfold unpack_from. by rewrite (proj2 (Z.leb_le _ _) H). Qed.

Lemma elem_of_range start stop step x : 0 < step →
  x ∈ range start stop step ↔ ∃ i, 0 ≤ i ∧ x = start + step * i ∧ x < stop.
Proof.
  intros Hs. unfold range. rewrite list_elem_of_fmap. setoid_rewrite elem_of_seqZ.
  split; intros (i & H1 & H2); exists i.
  - split_and!; [lia|done|]. destruct H2 as [_ H2]. rewrite Z.add_0_l in H2.
    pose proof (Z.mul_div_le (stop - start + step - 1) step Hs). nia.
  - destruct H2 as [-> H2]. split; [done|]. split; [done|]. rewrite Z.add_0_l.
    enough (i + 1 ≤ (stop - start + step - 1) / step) by lia.
    apply Z.div_le_lower_bound; nia.
Qed.
