(* ===== verification/Provenance.v ===== *)
(** * [scripts/provenance.py]: the pinned external inputs *)

From S2P Require Import Prelude PyStr.

Definition kernel_firmware : string :=
  "https://git.kernel.org/pub/scm/linux/kernel/git/firmware/linux-firmware.git/plain/".
Definition kernel_commit : string := "?id=e981caea6ed33c48d25b7dbf473327dbd01df163".

Definition FIRMWARE_URL : str := u kernel_firmware ++ u "isdbt_rio.inp" ++ u kernel_commit.
Definition FIRMWARE_SHA256 : str :=
  u "054520642d5d09cb7ab7d08dbd6fd9ba9365de56adf2e7d7d06927f9845ff818".
Definition FIRMWARE_LICENSE_URL : str :=
  u kernel_firmware ++ u "LICENSES/LICENCE.siano" ++ u kernel_commit.
Definition FIRMWARE_LICENSE_SHA256 : str :=
  u "cf2b4a0301e028d7357ca84644c5094dec0aa6a4e8f8616426c3d126788a406a".

Definition LIBUSB_VERSION : str := u "1.0.30".
Definition LIBUSB_SOURCE_URL : str :=
  u "https://github.com/libusb/libusb/releases/download/v1.0.30/libusb-1.0.30.tar.bz2".
Definition LIBUSB_SOURCE_SHA256 : str :=
  u "fea36f34f9156400209595e300840767ab1a385ede1dc7ee893015aea9c6dbaf".

Definition WINDOWS_LIBUSB_PACKAGE_URL : str :=
  u "https://github.com/libusb/libusb/releases/download/v1.0.30/libusb-1.0.30.7z".
Definition WINDOWS_LIBUSB_PACKAGE_SHA256 : str :=
  u "7fb1dfec805b97983763d7d0ae244320da12add1003d4249c96cc4d586398c79".
