(* ===== verification/AuditBase.v ===== *)
(** * Reading an archive to audit: [scripts/audit-artifact.py], the common part

    The audit's error, the validators, member names, the payloads of an archive with
    their modes, JSON, notices, build properties and checksum lists. *)

From S2P Require Import Prelude PyStr PyDict Codec Regex PyRe PyFloat Json JsonBytes Sha256 PyPath.
From S2P Require Import Archive.

Local Open Scope Z_scope.

(** ** The environment *)

(** [str.lower] and [str.islower] of one character: known on ASCII, a parameter beyond. *)
Definition ascii_lower (c : N) : N := (if (65 <=? c) && (c <=? 90) then c + 32 else c)%N.
Class Lower := {
  str_lower : str → str;
  char_islower : N → bool;
  str_lower_ascii s : Forall (λ c, c < 128)%N s → str_lower s = ascii_lower <$> s;
  char_islower_ascii c : (c < 128)%N → char_islower c = ((97 <=? c) && (c <=? 122))%N;
}.

(** [tarfile.open(path, "r:*").getmembers()]; opening and reading the headers may raise
    [OSError] (here also [TarError] and [BadZipFile], as in [Archives]). *)
Class Tars := { tar_members : bytes → res (list tar_info) }.

(** ** [fail] *)

Definition fail {A} (msg : string) : res A := Err (AuditError msg).
(** [if c: fail(msg)]. *)
Definition fail_if (c : bool) (msg : string) : res unit := if c then fail msg else Ok tt.

Definition is_audit_error (e : exn) : Prop := ∃ msg, e = AuditError msg.

Lemma fail_if_Ok c msg u_ : fail_if c msg = Ok u_ ↔ c = false.
Proof. destruct c, u_; naive_solver. Qed.

Lemma fail_if_then {B} c msg (k : res B) r : (fail_if c msg ;; k) = Ok r ↔ c = false ∧ k = Ok r.
Proof. destruct c; cbn; naive_solver. Qed.

Lemma raises_fail_if c msg : raises_only is_audit_error (fail_if c msg).
Proof. destruct c; [by eexists|done]. Qed.

(** Inversion of an audit that accepted. *)
Ltac audit_inv :=
  repeat first
    [ progress res_inv
    | match goal with
      | H : fail_if _ _ = Ok _ |- _ => apply fail_if_Ok in H
      | H : fail _ = Ok _ |- _ => discriminate H
      end ].

(** The exceptions that leave an audit: the guards' goals are closed. *)
Ltac audit_raises :=
  repeat first
    [ progress raises
    | match goal with
      | |- raises_only _ (fail_if _ _) => apply raises_fail_if
      | |- raises_only _ (fail _) => by eexists
      | |- is_audit_error (AuditError _) => by eexists
      end ].

(** ** Versions and commits *)

Definition VERSION_RE : re :=
  Cat (plus digit) (Cat (lit (u ".")) (Cat (plus digit) (Cat (lit (u ".")) (plus digit)))).
Definition object_id (s : str) : bool := hex40 s || hex64 s.

Definition validate_version (version : str) : res unit :=
  fail_if (negb (fullmatch VERSION_RE version)) "version must be strict N.N.N".
Definition validate_source_ref (source_ref : str) : res unit :=
  fail_if (negb (object_id source_ref)) "source_ref must be a canonical commit ID".

(** ** Members *)

Definition safe_member (name : str) : res unit :=
  fail_if (bool_decide (name = []) || bool_decide (92%N ∈ name) || starts_with (u "/") name)
    "unsafe archive member" ;;
  fail_if (bool_decide (u ".." ∈ path_parts name)) "unsafe archive member".

(** Reading a member to its end. *)
Definition read_all (st : stream) : res bytes :=
  match st_fail st with Some e => Err e | None => Ok (st_data st) end.

Record payload_state := PayloadState { payloads : dict bytes; modes : dict Z }.

Definition keep (s : payload_state) (name : str) (data : bytes) (mode : Z) : payload_state :=
  PayloadState (dict_set name data (payloads s)) (dict_set name mode (modes s)).

Definition known (s : payload_state) (name : str) : bool :=
  bool_decide (name ∈ dict_keys (payloads s)).

Definition S_ISLNK (mode : Z) : bool := Z.land mode 0xF000 =? 0xA000.

Definition zip_payload (s : payload_state) (i : zip_info) : res payload_state :=
  let name := zi_filename i in
  safe_member name ;;
  let mode := Z.land (Z.shiftr (zi_external_attr i) 16) 0xFFFF in
  fail_if (ends_with (u "/") name || S_ISLNK mode || negb (mode =? 0) && negb (S_ISREG mode))
    "archive member is not a regular file" ;;
  fail_if (known s name) "duplicate archive member" ;;
  st ← zi_open i;
  data ← read_all st;
  Ok (keep s name data mode).

Definition tar_payload (s : payload_state) (i : tar_info) : res payload_state :=
  let name := ti_name i in
  safe_member name ;;
  fail_if (negb (ti_isfile i) || known s name) "archive member is not a unique regular file" ;;
  o ← ti_extract i;
  st ← of_option (AuditError "cannot read archive member") o;
  data ← read_all st;
  Ok (keep s name data (ti_mode i)).

(** The exceptions that [archive_payloads] turns into its own. *)
Definition payload_error {A} (e : exn) : res A :=
  match e with OSError _ => fail "cannot read archive" | _ => Err e end.

Section payloads.
Context `{Archives} `{Tars}.

(** [archive_payloads(path, modes)]: [None] is a path that is not an ordinary file. *)
Definition archive_payloads (path : str) (file : option bytes) : res payload_state :=
  content ← of_option (AuditError "archive is not an ordinary file") file;
  try_except
    (if ends_with (u ".zip") (path_name path) then
       infos ← zip_open content; fold_res zip_payload (PayloadState [] []) infos
     else
       infos ← tar_members content; fold_res tar_payload (PayloadState [] []) infos)
    payload_error.
End payloads.

(** ** JSON *)

Definition reject_duplicate_json_keys (pairs : list (str * json)) : res (dict json) :=
  fold_res (λ result '(key, value),
    require (bool_decide (key ∉ dict_keys result)) (ValueError "duplicate JSON key") ;;
    Ok (dict_set key value result)) [] pairs.

Definition reject_nonfinite (value : str) : res json :=
  Err (ValueError "non-finite JSON constant").

(** [parse_json(data, name)]: every [ValueError] is an audit failure; the parser's
    [RecursionError] is not caught. *)
Definition parse_json (limit : nat) (data : bytes) : res json :=
  try_except (loads_bytes reject_duplicate_json_keys reject_nonfinite limit data)
    (λ e, match e with
          | ValueError _ | JSONDecodeError _ => fail "invalid JSON"
          | _ => Err e
          end).

(** ** Texts of [key=value] lines *)

Definition notice_key : re := plus (Chr (λ c,
  (97 <=? c) && (c <=? 122) || is_digit c || bool_decide (c ∈ [95; 46; 45]))%N).

Definition new_field (msg : string) (fields : dict str) (key value : str) : res (dict str) :=
  fail_if (bool_decide (key ∈ dict_keys fields)) msg ;; Ok (dict_set key value fields).

Definition notice_field (fields : dict str) (line : str) : res (dict str) :=
  match split1 61 line with
  | Some (key, value) =>
      if fullmatch notice_key key
      then new_field "duplicate dependency notice field" fields key value else Ok fields
  | None => Ok fields
  end.

Definition notice_fields (data : bytes) : res (dict str) :=
  text ← of_option (AuditError "dependency notice is not UTF-8") (decode_utf8 data);
  fold_res notice_field [] (splitlines text).

Definition property (fields : dict str) (line : str) : res (dict str) :=
  '(key, value) ← of_option (AuditError "build.properties is malformed") (split1 61 line);
  new_field "duplicate build property" fields key value.

Definition parse_build_properties (data : bytes) : res (dict str) :=
  text ← of_option (AuditError "build.properties is not UTF-8") (decode_utf8 data);
  fold_res property [] (splitlines text).

(** [d.get(key) != value] for the items of a table: the first difference fails. *)
Definition exact_fields (msg : string) (expected fields : dict str) : res unit :=
  for_each (λ '(key, value), fail_if (negb (bool_decide (dict_get key fields = Some value))) msg)
    expected.

(** ** Checksums *)

(** [[0-9a-f]{64}], two spaces, a name without line ends. *)
Definition checksum_line (line : str) : option (str * str) :=
  let name := drop 66 line in
  if hex64 (take 64 line) && starts_with (u "  ") (drop 64 line)
     && fullmatch (plus (Chr (λ c, negb (one_of [13; 10] c))))%N name
  then Some (take 64 line, name) else None.

Definition listed_step (listed : dict str) (line : str) : res (dict str) :=
  match line with
  | [] => Ok listed
  | _ =>
      '(digest, name) ← of_option (AuditError "invalid SHA256SUMS line") (checksum_line line);
      safe_member name ;;
      new_field "duplicate checksum entry" listed name digest
  end.

Definition SUMS : str := u "SHA256SUMS".

Section checksums.
Context `{Digest}.

Definition verify_checksums (payloads : dict bytes) : res unit :=
  data ← of_option (AuditError "SHA256SUMS is missing") (dict_get SUMS payloads);
  text ← of_option (AuditError "SHA256SUMS is not ASCII") (decode_ascii data);
  listed ← fold_res listed_step [] (splitlines text);
  fail_if (negb (bool_decide (dict_keys listed = dict_keys payloads ∖ {[SUMS]})))
    "SHA256SUMS must list exactly every other archive member" ;;
  for_each (λ '(name, digest),
    data ← item payloads name;
    fail_if (negb (bool_decide (hexdigest data = digest))) "checksum mismatch") listed.
End checksums.

(** ** Forbidden members of a source archive *)

(** A letter under [re.IGNORECASE]: its other case, and the characters CPython folds to
    [i], [k] and [s]. *)
Definition icase (c : N) : pat := Class_ (λ x,
  ((ascii_lower x =? c) || (c =? 105) && one_of [0x130; 0x131] x
   || (c =? 107) && (x =? 0x212a) || (c =? 115) && (x =? 0x17f))%N).
Definition IText (s : string) : pat := foldr (λ c p, Seq (icase c) p) Nothing (u s).

Definition forbidden_directories : list pat :=
  [IText ".git";
   Seq (IText "build") (Opt (Seq (IText "-") (Some_ (Class_ (λ c, negb (one_of [47; 46] c))))));
   IText "out"; IText "dist"; IText "firmware"; IText "windows"; IText "win32"; IText "vendor";
   Seq (IText "driver") (Opt (IText "s")); IText "dkms"; IText "kernel"; IText "apk";
   IText "addon"; IText "add-on"]%N.
Definition forbidden_suffixes : list pat :=
  [Seq (IText ".o") End; Seq (IText ".a") End; Seq (IText ".so") (Or (Text ".") End);
   Seq (IText ".dylib") End; Seq (IText ".apk") End; Seq (IText ".ko") End;
   Seq (IText ".sys") End; Seq (IText ".inf") End; Seq (IText ".dll") End;
   Seq (IText ".exe") End; Seq (IText ".bin") End].

Definition SOURCE_FORBIDDEN : pat :=
  Or (Seq (Or TextStart (Text "/")) (Seq (Ors forbidden_directories) (Or (Text "/") End)))
     (Ors forbidden_suffixes).

Section forbidden.
Context `{Lower}.

(** [PurePosixPath(name).suffix]: from the last dot of the name, unless it is its first or
    last character. *)
Definition path_suffix (name : str) : str :=
  match split1 46 (reverse (path_name name)) with
  | Some ([], _) | Some (_, []) | None => []
  | Some (suffix, _) => 46%N :: reverse suffix
  end.

Definition source_suffixes : list str :=
  [u ".c"; u ".cpp"; u ".h"; u ".hpp"; u ".cmake"; u ".def"; u ".md"].

Definition platform_source (name : str) : bool :=
  (starts_with (u "third_party/dtv-userland-core/") name
   || starts_with (u "third_party/px4-userland/") name)
  && (bool_decide (str_lower (path_suffix name) ∈ source_suffixes) || ends_with (u ".h.in") name).

Definition forbidden_source_member (name : str) : bool :=
  let checked :=
    if platform_source name then
      join (u "/") ((λ part, if bool_decide (str_lower part ∈ [u "windows"; u "win32"])
                             then u "platform-windows" else part) <$> path_parts name)
    else name in
  searches SOURCE_FORBIDDEN checked.
End forbidden.

(** A [Lower] for ASCII texts, to evaluate examples. *)
Definition sample_lower : Lower :=
  {| str_lower s := ascii_lower <$> s; char_islower c := ((97 <=? c) && (c <=? 122))%N;
     str_lower_ascii s _ := eq_refl; char_islower_ascii c _ := eq_refl |}.

Example forbidden_tests :
  let _ := sample_lower in
  forbidden_source_member (u "repository/src/main.c") = false
  ∧ forbidden_source_member (u "repository/BUILD-x/main.c") = true
  ∧ forbidden_source_member (u "repository/out") = true
  ∧ forbidden_source_member (u "repository/outer") = false
  ∧ forbidden_source_member (u "a/b.SO.1") = true
  ∧ forbidden_source_member (u "third_party/px4-userland/Windows/x.CPP") = false
  ∧ forbidden_source_member (u "third_party/px4-userland/windows/x.dll") = true
  ∧ forbidden_source_member (u "repository/windows/x.cpp") = true.
Proof. vm_compute. repeat split. Qed.
