(* ===== verification/AuditBaseProps.v ===== *)
(** * Properties of the common part of the audit *)

From S2P Require Import Prelude PyStr PyDict Codec Regex PyFloat Json Sha256 PyPath Archive.
From S2P Require Import ArchiveProps AuditBase.

Local Open Scope Z_scope.

(** ** Names *)

Definition safe_name (name : str) : Prop :=
  name ≠ [] ∧ 92%N ∉ name ∧ starts_with (u "/") name = false ∧ u ".." ∉ path_names name.

#[export] Instance safe_name_dec name : Decision (safe_name name).
Proof. unfold safe_name. apply _. Defined.

Lemma path_parts_relative name :
  starts_with (u "/") name = false → path_parts name = path_names name.
Proof.
  intros H. unfold path_parts, path_root. rewrite H.
  assert (starts_with (u "//") name = false) as ->; [|done].
  apply not_true_iff_false. intros (r & ->)%starts_with_spec. done.
Qed.

Lemma safe_member_Ok name : safe_member name = Ok tt ↔ safe_name name.
Proof.
  unfold safe_member, safe_name.
  rewrite fail_if_then, fail_if_Ok, !orb_false_iff, !bool_decide_eq_false.
  split.
  - intros ([[? ?] Hs] & ?). by rewrite path_parts_relative in *.
  - intros (? & ? & Hs & ?). by rewrite path_parts_relative.
Qed.

Lemma safe_member_then {B} name (k : res B) r :
  (safe_member name ;; k) = Ok r ↔ safe_name name ∧ k = Ok r.
Proof.
  rewrite bind_Ok. split.
  - by intros ([] & ?%safe_member_Ok & ?).
  - intros [? ?]. exists tt. by rewrite safe_member_Ok.
Qed.

Lemma safe_member_raises name : raises_only is_audit_error (safe_member name).
Proof. unfold safe_member. audit_raises. Qed.

(** An extractor only follows the named components. *)
Lemma walk_names dir parts :
  walk dir parts = walk dir (filter (λ w, w ≠ [] ∧ w ≠ u ".") parts).
Proof.
  revert dir. induction parts as [|p parts IH]; intros dir; [done|]. rewrite filter_cons.
  destruct (decide (p ≠ [] ∧ p ≠ u ".")) as [[? ?]|Hp]; cbn [walk].
  - rewrite !(decide_False (P := p = [] ∨ p = u ".")) by tauto. case_decide; apply IH.
  - rewrite decide_True; [apply IH|]. destruct (decide (p = [])), (decide (p = u ".")); tauto.
Qed.

(** A safe name is extracted below the directory. *)
Lemma safe_name_walk name dir : safe_name name → walk dir (split_on 47 name) = dir ++ path_names name.
Proof.
  intros (_ & _ & _ & Hdots). rewrite walk_names. apply walk_safe. apply Forall_forall.
  intros p Hp. apply safe_part_spec. pose proof Hp as Hp'.
  apply list_elem_of_filter in Hp' as [[? ?] _]. split_and!; [done..|]. intros ->. done.
Qed.

(** ** Items collected under new keys *)

Lemma new_field_Ok msg d k v d' : new_field msg d k v = Ok d' ↔ k ∉ d.*1 ∧ d' = d ++ [(k, v)].
Proof.
  unfold new_field. rewrite fail_if_then, bool_decide_eq_false, dict_keys_elem.
  split; intros [Hk H]; (split; [done|]); rewrite dict_set_new in * by done; congruence.
Qed.

Lemma new_fields_Ok {A} (f : dict str → A → res (dict str)) (g : A → option (str * str)) l d :
  (∀ s x s', x ∈ l → f s x = Ok s' ↔ ∃ e, g x = Some e ∧ e.1 ∉ s.*1 ∧ s' = s ++ [e]) →
  fold_res f [] l = Ok d ↔ mapM g l = Some d ∧ NoDup d.*1.
Proof.
  intros Hf. assert (∀ d0, NoDup d0.*1 → fold_res f d0 l = Ok d ↔
    ∃ es, mapM g l = Some es ∧ d = d0 ++ es ∧ NoDup d.*1) as H.
  { induction l as [|x l IH]; intros d0 Hd0; cbn [fold_res mapM].
    - split; [intros [= <-]; exists []; by rewrite app_nil_r|].
      intros (es & [= <-] & -> & _). by rewrite app_nil_r.
    - rewrite bind_Ok. setoid_rewrite Hf; [|by left].
      assert (∀ e, NoDup (d0 ++ [e]).*1 ↔ e.1 ∉ d0.*1) as Hnd.
      { intros e. rewrite fmap_app, NoDup_app. cbn.
        split; [intros (_ & H & _) Hin; by apply (H _ Hin); left|].
        intros Hn. split_and!; [done| |apply NoDup_singleton]. by intros ? ? ->%list_elem_of_singleton. }
      split.
      + intros (s & (e & He & Hn & ->) & H). apply IH in H as (es & Hes & -> & Hes');
          [|intros s1 y s2 Hy; apply Hf; by right|by apply Hnd].
        exists (e :: es). rewrite He. cbn. rewrite Hes.
        rewrite <- app_assoc in Hes' |- *. by split_and!.
      + intros (es & (e & He & (es' & Hes & [= <-])%bind_Some)%bind_Some & Hd & H).
        assert (d = (d0 ++ [e]) ++ es') as Hd' by by rewrite <- app_assoc.
        assert (NoDup (d0 ++ [e]).*1) as Hnd'
          by (rewrite Hd', fmap_app in H; by apply NoDup_app in H as [? _]).
        exists (d0 ++ [e]). split; [exists e; split_and!; [done|by apply Hnd|done]|].
        apply IH; [intros s1 y s2 Hy; apply Hf; by right|done|]. by exists es'. }
  rewrite H by constructor. split; [by intros (es & ? & -> & ?)|]. intros [? ?]. by exists d.
Qed.

(** ** Checksums *)

(** The entry of a line that is not empty. *)
Definition sum_entry (line : str) : option (str * str) :=
  '(digest, name) ← checksum_line line; guard (safe_name name) ;; Some (name, digest).

Lemma listed_step_Ok d line d' : line ≠ [] →
  listed_step d line = Ok d' ↔ ∃ e, sum_entry line = Some e ∧ e.1 ∉ d.*1 ∧ d' = d ++ [e].
Proof.
  intros Hl. unfold listed_step, sum_entry. destruct line as [|c line]; [done|]. clear Hl.
  generalize (c :: line) as l. intros l. destruct (checksum_line l) as [[digest name]|]; cbn.
  2:{ split; [done|by intros (? & ? & _)]. }
  rewrite bind_Ok. setoid_rewrite new_field_Ok. split.
  - intros ([] & Hs%safe_member_Ok & Hn & ->). exists (name, digest).
    by rewrite option_guard_True.
  - intros (e & He & Hn & ->). case_guard as Hs; [|done]. injection He as <-.
    exists tt. split; [by apply safe_member_Ok|done].
Qed.

Lemma listed_Ok lines d :
  fold_res listed_step [] lines = Ok d ↔
  mapM sum_entry (filter (λ l, l ≠ []) lines) = Some d ∧ NoDup d.*1.
Proof.
  rewrite <- (new_fields_Ok (λ d line, listed_step d line) sum_entry).
  - enough (∀ d0, fold_res listed_step d0 lines
      = fold_res listed_step d0 (filter (λ l, l ≠ []) lines)) as -> by done.
    induction lines as [|l lines IH]; intros d0; [done|]. rewrite filter_cons.
    case_decide as Hl; cbn [fold_res].
    + destruct (listed_step d0 l); [apply IH|done].
    + destruct l; [apply IH|discriminate Hl].
  - intros d0 x s' [Hx _]%list_elem_of_filter. by apply listed_step_Ok.
Qed.

Section checksums.
Context `{Digest}.

(** The checksum list of the payloads: one entry for each other member, with its digest. *)
Record checksums_of (payloads : dict bytes) (text : str) (listed : dict str) : Prop := {
  ck_lines : mapM sum_entry (filter (λ l, l ≠ []) (splitlines text)) = Some listed;
  ck_distinct : NoDup listed.*1;
  ck_members : dict_keys listed = dict_keys payloads ∖ {[SUMS]};
  ck_digests : Forall (λ kv, hexdigest <$> dict_get kv.1 payloads = Some kv.2) listed;
}.

Lemma verify_checksums_Ok payloads r :
  verify_checksums payloads = Ok r ↔
  ∃ data text listed, dict_get SUMS payloads = Some data ∧ decode_ascii data = Some text
    ∧ checksums_of payloads text listed.
Proof.
  unfold verify_checksums. rewrite bind_Ok. setoid_rewrite of_option_Ok.
  assert (∀ (listed : dict str) r',
    for_each (λ '(name, digest),
      data ← item payloads name;
      fail_if (negb (bool_decide (hexdigest data = digest))) "checksum mismatch") listed = Ok r' ↔
    Forall (λ kv, hexdigest <$> dict_get kv.1 payloads = Some kv.2) listed) as Hdigests.
  { intros listed r'. rewrite for_each_Ok. apply Forall_iff. intros [name digest]. cbn.
    rewrite bind_Ok. unfold item. setoid_rewrite of_option_Ok. setoid_rewrite fail_if_Ok.
    setoid_rewrite negb_false_iff. setoid_rewrite bool_decide_eq_true.
    rewrite fmap_Some. naive_solver. }
  split.
  - intros (data & Hd & H'). apply bind_Ok in H' as (text & Ht%of_option_Ok & H').
    apply bind_Ok in H' as (listed & [? ?]%listed_Ok & H').
    rewrite fail_if_then, negb_false_iff, bool_decide_eq_true, Hdigests in H'.
    exists data, text, listed. destruct H' as [? ?]. by split_and!.
  - intros (data & text & listed & Hd & Ht & [? ? Hm ?]). exists data. split; [done|].
    apply bind_Ok. exists text. split; [by apply of_option_Ok|].
    apply bind_Ok. exists listed. split; [by apply listed_Ok|].
    by rewrite fail_if_then, negb_false_iff, bool_decide_eq_true, Hdigests.
Qed.
End checksums.

(** ** Payloads *)

Record entry := Entry { e_name : str; e_data : bytes; e_mode : Z }.

Definition whole (o : res stream) : option bytes :=
  match o with
  | Ok st => match st_fail st with None => Some (st_data st) | Some _ => None end
  | Err _ => None
  end.

(** A header whose member the audit takes. *)
Definition zip_entry (i : zip_info) : option entry :=
  let mode := Z.land (Z.shiftr (zi_external_attr i) 16) 0xFFFF in
  guard (safe_name (zi_filename i)) ;;
  guard (ends_with (u "/") (zi_filename i) = false ∧ (mode = 0 ∨ S_ISREG mode = true)) ;;
  data ← whole (zi_open i);
  Some (Entry (zi_filename i) data mode).

Definition tar_entry (i : tar_info) : option entry :=
  guard (safe_name (ti_name i)) ;;
  guard (ti_isfile i = true) ;;
  data ← match ti_extract i with Ok (Some st) => whole (Ok st) | _ => None end;
  Some (Entry (ti_name i) data (ti_mode i)).

Definition state_of (l : list entry) : payload_state :=
  PayloadState ((λ e, (e_name e, e_data e)) <$> l) ((λ e, (e_name e, e_mode e)) <$> l).

Lemma S_ISREG_not_link mode : S_ISREG mode = true → S_ISLNK mode = false.
Proof. unfold S_ISREG, S_ISLNK. intros ->%Z.eqb_eq. done. Qed.

Lemma read_all_whole o data : (st ← o; read_all st) = Ok data ↔ whole o = Some data.
Proof.
  destruct o as [st|]; cbn; [|done]. unfold read_all. destruct (st_fail st); [done|].
  split; congruence.
Qed.

Lemma keep_state l e : e_name e ∉ e_name <$> l →
  keep (state_of l) (e_name e) (e_data e) (e_mode e) = state_of (l ++ [e]).
Proof.
  intros Hn. unfold keep, state_of. cbn.
  rewrite !dict_set_new, !fmap_app; [done|..];
    intros (p & Hp & (e' & -> & He')%list_elem_of_fmap)%list_elem_of_fmap;
    apply Hn, list_elem_of_fmap; by exists e'.
Qed.

Lemma known_state l name : known (state_of l) name = false ↔ name ∉ e_name <$> l.
Proof.
  unfold known, state_of. rewrite bool_decide_eq_false, dict_keys_elem. cbn.
  by rewrite <- list_fmap_compose.
Qed.

Lemma zip_regular name mode :
  ends_with (u "/") name || S_ISLNK mode || negb (mode =? 0) && negb (S_ISREG mode) = false ↔
  ends_with (u "/") name = false ∧ (mode = 0 ∨ S_ISREG mode = true).
Proof.
  rewrite !orb_false_iff, andb_false_iff, !negb_false_iff, Z.eqb_eq. split; [tauto|].
  intros [? Hm]. split_and!; try done. destruct Hm as [->|Hm]; [done|by apply S_ISREG_not_link].
Qed.

Lemma zip_payload_Ok l i s' :
  zip_payload (state_of l) i = Ok s' ↔
  ∃ e, zip_entry i = Some e ∧ e_name e ∉ e_name <$> l ∧ s' = state_of (l ++ [e]).
Proof.
  unfold zip_payload, zip_entry. set (mode := Z.land _ _).
  rewrite safe_member_then, !fail_if_then, zip_regular, known_state. split.
  - intros (Hs & Hr & Hn & H).
    rewrite !option_guard_True by done.
    apply bind_Ok in H as (st & Ho & (data & Hread & [= <-])%bind_Ok).
    apply (read_all_whole (Ok st)) in Hread. rewrite Ho, Hread.
    eexists. split; [done|]. split; [done|]. by rewrite <- keep_state.
  - intros (e & (Hs & _ & (Hr & _ & (data & Hread & [= <-])%bind_Some)%bind_Some)%bind_Some & Hn & ->).
    cbn in Hn.
    split; [done|]. split; [done|]. split; [done|].
    destruct (zi_open i) as [st|]; [|done]. apply (read_all_whole (Ok st)) in Hread. cbn in Hread |- *.
    rewrite Hread. cbn. by rewrite <- keep_state.
Qed.

Lemma tar_payload_Ok l i s' :
  tar_payload (state_of l) i = Ok s' ↔
  ∃ e, tar_entry i = Some e ∧ e_name e ∉ e_name <$> l ∧ s' = state_of (l ++ [e]).
Proof.
  unfold tar_payload, tar_entry.
  rewrite safe_member_then, !fail_if_then, orb_false_iff, negb_false_iff, known_state. split.
  - intros (Hs & [Hr Hn] & H). rewrite !option_guard_True by done.
    apply bind_Ok in H as (o & Ho & (st & ->%of_option_Ok & (data & Hread & [= <-])%bind_Ok)%bind_Ok).
    apply (read_all_whole (Ok st)) in Hread. rewrite Ho, Hread.
    eexists. split; [done|]. split; [done|]. by rewrite <- keep_state.
  - intros (e & (Hs & _ & (Hr & _ & (data & Hread & [= <-])%bind_Some)%bind_Some)%bind_Some & Hn & ->).
    cbn in Hn.
    split; [done|]. split; [done|].
    destruct (ti_extract i) as [[st|]|]; try done. apply (read_all_whole (Ok st)) in Hread.
    cbn in Hread |- *. rewrite Hread. cbn. by rewrite <- keep_state.
Qed.

(** A loop that adds entries with new names. *)
Lemma payloads_Ok {A} (f : payload_state → A → res payload_state) (g : A → option entry) infos s :
  (∀ l i s', f (state_of l) i = Ok s' ↔
     ∃ e, g i = Some e ∧ e_name e ∉ e_name <$> l ∧ s' = state_of (l ++ [e])) →
  fold_res f (state_of []) infos = Ok s ↔
  ∃ es, mapM g infos = Some es ∧ NoDup (e_name <$> es) ∧ s = state_of es.
Proof.
  intros Hf. assert (∀ l, NoDup (e_name <$> l) → fold_res f (state_of l) infos = Ok s ↔
    ∃ es, mapM g infos = Some es ∧ NoDup (e_name <$> l ++ es) ∧ s = state_of (l ++ es)) as H;
    [|by apply (H []); constructor].
  induction infos as [|i infos IH]; intros l Hl; cbn [fold_res mapM].
  - split; [intros [= <-]; exists []; by rewrite app_nil_r|].
    intros (es & [= <-] & _ & ->). by rewrite app_nil_r.
  - rewrite bind_Ok. setoid_rewrite Hf. split.
    + intros (s1 & (e & He & Hn & ->) & H). apply IH in H as (es & Hes & Hnd & ->).
      * exists (e :: es). rewrite He. cbn. rewrite Hes. rewrite <- app_assoc in *. by split_and!.
      * rewrite fmap_app. apply NoDup_app. split_and!; [done| |apply NoDup_singleton].
        by intros x Hx ->%list_elem_of_singleton.
    + intros (es & (e & He & (es' & Hes & [= <-])%bind_Some)%bind_Some & Hnd & ->).
      change (e :: es') with ([e] ++ es') in Hnd |- *. rewrite (app_assoc l) in Hnd.
      assert (NoDup (e_name <$> l ++ [e])) as Hnd' by (rewrite fmap_app in Hnd; by apply NoDup_app in Hnd as [? _]).
      exists (state_of (l ++ [e])). split.
      * exists e. split_and!; [done| |done]. rewrite fmap_app in Hnd'.
        apply NoDup_app in Hnd' as (_ & Hn & _). intros Hin. apply (Hn _ Hin). by left.
      * apply IH; [done|]. exists es'. rewrite <- app_assoc in *. by split_and!.
Qed.

Section payloads.
Context `{Archives} `{Tars}.

(** The entries of an archive file, [None] when one of them is refused. *)
Definition entries_of (path : str) (content : bytes) : option (list entry) :=
  if ends_with (u ".zip") (path_name path) then
    match zip_open content with Ok infos => mapM zip_entry infos | Err _ => None end
  else match tar_members content with Ok infos => mapM tar_entry infos | Err _ => None end.

Lemma archive_payloads_Ok path file s :
  archive_payloads path file = Ok s ↔
  ∃ content es, file = Some content ∧ entries_of path content = Some es
    ∧ NoDup (e_name <$> es) ∧ s = state_of es.
Proof.
  unfold archive_payloads, entries_of. rewrite bind_Ok. setoid_rewrite of_option_Ok.
  setoid_rewrite try_except_Ok; [|by intros []]. change (PayloadState [] []) with (state_of []).
  split.
  - intros (content & -> & H'). exists content.
    case_match; apply bind_Ok in H' as (infos & -> & H').
    + apply (payloads_Ok _ zip_entry) in H' as (es & ? & ? & ?); [by exists es|apply zip_payload_Ok].
    + apply (payloads_Ok _ tar_entry) in H' as (es & ? & ? & ?); [by exists es|apply tar_payload_Ok].
  - intros (content & es & -> & He & Hnd & ->). exists content. split; [done|]. case_match.
    + destruct (zip_open content); [|done]. cbn. apply (payloads_Ok _ zip_entry); [apply zip_payload_Ok|].
      by exists es.
    + destruct (tar_members content); [|done]. cbn. apply (payloads_Ok _ tar_entry); [apply tar_payload_Ok|].
      by exists es.
Qed.

Lemma zip_entry_safe i e : zip_entry i = Some e → safe_name (e_name e).
Proof. by intros (Hs & _ & (Hr & _ & (data & Hread & [= <-])%bind_Some)%bind_Some)%bind_Some. Qed.

Lemma tar_entry_safe i e : tar_entry i = Some e → safe_name (e_name e).
Proof. by intros (Hs & _ & (Hr & _ & (data & Hread & [= <-])%bind_Some)%bind_Some)%bind_Some. Qed.

Lemma mapM_elem {A B} (g : A → option B) l l' y : mapM g l = Some l' → y ∈ l' → ∃ x, g x = Some y.
Proof.
  intros Hm Hy. apply mapM_Some_1 in Hm. apply list_elem_of_lookup in Hy as [i Hi].
  destruct (Forall2_lookup_r _ _ _ _ _ Hm Hi) as (x & _ & ?). by exists x.
Qed.

Lemma entries_safe path content es e :
  entries_of path content = Some es → e ∈ es → safe_name (e_name e).
Proof.
  unfold entries_of. intros H' Hin. case_match.
  - destruct (zip_open content); [|done]. destruct (mapM_elem _ _ _ _ H' Hin).
    by eapply zip_entry_safe.
  - destruct (tar_members content); [|done]. destruct (mapM_elem _ _ _ _ H' Hin).
    by eapply tar_entry_safe.
Qed.
End payloads.

(** ** Properties *)

(** C30. [archive_payloads] accepts an archive exactly when it is an ordinary file that opens,
    every header is that of a regular file with a safe name and readable data, and no name
    is repeated; it then returns the data and the mode of each entry, in order.  Extracting
    any of the names below a directory stays below that directory. *)
Theorem archive_payloads_accepts `{Archives} `{Tars} path file s :
  archive_payloads path file = Ok s ↔
  ∃ content es, file = Some content ∧ entries_of path content = Some es
    ∧ NoDup (e_name <$> es) ∧ s = state_of es
    ∧ Forall (λ e, ∀ dir, walk dir (split_on 47 (e_name e)) = dir ++ path_names (e_name e)) es.
Proof.
  rewrite archive_payloads_Ok.
  split; intros (content & es & -> & He & Hnd & H'); exists content, es; [|naive_solver].
  split_and!; [done..|]. apply Forall_forall. intros e Hin dir. apply safe_name_walk.
  by eapply entries_safe.
Qed.

(** C31. [verify_checksums] accepts exactly when [SHA256SUMS] is ASCII and its lines that are
    not empty list, once each, every other member under a safe name with the digest of
    that member's data. *)
Theorem verify_checksums_accepts `{Digest} payloads :
  verify_checksums payloads = Ok tt ↔
  ∃ data text listed, dict_get SUMS payloads = Some data ∧ decode_ascii data = Some text
    ∧ checksums_of payloads text listed.
Proof. apply verify_checksums_Ok. Qed.
