(* ===== verification/AuditPe.v ===== *)
(** * Windows executables: [scripts/audit-artifact.py], [_pe_rva_to_file_offset] to
    [audit_pe_x64_bytes]

    The PE32+ header, the section table and the debug directory, read from the bytes of
    the file at their offsets. *)

From S2P Require Import Prelude PyStr Struct AuditBase.

Local Open Scope Z_scope.

(** One row of the section table. *)
Record pe_section := PeSection {
  virtual_address : Z;
  virtual_size : Z;
  raw_size : Z;
  raw_offset : Z;
}.

Definition covers (s : pe_section) (rva : Z) : bool :=
  (virtual_address s <=? rva)
  && (rva <? virtual_address s + Z.max (virtual_size s) (raw_size s)).

(** The first section that covers the address decides. *)
Fixpoint pe_rva_to_file_offset (data : bytes) (rva : Z) (sections : list pe_section) : res Z :=
  match sections with
  | [] => fail "Windows PE RVA is not backed by file data"
  | s :: sections =>
      if covers s rva then
        let offset := raw_offset s + rva - virtual_address s in
        if (offset <? 0) || (lenZ data <? offset)
        then fail "Windows PE RVA is not backed by file data" else Ok offset
      else pe_rva_to_file_offset data rva sections
  end.

(** [decode("ascii", errors="replace")]. *)
Definition decode_replace (raw : bytes) : str :=
  (λ x, if (bn x <? 128)%N then bn x else 0xFFFD%N) <$> raw.

Definition section_at (data : bytes) (section : Z) : pe_section :=
  PeSection (field data (section + 12) (section + 16)) (field data (section + 8) (section + 12))
    (field data (section + 16) (section + 20)) (field data (section + 20) (section + 24)).

Definition section_name_at (data : bytes) (section : Z) : str :=
  decode_replace (until_nul (slice section (section + 8) data)).

(** The offsets of the rows of the section table. *)
Definition section_rows (section_table section_count : Z) : list Z :=
  (λ index, section_table + index * 40) <$> seqZ 0 section_count.

(** One entry of the debug directory: its type is recorded, its payload is in the file. *)
Definition debug_entry (data : bytes) (sections : list pe_section) (debug_types : gset Z)
    (offset : Z) : res (gset Z) :=
  values ← unpack_from [U32; U32; U16; U16; U32; U32; U32; U32] data offset;
  match drop 4 values with
  | [debug_type; size_of_data; address_of_raw_data; pointer_to_raw_data] =>
      let debug_types := {[debug_type]} ∪ debug_types in
      if negb (size_of_data =? 0) then
        fail_if (lenZ data <? pointer_to_raw_data + size_of_data)
          "Windows PE debug payload exceeds file" ;;
        if negb (address_of_raw_data =? 0)
        then pe_rva_to_file_offset data address_of_raw_data sections ;; Ok debug_types
        else Ok debug_types
      else Ok debug_types
  | _ => Err (ValueError "not enough values to unpack")
  end.

(** The debug directory: the types it holds. *)
Definition debug_directory (data : bytes) (sections : list pe_section) (optional optional_size : Z)
    : res (gset Z) :=
  let directory := optional + 112 + 6 * 8 in
  fail_if (optional + optional_size <? directory + 8)
    "Windows PE debug data directory is truncated" ;;
  let debug_rva := field data directory (directory + 4) in
  let debug_size := field data (directory + 4) (directory + 8) in
  if (debug_rva =? 0) && (debug_size =? 0) then Ok ∅ else
  fail_if ((debug_rva =? 0) || (debug_size <? 28) || negb (debug_size `mod` 28 =? 0))
    "Windows PE debug directory is malformed" ;;
  debug_offset ← pe_rva_to_file_offset data debug_rva sections;
  let debug_end := debug_offset + debug_size in
  fail_if (lenZ data <? debug_end) "Windows PE debug directory exceeds file" ;;
  fold_res (debug_entry data sections) ∅ (range debug_offset debug_end 28).

(** [_pe_debug_types]: the debug types and the section names. *)
Definition pe_debug_types (data : bytes) (pe_offset optional_size : Z)
    : res (gset Z * list str) :=
  let optional := pe_offset + 24 in
  fail_if ((optional_size <? 112) || (lenZ data <? optional + optional_size))
    "Windows PE optional header is truncated" ;;
  let number_of_directories := field data (optional + 108) (optional + 112) in
  let coff := pe_offset + 4 in
  let section_count := field data (coff + 2) (coff + 4) in
  let section_table := optional + optional_size in
  let section_end := section_table + section_count * 40 in
  fail_if (lenZ data <? section_end) "Windows PE section table is truncated" ;;
  let rows := section_rows section_table section_count in
  let sections := section_at data <$> rows in
  let section_names := section_name_at data <$> rows in
  if number_of_directories <=? 6 then Ok (∅, section_names) else
  debug_types ← debug_directory data sections optional optional_size;
  Ok (debug_types, section_names).

Definition audit_pe_x64_bytes (data : bytes) (reject_debug_payload : bool) : res unit :=
  fail_if ((lenZ data <? 0x40) || negb (bool_decide (slice 0 2 data = b "MZ")))
    "Windows binary is not an MZ executable" ;;
  let pe_offset := field data 0x3c 0x40 in
  fail_if ((pe_offset <? 0) || (lenZ data <? pe_offset + 24)
           || negb (bool_decide (slice pe_offset (pe_offset + 4) data = b "PE" ++ [x00; x00])))
    "Windows binary has no PE signature" ;;
  let machine := field data (pe_offset + 4) (pe_offset + 6) in
  let symbol_table_pointer := field data (pe_offset + 12) (pe_offset + 16) in
  let symbol_count := field data (pe_offset + 16) (pe_offset + 20) in
  let optional_magic := field data (pe_offset + 24) (pe_offset + 26) in
  fail_if (negb (machine =? 0x8664) || negb (optional_magic =? 0x20B))
    "Windows binary is not PE32+ x64" ;;
  '(debug_types, section_names) ←
    pe_debug_types data pe_offset (field data (pe_offset + 20) (pe_offset + 22));
  if reject_debug_payload then
    fail_if (negb (symbol_table_pointer =? 0) || negb (symbol_count =? 0))
      "project Windows executable contains a COFF symbol table" ;;
    fail_if (bool_decide (2 ∈ debug_types))
      "project Windows executable contains a CodeView/PDB debug record" ;;
    fail_if (bool_decide (17 ∈ debug_types))
      "project Windows executable contains an embedded debug payload" ;;
    fail_if (existsb (starts_with (u ".debug$")) section_names)
      "project Windows executable contains embedded debug sections"
  else Ok tt.
