(* ===== verification/AuditPeProps.v ===== *)
(** * What an accepted Windows executable is

    The audit accepts a file exactly when it is a PE32+ image for x64 whose tables lie in
    the file; of a project executable it also demands that no symbol table, debug section
    or debug record is left.  Every rejection is an audit error: no read leaves the file. *)

From S2P Require Import Prelude PyStr Struct AuditBase AuditPe.

Local Open Scope Z_scope.

(** ** The image, declaratively *)

(** [backed sections rva offset]: the first section that covers the address maps it into
    the file. *)
Inductive backed (size : Z) (rva : Z) : list pe_section → Z → Prop :=
| backed_here s l : covers s rva = true →
    0 ≤ raw_offset s + rva - virtual_address s ≤ size →
    backed size rva (s :: l) (raw_offset s + rva - virtual_address s)
| backed_later s l offset : covers s rva = false →
    backed size rva l offset → backed size rva (s :: l) offset.

Record debug_record := DebugRecord { d_type : Z; d_size : Z; d_address : Z; d_pointer : Z }.
Definition debug_at (data : bytes) (o : Z) : debug_record :=
  DebugRecord (field data (o + 12) (o + 16)) (field data (o + 16) (o + 20))
    (field data (o + 20) (o + 24)) (field data (o + 24) (o + 28)).
Arguments debug_at : simpl never.

(** The payload of a record is in the file, and its address is backed by it. *)
Definition debug_ok (data : bytes) (sections : list pe_section) (d : debug_record) : Prop :=
  d_size d = 0
  ∨ d_pointer d + d_size d ≤ lenZ data
    ∧ (d_address d = 0 ∨ ∃ offset, backed (lenZ data) (d_address d) sections offset).

(** The offsets of the debug records: none, or the rows of a directory in the file. *)
Definition debug_offsets (data : bytes) (sections : list pe_section) (directory optional_end : Z)
    (offsets : list Z) : Prop :=
  let rva := field data directory (directory + 4) in
  let size := field data (directory + 4) (directory + 8) in
  directory + 8 ≤ optional_end
  ∧ (rva = 0 ∧ size = 0 ∧ offsets = []
     ∨ ∃ o, rva ≠ 0 ∧ 28 ≤ size ∧ size `mod` 28 = 0 ∧ backed (lenZ data) rva sections o
         ∧ o + size ≤ lenZ data ∧ offsets = range o (o + size) 28).

(** The header fields of the file. *)
Definition pe_offset_of (data : bytes) : Z := field data 0x3c 0x40.
Definition coff (data : bytes) (i j : Z) : Z :=
  field data (pe_offset_of data + i) (pe_offset_of data + j).
Definition optional_size_of (data : bytes) : Z := coff data 20 22.
Definition rows_of (data : bytes) : list Z :=
  section_rows (pe_offset_of data + 24 + optional_size_of data) (coff data 6 8).
Definition sections_of (data : bytes) : list pe_section := section_at data <$> rows_of data.
Definition names_of (data : bytes) : list str := section_name_at data <$> rows_of data.

Record pe_image (data : bytes) (offsets : list Z) : Prop := {
  img_dos : 0x40 ≤ lenZ data ∧ slice 0 2 data = b "MZ";
  img_signature : pe_offset_of data + 24 ≤ lenZ data
    ∧ slice (pe_offset_of data) (pe_offset_of data + 4) data = b "PE" ++ [x00; x00];
  img_machine : coff data 4 6 = 0x8664 ∧ coff data 24 26 = 0x20B;
  img_optional : 112 ≤ optional_size_of data
    ∧ pe_offset_of data + 24 + optional_size_of data ≤ lenZ data;
  img_sections :
    pe_offset_of data + 24 + optional_size_of data + coff data 6 8 * 40 ≤ lenZ data;
  img_directory :
    coff data 132 136 ≤ 6 ∧ offsets = []
    ∨ 6 < coff data 132 136
      ∧ debug_offsets data (sections_of data) (pe_offset_of data + 184)
          (pe_offset_of data + 24 + optional_size_of data) offsets;
  img_records : Forall (λ o, debug_ok data (sections_of data) (debug_at data o)) offsets;
}.

(** Nothing for a debugger is left in the image. *)
Record no_debug (data : bytes) (offsets : list Z) : Prop := {
  nd_symbols : coff data 12 16 = 0 ∧ coff data 16 20 = 0;
  nd_records : Forall (λ o, d_type (debug_at data o) ≠ 2 ∧ d_type (debug_at data o) ≠ 17) offsets;
  nd_names : Forall (λ name, starts_with (u ".debug$") name = false) (names_of data);
}.

(** ** The readers *)

Lemma pe_rva_Ok data rva sections o :
  pe_rva_to_file_offset data rva sections = Ok o ↔ backed (lenZ data) rva sections o.
Proof.
  induction sections as [|s l IH]; cbn; [split; [done|by inversion 1]|].
  destruct (covers s rva) eqn:Hc.
  - case_match eqn:Hb.
    + split; [done|]. inversion 1 as [? ? Hc' Hr|]; [|congruence]. apply orb_true_iff in Hb as [Hb|Hb];
        apply Z.ltb_lt in Hb; lia.
    + apply orb_false_iff in Hb as [?%Z.ltb_ge ?%Z.ltb_ge]. split.
      * intros [= <-]. constructor; [done|lia].
      * by inversion 1; [|congruence].
  - rewrite IH. split; [by constructor|]. by inversion 1; [congruence|].
Qed.

Lemma pe_rva_raises data rva sections :
  raises_only is_audit_error (pe_rva_to_file_offset data rva sections).
Proof.
  induction sections as [|s l IH]; cbn; [by eexists|].
  repeat case_match; [by eexists|done|apply IH].
Qed.

Lemma backed_nonneg size rva l o : backed size rva l o → 0 ≤ o ≤ size.
Proof. induction 1; lia. Qed.

(** The entry at an offset of the directory is read whole. *)
Lemma debug_unpack data o : o + 28 ≤ lenZ data →
  ∃ values, unpack_from [U32; U32; U16; U16; U32; U32; U32; U32] data o = Ok values
    ∧ drop 4 values = [d_type (debug_at data o); d_size (debug_at data o);
                       d_address (debug_at data o); d_pointer (debug_at data o)].
Proof.
  intros Ho. eexists. split; [by apply unpack_from_fits; cbn; lia|].
  cbn -[field Z.add]. by rewrite <- !Z.add_assoc.
Qed.

Lemma debug_entry_Ok data sections types o types' : o + 28 ≤ lenZ data →
  debug_entry data sections types o = Ok types' ↔
  debug_ok data sections (debug_at data o) ∧ types' = {[d_type (debug_at data o)]} ∪ types.
Proof.
  intros Ho. destruct (debug_unpack data o Ho) as (values & Hu & Hv). unfold debug_entry.
  rewrite Hu. cbn -[fail_if drop]. rewrite Hv. unfold debug_ok.
  destruct (Z.eqb_spec (d_size (debug_at data o)) 0) as [->|Hz]; cbn [negb].
  { split; [intros [= <-]; auto|by intros [_ ->]]. }
  rewrite fail_if_then, Z.ltb_ge.
  destruct (Z.eqb_spec (d_address (debug_at data o)) 0) as [->|Ha]; cbn [negb].
  { split; [intros [? [= <-]]; auto|intros [[?|[? _]] ->]; done]. }
  rewrite bind_Ok. setoid_rewrite pe_rva_Ok. split.
  - intros (? & a & ? & [= <-]). split; [|done]. right. split; [done|]. right. eauto.
  - intros [[?|[? [?|[a ?]]]] ->]; try done. eauto.
Qed.

Lemma debug_entry_raises data sections types o : o + 28 ≤ lenZ data →
  raises_only is_audit_error (debug_entry data sections types o).
Proof.
  intros Ho. destruct (debug_unpack data o Ho) as (values & Hu & Hv). unfold debug_entry.
  rewrite Hu. cbn -[fail_if drop]. rewrite Hv. audit_raises. apply pe_rva_raises.
Qed.

Lemma debug_entries_Ok data sections types offsets types' :
  Forall (λ o, o + 28 ≤ lenZ data) offsets →
  fold_res (debug_entry data sections) types offsets = Ok types' ↔
  Forall (λ o, debug_ok data sections (debug_at data o)) offsets
  ∧ types' = list_to_set (d_type ∘ debug_at data <$> offsets) ∪ types.
Proof.
  intros Hf. revert types. induction Hf as [|o offsets Ho _ IH]; intros types; cbn.
  - rewrite (left_id_L ∅ (∪)). split; [intros [= ->]; by split|by intros [_ ->]].
  - rewrite bind_Ok. setoid_rewrite (debug_entry_Ok _ _ _ _ _ Ho). setoid_rewrite IH.
    rewrite Forall_cons. split.
    + intros (? & [? ->] & ? & ->). split; [done|]. set_solver.
    + intros [[? ?] ->]. eexists. split; [done|]. split; [done|]. set_solver.
Qed.

(** The rows of a directory in the file are in the file. *)
Lemma rows_in_file (data : bytes) o size : size `mod` 28 = 0 → o + size ≤ lenZ data →
  Forall (λ o', o' + 28 ≤ lenZ data) (range o (o + size) 28).
Proof.
  intros Hm Hs. apply Forall_forall. intros o' (i & Hi & -> & Hlt)%elem_of_range; [|lia].
  pose proof (Z.div_mod size 28 ltac:(lia)). nia.
Qed.

Lemma debug_directory_Ok data sections optional optional_size types :
  debug_directory data sections optional optional_size = Ok types ↔
  ∃ offsets,
    debug_offsets data sections (optional + 160) (optional + optional_size) offsets
    ∧ Forall (λ o, debug_ok data sections (debug_at data o)) offsets
    ∧ types = list_to_set (d_type ∘ debug_at data <$> offsets).
Proof.
  unfold debug_directory, debug_offsets.
  replace (optional + 112 + 6 * 8) with (optional + 160) by lia.
  rewrite fail_if_then, Z.ltb_ge.
  set (rva := field data (optional + 160) _). set (size := field data _ _).
  destruct ((rva =? 0) && (size =? 0)) eqn:Hz.
  { apply andb_true_iff in Hz as [Hr%Z.eqb_eq Hs%Z.eqb_eq]. split.
    - intros [? [= <-]]. exists []. split; [|by split]. split; [done|]. by left.
    - intros (offsets & [? [(_ & _ & ->)|(o & ? & _)]] & _ & ->); done. }
  rewrite fail_if_then, bind_Ok. setoid_rewrite pe_rva_Ok.
  setoid_rewrite fail_if_then. setoid_rewrite Z.ltb_ge. split.
  - intros (? & Hf & o & Hb & Hl & Hfold).
    apply orb_false_iff in Hf as [[Hr%Z.eqb_neq Hs%Z.ltb_ge]%orb_false_iff Hm].
    apply negb_false_iff, Z.eqb_eq in Hm.
    rewrite debug_entries_Ok, (right_id_L ∅ (∪)) in Hfold by by apply rows_in_file.
    destruct Hfold as [? ->]. eexists. split; [|by split]. split; [done|]. right. by exists o.
  - intros (offsets & [? [(? & ? & ->)|(o & ? & ? & Hm & ? & ? & ->)]] & Hok & ->).
    { exfalso. apply andb_false_iff in Hz as [Hz%Z.eqb_neq|Hz%Z.eqb_neq]; done. }
    split; [done|]. split.
    { rewrite Hm, (proj2 (Z.eqb_neq _ _)), (proj2 (Z.ltb_ge _ _)) by done. done. }
    exists o. split_and!; [done..|].
    by rewrite debug_entries_Ok, (right_id_L ∅ (∪)) by by apply rows_in_file.
Qed.

Lemma pe_debug_types_Ok data types names :
  pe_debug_types data (pe_offset_of data) (optional_size_of data) = Ok (types, names) ↔
  ∃ offsets,
    (112 ≤ optional_size_of data ∧ pe_offset_of data + 24 + optional_size_of data ≤ lenZ data)
    ∧ pe_offset_of data + 24 + optional_size_of data + coff data 6 8 * 40 ≤ lenZ data
    ∧ (coff data 132 136 ≤ 6 ∧ offsets = []
       ∨ 6 < coff data 132 136
         ∧ debug_offsets data (sections_of data) (pe_offset_of data + 184)
             (pe_offset_of data + 24 + optional_size_of data) offsets)
    ∧ Forall (λ o, debug_ok data (sections_of data) (debug_at data o)) offsets
    ∧ names = names_of data
    ∧ types = list_to_set (d_type ∘ debug_at data <$> offsets).
Proof.
  unfold pe_debug_types, coff, sections_of, names_of, rows_of.
  replace (pe_offset_of data + 24 + 108) with (pe_offset_of data + 132) by lia.
  replace (pe_offset_of data + 24 + 112) with (pe_offset_of data + 136) by lia.
  replace (pe_offset_of data + 4 + 2) with (pe_offset_of data + 6) by lia.
  replace (pe_offset_of data + 4 + 4) with (pe_offset_of data + 8) by lia.
  rewrite !fail_if_then, orb_false_iff, !Z.ltb_ge.
  case_match eqn:Hd; [apply Z.leb_le in Hd|apply Z.leb_gt in Hd].
  - split.
    + intros ([? ?] & ? & [= <- <-]). exists [].
      split_and!; [done..|by left|by constructor|done|done].
    + intros (offsets & ? & ? & [[_ ->]|[? _]] & _ & -> & ->); [done|lia].
  - rewrite bind_Ok. setoid_rewrite debug_directory_Ok.
    replace (pe_offset_of data + 24 + 160) with (pe_offset_of data + 184) by lia. split.
    + intros ([? ?] & ? & types' & (offsets & ? & ? & ->) & [= <- <-]). exists offsets.
      split_and!; try done. by right.
    + intros (offsets & ? & ? & [[? _]|[_ ?]] & ? & -> & ->); [lia|].
      split; [done|]. split; [done|]. eexists. split; [|done]. by exists offsets.
Qed.

(** ** The audit *)

Lemma no_debug_types data offsets (n : Z) :
  n ∈ (list_to_set (d_type ∘ debug_at data <$> offsets) : gset Z) ↔
  ∃ o, o ∈ offsets ∧ d_type (debug_at data o) = n.
Proof.
  rewrite elem_of_list_to_set, list_elem_of_fmap. split; intros (o & ? & ?); exists o; auto.
Qed.

Lemma audit_pe_Ok data reject :
  audit_pe_x64_bytes data reject = Ok tt ↔
  ∃ offsets, pe_image data offsets ∧ (reject = true → no_debug data offsets).
Proof.
  unfold audit_pe_x64_bytes. fold (pe_offset_of data). fold (optional_size_of data).
  rewrite !fail_if_then, bind_Ok, !orb_false_iff, !negb_false_iff, !bool_decide_eq_true,
    !Z.ltb_ge, !Z.eqb_eq.
  split.
  - intros (Hdos & [[_ Hs1] Hs2] & Hm & [types names] & Hd & Hr).
    change (field data (pe_offset_of data + 20) (pe_offset_of data + 22))
      with (optional_size_of data) in Hd.
    apply pe_debug_types_Ok in Hd as (offsets & ? & ? & ? & ? & -> & ->).
    exists offsets. split; [by constructor|]. intros ->.
    rewrite !fail_if_then, fail_if_Ok, orb_false_iff, !negb_false_iff, !Z.eqb_eq,
      !bool_decide_eq_false, !no_debug_types, existsb_false in Hr.
    destruct Hr as (? & Hcv & Hem & Hn). constructor; [done| |by apply Forall_forall].
    apply Forall_forall. intros o Ho. split; intros ?; [apply Hcv|apply Hem]; eauto.
  - intros (offsets & [? [Hs1 Hs2] Hm ? ? ? ?] & Hr). split; [done|]. split; [|split; [done|]].
    { split; [|done]. split; [|done]. apply field_bound. lia. }
    exists (list_to_set (d_type ∘ debug_at data <$> offsets), names_of data).
    split; [apply pe_debug_types_Ok; by exists offsets|].
    destruct reject; [|done]. destruct Hr as [[? ?] Hrec Hn]; [done|].
    rewrite Forall_forall in Hrec. pose proof (proj1 (Forall_forall _ _) Hn) as Hn'.
    rewrite !fail_if_then, fail_if_Ok, orb_false_iff, !negb_false_iff, !Z.eqb_eq,
      !bool_decide_eq_false, !no_debug_types, existsb_false.
    split_and!; try done; intros (o & Ho & Ht); by destruct (Hrec o Ho).
Qed.

Lemma debug_directory_raises data sections optional optional_size :
  raises_only is_audit_error (debug_directory data sections optional optional_size).
Proof.
  unfold debug_directory. audit_raises; [apply pe_rva_raises|].
  apply raises_fold_elem. intros types o Ho. apply debug_entry_raises.
  audit_inv. bool_prop.
  by eapply (proj1 (Forall_forall _ _)) in Ho; [|apply rows_in_file; [|done]].
Qed.

Lemma audit_pe_raises data reject :
  raises_only is_audit_error (audit_pe_x64_bytes data reject).
Proof.
  unfold audit_pe_x64_bytes, pe_debug_types. audit_raises. apply debug_directory_raises.
Qed.

(** ** Properties *)

(** C26. [audit_pe_x64_bytes] accepts a file exactly when it is a PE32+ x64 image: DOS and PE
    signatures, machine and magic, optional header and section table inside the file, and a
    debug directory that is absent or a whole number of records, located by the first
    section that covers its address, each record with its payload inside the file; with
    [reject_debug_payload], when moreover the COFF symbol table is empty, no record has the
    type CodeView (2) or embedded (17) and no section name starts with [.debug$]. *)
Theorem pe_accepts_exactly data reject :
  audit_pe_x64_bytes data reject = Ok tt ↔
  ∃ offsets, pe_image data offsets ∧ (reject = true → no_debug data offsets).
Proof. apply audit_pe_Ok. Qed.

