(* ===== verification/AuditMacho.v ===== *)
(** * macOS executables: [scripts/audit-artifact.py], [macho_load_commands] to
    [audit_darwin_dylibs]

    The load commands of a thin arm64 Mach-O image, the libraries they name and the
    deployment target, read from the bytes of the file. *)

From S2P Require Import Prelude PyStr Codec PyPath Struct AuditBase.

Local Open Scope Z_scope.

Definition MACHO_DYLIB_COMMANDS : gset Z :=
  {[0x0000000C; 0x80000018; 0x8000001F; 0x00000020; 0x80000023]}.
Definition MACHO_CPU_TYPE_ARM64 : Z := 0x0100000C.
Definition DARWIN_SYSTEM_DYLIB_PREFIXES : list str :=
  [u "/usr/lib/"; u "/System/Library/Frameworks/"].
Definition DARWIN_DEPLOYMENT_TARGET : str := u "11.0".
Definition libSystem : str := u "/usr/lib/libSystem.B.dylib".
Definition DARWIN_REQUIRED_DYLIBS : gset str :=
  {[libSystem; u "/System/Library/Frameworks/IOKit.framework/Versions/A/IOKit"]}.

(** A load command: its kind, its offset and its size. *)
Record command := Command { cmd : Z; offset : Z; cmdsize : Z }.

(** The [for _ in range(ncmds)] loop. *)
Fixpoint load_commands (ncmds : nat) (data : bytes) (at_ end_ : Z) : res (list command) :=
  match ncmds with
  | O => Ok []
  | S ncmds =>
      fail_if (end_ <? at_ + 8) "macOS load command table is truncated" ;;
      values ← unpack_from [U32; U32] data at_;
      match values with
      | [cmd; cmdsize] =>
          fail_if ((cmdsize <? 8) || (end_ <? at_ + cmdsize))
            "macOS load command has an invalid size" ;;
          commands ← load_commands ncmds data (at_ + cmdsize) end_;
          Ok (Command cmd at_ cmdsize :: commands)
      | _ => Err (ValueError "not enough values to unpack")
      end
  end.

Definition macho_load_commands (data : bytes) : res (list command) :=
  fail_if (lenZ data <? 32) "macOS binary is too short for a Mach-O header" ;;
  values ← unpack_from [U32; I32; I32; U32; U32; U32] data 0;
  match values with
  | [magic; cputype; _; _; ncmds; sizeofcmds] =>
      fail_if (negb (magic =? 0xFEEDFACF)) "macOS binary is not a thin 64-bit Mach-O" ;;
      fail_if (negb (cputype =? MACHO_CPU_TYPE_ARM64)) "macOS binary is not arm64" ;;
      let end_ := 32 + sizeofcmds in
      fail_if (lenZ data <? end_) "macOS load commands exceed the file" ;;
      load_commands (Z.to_nat ncmds) data 32 end_
  | _ => Err (ValueError "not enough values to unpack")
  end.

(** The fields of a command after its kind and size. *)
Definition command_fields (data : bytes) (format : list code) (c : command) : res (list Z) :=
  unpack_from format data (offset c + 8).

Definition dylib_step (data : bytes) (names : list str) (c : command) : res (list str) :=
  if bool_decide (cmd c ∈ MACHO_DYLIB_COMMANDS) then
    fail_if (cmdsize c <? 24) "macOS dylib load command is truncated" ;;
    values ← command_fields data [U32] c;
    match values with
    | [name_offset] =>
        fail_if (negb ((24 <=? name_offset) && (name_offset <? cmdsize c)))
          "macOS dylib load command has an invalid name offset" ;;
        let raw := until_nul (slice (offset c + name_offset) (offset c + cmdsize c) data) in
        name ← of_option (AuditError "macOS dylib install name is not UTF-8") (decode_utf8 raw);
        Ok (names ++ [name])
    | _ => Err (ValueError "not enough values to unpack")
    end
  else Ok names.

Definition darwin_dylibs (data : bytes) : res (list str) :=
  commands ← macho_load_commands data;
  fold_res (dylib_step data) [] commands.

(** The two numbers of a version word, as text. *)
Definition minos_text (minos : Z) : str :=
  dec_Z (Z.shiftr minos 16) ++ u "." ++ dec_Z (Z.land (Z.shiftr minos 8) 0xFF).

Definition minos_step (data : bytes) (versions : list str) (c : command) : res (list str) :=
  if cmd c =? 0x32 then
    fail_if (cmdsize c <? 24) "macOS LC_BUILD_VERSION is truncated" ;;
    values ← command_fields data [U32; U32] c;
    match values with
    | [platform; minos] =>
        fail_if (negb (platform =? 1)) "macOS binary is not built for the macOS platform" ;;
        Ok (versions ++ [minos_text minos])
    | _ => Err (ValueError "not enough values to unpack")
    end
  else Ok versions.

Definition darwin_minos (data : bytes) : res str :=
  commands ← macho_load_commands data;
  versions ← fold_res (minos_step data) [] commands;
  match versions with
  | [version] => Ok version
  | _ => fail "macOS binary must contain exactly one LC_BUILD_VERSION"
  end.

Section dylibs.
Context `{Lower}.

(** The system images a program must load. *)
Definition required_dylibs (label : str) : gset str :=
  if bool_decide (path_name label ∈ [u "sianoctl"; u "siano-ts"])
  then {[libSystem]} else DARWIN_REQUIRED_DYLIBS.

Definition audit_dylib (name : str) : res unit :=
  fail_if (contains (u "libusb") (str_lower name))
    "macOS binary loads a libusb dylib instead of linking it statically" ;;
  fail_if (negb (existsb (λ prefix, starts_with prefix name) DARWIN_SYSTEM_DYLIB_PREFIXES))
    "macOS binary loads a non-system dylib".

Definition audit_darwin_dylibs (names : list str) (label : str) : res unit :=
  for_each audit_dylib names ;;
  fail_if (negb (bool_decide (required_dylibs label ∖ list_to_set names = ∅)))
    "macOS binary lacks the system images static libusb needs".

Definition audit_darwin_macho (data : bytes) (label : str) : res unit :=
  names ← darwin_dylibs data;
  audit_darwin_dylibs names label ;;
  minos ← darwin_minos data;
  fail_if (negb (bool_decide (minos = DARWIN_DEPLOYMENT_TARGET)))
    "macOS binary has the wrong minimum version".
End dylibs.
