(* ===== verification/AuditMachoProps.v ===== *)
(** * What an accepted macOS executable is

    The load commands tile a prefix of the command area, which lies in the file; every
    library they load is a system image and the only build version is macOS 11.0.  Every
    rejection is an audit error. *)

From S2P Require Import Prelude PyStr Codec PyPath Struct AuditBase AuditMacho.

Local Open Scope Z_scope.

(** ** The image, declaratively *)

(** [tiles data end_ at_ commands]: from [at_] on the commands follow each other, each at
    least 8 bytes and inside the area that ends at [end_]. *)
Inductive tiles (data : bytes) (end_ : Z) : Z → list command → Prop :=
| tiles_nil at_ : tiles data end_ at_ []
| tiles_cons at_ c l :
    offset c = at_ → cmd c = field data at_ (at_ + 4) →
    cmdsize c = field data (at_ + 4) (at_ + 8) →
    8 ≤ cmdsize c → at_ + cmdsize c ≤ end_ →
    tiles data end_ (at_ + cmdsize c) l → tiles data end_ at_ (c :: l).

Definition command_end (data : bytes) : Z := 32 + field data 20 24.

Record macho_image (data : bytes) (commands : list command) : Prop := {
  mi_header : 32 ≤ lenZ data ∧ field data 0 4 = 0xFEEDFACF
    ∧ field data 4 8 = MACHO_CPU_TYPE_ARM64;
  mi_end : command_end data ≤ lenZ data;
  mi_count : lenZ commands = field data 16 20;
  mi_tiles : tiles data (command_end data) 32 commands;
}.

(** The name a library command gives. *)
Definition install_name (data : bytes) (c : command) : option str :=
  let name_offset := field data (offset c + 8) (offset c + 12) in
  guard (24 ≤ name_offset < cmdsize c) ;;
  decode_utf8 (until_nul (slice (offset c + name_offset) (offset c + cmdsize c) data)).

Definition is_dylib (c : command) : Prop := cmd c ∈ MACHO_DYLIB_COMMANDS.
Definition is_build_version (c : command) : Prop := cmd c = 0x32.

(** ** The load commands *)

Lemma tiles_end data end_ at_ l : tiles data end_ at_ l → 0 ≤ at_ → at_ ≤ end_ →
  at_ + 8 * lenZ l ≤ end_ ∧ Forall (λ c, 0 ≤ offset c ∧ 8 ≤ cmdsize c ∧ offset c + cmdsize c ≤ end_) l.
Proof.
  unfold lenZ. induction 1 as [at_|at_ c l Ho _ _ H8 He _ IH]; intros H0 Hle.
  - cbn. split; [lia|constructor].
  - destruct IH as [IH1 IH2]; [lia..|]. cbn [length]. split; [lia|]. constructor; [lia|done].
Qed.

Lemma tiles_start data end_ at_ l : tiles data end_ at_ l → Forall (λ c, at_ ≤ offset c) l.
Proof.
  induction 1 as [at_|at_ c l Ho _ _ H8 _ _ IH]; constructor; [lia|].
  eapply Forall_impl; [done|]. cbn. lia.
Qed.

Lemma load_commands_Ok n data at_ end_ l : end_ ≤ lenZ data →
  load_commands n data at_ end_ = Ok l ↔ tiles data end_ at_ l ∧ length l = n.
Proof.
  intros Hend. revert at_ l. induction n as [|n IH]; intros at_ l; cbn -[unpack_from Z.add].
  - split; [intros [= <-]; by split; [constructor|]|].
    by intros [_ ->%nil_length_inv].
  - rewrite fail_if_then, Z.ltb_ge. split.
    + intros [Ha H]. rewrite unpack_from_fits in H by (cbn; lia). cbn -[Z.add fail_if] in H.
      rewrite fail_if_then, bind_Ok in H. destruct H as (Hs & l' & [Ht <-]%IH & [= <-]).
      apply orb_false_iff in Hs as [?%Z.ltb_ge ?%Z.ltb_ge]. rewrite <- Z.add_assoc in *.
      split; [|done]. by constructor.
    + intros [Ht Hl]. destruct Ht as [|at_ c l Ho Hc Hs H8 He Ht]; [done|]. injection Hl as Hl.
      split; [lia|]. rewrite unpack_from_fits by (cbn; lia). cbn -[Z.add fail_if].
      rewrite <- Z.add_assoc. change (4 + 4) with 8. rewrite <- Hs, <- Hc.
      rewrite (proj2 (Z.ltb_ge _ _) H8), (proj2 (Z.ltb_ge _ _) He). cbn.
      rewrite (proj2 (IH _ _) (conj Ht Hl)). cbn. rewrite <- Ho. by destruct c.
Qed.

Lemma load_commands_raises n data at_ end_ : end_ ≤ lenZ data →
  raises_only is_audit_error (load_commands n data at_ end_).
Proof.
  intros Hend. revert at_. induction n as [|n IH]; intros at_; [done|].
  cbn -[unpack_from]. destruct (Z.ltb_spec end_ (at_ + 8)); [by eexists|].
  rewrite unpack_from_fits by (cbn; lia). cbn -[Z.add]. destruct (_ || _); [by eexists|].
  apply (raises_bind _ (load_commands _ _ _ _)); [apply IH|done].
Qed.

Lemma signed32_pos n m : 0 ≤ n < 2 ^ 32 → 0 ≤ m < 2 ^ 31 → signed32 n = m ↔ n = m.
Proof. intros ??. unfold signed32. destruct (Z.ltb_spec n (2 ^ 31)); lia. Qed.

Lemma header_values (data : bytes) : 32 ≤ lenZ data →
  unpack_from [U32; I32; I32; U32; U32; U32] data 0
  = Ok [field data 0 4; signed32 (field data 4 8); signed32 (field data 8 12);
        field data 12 16; field data 16 20; field data 20 24].
Proof. intros H. by rewrite unpack_from_fits by (cbn; lia). Qed.

Lemma macho_load_commands_Ok data commands :
  macho_load_commands data = Ok commands ↔ macho_image data commands.
Proof.
  unfold macho_load_commands. rewrite fail_if_then, Z.ltb_ge.
  assert (signed32 (field data 4 8) = MACHO_CPU_TYPE_ARM64
          ↔ field data 4 8 = MACHO_CPU_TYPE_ARM64) as Hcpu
    by (apply signed32_pos; [apply (field_u32 data 4)|by split]).
  pose proof (field_u32 data 16) as H16. change (16 + 4) with 20 in H16. split.
  - intros [H32 H]. rewrite header_values in H by done. cbn -[fail_if] in H.
    rewrite !fail_if_then, !negb_false_iff, !Z.eqb_eq, Z.ltb_ge, Hcpu in H.
    destruct H as (Hm & Hc & He & [Ht Hn]%load_commands_Ok); [|done].
    constructor; [done|done| |done]. unfold lenZ. lia.
  - intros [(H32 & Hm & Hc) He Hn Ht]. split; [done|]. rewrite header_values by done.
    cbn -[fail_if]. rewrite !fail_if_then, !negb_false_iff, !Z.eqb_eq, Z.ltb_ge, Hcpu.
    split_and!; [done..|]. apply load_commands_Ok; [done|]. split; [done|]. unfold lenZ in Hn. lia.
Qed.

Lemma macho_load_commands_raises data : raises_only is_audit_error (macho_load_commands data).
Proof.
  unfold macho_load_commands. destruct (Z.ltb_spec (lenZ data) 32); [by eexists|].
  rewrite header_values by done. cbn -[fail_if]. audit_raises.
  audit_inv. bool_prop. by apply load_commands_raises.
Qed.

(** Every field the later passes read of a command of 24 bytes is in the file. *)
Lemma command_fields_fit data commands c format : macho_image data commands → c ∈ commands →
  24 ≤ cmdsize c → calcsize format ≤ 16 →
  command_fields data format c = Ok (unpack format data (offset c + 8)).
Proof.
  intros [_ He _ Ht] Hc H24 Hf. unfold command_fields.
  apply tiles_end in Ht as [_ Hall]; [|lia|]; [|pose proof (field_u32 data 20) as H; unfold command_end;
    change (20 + 4) with 24 in H; lia].
  rewrite Forall_forall in Hall. apply Hall in Hc. apply unpack_from_fits. lia.
Qed.

(** ** The libraries *)

Section commands.
Context (data : bytes).

(** A command whose fields can be read when it has 24 bytes. *)
Definition readable (c : command) : Prop :=
  24 ≤ cmdsize c → ∀ format, calcsize format ≤ 16 →
  command_fields data format c = Ok (unpack format data (offset c + 8)).

Lemma image_readable commands : macho_image data commands → Forall readable commands.
Proof. intros H. apply Forall_forall. intros c Hc H24 format. by eapply command_fields_fit. Qed.

Lemma dylib_step_Ok names c names' : readable c →
  dylib_step data names c = Ok names' ↔
  if decide (is_dylib c) then ∃ name, install_name data c = Some name ∧ names' = names ++ [name]
  else names' = names.
Proof.
  intros Hr. unfold dylib_step, is_dylib. case_bool_decide as Hd;
    [rewrite decide_True by done|rewrite decide_False by done; naive_solver].
  rewrite fail_if_then, Z.ltb_ge. unfold install_name. split.
  - intros [H24 H]. rewrite (Hr H24) in H by done. cbn -[fail_if Z.add until_nul] in H.
    rewrite <- Z.add_assoc in H. change (8 + 4) with 12 in H.
    rewrite fail_if_then, negb_false_iff, bind_Ok in H.
    destruct H as (Hg & name & Hn%of_option_Ok & [= <-]). bool_prop.
    exists name. split; [|done]. by rewrite option_guard_True.
  - intros (name & Hn & ->). apply bind_Some in Hn as (Hg & _ & Hn).
    split; [lia|]. rewrite (Hr ltac:(lia)) by done. cbn -[fail_if Z.add until_nul].
    rewrite <- Z.add_assoc. change (8 + 4) with 12.
    rewrite (proj2 (Z.leb_le _ _) (proj1 Hg)), (proj2 (Z.ltb_lt _ _) (proj2 Hg)). cbn.
    by rewrite Hn.
Qed.

Lemma dylibs_Ok names commands names' : Forall readable commands →
  fold_res (dylib_step data) names commands = Ok names' ↔
  ∃ new, mapM (install_name data) (filter is_dylib commands) = Some new ∧ names' = names ++ new.
Proof.
  intros Hf. revert names. induction Hf as [|c l Hc _ IH]; intros names; cbn [fold_res].
  - split; [intros [= ->]; exists []; by rewrite app_nil_r|].
    intros (? & [= <-] & ->). by rewrite app_nil_r.
  - rewrite bind_Ok. setoid_rewrite (dylib_step_Ok _ _ _ Hc). setoid_rewrite IH.
    rewrite filter_cons. destruct (decide (is_dylib c)); cbn [mapM]; [|naive_solver].
    split.
    + intros (? & (name & Hn & ->) & new & Hm & ->). exists (name :: new).
      rewrite Hn. cbn. rewrite Hm. cbn. by rewrite <- app_assoc.
    + intros (new & (name & Hn & (new' & Hm & [= <-])%bind_Some)%bind_Some & ->).
      eexists. split; [by eexists|]. exists new'. by rewrite <- app_assoc.
Qed.

(** ** The deployment target *)

Definition minos_at (c : command) : Z := field data (offset c + 12) (offset c + 16).
Definition macos_build (c : command) : Prop :=
  24 ≤ cmdsize c ∧ field data (offset c + 8) (offset c + 12) = 1.

Lemma minos_step_Ok versions c versions' : readable c →
  minos_step data versions c = Ok versions' ↔
  if decide (is_build_version c)
  then macos_build c ∧ versions' = versions ++ [minos_text (minos_at c)] else versions' = versions.
Proof.
  intros Hr. unfold minos_step, is_build_version, macos_build, minos_at.
  destruct (Z.eqb_spec (cmd c) 0x32);
    [rewrite decide_True by done|rewrite decide_False by done; naive_solver].
  rewrite fail_if_then, Z.ltb_ge.
  enough (24 ≤ cmdsize c →
    (values ← command_fields data [U32; U32] c;
     match values with
     | [platform; minos] =>
         fail_if (negb (platform =? 1)) "macOS binary is not built for the macOS platform" ;;
         Ok (versions ++ [minos_text minos])
     | _ => Err (ValueError "not enough values to unpack")
     end) = Ok versions' ↔
    field data (offset c + 8) (offset c + 12) = 1
    ∧ versions' = versions ++ [minos_text (field data (offset c + 12) (offset c + 16))]) by tauto.
  intros H24. rewrite (Hr H24) by done. cbn -[fail_if Z.add minos_text].
  rewrite fail_if_then, negb_false_iff, Z.eqb_eq, <- !Z.add_assoc.
  change (8 + 4) with 12. change (12 + 4) with 16. naive_solver.
Qed.

Lemma minos_Ok versions commands versions' : Forall (readable) commands →
  fold_res (minos_step data) versions commands = Ok versions' ↔
  Forall macos_build (filter is_build_version commands)
  ∧ versions' = versions ++ (minos_text ∘ minos_at <$> filter is_build_version commands).
Proof.
  intros Hf. revert versions. induction Hf as [|c l Hc _ IH]; intros versions; cbn [fold_res].
  - rewrite filter_nil. cbn. rewrite app_nil_r. split; [intros [= ->]; by split|by intros [_ ->]].
  - rewrite bind_Ok. setoid_rewrite (minos_step_Ok _ _ _ Hc). setoid_rewrite IH.
    rewrite filter_cons. destruct (decide (is_build_version c)); [|naive_solver].
    rewrite fmap_cons, Forall_cons. split.
    + intros (? & [? ->] & ? & ->). by rewrite <- app_assoc.
    + intros [[? ?] ->]. eexists. split; [by split|]. by rewrite <- app_assoc.
Qed.
End commands.

Lemma minos_text_target m : 0 ≤ m < 2 ^ 32 →
  minos_text m = DARWIN_DEPLOYMENT_TARGET ↔ Z.shiftr m 16 = 11 ∧ Z.land (Z.shiftr m 8) 0xFF = 0.
Proof.
  intros Hm. assert (0 ≤ Z.shiftr m 16) by (apply Z.shiftr_nonneg; lia).
  assert (0 ≤ Z.land (Z.shiftr m 8) 0xFF) by (apply Z.land_nonneg; lia).
  unfold minos_text. split; [|by intros [-> ->]]. intros Heq.
  change DARWIN_DEPLOYMENT_TARGET with (dec_Z 11 ++ 46%N :: dec_Z 0) in Heq.
  change (u ".") with [46%N] in Heq. cbn [app] in Heq.
  apply (split_unique (λ c, is_digit c = true)) in Heq as [?%dec_Z_inj ?%dec_Z_inj];
    try done; by apply dec_Z_nonneg.
Qed.

(** ** The audit *)

(** Every library is a system image, none of them libusb, and those needed are loaded. *)
Record system_dylibs `{Lower} (label : str) (names : list str) : Prop := {
  sd_libusb : Forall (λ name, contains (u "libusb") (str_lower name) = false) names;
  sd_system : Forall (λ name, ∃ prefix rest, prefix ∈ DARWIN_SYSTEM_DYLIB_PREFIXES
                                             ∧ name = prefix ++ rest) names;
  sd_required : required_dylibs label ⊆ list_to_set names;
}.

Lemma audit_dylibs_Ok `{Lower} names label r :
  audit_darwin_dylibs names label = Ok r ↔ system_dylibs label names.
Proof.
  unfold audit_darwin_dylibs. rewrite bind_Ok. setoid_rewrite for_each_Ok.
  setoid_rewrite fail_if_Ok. setoid_rewrite negb_false_iff. setoid_rewrite bool_decide_eq_true.
  assert (∀ name, audit_dylib name = Ok tt ↔
    contains (u "libusb") (str_lower name) = false ∧
    ∃ prefix rest, prefix ∈ DARWIN_SYSTEM_DYLIB_PREFIXES ∧ name = prefix ++ rest) as Hname.
  { intros name. unfold audit_dylib. rewrite fail_if_then, fail_if_Ok, negb_false_iff, existsb_elem.
    setoid_rewrite starts_with_spec. naive_solver. }
  setoid_rewrite Hname. setoid_rewrite Forall_and. split.
  - intros (? & [? ?] & ?). constructor; [done..|]. set_solver.
  - intros [? ? ?]. exists tt. split; [done|]. set_solver.
Qed.

Lemma darwin_dylibs_Ok data names :
  darwin_dylibs data = Ok names ↔ ∃ commands, macho_image data commands
    ∧ mapM (install_name data) (filter is_dylib commands) = Some names.
Proof.
  unfold darwin_dylibs. rewrite bind_Ok. setoid_rewrite macho_load_commands_Ok.
  split; intros (commands & Hi & H); exists commands; (split; [done|]).
  - apply dylibs_Ok in H as (? & ? & ->); [done|by apply image_readable].
  - apply (dylibs_Ok data); [by apply image_readable|]. eauto.
Qed.

Lemma darwin_minos_Ok data v :
  darwin_minos data = Ok v ↔ ∃ commands c, macho_image data commands
    ∧ filter is_build_version commands = [c] ∧ macos_build data c ∧ v = minos_text (minos_at data c).
Proof.
  unfold darwin_minos. rewrite bind_Ok. setoid_rewrite macho_load_commands_Ok. split.
  - intros (commands & Hi & H). apply bind_Ok in H as (versions & H & Hv).
    apply minos_Ok in H as [Hf ->]; [|by apply image_readable].
    destruct (filter is_build_version commands) as [|c [|? ?]] eqn:Hc; try done.
    injection Hv as <-. exists commands, c. rewrite Forall_singleton in Hf. by split_and!.
  - intros (commands & c & Hi & Hc & Hb & ->). exists commands. split; [done|].
    apply bind_Ok. eexists. split.
    + apply (minos_Ok data); [by apply image_readable|]. rewrite Hc.
      split; [by apply Forall_singleton|done].
    + done.
Qed.

(** The image has one set of load commands. *)
Lemma macho_image_unique data c1 c2 : macho_image data c1 → macho_image data c2 → c1 = c2.
Proof. rewrite <- !macho_load_commands_Ok. congruence. Qed.

Lemma audit_macho_Ok `{Lower} data label r :
  audit_darwin_macho data label = Ok r ↔
  ∃ commands names c, macho_image data commands
    ∧ mapM (install_name data) (filter is_dylib commands) = Some names
    ∧ system_dylibs label names
    ∧ filter is_build_version commands = [c] ∧ macos_build data c
    ∧ Z.shiftr (minos_at data c) 16 = 11 ∧ Z.land (Z.shiftr (minos_at data c) 8) 0xFF = 0.
Proof.
  unfold audit_darwin_macho. rewrite bind_Ok. setoid_rewrite darwin_dylibs_Ok.
  assert (∀ c, 0 ≤ minos_at data c < 2 ^ 32) as Hb.
  { intros c. unfold minos_at. replace (offset c + 16) with (offset c + 12 + 4) by lia.
    apply field_u32. }
  split.
  - intros (names & (commands & Hi & Hn) & Haudit).
    apply bind_Ok in Haudit as (? & Hd%audit_dylibs_Ok & Haudit).
    apply bind_Ok in Haudit as (v & (commands' & c & Hi' & Hc & Hbu & ->)%darwin_minos_Ok & Haudit).
    apply fail_if_Ok, negb_false_iff, bool_decide_eq_true, minos_text_target in Haudit; [|done].
    rewrite (macho_image_unique _ _ _ Hi' Hi) in Hc. by exists commands, names, c.
  - intros (commands & names & c & Hi & Hn & Hd & Hc & Hbu & Hm). exists names. split; [eauto|].
    apply bind_Ok. exists tt. split; [by apply audit_dylibs_Ok|].
    apply bind_Ok. eexists. split; [apply darwin_minos_Ok; by exists commands, c|].
    apply fail_if_Ok, negb_false_iff, bool_decide_eq_true, minos_text_target; done.
Qed.

(** Rejections: only audit errors. *)

Lemma darwin_dylibs_raises data : raises_only is_audit_error (darwin_dylibs data).
Proof.
  apply raises_bind; [apply macho_load_commands_raises|].
  intros commands Hi%macho_load_commands_Ok%image_readable. apply raises_fold_elem.
  intros names c Hc. rewrite Forall_forall in Hi. apply Hi in Hc as Hr.
  unfold dylib_step. case_bool_decide; [|done].
  destruct (Z.ltb_spec (cmdsize c) 24); [by eexists|]. rewrite Hr by done.
  cbn -[fail_if until_nul]. audit_raises.
Qed.

Lemma darwin_minos_raises data : raises_only is_audit_error (darwin_minos data).
Proof.
  apply raises_bind; [apply macho_load_commands_raises|].
  intros commands Hi%macho_load_commands_Ok%image_readable.
  apply raises_bind; [|intros versions _; audit_raises]. apply raises_fold_elem.
  intros versions c Hc. rewrite Forall_forall in Hi. apply Hi in Hc as Hr.
  unfold minos_step. case_match; [|done].
  destruct (Z.ltb_spec (cmdsize c) 24); [by eexists|]. rewrite Hr by done.
  cbn -[fail_if minos_text]. audit_raises.
Qed.

Lemma audit_macho_raises `{Lower} data label :
  raises_only is_audit_error (audit_darwin_macho data label).
Proof.
  unfold audit_darwin_macho, audit_darwin_dylibs, audit_dylib. audit_raises.
  - apply darwin_dylibs_raises.
  - apply raises_for_each. intros name _. audit_raises.
  - apply darwin_minos_raises.
Qed.

(** ** Properties *)

(** C28. [audit_darwin_macho] accepts a file exactly when it is a thin arm64 Mach-O whose
    [ncmds] load commands follow each other inside the command area of the file, every
    library command names a system image that does not contain [libusb], the images the
    program needs are among them, and the only build version is macOS 11.0. *)
Theorem macho_accepts_exactly `{Lower} data label :
  audit_darwin_macho data label = Ok tt ↔
  ∃ commands names c, macho_image data commands
    ∧ mapM (install_name data) (filter is_dylib commands) = Some names
    ∧ system_dylibs label names
    ∧ filter is_build_version commands = [c] ∧ macos_build data c
    ∧ Z.shiftr (minos_at data c) 16 = 11 ∧ Z.land (Z.shiftr (minos_at data c) 8) 0xFF = 0.
Proof. apply audit_macho_Ok. Qed.

(** C29. However large the [ncmds] of the header, [macho_load_commands] ends, returning or
    raising [AuditError]; what it returns lies in the file: each command is at least 8 bytes
    inside the command area, and there are at most [sizeofcmds / 8] of them. *)
Theorem load_commands_bounded data :
  raises_only is_audit_error (macho_load_commands data)
  ∧ ∀ commands, macho_load_commands data = Ok commands →
      8 * lenZ commands ≤ field data 20 24
      ∧ Forall (λ c, 32 ≤ offset c ∧ 8 ≤ cmdsize c ∧ offset c + cmdsize c ≤ lenZ data) commands.
Proof.
  split; [apply macho_load_commands_raises|].
  intros commands [_ He _ Ht]%macho_load_commands_Ok.
  pose proof (field_u32 data 20) as Hs. change (20 + 4) with 24 in Hs.
  unfold command_end in *. pose proof (tiles_start _ _ _ _ Ht) as Hst.
  apply tiles_end in Ht as [Hn Hall]; [|lia..]. split; [lia|].
  rewrite Forall_forall in *. intros c Hc. specialize (Hst c Hc). apply Hall in Hc. lia.
Qed.
