(* ===== verification/AuditText.v ===== *)
(** * Audits of what the binary tools print: [scripts/audit-artifact.py]

    [audit_elf_section_text], [audit_linux_elf_text], the checks of
    [audit_android_binary], [audit_darwin_load_commands] and
    [audit_darwin_optional_symbol_text], on the texts of [readelf], [otool] and [nm]. *)

From S2P Require Import Prelude PyStr Codec Regex PyRe Archive AuditBase.

Local Open Scope Z_scope.

(** The value of a decimal digit beyond ASCII. *)
Class Digits := { digit_value : N → Z }.

Section text.
Context `{Unicode} `{Digits} `{Lower}.

(** [\d] *)
Definition any_digit (c : N) : bool := is_digit c || (128 <=? c)%N && decimal_digit c.
Definition digits : pat := Some_ (Class_ any_digit).

(** [int(text)] on a run of decimal digits: a [ValueError] beyond the digit limit. *)
Definition int_of_digits (s : str) : res Z :=
  require (lenZ s <=? 4300) (ValueError "Exceeds the limit for integer string conversion") ;;
  Ok (foldl (λ n c, n * 10 + (if is_digit c then Z.of_N (c - 48) else digit_value c)) 0 s).

(** ** ELF *)

(** The name in a row of the section headers: ["[ 1] .text ..."]. *)
Definition section_row : pat :=
  Seq (Many space) (Seq (Text "[") (Seq (Many space) (Seq digits (Seq (Text "]")
    (Seq (Some_ space) (Group (Some_ nonspace))))))).

Definition section_names (section_headers : str) : list str :=
  omap (λ line, re_match section_row line ≫= head) (splitlines section_headers).

Definition forbidden_section (name : str) : bool :=
  starts_with (u ".debug") name || starts_with (u ".zdebug") name
  || bool_decide (name = u ".symtab").

Definition audit_elf_section_text (section_headers : str) : res unit :=
  fail_if (negb (contains (u "Section Headers:") section_headers)
           && negb (contains (u "There are no sections in this file.") section_headers))
    "ELF section-header output is malformed" ;;
  for_each (λ name, fail_if (forbidden_section name)
    "ELF release binary contains forbidden debug/symbol section") (section_names section_headers).

(** [X:\s+...] *)
Definition header_field (name : string) (value : pat) : pat :=
  Seq (Text name) (Seq (Some_ space) value).

Definition machine_pattern (platform : str) : option pat :=
  if decide (platform = u "linux-x86_64") then
    Some (header_field "Machine:" (Or (Text "Advanced Micro Devices X86-64") (Text "AMD x86-64")))
  else if decide (platform = u "linux-aarch64") then Some (header_field "Machine:" (Text "AArch64"))
  else None.

Definition audit_linux_elf_text (header dynamic program_headers platform section_headers : str)
    : res unit :=
  machine ← of_option (AuditError "unsupported Linux platform") (machine_pattern platform);
  fail_if (negb (contains (u "ELF") header)) "Linux binary is not an ELF" ;;
  fail_if (negb (searches (header_field "Class:" (Text "ELF64")) header)
           || negb (searches machine header)) "Linux binary has the wrong class or machine" ;;
  fail_if (searches (Or (Text "Requesting program interpreter:") (Text "INTERP")) program_headers)
    "Linux static binary contains PT_INTERP" ;;
  fail_if (searches (Or (Text "(NEEDED)") (Text "Shared library:")) dynamic)
    "Linux static binary contains DT_NEEDED" ;;
  audit_elf_section_text section_headers.

(** [ANDROID_ABI_METADATA].  The machine alternatives are interpolated as they are: only
    the first is preceded by the field's name. *)
Record abi_metadata := AbiMetadata {
  abi : str;
  elf_class : string;
  machine : pat;
  interpreter : str;
}.

Definition ANDROID_ABI_METADATA (platform : str) : option abi_metadata :=
  if decide (platform = u "android-aarch64") then
    Some (AbiMetadata (u "aarch64") "ELF64"
      (Or (header_field "Machine:" (Text "AArch64")) (Or (Text "AARCH64") (Text "ARM aarch64")))
      (u "/system/bin/linker64"))
  else if decide (platform = u "android-armv7a") then
    Some (AbiMetadata (u "armv7a") "ELF32"
      (Or (header_field "Machine:" (Text "ARM")) (Text "Arm")) (u "/system/bin/linker"))
  else if decide (platform = u "android-x86_64") then
    Some (AbiMetadata (u "x86_64") "ELF64"
      (Or (header_field "Machine:" (Text "Advanced Micro Devices X86-64"))
         (Or (Text "AMD x86-64") (Or (Text "X86-64") (Text "x86-64"))))
      (u "/system/bin/linker64"))
  else None.

(** [Requesting program interpreter:\s*([^\]\n]+)] *)
Definition interpreter_row : pat :=
  Seq (Text "Requesting program interpreter:")
    (Seq (Many space) (Group (Some_ (Class_ (λ c, negb (one_of [93; 10]%N c)))))).

(** [(?m)^\s*LOAD\s+.*\s(0x[0-9A-Fa-f]+)\s*$] *)
Definition load_row : pat :=
  Seq LineStart (Seq (Many space) (Seq (Text "LOAD") (Seq (Some_ space) (Seq (Many not_newline)
    (Seq space (Seq (Group (Seq (Text "0x") (Some_ (Class_ hex_digit_any))))
      (Seq (Many space) LineEnd))))))).

(** [int(text, 16)] on a [0x] literal. *)
Definition hex_value (c : N) : Z :=
  Z.of_N (if is_digit c then c - 48 else if (97 <=? c) then c - 87 else c - 55)%N.
Definition hex_int (s : str) : Z := foldl (λ n c, n * 16 + hex_value c) 0 (drop 2 s).

Definition alignments (program_headers : str) : list Z :=
  omap (λ m, hex_int <$> head m.2) (re_findall load_row program_headers).

Definition audit_android_elf_text (metadata : abi_metadata) (header program_headers : str)
    : res unit :=
  fail_if (negb (contains (u "ELF") header)
           || negb (searches (header_field "Class:" (Text (elf_class metadata))) header)
           || negb (searches (machine metadata) header))
    "Android binary has the wrong ELF class or machine" ;;
  fail_if (negb (bool_decide (re_search interpreter_row program_headers ≫= head
                              = Some (interpreter metadata))))
    "Android binary has the wrong interpreter" ;;
  fail_if (bool_decide (alignments program_headers = [])
           || existsb (λ alignment, negb (alignment =? 0x4000)) (alignments program_headers))
    "Android binary LOAD segments are not aligned to 16 KiB".

(** ** Mach-O *)

(** [(?m)^\s*name\s+value\s*$] *)
Definition command_row (name : string) (value : pat) : pat :=
  Seq LineStart (Seq (Many space) (Seq (Text name) (Seq (Some_ space) (Seq value
    (Seq (Many space) LineEnd))))).

Definition block_start : pat :=
  Seq LineStart (Seq (Text "Load command ") (Seq digits (Class_ (N.eqb 10)))).
(** [(?ms)^Load command \d+\n.*?(?=^Load command \d+\n|\Z)] *)
Definition command_block : pat :=
  Seq block_start (Seq (Few anything) (Ahead (Or block_start TextEnd))).

Definition audit_darwin_load_commands (load_commands : str) : res Z :=
  fail_if (searches (command_row "segname" (Text "__DWARF")) load_commands)
    "macOS binary contains DWARF sections" ;;
  let blocks := (re_findall command_block load_commands).*1 in
  match List.filter (searches (command_row "cmd" (Text "LC_DYSYMTAB"))) blocks with
  | [dysymtab] =>
      text ← of_option (AuditError "macOS LC_DYSYMTAB has no nlocalsym field")
               (re_search (command_row "nlocalsym" (Group digits)) dysymtab ≫= head);
      nlocalsym ← int_of_digits text;
      fail_if (1 <? nlocalsym) "macOS binary contains too many local symbols" ;;
      Ok nlocalsym
  | _ => fail "macOS binary must contain exactly one LC_DYSYMTAB"
  end.

(** [radr://[0-9]+] and [[0-9A-Fa-f]+|[-?+]|OPT] *)
Definition radr_token (token : str) : bool :=
  starts_with (u "radr://") token && fullmatch (plus digit) (drop 7 token).
Definition hex_token (token : str) : bool := fullmatch (plus (Chr hex_digit_any)) token.
Definition metadata_token (token : str) : bool :=
  hex_token token || bool_decide (token ∈ [u "-"; u "?"; u "+"; u "OPT"]).

(** A local symbol: an address and a lower-case type letter. *)
Definition local_symbol (tokens : list str) : bool :=
  match tokens with
  | address :: [letter] :: _ :: _ => hex_token address && char_islower letter
  | _ => false
  end.

Definition audit_darwin_optional_symbol_text (nm_output : str) : res unit :=
  let lines := List.filter (λ line, negb (bool_decide (strip line = []))) (splitlines nm_output) in
  match List.filter (contains (u "radr://")) lines with
  | [radr_line] =>
      let tokens := words radr_line in
      fail_if (match last tokens with
               | None => true
               | Some token =>
                   negb (radr_token token) || (6 <? lenZ tokens)
                   || existsb (negb ∘ metadata_token) (take (length tokens - 1) tokens)
               end) "macOS local symbol is not the permitted OPT radr:// metadata" ;;
      for_each (λ line, fail_if (local_symbol (words line))
        "macOS nlocalsym=1 contains a local function/source/debug symbol") lines
  | _ => fail "macOS nlocalsym=1 must contain exactly one radr:// metadata symbol"
  end.
End text.

(** Environments for ASCII texts, to evaluate examples. *)
Definition sample_digits : Digits := {| digit_value _ := 0 |}.

Section examples.
Let unicode : Unicode := {| fold_char c := [c]; decimal_digit _ := false |}.
#[local] Existing Instances unicode sample_digits sample_lower.

Definition lines (l : list string) : str := join [10%N] (u <$> l).

Example section_names_test :
  section_names (lines ["Section Headers:"; "  [Nr] Name  Type"; "  [ 0]  NULL"; "  [12] .text PROGBITS"])
  = [u "NULL"; u ".text"].
Proof. vm_compute. reflexivity. Qed.

Example alignments_test :
  alignments (lines ["  LOAD  0x000 0x4000 R E 0x4000"; "  LOAD 0x1 RW 0x1000 "; "  GNU_STACK 0x10"])
  = [0x4000; 0x1000].
Proof. vm_compute. reflexivity. Qed.

Example darwin_load_commands_test :
  audit_darwin_load_commands
    (lines ["bin:"; "Load command 0"; "  cmd LC_DYSYMTAB"; "nlocalsym 1"; "Load command 1"; " cmd X"])
  = Ok 1.
Proof. vm_compute. reflexivity. Qed.

Example optional_symbol_test :
  audit_darwin_optional_symbol_text (lines ["0000 - 00 0000 OPT radr://5614542"]) = Ok tt
  ∧ audit_darwin_optional_symbol_text
      (lines ["0000 - 00 0000 OPT radr://5614542"; "0001 t _f"])
    = fail "macOS nlocalsym=1 contains a local function/source/debug symbol".
Proof. vm_compute. split; reflexivity. Qed.
End examples.
