(* ===== verification/AuditManifest.v ===== *)
(** * The manifest of a binary archive: [scripts/audit-artifact.py], [verify_manifest] to
    [verify_linux_mdev_modes]

    What the members of an archive of each platform are, and the manifest and audit
    evidence that describe them. *)

From S2P Require Import Prelude PyStr PyDict Codec Regex PyFloat Json Sha256 PyPath Provenance.
From S2P Require Import Archive AuditBase AuditText.

Local Open Scope Z_scope.

(** ** Platforms *)

Definition PLATFORMS : list str :=
  [u "linux-x86_64"; u "linux-aarch64"; u "darwin-arm64"; u "android-aarch64";
   u "android-armv7a"; u "android-x86_64"; u "windows-x64"].
Definition PACKAGE_PLATFORMS : list str := PLATFORMS.

Definition is_android (platform : str) : bool := starts_with (u "android") platform.
Definition is_windows (platform : str) : bool := bool_decide (platform = u "windows-x64").
Definition is_darwin (platform : str) : bool := bool_decide (platform = u "darwin-arm64").

Definition LINUX_ARCHITECTURES : dict str :=
  [(u "linux-x86_64", u "x86_64"); (u "linux-aarch64", u "aarch64")].
Definition is_linux (platform : str) : bool :=
  bool_decide (platform ∈ dict_keys LINUX_ARCHITECTURES).

(** ** Members *)

Definition MANIFEST : str := u "manifest.json".

Definition COMMON : list str :=
  [u "COPYING"; u "LICENCE.siano"; u "README.md"; u "REBUILD.md"; u "DEPENDENCY-NOTICE.txt";
   u "firmware/isdbt_rio.inp"; MANIFEST; SUMS; u "evidence/binary-audit.json"].
Definition LINUX_MDEV : dict Z :=
  [(u "mdev/siano-ts-mdev.conf", 0x1A4); (u "mdev/siano-ts-mdev.sh", 0x1ED);
   (u "mdev/siano-ts-mdev.start", 0x1ED)].
Definition LINUX_RUNTIME_LICENSE_SHA256 : dict str :=
  [(u "toolchain/gcc-COPYING3",
    u "8ceb4b9ee5adedde47b31e975c1d90c73ad27b6b165a1dcd80c7c545eb65b903");
   (u "toolchain/gcc-COPYING.RUNTIME",
    u "9d6b43ce4d8de0c878bf16b54d8e7a10d9bd42b75178153e3af6a815bdc90f74");
   (u "toolchain/musl-1.2.5-COPYRIGHT",
    u "f9bc4423732350eb0b3f7ed7e91d530298476f8fec0c6c427a1c04ade22655af")].

Definition program_names (platform : str) : list str :=
  (λ name, name ++ (if is_windows platform then u ".exe" else []))
  <$> [u "sianod"; u "sianoctl"; u "siano-ts"].

(** [name.removesuffix(".exe")]. *)
Definition without_exe (name : str) : str :=
  if ends_with (u ".exe") name then take (length name - 4) name else name.

Definition binary_evidence_name (binary : str) : str :=
  let program := without_exe binary in
  if decide (program = u "siano-ts") then u "evidence/binary-audit.json"
  else u "evidence/" ++ program ++ u "-binary-audit.json".

Definition libusb_source : str := u "libusb/libusb-" ++ LIBUSB_VERSION ++ u ".tar.bz2".

Definition platform_members (platform : str) : list str :=
  if is_linux platform then
    [u "libusb/COPYING"; u "evidence/build.properties"] ++ LINUX_MDEV.*1
    ++ LINUX_RUNTIME_LICENSE_SHA256.*1
  else if is_darwin platform then [u "libusb/COPYING"; u "evidence/build.properties"]
  else if is_android platform then
    [u "libusb/COPYING"; libusb_source; u "evidence/static-link-inventory.tsv";
     u "evidence/build.properties"; u "evidence/ndk/source.properties"; u "evidence/ndk/NOTICE";
     u "evidence/ndk/NOTICE.toolchain"; u "evidence/sianod-static-link-inventory.tsv";
     u "evidence/sianoctl-static-link-inventory.tsv"]
  else if is_windows platform then
    [u "libusb/COPYING"; u "libusb/NOTICE.txt"; u "libusb-1.0.dll"]
  else [].

Definition expected_members (platform : str) : res (gset str) :=
  fail_if (negb (bool_decide (platform ∈ PACKAGE_PLATFORMS))) "platform is not packageable" ;;
  Ok (list_to_set (COMMON ++ program_names platform
                   ++ (binary_evidence_name <$> program_names platform)
                   ++ platform_members platform)).

(** ** The manifest *)

(** A JSON object of strings. *)
Definition strings (d : dict str) : json := JDict ((λ kv, (kv.1, JStr kv.2)) <$> d).

(** [manifest.get(key) != value] for the items of a table of strings. *)
Definition exact_strings (msg : string) (expected : dict str) (manifest : dict json) : res unit :=
  for_each (λ '(key, value), fail_if (negb (get_eq manifest key (JStr value))) msg) expected.

Definition expected_firmware : json :=
  strings [(u "url", FIRMWARE_URL); (u "sha256", FIRMWARE_SHA256);
           (u "license_url", FIRMWARE_LICENSE_URL); (u "license_sha256", FIRMWARE_LICENSE_SHA256)].

Definition libusb_identity : dict str :=
  [(u "version", LIBUSB_VERSION); (u "source_ref", LIBUSB_SOURCE_URL);
   (u "source_sha256", LIBUSB_SOURCE_SHA256)].

(** The metadata of the Android and Windows manifests. *)
Definition other_metadata (platform : str) : res (dict str) :=
  architecture ← (if is_android platform
                  then of_option (KeyError "missing key") (abi <$> ANDROID_ABI_METADATA platform)
                  else Ok (u "x86_64"));
  Ok [(u "architecture", architecture);
      (u "linkage", if is_android platform then u "static" else u "dynamic");
      (u "libc", if is_android platform then u "bionic" else u "windows")].

Definition verify_libusb (platform linkage : str) (manifest : dict json) : res unit :=
  match dict_get (u "libusb") manifest with
  | Some (JDict libusb) =>
      exact_strings "manifest libusb provenance mismatch"
        (libusb_identity ++ [(u "linkage", linkage)]) libusb ;;
      fail_if (is_windows platform
               && negb (get_eq libusb (u "package_sha256") (JStr WINDOWS_LIBUSB_PACKAGE_SHA256)))
        "manifest Windows libusb package provenance mismatch"
  | _ => fail "manifest libusb provenance mismatch"
  end.

(** The part of the manifest that describes the build of the platform. *)
Definition verify_platform_manifest (platform : str) (manifest : dict json) : res unit :=
  if is_linux platform then
    fail_if (negb (get_eq manifest (u "libusb")
                     (strings (libusb_identity
                       ++ [(u "linkage", u "static"); (u "udev", u "disabled");
                           (u "backend", u "netlink")]))))
      "manifest Linux libusb provenance/linkage mismatch"
  else if is_darwin platform then
    exact_strings "macOS manifest metadata mismatch"
      [(u "architecture", u "arm64"); (u "libc", u "darwin"); (u "linkage", u "static")] manifest ;;
    fail_if (negb (get_eq manifest (u "libusb")
                     (strings (libusb_identity
                       ++ [(u "linkage", u "static"); (u "backend", u "darwin")]))))
      "manifest macOS libusb provenance/linkage mismatch"
  else if is_android platform || is_windows platform then
    metadata ← other_metadata platform;
    exact_strings "manifest metadata mismatch" metadata manifest ;;
    linkage ← item metadata (u "linkage");
    verify_libusb platform linkage manifest
  else Ok tt.

Section manifest.
Context `{Digest}.
Context (limit : nat).

(** One record of the inventory. *)
Definition verify_record (payloads : dict bytes) (inventory : dict json) (name : str) : res unit :=
  record ← item inventory name;
  match record with
  | JDict r =>
      fail_if (negb (bool_decide (dict_keys r = {[u "size"; u "sha256"]})))
        "invalid manifest record" ;;
      match dict_get (u "size") r, dict_get (u "sha256") r with
      | Some (JInt size), Some (JStr sha256) =>
          fail_if ((size <? 0) || negb (hex64 sha256)) "invalid manifest record" ;;
          data ← item payloads name;
          fail_if (negb (size =? lenZ data) || negb (bool_decide (sha256 = hexdigest data)))
            "manifest record mismatch"
      | _, _ => fail "invalid manifest record"
      end
  | _ => fail "invalid manifest record"
  end.

(** [manifest.get(key)] as a string. *)
Definition string_field (msg : string) (manifest : dict json) (key : str) : res str :=
  match dict_get key manifest with
  | Some (JStr s) => Ok s
  | _ => fail msg
  end.

Definition linux_metadata (platform : str) : res (dict str) :=
  architecture ← item LINUX_ARCHITECTURES platform;
  Ok [(u "architecture", architecture); (u "libc", u "none"); (u "build_libc", u "musl");
      (u "linkage", u "static")].

Definition verify_inventory (payloads : dict bytes) (own : str) (manifest : dict json)
    : res unit :=
  match dict_get (u "files") manifest with
  | Some (JDict inventory) =>
      let expected := dict_keys payloads ∖ {[own; SUMS]} in
      fail_if (negb (bool_decide (dict_keys inventory = expected)))
        "manifest files inventory does not match archived payload" ;;
      for_each (verify_record payloads inventory) (sorted (elements expected))
  | _ => fail "manifest files inventory is missing"
  end.

Definition verify_manifest (payloads : dict bytes) (platform : str) : res (dict json) :=
  value ← parse_json limit (default [] (dict_get MANIFEST payloads));
  match value with
  | JDict manifest =>
      fail_if (negb (get_eq manifest (u "schema") (JInt 1))
               || negb (get_eq manifest (u "platform") (JStr platform)))
        "manifest schema/platform mismatch" ;;
      version ← string_field "manifest version is missing" manifest (u "version");
      validate_version version ;;
      source_ref ← string_field "manifest source_ref is missing" manifest (u "source_ref");
      validate_source_ref source_ref ;;
      (if is_linux platform then
         metadata ← linux_metadata platform;
         exact_strings "Linux static manifest metadata mismatch" metadata manifest
       else Ok tt) ;;
      fail_if (negb (get_eq manifest (u "programs") (JList (JStr <$> program_names platform))))
        "manifest program list is wrong" ;;
      verify_inventory payloads MANIFEST manifest ;;
      fail_if (negb (get_eq manifest (u "firmware") expected_firmware))
        "manifest firmware provenance mismatch" ;;
      verify_platform_manifest platform manifest ;;
      Ok manifest
  | _ => fail "manifest schema/platform mismatch"
  end.

(** ** Evidence and modes *)

Definition verify_binary_evidence (payloads : dict bytes) (manifest : dict json)
    (binary : option str) : res unit :=
  platform ← item manifest (u "platform");
  let binary_name :=
    match binary with
    | Some name => name
    | None => if py_eq platform (JStr (u "windows-x64")) then u "siano-ts.exe" else u "siano-ts"
    end in
  evidence ← parse_json limit (default [] (dict_get (binary_evidence_name binary_name) payloads));
  source_ref ← item manifest (u "source_ref");
  data ← item payloads binary_name;
  let expected :=
    JDict [(u "schema", JInt 2); (u "platform", platform); (u "source_ref", source_ref);
           (u "binary", strings [(u "name", binary_name); (u "sha256", hexdigest data)])] in
  fail_if (negb (py_eq evidence expected))
    "binary audit evidence is not bound to the archived binary/platform".
End manifest.

Definition verify_binary_archive_mode (modes : dict Z) (platform binary_name : str) : res unit :=
  if is_windows platform then Ok tt else
  match dict_get binary_name modes with
  | Some mode => fail_if (Z.land mode 0x49 =? 0) "archive binary is not executable"
  | None => fail "archive binary is not executable"
  end.

Definition verify_linux_mdev_modes (modes : dict Z) (platform : str) : res unit :=
  if negb (is_linux platform) then Ok tt else
  for_each (λ '(name, expected),
    fail_if (negb (bool_decide (dict_get name modes = Some expected))) "mdev file has a wrong mode")
    LINUX_MDEV.
