(* ===== verification/AuditBinary.v ===== *)
(** * Auditing one program: [scripts/audit-artifact.py], [run] to [audit_binary]

    The binary tools are the environment ([Tools]); what they print is checked by
    [AuditText], the bytes of Windows and macOS programs by [AuditPe] and [AuditMacho]. *)

From S2P Require Import Prelude PyStr PyDict Codec Regex PyFloat Json Sha256 PyPath Archive.
From S2P Require Import AuditBase AuditText AuditPe AuditMacho AuditManifest.

Local Open Scope Z_scope.

(** [shutil.which], [os.environ.get], [Path.resolve], and [subprocess.run] on a file: the
    command, the value of [ANDROID_PATH_MARKERS] added to the environment, and the bytes
    of the audited file.  A command that cannot start or fails raises [OSError]. *)
Class Tools := {
  which : str → option str;
  getenv : str → option str;
  resolve : str → str;
  exec : list str → option str → bytes → res str;
}.

(** The audited file: its path, its bytes ([None] when it is missing, not a regular file or
    a link), and the entries of its directory with [is_file]. *)
Record target := Target { t_path : str; t_data : option bytes; t_siblings : list (str * bool) }.

(** [a / b] for a relative [b], as text. *)
Definition path_join (a c : str) : str := a ++ u "/" ++ c.
(** [str(path.parent)]. *)
Definition path_parent (path : str) : str :=
  match path_root path ++ join (u "/") (take (length (path_names path) - 1) (path_names path)) with
  | [] => u "."
  | t => t
  end.

Section binary.
Context `{Unicode} `{Digits} `{Lower} `{Digest} `{Tools}.
(** [str(repo_root)] and the directory of the temporary files. *)
Context (repo_root : str).

(** [run]. *)
Definition run (command : list str) (marker : option str) (data : bytes) : res str :=
  try_except (exec command marker data)
    (λ e, match e with OSError _ => fail "command failed" | _ => Err e end).

(** [a or b]: an empty string counts as missing. *)
Definition or_else (a c : option str) : option str :=
  match a with Some (x :: s) => Some (x :: s) | _ => c end.

Definition readelf_path : option str := or_else (which (u "readelf")) (which (u "llvm-readelf")).
Definition readelf_required : exn := AuditError "readelf or llvm-readelf is required".

Definition audit_linux_static_binary (path : str) (data : bytes) (platform : str) : res unit :=
  readelf ← of_option readelf_required readelf_path;
  header ← run [readelf; u "-h"; path] None data;
  dynamic ← run [readelf; u "-d"; path] None data;
  program_headers ← run [readelf; u "-lW"; path] None data;
  sections ← run [readelf; u "-SW"; path] None data;
  audit_linux_elf_text header dynamic program_headers platform sections.

Definition audit_elf_release_sections (path : str) (data : bytes) : res unit :=
  readelf ← of_option readelf_required readelf_path;
  sections ← run [readelf; u "-SW"; path] None data;
  audit_elf_section_text sections.

Definition audit_android_binary (path : str) (data : bytes) (platform : str) : res unit :=
  metadata ← of_option (AuditError "unsupported Android platform") (ANDROID_ABI_METADATA platform);
  readelf ← of_option readelf_required (or_else (getenv (u "READELF")) readelf_path);
  header ← run [readelf; u "-h"; path] None data;
  program_headers ← run [readelf; u "-lW"; path] None data;
  audit_android_elf_text metadata header program_headers ;;
  run [path_join repo_root (u "scripts/verify-android-elf.sh"); path; abi metadata;
       interpreter metadata] (Some (resolve (path_parent path))) data ;;
  Ok tt.

Definition audit_darwin_binary (path otool : str) (data : bytes) : res unit :=
  load_commands ← run [otool; u "-l"; path] None data;
  nlocalsym ← audit_darwin_load_commands load_commands;
  if nlocalsym =? 1 then
    nm ← of_option (AuditError "nm is required to validate macOS nlocalsym=1 metadata")
           (which (u "nm"));
    symbols ← run [nm; u "-ap"; path] None data;
    audit_darwin_optional_symbol_text symbols
  else Ok tt.

(** A PDB file beside the program. *)
Definition bundled_pdb (entry : str * bool) : bool :=
  entry.2 && bool_decide (str_lower (path_suffix entry.1) = u ".pdb").

Definition audit_pe_x64 (t : target) (data : bytes) (reject_debug_payload : bool) : res unit :=
  fail_if (reject_debug_payload && existsb bundled_pdb (t_siblings t))
    "project Windows executable has bundled PDB files" ;;
  audit_pe_x64_bytes data reject_debug_payload.

(** The macOS branch of [audit_binary]. *)
Definition audit_darwin (path : str) (data : bytes) : res unit :=
  otool ← of_option (AuditError "otool is required to audit macOS binaries") (which (u "otool"));
  audit_darwin_macho data path ;;
  libraries ← run [otool; u "-L"; path] None data;
  fail_if (contains (u "libusb") (str_lower (join [10%N] (tail (splitlines libraries)))))
    "otool reports a libusb dylib dependency" ;;
  archs ← match which (u "lipo") with
          | Some lipo => words <$> run [lipo; u "-archs"; path] None data
          | None => Ok []
          end;
  fail_if (negb (bool_decide (archs = [u "arm64"]))) "macOS binary is not arm64-only" ;;
  audit_darwin_binary path otool data.

Definition audit_evidence (platform source_ref name : str) (data : bytes) : json :=
  JDict [(u "schema", JInt 2); (u "platform", JStr platform); (u "source_ref", JStr source_ref);
         (u "binary", strings [(u "name", name); (u "sha256", hexdigest data)])].

(** The text that [write_json] writes. *)
Definition write_json (value : json) : bytes := dumps_bytes value ++ [x0a].

(** [audit_binary]: the evidence, and the bytes of the evidence file if one is asked for. *)
Definition audit_binary (t : target) (platform source_ref : str) (evidence_output : bool)
    : res (json * option bytes) :=
  fail_if (negb (bool_decide (platform ∈ PLATFORMS))) "unsupported platform" ;;
  validate_source_ref source_ref ;;
  data ← of_option (AuditError "missing binary") (t_data t);
  (if is_android platform then audit_android_binary (t_path t) data platform
   else if starts_with (u "linux") platform then
     audit_linux_static_binary (t_path t) data platform
   else if is_darwin platform then audit_darwin (t_path t) data
   else audit_pe_x64 t data true) ;;
  let evidence := audit_evidence platform source_ref (path_name (t_path t)) data in
  Ok (evidence, if evidence_output then Some (write_json evidence) else None).
End binary.
