(* ===== verification/AuditArchive.v ===== *)
(** * Auditing a release archive: [scripts/audit-artifact.py],
    [verify_android_provenance] to [audit_source_archive], and [main] *)

From S2P Require Import Prelude PyStr PyDict Codec Regex PyRe PyFloat Json Sha256 PyPath Provenance.
From S2P Require Import Archive AuditBase AuditText AuditPe AuditMacho AuditManifest AuditBinary.

Local Open Scope Z_scope.

Section provenance.
Context `{Digest}.

(** A member decoded as UTF-8: a [UnicodeDecodeError] otherwise. *)
Definition text_of (payloads : dict bytes) (name : str) : res str :=
  data ← item payloads name;
  of_option (ValueError "UnicodeDecodeError") (decode_utf8 data).

(** ** Android *)

Definition link_categories : list str := [u "libusb"; u "ndk-runtime"; u "project"].

(** One row of the link inventory: a category, an archive and a member. *)
Definition link_row (seen : list (list str)) (row : str) : res (list (list str)) :=
  let parts := split_on 9 row in
  match parts with
  | [category; archive; member] =>
      fail_if (bool_decide (parts ∈ seen))
        "Android static-link inventory is malformed or duplicated" ;;
      fail_if (negb (bool_decide (category ∈ link_categories)) || negb (ends_with (u ".a") archive)
               || bool_decide (member = []))
        "Android static-link inventory contains an unclassified archive" ;;
      Ok (seen ++ [parts])
  | _ => fail "Android static-link inventory is malformed or duplicated"
  end.

Definition inventory_header : str := u "category" ++ [9%N] ++ u "archive" ++ [9%N] ++ u "member".

Definition libusb_row (row : list str) : bool :=
  match row with
  | category :: archive :: _ => bool_decide (category = u "libusb")
                                && bool_decide (archive = u "libusb-1.0.a")
  | _ => false
  end.

Definition inventory_name (program : option str) : str :=
  match program with
  | None => u "evidence/static-link-inventory.tsv"
  | Some program =>
      if decide (program = u "siano-ts") then u "evidence/static-link-inventory.tsv"
      else u "evidence/" ++ program ++ u "-static-link-inventory.tsv"
  end.

Definition verify_link_inventory (payloads : dict bytes) (program : option str) : res unit :=
  inventory ← text_of payloads (inventory_name program);
  match splitlines inventory with
  | header :: rows =>
      fail_if (negb (bool_decide (header = inventory_header)))
        "Android static-link inventory header is invalid" ;;
      seen ← fold_res link_row [] rows;
      fail_if (bool_decide (program ∈ [None; Some (u "sianod")]) && negb (existsb libusb_row seen))
        "Android static-link inventory has no libusb archive"
  | [] => fail "Android static-link inventory header is invalid"
  end.

(** [evidence/build.properties], without the label of [parse_build_properties]. *)
Definition android_properties (payloads : dict bytes) : res (dict str) :=
  text ← text_of payloads (u "evidence/build.properties");
  fold_res property [] (splitlines text).

Definition ndk_files : list (str * str * str) :=
  [(u "evidence/ndk/source.properties", u "ndk.source_properties.sha256",
    u "ndk_source_properties_sha256");
   (u "evidence/ndk/NOTICE", u "ndk.notice.sha256", u "ndk_notice_sha256");
   (u "evidence/ndk/NOTICE.toolchain", u "ndk.notice_toolchain.sha256",
    u "ndk_notice_toolchain_sha256")].

Definition verify_android_provenance (payloads : dict bytes) (fields : dict str)
    (platform : str) (program : option str) : res unit :=
  verify_link_inventory payloads program ;;
  property_map ← android_properties payloads;
  metadata ← of_option (AuditError "unsupported Android platform") (ANDROID_ABI_METADATA platform);
  let ndk_revision := default [] (dict_get (u "ndk_revision") property_map) in
  fail_if (negb (forallb (λ kv, bool_decide (dict_get kv.1 property_map = Some kv.2))
                   [(u "android_api", u "24"); (u "android_abi", abi metadata);
                    (u "libusb_version", LIBUSB_VERSION);
                    (u "libusb_source_url", LIBUSB_SOURCE_URL);
                    (u "libusb_source_sha256", LIBUSB_SOURCE_SHA256)]
                 && starts_with (u "27.") ndk_revision))
    "Android build properties do not record the required ABI/API/NDK/libusb provenance" ;;
  fail_if (negb (bool_decide (dict_get (u "ndk_revision") fields = Some ndk_revision)))
    "Android notice NDK revision mismatch" ;;
  for_each (λ '(name, field, property_name),
    data ← item payloads name;
    fail_if (negb (bool_decide (dict_get field fields = Some (hexdigest data)))
             || negb (bool_decide (dict_get property_name property_map = Some (hexdigest data))))
      "Android NDK provenance mismatch") ndk_files ;;
  source_properties ← text_of payloads (u "evidence/ndk/source.properties");
  fail_if (negb (contains (u "Pkg.Revision = " ++ ndk_revision) source_properties))
    "Android NDK source.properties does not match build.properties".

(** ** Linux *)

Definition runtime_keys : list str :=
  [u "compiler_path"; u "compiler_version"; u "compiler_target"; u "musl_package";
   u "libc_archive_owner"; u "libgcc_archive_owner"; u "libstdcxx_archive_owner"].

(** [not properties.get(key) or properties[key] == "unknown"]. *)
Definition runtime_key_missing (properties : dict str) (key : str) : bool :=
  match dict_get key properties with
  | None | Some [] => true
  | Some value => bool_decide (value = u "unknown")
  end.

(** The keys of a path and of its digest. *)
Definition runtime_paths : list (str * str) :=
  [(u "compiler_path", u "compiler_sha256"); (u "libc_archive", u "libc_archive_sha256");
   (u "libgcc_archive", u "libgcc_archive_sha256");
   (u "libstdcxx_archive", u "libstdcxx_archive_sha256")].

Definition runtime_notice : dict str :=
  [(u "dependency.libc.version", u "musl_package");
   (u "dependency.compiler.version", u "compiler_version");
   (u "dependency.compiler.target", u "compiler_target");
   (u "dependency.runtime.version", u "libgcc_archive_owner");
   (u "dependency.libstdcxx.version", u "libstdcxx_archive_owner")].

Definition verify_linux_runtime_provenance (payloads : dict bytes) (modes : dict Z)
    (properties fields : dict str) : res unit :=
  for_each (λ '(name, expected),
    data ← item payloads name;
    fail_if (negb (bool_decide (hexdigest data = expected))
             || negb (bool_decide (dict_get name modes = Some 0x1A4)))
      "Linux runtime license is missing/altered") LINUX_RUNTIME_LICENSE_SHA256 ;;
  for_each (λ key, fail_if (runtime_key_missing properties key) "Linux runtime provenance missing")
    runtime_keys ;;
  compiler_target ← item properties (u "compiler_target");
  musl_package ← item properties (u "musl_package");
  libc_archive_owner ← item properties (u "libc_archive_owner");
  fail_if (negb (ends_with (u "musl") compiler_target)
           || negb (starts_with (u "musl-1.2.5-r") musl_package)
           || negb (starts_with (u "musl-dev-1.2.5-r") libc_archive_owner)
           || negb (bool_decide (dict_get (u "libstdcxx") properties = Some (u "static"))))
    "Linux runtime provenance does not match the selected static inputs" ;;
  for_each (λ '(path_key, digest_key),
    fail_if (negb (starts_with (u "/") (default [] (dict_get path_key properties)))
             || negb (hex64 (default [] (dict_get digest_key properties))))
      "Linux runtime path/hash invalid") runtime_paths ;;
  for_each (λ '(notice, property_name),
    value ← item properties property_name;
    fail_if (negb (bool_decide (dict_get notice fields = Some value)))
      "Linux runtime notice mismatch") runtime_notice ;;
  fail_if (negb (bool_decide (dict_get (u "runtime-license-members") fields
                   = Some (join (u ",") (sorted LINUX_RUNTIME_LICENSE_SHA256.*1)))))
    "Linux runtime license notice inventory mismatch".
End provenance.

(** ** Expected fields *)

Definition source_archive (version : str) : str :=
  u "siano-ts-" ++ version ++ u "-source.tar.gz".
Definition archive_name (version platform : str) : str :=
  u "siano-ts-" ++ version ++ u "-" ++ platform
  ++ (if is_windows platform then u ".zip" else u ".tar.gz").
Definition third_party_libusb : str :=
  u "third_party/libusb-" ++ LIBUSB_VERSION ++ u ".tar.bz2".

Definition firmware_fields : dict str :=
  [(u "firmware.url", FIRMWARE_URL); (u "firmware.sha256", FIRMWARE_SHA256);
   (u "firmware.license.url", FIRMWARE_LICENSE_URL);
   (u "firmware.license.sha256", FIRMWARE_LICENSE_SHA256)].
Definition exact_firmware_fields (fields : dict str) : res unit :=
  exact_fields "dependency notice field mismatch" firmware_fields fields.

Definition static_libusb : dict str :=
  [(u "dependency.libusb.version", LIBUSB_VERSION); (u "dependency.libusb.linkage", u "static");
   (u "dependency.libusb.license", u "LGPL-2.1-or-later")].
Definition libusb_from_source (version : str) : dict str :=
  [(u "corresponding-source", source_archive version);
   (u "corresponding-source.path", third_party_libusb);
   (u "libusb.source.url", LIBUSB_SOURCE_URL); (u "libusb.source.sha256", LIBUSB_SOURCE_SHA256)].

Definition linux_fields (version : str) : dict str :=
  static_libusb ++ [(u "dependency.libusb.backend", u "netlink");
                    (u "dependency.libusb.udev", u "disabled")] ++ libusb_from_source version.
Definition darwin_fields (version : str) : dict str :=
  static_libusb ++ [(u "dependency.libusb.backend", u "darwin")] ++ libusb_from_source version.
Definition android_fields : dict str :=
  static_libusb ++ [(u "corresponding-source", libusb_source);
                    (u "corresponding-source.sha256", LIBUSB_SOURCE_SHA256)].
Definition windows_fields : dict str :=
  [(u "dependency.libusb.version", LIBUSB_VERSION); (u "dependency.libusb.linkage", u "dynamic");
   (u "dependency.libusb.provider", u "bundled"); (u "libusb.package.url", WINDOWS_LIBUSB_PACKAGE_URL);
   (u "libusb.package.sha256", WINDOWS_LIBUSB_PACKAGE_SHA256);
   (u "corresponding-source.sha256", LIBUSB_SOURCE_SHA256)].

Definition libusb_properties : dict str :=
  [(u "libusb_version", LIBUSB_VERSION); (u "libusb_source_url", LIBUSB_SOURCE_URL);
   (u "libusb_source_sha256", LIBUSB_SOURCE_SHA256)].
Definition linux_properties (architecture : str) : dict str :=
  [(u "target_os", u "linux"); (u "target_arch", architecture); (u "libc", u "none");
   (u "build_libc", u "musl"); (u "linkage", u "static")] ++ libusb_properties
  ++ [(u "libusb_backend", u "netlink")].
Definition darwin_properties : dict str :=
  [(u "target_os", u "darwin"); (u "target_arch", u "arm64"); (u "linkage", u "static")]
  ++ libusb_properties
  ++ [(u "libusb_backend", u "darwin"); (u "macos_deployment_target", DARWIN_DEPLOYMENT_TARGET)].

Section archive.
Context `{Unicode} `{Digits} `{Lower} `{Digest} `{Tools} `{Archives} `{Tars}.
(** The recursion limit of the JSON parser, the repository and the directory that
    [TemporaryDirectory] makes. *)
Context (limit : nat) (repo_root temporary : str).

(** ** The archive of a platform *)

(** The programs of a Linux or Android archive, written out and audited. *)
Definition audit_programs (payloads : dict bytes) (platform : str) : res unit :=
  for_each (λ program,
    data ← item payloads program;
    let binary := path_join temporary program in
    if is_linux platform then audit_linux_static_binary binary data platform
    else audit_android_binary repo_root binary data platform) (program_names platform).

Definition audit_linux_archive (payloads : dict bytes) (modes : dict Z) (fields : dict str)
    (version platform : str) : res unit :=
  exact_fields "dependency notice field mismatch" (linux_fields version) fields ;;
  architecture ← item LINUX_ARCHITECTURES platform;
  data ← item payloads (u "evidence/build.properties");
  property_map ← parse_build_properties data;
  exact_fields "Linux build property mismatch" (linux_properties architecture) property_map ;;
  verify_linux_runtime_provenance payloads modes property_map fields.

Definition audit_android_archive (payloads : dict bytes) (fields : dict str) (platform : str)
    : res unit :=
  exact_fields "dependency notice field mismatch" android_fields fields ;;
  data ← item payloads libusb_source;
  fail_if (negb (bool_decide (hexdigest data = LIBUSB_SOURCE_SHA256)))
    "Android corresponding libusb source checksum mismatch" ;;
  for_each (λ program, verify_android_provenance payloads fields platform (Some program))
    (program_names platform).

Definition audit_windows_archive (payloads : dict bytes) (fields : dict str)
    (version platform : str) : res unit :=
  exact_fields "dependency notice field mismatch" windows_fields fields ;;
  notice ← text_of payloads (u "libusb/NOTICE.txt");
  fail_if (negb (contains (u "libusb-1.0.dll") (str_lower notice)))
    "Windows libusb notice does not identify the bundled DLL" ;;
  fail_if (negb (contains (source_archive version) notice))
    "Windows libusb notice does not point to the corresponding project source archive" ;;
  for_each (λ name, fail_if (ends_with (u ".pdb") (str_lower name))
    "Windows package contains a bundled PDB") payloads.*1 ;;
  for_each (λ program, data ← item payloads program; audit_pe_x64_bytes data true)
    (program_names platform) ;;
  data ← item payloads (u "libusb-1.0.dll");
  audit_pe_x64_bytes data false.

Definition audit_darwin_archive (payloads : dict bytes) (fields : dict str)
    (version platform : str) : res unit :=
  exact_fields "dependency notice field mismatch" (darwin_fields version) fields ;;
  data ← item payloads (u "evidence/build.properties");
  property_map ← parse_build_properties data;
  exact_fields "macOS build property mismatch" darwin_properties property_map ;;
  for_each (λ program, data ← item payloads program; audit_darwin_macho data program)
    (program_names platform).

(** A member with a pinned digest. *)
Definition pinned (payloads : dict bytes) (name digest : str) (msg : string) : res unit :=
  data ← item payloads name;
  fail_if (negb (bool_decide (hexdigest data = digest))) msg.

(** [audit_binary_archive]: the sorted members and the manifest of the result. *)
Definition audit_binary_archive (path : str) (file : option bytes) (platform : str)
    : res (list str * dict json) :=
  s ← archive_payloads path file;
  let payloads := AuditBase.payloads s in
  let modes := AuditBase.modes s in
  expected ← expected_members platform;
  fail_if (negb (bool_decide (dict_keys payloads = expected)))
    "archive member allowlist mismatch" ;;
  manifest ← verify_manifest limit payloads platform;
  version ← string_field "manifest version is missing" manifest (u "version");
  fail_if (negb (bool_decide (path_name path = archive_name version platform)))
    "archive name does not match platform/version" ;;
  for_each (verify_binary_archive_mode modes platform) (program_names platform) ;;
  verify_linux_mdev_modes modes platform ;;
  (if is_linux platform || is_android platform then audit_programs payloads platform else Ok tt) ;;
  pinned payloads (u "firmware/isdbt_rio.inp") FIRMWARE_SHA256
    "firmware SHA256 does not match the pinned input" ;;
  pinned payloads (u "LICENCE.siano") FIRMWARE_LICENSE_SHA256
    "Siano firmware license does not match the pinned input" ;;
  notice ← item payloads (u "DEPENDENCY-NOTICE.txt");
  fields ← notice_fields notice;
  exact_firmware_fields fields ;;
  fail_if (negb (bool_decide (dict_get (u "source.archive") fields = Some (source_archive version))))
    "dependency notice does not point to the corresponding project source archive" ;;
  (if is_linux platform then audit_linux_archive payloads modes fields version platform
   else if is_android platform then audit_android_archive payloads fields platform
   else if is_windows platform then audit_windows_archive payloads fields version platform
   else audit_darwin_archive payloads fields version platform) ;;
  for_each (λ program, verify_binary_evidence limit payloads manifest (Some program))
    (program_names platform) ;;
  verify_checksums payloads ;;
  Ok (sorted payloads.*1, manifest).

(** ** The source archive *)

Definition SOURCE_MANIFEST : str := u "source-manifest.json".
Definition SOURCE_REQUIRED : list str :=
  [u "BUILD-RELINK.md"; u "DEPENDENCY-NOTICE.txt"; u "README.md"; u "COPYING";
   u "LICENCE.siano"; SOURCE_MANIFEST; SUMS; u "third_party/libusb-1.0.30.tar.bz2";
   u "repository/Makefile"; u "repository/scripts/build-linux-static.sh";
   u "repository/scripts/build-macos-static.sh"; u "repository/scripts/test-static-relink.sh";
   u "repository/packaging/REBUILD.md"].
Definition source_prefixes : list str :=
  [u "repository/"; u "third_party/"; u "BUILD-RELINK.md"; u "DEPENDENCY-NOTICE.txt";
   u "README.md"; u "COPYING"; u "LICENCE.siano"; SOURCE_MANIFEST; SUMS].
Definition relink_recipe : list str :=
  [u "--disable-shared"; u "--enable-static"; u "--disable-udev"; u "test-static-relink.sh";
   u "build-macos-static.sh"].

(** The licenses of the Linux runtime, under the name of their last component. *)
Definition source_license (payloads : dict bytes) (license : str * str) : res unit :=
  let source := u "repository/distribution/licenses/" ++ path_name license.1 in
  fail_if (negb (bool_decide (hexdigest (default [] (dict_get source payloads)) = license.2)))
    "source archive runtime license is missing/altered".

Definition source_member (name : str) : res unit :=
  fail_if (forbidden_source_member name) "forbidden source archive member" ;;
  fail_if (negb (existsb (λ prefix, starts_with prefix name) source_prefixes))
    "unexpected source archive member".

(** [value.get(key)] on a value that is not a dictionary raises. *)
Definition get_of (value : json) (key : str) : res (option json) :=
  match value with
  | JDict d => Ok (dict_get key d)
  | _ => Err (AttributeError "get")
  end.

(** One pinned dependency: its commit is the pin of the repository, its tree an object ID,
    and its CMakeLists.txt and LICENSE are in the archive.  [re.fullmatch] on a tree that
    is not a string raises [TypeError]. *)
Definition source_dependency (payloads : dict bytes) (dependencies : dict json) (name : str)
    : res unit :=
  dependency ← item dependencies name;
  text ← of_option (ValueError "UnicodeDecodeError")
           (decode_ascii (default [] (dict_get (u "repository/cmake/" ++ name ++ u ".revision")
                                        payloads)));
  let expected_pin := strip text in
  match dependency with
  | JDict d =>
      fail_if (negb (get_eq d (u "commit") (JStr expected_pin)) || negb (hex40 expected_pin))
        "source archive dependency pin mismatch" ;;
      match dict_get (u "tree") d with
      | None => fail "source archive dependency pin mismatch"
      | Some (JStr tree) => fail_if (negb (hex40 tree)) "source archive dependency pin mismatch"
      | Some _ => Err (TypeError "expected string")
      end
  | _ => fail "source archive dependency pin mismatch"
  end ;;
  for_each (λ required,
    fail_if (negb (bool_decide (u "third_party/" ++ name ++ u "/" ++ required
                                ∈ dict_keys payloads)))
      "source archive dependency missing") [u "CMakeLists.txt"; u "LICENSE"].

Definition source_dependencies (payloads : dict bytes) (manifest : json) : res unit :=
  dependencies ← get_of manifest (u "dependencies");
  match dependencies with
  | Some (JDict d) =>
      fail_if (negb (bool_decide (dict_keys d = {[u "dtv-userland-core"; u "px4-userland"]})))
        "source archive must contain both pinned Core/P dependencies" ;;
      for_each (source_dependency payloads d) [u "dtv-userland-core"; u "px4-userland"]
  | _ => fail "source archive must contain both pinned Core/P dependencies"
  end.

(** [(?:src|adapters)/[A-Za-z0-9_./-]+\.(?:cpp|c|h)] *)
Definition source_char (c : N) : bool :=
  (is_digit c || (65 <=? c) && (c <=? 90) || (97 <=? c) && (c <=? 122)
   || one_of [95; 46; 47; 45] c)%N.
Definition core_source : pat :=
  Seq (Or (Text "src") (Text "adapters")) (Seq (Text "/") (Seq (Some_ (Class_ source_char))
    (Seq (Text ".") (Or (Text "cpp") (Or (Text "c") (Text "h")))))).

Definition core : str := u "third_party/dtv-userland-core/".

(** Every source the build of the core names is in the archive. *)
Definition source_closure (payloads : dict bytes) : res unit :=
  cmake ← text_of payloads (core ++ u "CMakeLists.txt");
  for_each (λ source, fail_if (negb (bool_decide (core ++ source ∈ dict_keys payloads)))
    "source archive Core closure missing") (re_findall core_source cmake).*1.

Definition expected_provenance : dict json :=
  (u "schema", JInt 1) :: ((λ kv, (kv.1, JStr kv.2)) <$>
  [(u "libusb_version", LIBUSB_VERSION); (u "libusb_source_url", LIBUSB_SOURCE_URL);
   (u "libusb_source_sha256", LIBUSB_SOURCE_SHA256); (u "libusb_license", u "LGPL-2.1-or-later");
   (u "linux_linkage", u "static"); (u "linux_libusb_backend", u "netlink");
   (u "darwin_linkage", u "static"); (u "darwin_libusb_backend", u "darwin");
   (u "firmware_url", FIRMWARE_URL); (u "firmware_sha256", FIRMWARE_SHA256);
   (u "firmware_license_url", FIRMWARE_LICENSE_URL);
   (u "firmware_license_sha256", FIRMWARE_LICENSE_SHA256)]).

(** The identities of the manifest: version, source reference, commit and tree. *)
Definition source_ids (manifest : dict json) : res (str * str * str * str) :=
  let field := string_field "source archive commit/tree provenance is missing" manifest in
  version ← field (u "version");
  source_ref ← field (u "source_ref");
  resolved_commit ← field (u "resolved_commit");
  tree ← field (u "tree");
  validate_version version ;;
  fail_if (bool_decide (source_ref = []) || negb (object_id resolved_commit)
           || negb (object_id tree))
    "source archive commit/tree IDs are not canonical lowercase object IDs" ;;
  Ok (version, source_ref, resolved_commit, tree).

(** One record of the inventory: size and digest up to Python's equality. *)
Definition source_record (payloads : dict bytes) (entry : str * json) : res unit :=
  match entry.2 with
  | JDict r =>
      fail_if (negb (bool_decide (dict_keys r = {[u "size"; u "sha256"]})))
        "source manifest mismatch" ;;
      data ← item payloads entry.1;
      fail_if (negb (get_eq r (u "size") (JInt (lenZ data)))
               || negb (get_eq r (u "sha256") (JStr (hexdigest data)))) "source manifest mismatch"
  | _ => fail "source manifest mismatch"
  end.

Definition source_inventory (payloads : dict bytes) (manifest : dict json) : res unit :=
  match dict_get (u "files") manifest with
  | Some (JDict files) =>
      fail_if (negb (bool_decide (dict_keys files = dict_keys payloads ∖ {[SOURCE_MANIFEST; SUMS]})))
        "source manifest does not match archived payload" ;;
      for_each (source_record payloads) files
  | _ => fail "source manifest does not match archived payload"
  end.

Definition source_fields (source_ref resolved_commit tree : str) : dict str :=
  [(u "source.ref", source_ref); (u "source.resolved_commit", resolved_commit);
   (u "source.tree", tree); (u "corresponding-source", third_party_libusb);
   (u "corresponding-source.sha256", LIBUSB_SOURCE_SHA256);
   (u "libusb.source.url", LIBUSB_SOURCE_URL)] ++ firmware_fields.

Definition audit_source_archive (path : str) (file : option bytes) : res (list str * dict json) :=
  s ← archive_payloads path file;
  let payloads := AuditBase.payloads s in
  fail_if (negb (forallb (λ name, bool_decide (name ∈ dict_keys payloads)) SOURCE_REQUIRED))
    "source archive is missing members" ;;
  for_each (source_license payloads) LINUX_RUNTIME_LICENSE_SHA256 ;;
  fail_if (negb (bool_decide (u "repository/scripts/source-identity.py" ∈ dict_keys payloads)))
    "source archive is missing the immutable source identity helper" ;;
  for_each source_member payloads.*1 ;;
  pinned payloads third_party_libusb LIBUSB_SOURCE_SHA256
    "source archive libusb checksum mismatch" ;;
  rebuild ← text_of payloads (u "BUILD-RELINK.md");
  for_each (λ required_text, fail_if (negb (contains required_text rebuild))
    "BUILD-RELINK.md is missing the static/relink recipe") relink_recipe ;;
  data ← item payloads SOURCE_MANIFEST;
  value ← parse_json limit data;
  source_dependencies payloads value ;;
  source_closure payloads ;;
  manifest ← match value with
             | JDict manifest => Ok manifest
             | _ => fail "invalid source archive provenance manifest"
             end;
  fail_if (negb (forallb (λ kv, get_eq manifest kv.1 kv.2) expected_provenance))
    "invalid source archive provenance manifest" ;;
  '(version, source_ref, resolved_commit, tree) ← source_ids manifest;
  text ← of_option (ValueError "UnicodeEncodeError") (encode_ascii (version ++ [10%N]));
  fail_if (negb (bool_decide (dict_get (u "repository/VERSION") payloads = Some text)))
    "repository/VERSION does not match the source manifest version" ;;
  source_inventory payloads manifest ;;
  notice ← item payloads (u "DEPENDENCY-NOTICE.txt");
  fields ← notice_fields notice;
  exact_fields "source dependency notice field mismatch"
    (source_fields source_ref resolved_commit tree) fields ;;
  pinned payloads (u "LICENCE.siano") FIRMWARE_LICENSE_SHA256
    "source archive Siano license checksum mismatch" ;;
  verify_checksums payloads ;;
  Ok (sorted payloads.*1, manifest).
End archive.
