(* ===== verification/AuditMain.v ===== *)
(** * The command: [scripts/audit-artifact.py], [main]

    The parsed options; [--self-test] is in [AuditSelfTest]. *)

From S2P Require Import Prelude PyStr PyDict Codec Regex PyFloat Json Sha256 PyPath Archive.
From S2P Require Import AuditBase AuditText AuditManifest AuditBinary AuditArchive.

Local Open Scope Z_scope.

Record args := Args {
  a_archive : option (str * option bytes);
  a_source_archive : bool;
  a_platform : option str;
  a_binary : option target;
  a_source_ref : option str;
  a_evidence_output : bool;
}.

(** [parser.error]: exit status 2. *)
Definition parser_error {A} (msg : string) : res A := Err (SystemExit 2 msg).

(** What a run leaves: the printed text and the evidence file, if one is written. *)
Record outcome := Outcome { printed : str; evidence_file : option bytes }.

Section main.
Context `{Unicode} `{Digits} `{Lower} `{Digest} `{Tools} `{Archives} `{Tars}.
Context (limit : nat) (repo_root temporary : str).

Definition archive_result (path : str) (kind : str * str) (r : list str * dict json) : json :=
  JDict [(u "archive", JStr (resolve path)); (kind.1, JStr kind.2);
         (u "members", JList (JStr <$> r.1)); (u "manifest", JDict r.2)].

(** [print(json.dumps(result, indent=2, sort_keys=True))]. *)
Definition report (result : json) (written : option bytes) : outcome :=
  Outcome (dumps result ++ [10%N]) written.

Definition platform_of (a : args) : res (option str) :=
  match a_platform a with
  | Some platform =>
      if bool_decide (platform ∈ PLATFORMS) then Ok (Some platform)
      else parser_error "argument --platform: invalid choice"
  | None => Ok None
  end.

Definition main (a : args) : res outcome :=
  platform ← platform_of a;
  if a_source_archive a then
    '(path, file) ← of_option (SystemExit 2 "--source-archive requires --archive") (a_archive a);
    r ← audit_source_archive limit (resolve path) file;
    Ok (report (archive_result (resolve path) (u "kind", u "source") r) None)
  else match a_archive a with
  | Some (path, file) =>
      platform ← of_option (SystemExit 2 "--archive requires --platform") platform;
      r ← audit_binary_archive limit repo_root temporary (resolve path) file platform;
      Ok (report (archive_result (resolve path) (u "platform", platform) r) None)
  | None =>
      match a_binary a with
      | Some t =>
          platform ← of_option (SystemExit 2 "--binary requires --platform") platform;
          source_ref ← match a_source_ref a with
                       | Some (c :: s) => Ok (c :: s)
                       | _ => parser_error "--binary requires --source-ref"
                       end;
          '(evidence, written) ←
            audit_binary repo_root (Target (resolve (t_path t)) (t_data t) (t_siblings t))
              platform source_ref (a_evidence_output a);
          Ok (report evidence written)
      | None => parser_error "provide --archive, --source-archive, or --binary"
      end
  end.
End main.

(** The exit status: [None] is an exception that leaves the program as a traceback. *)
Definition exit_status (r : res outcome) : option Z :=
  match r with
  | Ok _ => Some 0
  | Err (AuditError _ | OSError _ | ValueError _ | KeyError _ | JSONDecodeError _) => Some 1
  | Err (SystemExit code _) => Some code
  | Err _ => None
  end.
