(* ===== verification/AuditProps.v ===== *)
(** * What an accepted archive is

    The archives that [audit_binary_archive] and [audit_source_archive] accept: their
    members, manifest, checksums, pinned inputs and programs. *)

From S2P Require Import Prelude PyStr PyDict Codec Regex PyFloat Json Sha256 PyPath Provenance.
From S2P Require Import Archive ArchiveProps Struct AuditBase AuditBaseProps AuditText AuditPe AuditPeProps AuditMacho AuditMachoProps AuditManifest AuditBinary AuditArchive.

Local Open Scope Z_scope.

(** ** Tables of strings *)

(** A mapping has the items of a table. *)
Definition has {A} (wrap : str → A) (expected : dict str) (d : dict A) : Prop :=
  Forall (λ kv, dict_get kv.1 d = Some (wrap kv.2)) expected.

Lemma exact_fields_Ok msg expected fields r :
  exact_fields msg expected fields = Ok r ↔ has id expected fields.
Proof.
  unfold exact_fields, has. rewrite for_each_Ok. apply Forall_iff. intros [k v]. cbn.
  by rewrite fail_if_Ok, negb_false_iff, bool_decide_eq_true.
Qed.

Lemma exact_strings_Ok msg expected manifest r :
  exact_strings msg expected manifest = Ok r ↔ has JStr expected manifest.
Proof.
  unfold exact_strings, has. rewrite for_each_Ok. apply Forall_iff. intros [k v]. cbn.
  by rewrite fail_if_Ok, negb_false_iff, get_eq_str.
Qed.

Lemma py_eq_strs v l : py_eq v (JList (JStr <$> l)) = true ↔ v = JList (JStr <$> l).
Proof.
  destruct v as [| | | | |vs|]; try (split; [done|by intros [=]]).
  change (py_eq (JList vs) (JList (JStr <$> l))) with (list_eqb py_eq vs (JStr <$> l)).
  assert (list_eqb py_eq vs (JStr <$> l) = true ↔ vs = JStr <$> l) as ->.
  { revert l. induction vs as [|v vs IH]; intros [|s l]; cbn [list_eqb fmap list_fmap];
      [done|done|by split; [|intros [=]]|].
    rewrite andb_true_iff, py_eq_str, IH. split; [by intros [-> ->]|by intros [= -> ->]]. }
  split; [by intros ->|by intros [=]].
Qed.

Lemma get_eq_strs d k l : get_eq d k (JList (JStr <$> l)) = true ↔
  dict_get k d = Some (JList (JStr <$> l)).
Proof.
  unfold get_eq. rewrite py_eq_strs. destruct (dict_get k d); cbn; split; congruence.
Qed.

Lemma string_field_Ok msg d k s : string_field msg d k = Ok s ↔ dict_get k d = Some (JStr s).
Proof. unfold string_field. destruct (dict_get k d) as [[]|]; naive_solver. Qed.

(** ** The manifest *)

Section manifest.
Context `{Digest}.
Context (limit : nat).

(** A record of the inventory describes the data of its member. *)
Definition record_describes (data : bytes) (record : json) : Prop :=
  ∃ r, record = JDict r ∧ dict_keys r = {[u "size"; u "sha256"]}
       ∧ dict_get (u "size") r = Some (JInt (lenZ data))
       ∧ dict_get (u "sha256") r = Some (JStr (hexdigest data)).

Lemma verify_record_Ok payloads inventory name r :
  verify_record payloads inventory name = Ok r ↔
  ∃ record data, dict_get name inventory = Some record ∧ dict_get name payloads = Some data
    ∧ record_describes data record.
Proof.
  unfold verify_record, record_describes. rewrite bind_Ok. setoid_rewrite item_Ok. split.
  - intros (record & Hr & H'). destruct record as [| | | | | |d]; try done.
    rewrite fail_if_then, negb_false_iff, bool_decide_eq_true in H'. destruct H' as [Hk H'].
    destruct (dict_get (u "size") d) as [[| |size| | | |]|] eqn:Hs; try done.
    destruct (dict_get (u "sha256") d) as [[| | | |sha| |]|] eqn:Hd; try done.
    rewrite fail_if_then, bind_Ok in H'. destruct H' as (_ & data & Hp%item_Ok & H').
    rewrite fail_if_Ok, orb_false_iff, !negb_false_iff, Z.eqb_eq, bool_decide_eq_true in H'.
    destruct H' as [-> ->]. exists (JDict d), data. split_and!; [done..|]. by exists d.
  - intros (record & data & Hr & Hp & d & -> & Hk & Hs & Hd). exists (JDict d). split; [done|].
    rewrite fail_if_then, negb_false_iff, bool_decide_eq_true. split; [done|].
    rewrite Hs, Hd, fail_if_then. split.
    { rewrite hexdigest_hex. destruct (Z.ltb_spec (lenZ data) 0); [unfold lenZ in *; lia|done]. }
    rewrite (proj2 (item_Ok _ _ _) Hp). cbn.
    rewrite fail_if_Ok, orb_false_iff, !negb_false_iff, Z.eqb_eq. split; [done|].
    by apply bool_decide_eq_true.
Qed.

(** The inventory lists every member but the manifest itself and the checksum list. *)
Definition inventory_of (payloads : dict bytes) (own : str) (files : dict json) : Prop :=
  dict_keys files = dict_keys payloads ∖ {[own; SUMS]}
  ∧ ∀ name data, dict_get name payloads = Some data → name ≠ own → name ≠ SUMS →
      ∃ record, dict_get name files = Some record ∧ record_describes data record.

Lemma elem_of_sorted l x : x ∈ sorted l ↔ x ∈ l.
Proof. unfold sorted. by rewrite sorting.merge_sort_Permutation. Qed.

Lemma verify_inventory_Ok payloads own manifest r :
  verify_inventory payloads own manifest = Ok r ↔
  ∃ files, dict_get (u "files") manifest = Some (JDict files) ∧ inventory_of payloads own files.
Proof.
  unfold verify_inventory, inventory_of. destruct (dict_get _ _) as [[]|];
    try by split; [|naive_solver].
  rewrite fail_if_then, negb_false_iff, bool_decide_eq_true, for_each_Ok, Forall_forall.
  assert (∀ name, name ∈ sorted (elements (dict_keys payloads ∖ {[own; SUMS]})) ↔
            is_Some (dict_get name payloads) ∧ name ≠ own ∧ name ≠ SUMS) as Hin.
  { intros name. rewrite elem_of_sorted, elem_of_elements, elem_of_difference, elem_of_dict_keys.
    set_solver. }
  setoid_rewrite Hin. setoid_rewrite verify_record_Ok. split.
  - intros [Hk Hall]. exists d. split; [done|]. split; [done|]. intros name data Hd Hn1 Hn2.
    destruct (Hall name) as (record & data' & ? & ? & ?); [by eauto|].
    exists record. split; [done|]. congruence.
  - intros (files & [= <-] & Hk & Hall). split; [done|]. intros name ([data Hd] & ? & ?).
    destruct (Hall name data) as (record & ? & ?); [done..|]. by exists record, data.
Qed.

(** What the manifest of a platform says. *)
Record manifest_of (payloads : dict bytes) (platform : str) (manifest : dict json) : Prop := {
  mf_text : parse_json limit (default [] (dict_get MANIFEST payloads)) = Ok (JDict manifest);
  mf_schema : get_eq manifest (u "schema") (JInt 1) = true;
  mf_platform : dict_get (u "platform") manifest = Some (JStr platform);
  mf_version : ∃ version, dict_get (u "version") manifest = Some (JStr version)
                          ∧ fullmatch VERSION_RE version = true;
  mf_source : ∃ source_ref, dict_get (u "source_ref") manifest = Some (JStr source_ref)
                            ∧ object_id source_ref = true;
  mf_programs : dict_get (u "programs") manifest = Some (JList (JStr <$> program_names platform));
  mf_files : ∃ files, dict_get (u "files") manifest = Some (JDict files)
                      ∧ inventory_of payloads MANIFEST files;
  mf_firmware : get_eq manifest (u "firmware") expected_firmware = true;
  mf_linux : is_linux platform = true →
    ∃ metadata, linux_metadata platform = Ok metadata ∧ has JStr metadata manifest;
  mf_build : verify_platform_manifest platform manifest = Ok tt;
}.

Lemma verify_manifest_Ok payloads platform manifest :
  verify_manifest limit payloads platform = Ok manifest ↔ manifest_of payloads platform manifest.
Proof.
  unfold verify_manifest, validate_version, validate_source_ref. split.
  - intros H'. apply bind_Ok in H' as (value & Hp & H'). destruct value as [| | | | | |d]; try done.
    rewrite fail_if_then, orb_false_iff, !negb_false_iff, get_eq_str in H'.
    destruct H' as [[Hsc Hpl] H'].
    apply bind_Ok in H' as (version & Hv%string_field_Ok & H').
    rewrite fail_if_then, negb_false_iff in H'. destruct H' as [Hvre H'].
    apply bind_Ok in H' as (source_ref & Hs%string_field_Ok & H').
    rewrite fail_if_then, negb_false_iff in H'. destruct H' as [Hsre H'].
    apply bind_Ok in H' as ([] & Hl & H').
    rewrite fail_if_then, negb_false_iff, get_eq_strs in H'. destruct H' as [Hpr H'].
    apply bind_Ok in H' as ([] & Hf%verify_inventory_Ok & H').
    rewrite fail_if_then, negb_false_iff in H'. destruct H' as [Hfw H'].
    apply bind_Ok in H' as ([] & Hb & [= <-]).
    constructor; eauto. intros Hlin. rewrite Hlin in Hl.
    apply bind_Ok in Hl as (metadata & ? & ?%exact_strings_Ok). eauto.
  - intros [-> Hsc Hpl (v & Hv & Hvre) (s & Hs & Hsre) Hpr Hf Hfw Hlin Hb]. cbn [mbind res_bind].
    rewrite fail_if_then, orb_false_iff, !negb_false_iff, get_eq_str. split; [done|].
    apply bind_Ok. exists v. split; [by apply string_field_Ok|].
    rewrite fail_if_then, negb_false_iff. split; [done|].
    apply bind_Ok. exists s. split; [by apply string_field_Ok|].
    rewrite fail_if_then, negb_false_iff. split; [done|].
    apply bind_Ok. exists tt. split.
    { destruct (is_linux platform); [|done]. destruct Hlin as (metadata & Hm & ?); [done|].
      apply bind_Ok. exists metadata. split; [done|]. by apply exact_strings_Ok. }
    rewrite fail_if_then, negb_false_iff, get_eq_strs. split; [done|].
    apply bind_Ok. exists tt. split; [by apply verify_inventory_Ok|].
    rewrite fail_if_then, negb_false_iff. split; [done|].
    apply bind_Ok. by exists tt.
Qed.
End manifest.

(** ** The archive of a platform *)

Section archive.
Context `{Unicode} `{Digits} `{Lower} `{Digest} `{Tools} `{Archives} `{Tars}.
Context (limit : nat) (repo_root temporary : str).

(** A member with a given digest. *)
Definition has_digest (payloads : dict bytes) (name digest : str) : Prop :=
  hexdigest <$> dict_get name payloads = Some digest.

Lemma pinned_Ok payloads name digest msg r :
  pinned payloads name digest msg = Ok r ↔ has_digest payloads name digest.
Proof.
  unfold pinned, has_digest. rewrite bind_Ok, fmap_Some. setoid_rewrite item_Ok.
  setoid_rewrite fail_if_Ok. setoid_rewrite negb_false_iff. setoid_rewrite bool_decide_eq_true.
  naive_solver.
Qed.

(** The evidence of a program names the platform, the source and the program's bytes. *)
Definition evidence_binds (payloads : dict bytes) (manifest : dict json) (program : str) : Prop :=
  ∃ platform source_ref data evidence,
    dict_get (u "platform") manifest = Some platform
    ∧ dict_get (u "source_ref") manifest = Some source_ref
    ∧ dict_get program payloads = Some data
    ∧ parse_json limit (default [] (dict_get (binary_evidence_name program) payloads)) = Ok evidence
    ∧ py_eq evidence (JDict [(u "schema", JInt 2); (u "platform", platform);
        (u "source_ref", source_ref);
        (u "binary", strings [(u "name", program); (u "sha256", hexdigest data)])]) = true.

Lemma verify_binary_evidence_Ok payloads manifest program r :
  verify_binary_evidence limit payloads manifest (Some program) = Ok r ↔
  evidence_binds payloads manifest program.
Proof.
  unfold verify_binary_evidence, evidence_binds. split.
  - intros H'. apply bind_Ok in H' as (platform & Hp%item_Ok & H').
    apply bind_Ok in H' as (evidence & He & H').
    apply bind_Ok in H' as (source_ref & Hs%item_Ok & H').
    apply bind_Ok in H' as (data & Hd%item_Ok & H').
    apply fail_if_Ok, negb_false_iff in H'. exists platform, source_ref, data, evidence. by split_and!.
  - intros (platform & source_ref & data & evidence & Hp & Hs & Hd & He & Heq).
    rewrite (proj2 (item_Ok _ _ _) Hp). cbn [mbind res_bind]. rewrite He. cbn [mbind res_bind].
    rewrite (proj2 (item_Ok _ _ _) Hs), (proj2 (item_Ok _ _ _) Hd). cbn [mbind res_bind].
    by rewrite fail_if_Ok, negb_false_iff.
Qed.

(** A program can be executed by its modes, except on Windows. *)
Definition executable (modes : dict Z) (platform program : str) : Prop :=
  is_windows platform = true
  ∨ ∃ mode, dict_get program modes = Some mode ∧ Z.land mode 0x49 ≠ 0.

Lemma verify_mode_Ok modes platform program r :
  verify_binary_archive_mode modes platform program = Ok r ↔ executable modes platform program.
Proof.
  unfold verify_binary_archive_mode, executable. destruct (is_windows platform), r; [naive_solver|].
  destruct (dict_get program modes) as [mode|].
  - rewrite fail_if_Ok, Z.eqb_neq. naive_solver.
  - split; [done|]. by intros [?|(? & ? & _)].
Qed.

(** The audit of the programs that the tools read. *)
Definition tool_audited (payloads : dict bytes) (platform program : str) : Prop :=
  ∃ data, dict_get program payloads = Some data ∧
    (if is_linux platform
     then audit_linux_static_binary (path_join temporary program) data platform
     else audit_android_binary repo_root (path_join temporary program) data platform) = Ok tt.

(** What is checked on each platform beyond the common part. *)
Definition platform_checks (s : payload_state) (fields : dict str) (version platform : str) : Prop :=
  if is_linux platform then
    Forall (tool_audited (payloads s) platform) (program_names platform)
    ∧ audit_linux_archive (payloads s) (modes s) fields version platform = Ok tt
  else if is_android platform then
    Forall (tool_audited (payloads s) platform) (program_names platform)
    ∧ has id android_fields fields ∧ has_digest (payloads s) libusb_source LIBUSB_SOURCE_SHA256
    ∧ Forall (λ program, verify_android_provenance (payloads s) fields platform (Some program)
                         = Ok tt) (program_names platform)
  else if is_windows platform then
    has id windows_fields fields
    ∧ (∃ notice, text_of (payloads s) (u "libusb/NOTICE.txt") = Ok notice
         ∧ contains (u "libusb-1.0.dll") (str_lower notice) = true
         ∧ contains (source_archive version) notice = true)
    ∧ Forall (λ name, ends_with (u ".pdb") (str_lower name) = false) (payloads s).*1
    ∧ Forall (λ program, ∃ data offsets, dict_get program (payloads s) = Some data
                ∧ pe_image data offsets ∧ no_debug data offsets) (program_names platform)
    ∧ ∃ data offsets, dict_get (u "libusb-1.0.dll") (payloads s) = Some data ∧ pe_image data offsets
  else
    has id (darwin_fields version) fields
    ∧ (∃ properties, (data ← item (payloads s) (u "evidence/build.properties");
                      parse_build_properties data) = Ok properties
         ∧ has id darwin_properties properties)
    ∧ Forall (λ program, ∃ data, dict_get program (payloads s) = Some data
                ∧ audit_darwin_macho data program = Ok tt) (program_names platform).

(** An archive fit for release. *)
Record released (path platform : str) (s : payload_state) (manifest : dict json) : Prop := {
  rl_members : expected_members platform = Ok (dict_keys (payloads s));
  rl_manifest : manifest_of limit (payloads s) platform manifest;
  rl_modes : Forall (executable (modes s) platform) (program_names platform);
  rl_mdev : verify_linux_mdev_modes (modes s) platform = Ok tt;
  rl_firmware : has_digest (payloads s) (u "firmware/isdbt_rio.inp") FIRMWARE_SHA256;
  rl_license : has_digest (payloads s) (u "LICENCE.siano") FIRMWARE_LICENSE_SHA256;
  rl_fields : ∃ version fields,
    dict_get (u "version") manifest = Some (JStr version)
    ∧ path_name path = archive_name version platform
    ∧ (data ← item (payloads s) (u "DEPENDENCY-NOTICE.txt"); notice_fields data) = Ok fields
    ∧ has id firmware_fields fields
    ∧ dict_get (u "source.archive") fields = Some (source_archive version)
    ∧ platform_checks s fields version platform;
  rl_evidence : Forall (evidence_binds (payloads s) manifest) (program_names platform);
  rl_checksums : ∃ data text listed, dict_get SUMS (payloads s) = Some data
    ∧ decode_ascii data = Some text ∧ checksums_of (payloads s) text listed;
}.

(** ** Acceptance *)

Lemma with_item {A B} (d : dict A) k (f : A → res B) r :
  (v ← item d k; f v) = Ok r ↔ ∃ v, dict_get k d = Some v ∧ f v = Ok r.
Proof. rewrite bind_Ok. by setoid_rewrite item_Ok. Qed.

Lemma programs_Ok {A} (f : A → res unit) (P : A → Prop) l r :
  (∀ x, f x = Ok tt ↔ P x) → for_each f l = Ok r ↔ Forall P l.
Proof. intros Hf. rewrite for_each_Ok. by apply Forall_iff. Qed.

Lemma audit_programs_Ok p platform r :
  audit_programs repo_root temporary p platform = Ok r ↔
  Forall (tool_audited p platform) (program_names platform).
Proof.
  apply programs_Ok. intros program. rewrite with_item. unfold tool_audited.
  by destruct (is_linux platform).
Qed.

Lemma audit_windows_Ok p fields version platform r :
  audit_windows_archive p fields version platform = Ok r ↔
  has id windows_fields fields
  ∧ (∃ notice, text_of p (u "libusb/NOTICE.txt") = Ok notice
       ∧ contains (u "libusb-1.0.dll") (str_lower notice) = true
       ∧ contains (source_archive version) notice = true)
  ∧ Forall (λ name, ends_with (u ".pdb") (str_lower name) = false) p.*1
  ∧ Forall (λ program, ∃ data offsets, dict_get program p = Some data
              ∧ pe_image data offsets ∧ no_debug data offsets) (program_names platform)
  ∧ ∃ data offsets, dict_get (u "libusb-1.0.dll") p = Some data ∧ pe_image data offsets.
Proof.
  assert (∀ program, (data ← item p program; audit_pe_x64_bytes data true) = Ok tt ↔
    ∃ data offsets, dict_get program p = Some data ∧ pe_image data offsets ∧ no_debug data offsets)
    as Hexe.
  { intros program. rewrite with_item. setoid_rewrite audit_pe_Ok. naive_solver. }
  assert ((data ← item p (u "libusb-1.0.dll"); audit_pe_x64_bytes data false) = Ok tt ↔
    ∃ data offsets, dict_get (u "libusb-1.0.dll") p = Some data ∧ pe_image data offsets) as Hdll.
  { rewrite with_item. setoid_rewrite audit_pe_Ok. naive_solver. }
  destruct r. unfold audit_windows_archive. split.
  - intros H'. apply bind_Ok in H' as (? & Hf%exact_fields_Ok & H').
    apply bind_Ok in H' as (notice & Hn & H'). rewrite !fail_if_then, !negb_false_iff in H'.
    destruct H' as (Hdn & Hsn & H'). apply bind_Ok in H' as ([] & Hpdb%for_each_Ok & H').
    apply bind_Ok in H' as ([] & Hp & Hd%Hdll).
    apply (programs_Ok _ _ _ _ Hexe) in Hp. setoid_rewrite fail_if_Ok in Hpdb.
    split_and!; try done. by exists notice.
  - intros (Hf & (notice & Hn & Hdn & Hsn) & Hpdb & Hp & Hd).
    rewrite (proj2 (exact_fields_Ok _ _ _ tt) Hf). cbn [mbind res_bind]. rewrite Hn.
    cbn [mbind res_bind]. rewrite !fail_if_then, !negb_false_iff. split_and!; [done..|].
    apply bind_Ok. exists tt. split.
    { apply for_each_Ok. by setoid_rewrite fail_if_Ok. }
    apply bind_Ok. exists tt. split; [by apply (programs_Ok _ _ _ _ Hexe)|by apply Hdll].
Qed.

Lemma audit_darwin_archive_Ok p fields version platform r :
  audit_darwin_archive p fields version platform = Ok r ↔
  has id (darwin_fields version) fields
  ∧ (∃ properties, (data ← item p (u "evidence/build.properties");
                    parse_build_properties data) = Ok properties
       ∧ has id darwin_properties properties)
  ∧ Forall (λ program, ∃ data, dict_get program p = Some data
              ∧ audit_darwin_macho data program = Ok tt) (program_names platform).
Proof.
  assert (∀ program, (data ← item p program; audit_darwin_macho data program) = Ok tt ↔
    ∃ data, dict_get program p = Some data ∧ audit_darwin_macho data program = Ok tt) as Hexe
    by (intros program; apply with_item).
  destruct r. unfold audit_darwin_archive. split.
  - intros H'. apply bind_Ok in H' as (? & Hf%exact_fields_Ok & H').
    apply bind_Ok in H' as (data & Hd & H'). apply bind_Ok in H' as (properties & Hp & H').
    apply bind_Ok in H' as (? & Hx%exact_fields_Ok & Hall%(programs_Ok _ _ _ _ Hexe)).
    split_and!; [done| |done]. exists properties. split; [|done]. apply bind_Ok. by exists data.
  - intros (Hf & (properties & Hp & Hx) & Hall). apply bind_Ok in Hp as (data & Hd & Hp).
    rewrite (proj2 (exact_fields_Ok _ _ _ tt) Hf). cbn [mbind res_bind]. rewrite Hd.
    cbn [mbind res_bind]. rewrite Hp. cbn [mbind res_bind].
    rewrite (proj2 (exact_fields_Ok _ _ _ tt) Hx). by apply (programs_Ok _ _ _ _ Hexe).
Qed.

Lemma audit_android_archive_Ok p fields platform r :
  audit_android_archive p fields platform = Ok r ↔
  has id android_fields fields ∧ has_digest p libusb_source LIBUSB_SOURCE_SHA256
  ∧ Forall (λ program, verify_android_provenance p fields platform (Some program) = Ok tt)
      (program_names platform).
Proof.
  unfold audit_android_archive, has_digest. rewrite bind_Ok. setoid_rewrite exact_fields_Ok.
  setoid_rewrite with_item. setoid_rewrite fail_if_then. setoid_rewrite negb_false_iff.
  setoid_rewrite bool_decide_eq_true. setoid_rewrite for_each_Ok. rewrite fmap_Some. naive_solver.
Qed.

(** The two platform steps of the audit together. *)
Lemma platform_checks_Ok s fields version platform :
  platform_checks s fields version platform ↔
  (if is_linux platform || is_android platform
   then audit_programs repo_root temporary (payloads s) platform else Ok tt) = Ok tt
  ∧ (if is_linux platform then audit_linux_archive (payloads s) (modes s) fields version platform
     else if is_android platform then audit_android_archive (payloads s) fields platform
     else if is_windows platform then audit_windows_archive (payloads s) fields version platform
     else audit_darwin_archive (payloads s) fields version platform) = Ok tt.
Proof.
  unfold platform_checks. destruct (is_linux platform); cbn [orb]; [by rewrite audit_programs_Ok|].
  destruct (is_android platform); [by rewrite audit_programs_Ok, audit_android_archive_Ok|].
  destruct (is_windows platform); [rewrite audit_windows_Ok|rewrite audit_darwin_archive_Ok]; tauto.
Qed.

Lemma audit_binary_archive_inv path file platform members manifest :
  audit_binary_archive limit repo_root temporary path file platform = Ok (members, manifest) →
  ∃ s, archive_payloads path file = Ok s ∧ members = sorted (payloads s).*1
    ∧ released path platform s manifest.
Proof.
  intros Ha. unfold audit_binary_archive in Ha.
  apply bind_Ok in Ha as (s & Hs & Ha). apply bind_Ok in Ha as (expected & Hx & Ha).
  rewrite fail_if_then, negb_false_iff, bool_decide_eq_true in Ha. destruct Ha as [<- Ha].
  apply bind_Ok in Ha as (manifest' & Hm%verify_manifest_Ok & Ha).
  apply bind_Ok in Ha as (version & Hv%string_field_Ok & Ha).
  rewrite fail_if_then, negb_false_iff, bool_decide_eq_true in Ha. destruct Ha as [Hname Ha].
  apply bind_Ok in Ha as ([] & Hmode & Ha). apply bind_Ok in Ha as ([] & Hmdev & Ha).
  apply bind_Ok in Ha as ([] & Htools & Ha).
  apply bind_Ok in Ha as ([] & Hfw%pinned_Ok & Ha). apply bind_Ok in Ha as ([] & Hlic%pinned_Ok & Ha).
  apply bind_Ok in Ha as (notice & Hn & Ha). apply bind_Ok in Ha as (fields & Hf & Ha).
  apply bind_Ok in Ha as ([] & Hff%exact_fields_Ok & Ha).
  rewrite fail_if_then, negb_false_iff, bool_decide_eq_true in Ha. destruct Ha as [Hsa Ha].
  apply bind_Ok in Ha as ([] & Hplat & Ha). apply bind_Ok in Ha as ([] & Hev & Ha).
  apply bind_Ok in Ha as ([] & Hck%verify_checksums_Ok & [= <- <-]).
  exists s. split; [done|]. split; [done|]. constructor; try done.
  - by apply (programs_Ok _ _ _ tt (λ x, verify_mode_Ok _ _ x tt)).
  - exists version, fields. split_and!; try done; [apply bind_Ok; eauto|].
    by apply platform_checks_Ok.
  - by apply (programs_Ok _ _ _ tt (λ x, verify_binary_evidence_Ok _ _ x tt)).
Qed.

Lemma audit_binary_archive_intro path file platform s manifest :
  archive_payloads path file = Ok s → released path platform s manifest →
  audit_binary_archive limit repo_root temporary path file platform
  = Ok (sorted (payloads s).*1, manifest).
Proof.
  intros Hs [Hx Hm Hmode Hmdev Hfw Hlic (version & fields & Hv & Hname & Hf & Hff & Hsa & Hp) Hev Hck].
  apply platform_checks_Ok in Hp as [Htools Hplat]. apply bind_Ok in Hf as (notice & Hn & Hf).
  unfold audit_binary_archive. rewrite Hs. cbn [mbind res_bind]. rewrite Hx. cbn [mbind res_bind].
  rewrite bool_decide_eq_true_2 by done. cbn [negb fail_if mbind res_bind].
  rewrite (proj2 (verify_manifest_Ok _ _ _ _) Hm). cbn [mbind res_bind].
  rewrite (proj2 (string_field_Ok _ _ _ _) Hv). cbn [mbind res_bind].
  rewrite bool_decide_eq_true_2 by done. cbn [negb fail_if mbind res_bind].
  rewrite (proj2 (programs_Ok (verify_binary_archive_mode (modes s) platform) _ _ tt
    (λ x, verify_mode_Ok _ _ x tt)) Hmode). cbn [mbind res_bind].
  rewrite Hmdev. cbn [mbind res_bind]. rewrite Htools. cbn [mbind res_bind].
  rewrite (proj2 (pinned_Ok _ _ _ _ tt) Hfw). cbn [mbind res_bind].
  rewrite (proj2 (pinned_Ok _ _ _ _ tt) Hlic). cbn [mbind res_bind].
  rewrite Hn. cbn [mbind res_bind]. rewrite Hf. cbn [mbind res_bind].
  unfold exact_firmware_fields. rewrite (proj2 (exact_fields_Ok _ _ _ tt) Hff). cbn [mbind res_bind].
  rewrite bool_decide_eq_true_2 by done. cbn [negb fail_if mbind res_bind].
  rewrite Hplat. cbn [mbind res_bind].
  rewrite (proj2 (programs_Ok _ _ _ tt (λ x, verify_binary_evidence_Ok _ _ x tt)) Hev).
  cbn [mbind res_bind]. by rewrite (proj2 (verify_checksums_Ok _ tt) Hck).
Qed.
End archive.

(** ** Properties *)

