(* ===== verification/AuditSourceProps.v ===== *)
(** * What an accepted source archive is: [audit_source_archive] *)

From S2P Require Import Prelude PyStr PyDict Codec Regex PyRe PyFloat Json Sha256 PyPath Provenance.
From S2P Require Import Archive ArchiveProps AuditBase AuditBaseProps AuditText AuditManifest AuditBinary AuditArchive AuditMain AuditProps.

Local Open Scope Z_scope.

Section source.
Context `{Lower} `{Digest} `{Archives} `{Tars}.
Context (limit : nat).

(** A record of the source inventory, up to Python's equality. *)
Definition record_agrees (data : bytes) (record : json) : Prop :=
  ∃ r, record = JDict r ∧ dict_keys r = {[u "size"; u "sha256"]}
       ∧ get_eq r (u "size") (JInt (lenZ data)) = true
       ∧ dict_get (u "sha256") r = Some (JStr (hexdigest data)).

Lemma source_record_Ok payloads entry r :
  source_record payloads entry = Ok r ↔
  ∃ data, dict_get entry.1 payloads = Some data ∧ record_agrees data entry.2.
Proof.
  unfold source_record, record_agrees. destruct entry as [name record]. cbn [fst snd].
  destruct record as [| | | | | |d]; try (split; [done|naive_solver]).
  rewrite fail_if_then, negb_false_iff, bool_decide_eq_true, with_item.
  setoid_rewrite fail_if_Ok. setoid_rewrite orb_false_iff. setoid_rewrite negb_false_iff.
  setoid_rewrite get_eq_str. split.
  - intros (Hk & data & Hd & Hs & Hh). exists data. split; [done|]. by exists d.
  - intros (data & Hd & d' & [= <-] & Hk & Hs & Hh). split; [done|]. by exists data.
Qed.

(** One pinned dependency. *)
Record dependency_of (payloads : dict bytes) (name : str) (dependency : json) : Prop := {
  dp_pin : ∃ d text tree, dependency = JDict d
    ∧ decode_ascii (default [] (dict_get (u "repository/cmake/" ++ name ++ u ".revision") payloads))
      = Some text
    ∧ hex40 (strip text) = true ∧ dict_get (u "commit") d = Some (JStr (strip text))
    ∧ dict_get (u "tree") d = Some (JStr tree) ∧ hex40 tree = true;
  dp_members : u "third_party/" ++ name ++ u "/CMakeLists.txt" ∈ dict_keys payloads
    ∧ u "third_party/" ++ name ++ u "/LICENSE" ∈ dict_keys payloads;
}.

Lemma source_dependency_Ok payloads dependencies name r :
  source_dependency payloads dependencies name = Ok r ↔
  ∃ dependency, dict_get name dependencies = Some dependency
    ∧ dependency_of payloads name dependency.
Proof.
  unfold source_dependency. rewrite with_item.
  assert (∀ r', for_each (λ required,
    fail_if (negb (bool_decide (u "third_party/" ++ name ++ u "/" ++ required
                                ∈ dict_keys payloads)))
      "source archive dependency missing") [u "CMakeLists.txt"; u "LICENSE"] = Ok r' ↔
    u "third_party/" ++ name ++ u "/CMakeLists.txt" ∈ dict_keys payloads
    ∧ u "third_party/" ++ name ++ u "/LICENSE" ∈ dict_keys payloads) as Hreq.
  { intros r'. rewrite for_each_Ok, !Forall_cons, Forall_nil.
    rewrite !fail_if_Ok, !negb_false_iff, !bool_decide_eq_true. tauto. }
  split.
  - intros (dependency & Hd & H'). apply bind_Ok in H' as (text & Ht%of_option_Ok & H').
    exists dependency. split; [done|]. destruct dependency as [| | | | | |d]; try done.
    apply bind_Ok in H' as ([] & H' & Hm%Hreq). constructor; [|done].
    rewrite fail_if_then, orb_false_iff, !negb_false_iff, get_eq_str in H'.
    destruct H' as [[Hc Hp] H']. destruct (dict_get (u "tree") d) as [[| | | |tree| |]|] eqn:Htr; try done.
    apply fail_if_Ok, negb_false_iff in H'. by exists d, text, tree.
  - intros (dependency & Hd & [(d & text & tree & -> & Ht & Hp & Hc & Htr & Hh) Hm]).
    exists (JDict d). split; [done|]. rewrite Ht. cbn [of_option mbind res_bind].
    apply bind_Ok. exists tt. split; [|by apply Hreq].
    rewrite fail_if_then, orb_false_iff, !negb_false_iff, get_eq_str, Htr.
    split; [done|]. by apply fail_if_Ok, negb_false_iff.
Qed.

Lemma source_dependencies_Ok payloads manifest r :
  source_dependencies payloads (JDict manifest) = Ok r ↔
  ∃ d core px4, dict_get (u "dependencies") manifest = Some (JDict d)
    ∧ dict_keys d = {[u "dtv-userland-core"; u "px4-userland"]}
    ∧ dict_get (u "dtv-userland-core") d = Some core
    ∧ dependency_of payloads (u "dtv-userland-core") core
    ∧ dict_get (u "px4-userland") d = Some px4 ∧ dependency_of payloads (u "px4-userland") px4.
Proof.
  unfold source_dependencies. cbn [get_of mbind res_bind].
  destruct (dict_get (u "dependencies") manifest) as [[| | | | | |d]|];
    try (split; [done|intros (? & ? & ? & [=] & _)]).
  rewrite fail_if_then, negb_false_iff, bool_decide_eq_true, for_each_Ok, !Forall_cons, Forall_nil.
  rewrite !source_dependency_Ok. split.
  - intros (Hk & (c & ? & ?) & (p & ? & ?) & _). by exists d, c, p.
  - intros (d' & c & p & [= <-] & Hk & ? & ? & ? & ?). split_and!; [done|by exists c|by exists p|done].
Qed.

(** The sources that the core's build names. *)
Definition core_closure (payloads : dict bytes) : Prop :=
  ∃ cmake, text_of payloads (core ++ u "CMakeLists.txt") = Ok cmake
    ∧ Forall (λ source, core ++ source ∈ dict_keys payloads) (re_findall core_source cmake).*1.

Lemma source_closure_Ok payloads r : source_closure payloads = Ok r ↔ core_closure payloads.
Proof.
  unfold source_closure, core_closure. rewrite bind_Ok. setoid_rewrite for_each_Ok.
  setoid_rewrite fail_if_Ok. setoid_rewrite negb_false_iff. by setoid_rewrite bool_decide_eq_true.
Qed.

(** The identities of the manifest. *)
Record identities (manifest : dict json) (version source_ref resolved_commit tree : str) : Prop := {
  id_version : dict_get (u "version") manifest = Some (JStr version)
    ∧ fullmatch VERSION_RE version = true;
  id_ref : dict_get (u "source_ref") manifest = Some (JStr source_ref) ∧ source_ref ≠ [];
  id_commit : dict_get (u "resolved_commit") manifest = Some (JStr resolved_commit)
    ∧ object_id resolved_commit = true;
  id_tree : dict_get (u "tree") manifest = Some (JStr tree) ∧ object_id tree = true;
}.

Lemma source_ids_Ok manifest version source_ref resolved_commit tree :
  source_ids manifest = Ok (version, source_ref, resolved_commit, tree) ↔
  identities manifest version source_ref resolved_commit tree.
Proof.
  unfold source_ids, validate_version. split.
  - intros H'. apply bind_Ok in H' as (v & Hv%string_field_Ok & H').
    apply bind_Ok in H' as (s & Hs%string_field_Ok & H').
    apply bind_Ok in H' as (c & Hc%string_field_Ok & H').
    apply bind_Ok in H' as (t & Ht%string_field_Ok & H').
    rewrite !fail_if_then, !orb_false_iff, !negb_false_iff, bool_decide_eq_false in H'.
    destruct H' as (Hvre & [[? ?] ?] & [= <- <- <- <-]). by constructor.
  - intros [[Hv ?] [Hs ?] [Hc ?] [Ht ?]].
    do 4 (apply bind_Ok; eexists; split; [by apply string_field_Ok|]).
    by rewrite !fail_if_then, !orb_false_iff, !negb_false_iff, bool_decide_eq_false.
Qed.

Definition source_inventory_of (payloads : dict bytes) (manifest : dict json) : Prop :=
  ∃ files, dict_get (u "files") manifest = Some (JDict files)
    ∧ dict_keys files = dict_keys payloads ∖ {[SOURCE_MANIFEST; SUMS]}
    ∧ Forall (λ entry, ∃ data, dict_get entry.1 payloads = Some data ∧ record_agrees data entry.2)
        files.

Lemma source_inventory_Ok payloads manifest r :
  source_inventory payloads manifest = Ok r ↔ source_inventory_of payloads manifest.
Proof.
  unfold source_inventory, source_inventory_of. destruct (dict_get _ _) as [[| | | | | |d]|];
    try (split; [done|naive_solver]).
  rewrite fail_if_then, negb_false_iff, bool_decide_eq_true.
  rewrite (programs_Ok _ _ _ r (λ x, source_record_Ok payloads x tt)). naive_solver.
Qed.

(** ** The archive *)

(** A source archive fit for release. *)
Record source_released (p : dict bytes) (manifest : dict json) : Prop := {
  sr_required : Forall (λ name, name ∈ dict_keys p) SOURCE_REQUIRED
    ∧ u "repository/scripts/source-identity.py" ∈ dict_keys p;
  sr_licenses : Forall (λ license,
      hexdigest (default [] (dict_get (u "repository/distribution/licenses/"
                                       ++ path_name license.1) p)) = license.2)
    LINUX_RUNTIME_LICENSE_SHA256;
  sr_names : Forall (λ name, forbidden_source_member name = false
      ∧ ∃ prefix rest, prefix ∈ source_prefixes ∧ name = prefix ++ rest) p.*1;
  sr_pinned : has_digest p third_party_libusb LIBUSB_SOURCE_SHA256
    ∧ has_digest p (u "LICENCE.siano") FIRMWARE_LICENSE_SHA256;
  sr_recipe : ∃ rebuild, text_of p (u "BUILD-RELINK.md") = Ok rebuild
    ∧ Forall (λ text, contains text rebuild = true) relink_recipe;
  sr_manifest : (data ← item p SOURCE_MANIFEST; parse_json limit data) = Ok (JDict manifest);
  sr_dependencies : source_dependencies p (JDict manifest) = Ok tt;
  sr_closure : core_closure p;
  sr_provenance : Forall (λ kv, get_eq manifest kv.1 kv.2 = true) expected_provenance;
  sr_identity : ∃ version source_ref resolved_commit tree text fields,
    identities manifest version source_ref resolved_commit tree
    ∧ encode_ascii (version ++ [10%N]) = Some text
    ∧ dict_get (u "repository/VERSION") p = Some text
    ∧ (data ← item p (u "DEPENDENCY-NOTICE.txt"); notice_fields data) = Ok fields
    ∧ has id (source_fields source_ref resolved_commit tree) fields;
  sr_inventory : source_inventory_of p manifest;
  sr_checksums : ∃ data text listed, dict_get SUMS p = Some data
    ∧ decode_ascii data = Some text ∧ checksums_of p text listed;
}.

Lemma source_members_Ok (names : list str) r :
  for_each source_member names = Ok r ↔
  Forall (λ name, forbidden_source_member name = false
    ∧ ∃ prefix rest, prefix ∈ source_prefixes ∧ name = prefix ++ rest) names.
Proof.
  apply programs_Ok. intros name. unfold source_member.
  rewrite fail_if_then, fail_if_Ok, negb_false_iff, existsb_elem.
  setoid_rewrite starts_with_spec. naive_solver.
Qed.

Lemma required_Ok (p : dict bytes) names :
  forallb (λ name, bool_decide (name ∈ dict_keys p)) names = true ↔
  Forall (λ name, name ∈ dict_keys p) names.
Proof.
  rewrite forallb_elem, Forall_forall. by setoid_rewrite bool_decide_eq_true.
Qed.

Lemma licenses_Ok p r :
  for_each (source_license p) LINUX_RUNTIME_LICENSE_SHA256 = Ok r ↔
  Forall (λ license, hexdigest (default [] (dict_get (u "repository/distribution/licenses/"
     ++ path_name license.1) p)) = license.2) LINUX_RUNTIME_LICENSE_SHA256.
Proof.
  apply programs_Ok. intros license. unfold source_license.
  by rewrite fail_if_Ok, negb_false_iff, bool_decide_eq_true.
Qed.

Lemma contains_Ok msg (texts : list str) rebuild r :
  for_each (λ text, fail_if (negb (contains text rebuild)) msg) texts = Ok r ↔
  Forall (λ text, contains text rebuild = true) texts.
Proof. apply programs_Ok. intros text. by rewrite fail_if_Ok, negb_false_iff. Qed.

Lemma audit_source_archive_inv path file members manifest :
  audit_source_archive limit path file = Ok (members, manifest) →
  ∃ s, archive_payloads path file = Ok s ∧ members = sorted (payloads s).*1
    ∧ source_released (payloads s) manifest.
Proof.
  intros Ha. unfold audit_source_archive in Ha.
  apply bind_Ok in Ha as (s & Hs & Ha). exists s. split; [done|].
  rewrite fail_if_then, negb_false_iff, required_Ok in Ha. destruct Ha as [Hreq Ha].
  apply bind_Ok in Ha as ([] & Hlic%licenses_Ok & Ha).
  rewrite fail_if_then, negb_false_iff, bool_decide_eq_true in Ha. destruct Ha as [Hid Ha].
  apply bind_Ok in Ha as ([] & Hn%source_members_Ok & Ha).
  apply bind_Ok in Ha as ([] & Hlib%pinned_Ok & Ha).
  apply bind_Ok in Ha as (rebuild & Hr & Ha). apply bind_Ok in Ha as ([] & Hrt%contains_Ok & Ha).
  apply bind_Ok in Ha as (data & Hd & Ha). apply bind_Ok in Ha as (value & Hv & Ha).
  apply bind_Ok in Ha as ([] & Hdep & Ha). apply bind_Ok in Ha as ([] & Hcl%source_closure_Ok & Ha).
  apply bind_Ok in Ha as (m & Hm & Ha). destruct value as [| | | | | |d]; try done.
  injection Hm as ->. rewrite fail_if_then, negb_false_iff, forallb_elem, <- Forall_forall in Ha.
  destruct Ha as [Hpr Ha].
  apply bind_Ok in Ha as ([[[version source_ref] commit] tree] & Hids%source_ids_Ok & Ha).
  apply bind_Ok in Ha as (text & Ht%of_option_Ok & Ha).
  rewrite fail_if_then, negb_false_iff, bool_decide_eq_true in Ha. destruct Ha as [Hver Ha].
  apply bind_Ok in Ha as ([] & Hinv%source_inventory_Ok & Ha).
  apply bind_Ok in Ha as (notice & Hno & Ha). apply bind_Ok in Ha as (fields & Hf & Ha).
  apply bind_Ok in Ha as ([] & Hff%exact_fields_Ok & Ha).
  apply bind_Ok in Ha as ([] & Hl%pinned_Ok & Ha).
  apply bind_Ok in Ha as ([] & Hck%verify_checksums_Ok & [= <- <-]).
  split; [done|]. constructor; try done.
  - by exists rebuild.
  - apply bind_Ok. by exists data.
  - exists version, source_ref, commit, tree, text, fields. split_and!; try done.
    apply bind_Ok. by exists notice.
Qed.

Lemma audit_source_archive_intro path file s manifest :
  archive_payloads path file = Ok s → source_released (payloads s) manifest →
  audit_source_archive limit path file = Ok (sorted (payloads s).*1, manifest).
Proof.
  intros Hs [[Hreq Hid] Hlic Hn [Hlib Hl] (rebuild & Hr & Hrt) Hm Hdep Hcl Hpr
    (version & source_ref & commit & tree & text & fields & Hids & Ht & Hver & Hf & Hff) Hinv Hck].
  apply bind_Ok in Hm as (data & Hd & Hv). apply bind_Ok in Hf as (notice & Hno & Hf).
  unfold audit_source_archive. rewrite Hs. cbn [mbind res_bind].
  rewrite (proj2 (required_Ok _ _) Hreq). cbn [negb fail_if mbind res_bind].
  rewrite (proj2 (licenses_Ok _ tt) Hlic). cbn [mbind res_bind].
  rewrite bool_decide_eq_true_2 by done. cbn [negb fail_if mbind res_bind].
  rewrite (proj2 (source_members_Ok _ tt) Hn). cbn [mbind res_bind].
  rewrite (proj2 (pinned_Ok _ _ _ _ tt) Hlib). cbn [mbind res_bind].
  rewrite Hr. cbn [mbind res_bind]. rewrite (proj2 (contains_Ok _ _ _ tt) Hrt). cbn [mbind res_bind].
  rewrite Hd. cbn [mbind res_bind]. rewrite Hv. cbn [mbind res_bind]. rewrite Hdep. cbn [mbind res_bind].
  rewrite (proj2 (source_closure_Ok _ tt) Hcl). cbn [mbind res_bind].
  rewrite (proj2 (forallb_elem _ _) (proj1 (Forall_forall _ _) Hpr)). cbn [negb fail_if mbind res_bind].
  rewrite (proj2 (source_ids_Ok _ _ _ _ _) Hids). cbn [mbind res_bind].
  rewrite Ht. cbn [of_option mbind res_bind].
  rewrite bool_decide_eq_true_2 by done. cbn [negb fail_if mbind res_bind].
  rewrite (proj2 (source_inventory_Ok _ _ tt) Hinv). cbn [mbind res_bind].
  rewrite Hno. cbn [mbind res_bind]. rewrite Hf. cbn [mbind res_bind].
  rewrite (proj2 (exact_fields_Ok _ _ _ tt) Hff). cbn [mbind res_bind].
  rewrite (proj2 (pinned_Ok _ _ _ _ tt) Hl). cbn [mbind res_bind].
  by rewrite (proj2 (verify_checksums_Ok _ tt) Hck).
Qed.

(** A manifest that is not an object is asked for its dependencies before its type is
    checked: the [AttributeError] is not one that [main] handles. *)
Lemma manifest_type_unchecked p value : (∀ d, value ≠ JDict d) →
  source_dependencies p value = Err (AttributeError "get")
  ∧ ∀ e, source_dependencies p value = Err e → exit_status (Err e) = None.
Proof.
  intros Hv. assert (source_dependencies p value = Err (AttributeError "get")) as ->
    by (destruct value; try done; by destruct (Hv d)).
  split; [done|]. by intros e [= <-].
Qed.
End source.

(** ** Properties *)

