(* ===== verification/Lines.v ===== *)
(** * Lines of a text: [splitlines] and [join]

    A text written line by line is read back by [splitlines] when no line holds a line
    boundary of Python; what [splitlines] gives never does. *)

From S2P Require Import Prelude PyStr Codec.

Local Open Scope N_scope.

(** A line without a boundary of [str.splitlines]. *)
Definition unbroken (line : str) : Prop := Forall (λ c, is_linebreak c = false) line.

Lemma join_cons sep x l : l ≠ [] → join sep (x :: l) = x ++ sep ++ join sep l.
Proof. by destruct l. Qed.

Lemma Forall_join (P : N → Prop) sep l :
  Forall P sep → Forall (Forall P) l → Forall P (join sep l).
Proof.
  intros Hsep. induction 1 as [|x l Hx Hl IH]; [constructor|]. destruct l as [|y l]; [done|].
  by rewrite join_cons, !Forall_app.
Qed.

(** [join] with a final newline: what a loop of [write(line + "\n")] writes, but for an
    empty list of lines. *)
Definition unlines (l : list str) : str := concat ((λ line, line ++ [10]) <$> l).

Lemma unlines_cons line l : unlines (line :: l) = line ++ 10 :: unlines l.
Proof. unfold unlines. rewrite fmap_cons. cbn [concat]. by rewrite <- app_assoc. Qed.

Lemma join_unlines l : l ≠ [] → join [10] l ++ [10] = unlines l.
Proof.
  induction l as [|x l IH]; [done|]. intros _. rewrite unlines_cons. destruct l as [|y l]; [done|].
  rewrite <- IH by done. cbn [join]. by rewrite <- !app_assoc.
Qed.

Lemma splitlines_go_line line acc rest : unbroken line →
  splitlines_go acc (line ++ 10 :: rest) = (reverse acc ++ line) :: splitlines_go [] rest.
Proof.
  intros Hl. revert acc. induction Hl as [|c line Hc _ IH]; intros acc; cbn [app splitlines_go].
  - by rewrite app_nil_r.
  - assert (c =? 13 = false) as ->.
    { apply N.eqb_neq. by intros ->. }
    rewrite Hc, IH, reverse_cons, <- app_assoc. done.
Qed.

Lemma splitlines_unlines_app l rest : Forall unbroken l →
  splitlines (unlines l ++ rest) = l ++ splitlines rest.
Proof.
  unfold splitlines. induction 1 as [|line l Hl _ IH]; [done|].
  rewrite unlines_cons, <- app_assoc. cbn [app]. by rewrite splitlines_go_line, IH.
Qed.

(** Lines without boundaries are read back. *)
Lemma splitlines_unlines l : Forall unbroken l → splitlines (unlines l) = l.
Proof.
  intros Hl. rewrite <- (app_nil_r (unlines l)), splitlines_unlines_app by done. by rewrite app_nil_r.
Qed.

Lemma splitlines_go_chars acc s line :
  line ∈ splitlines_go acc s → unbroken acc → unbroken line ∧ ∀ c, c ∈ line → c ∈ acc ∨ c ∈ s.
Proof.
  revert acc. induction s as [s IH] using (well_founded_induction (well_founded_ltof _ length)).
  unfold ltof in IH. intros acc Hin Hacc. destruct s as [|c s]; cbn [splitlines_go] in Hin.
  { destruct acc; [by apply elem_of_nil in Hin|]. apply list_elem_of_singleton in Hin as ->.
    split; [by apply Forall_reverse|]. intros x. rewrite elem_of_reverse. by left. }
  assert (∀ r, line ∈ reverse acc :: splitlines_go [] r → (length r < length (c :: s))%nat →
            (∀ x, x ∈ r → x ∈ c :: s) →
            unbroken line ∧ ∀ x, x ∈ line → x ∈ acc ∨ x ∈ c :: s) as Hcut.
  { intros r [->|Hr]%elem_of_cons Hl Hsub.
    - split; [by apply Forall_reverse|]. intros x. rewrite elem_of_reverse. by left.
    - destruct (IH r Hl [] Hr) as [Hu Hx]; [by constructor|]. split; [done|]. intros x Hxl.
      right. destruct (Hx x Hxl) as [?%elem_of_nil|?]; [done|]. by apply Hsub. }
  destruct (N.eqb_spec c 13) as [_|Hne].
  - destruct s as [|c' s].
    + apply (Hcut []); [|cbn; lia|by intros ? ?%elem_of_nil]. exact Hin.
    + destruct (c' =? 10); [apply (Hcut s)|apply (Hcut (c' :: s))]; try exact Hin; cbn; try lia;
        intros x Hx; repeat first [done|by right|right].
  - destruct (is_linebreak c) eqn:Hc.
    + apply (Hcut s); [done|cbn; lia|by right].
    + destruct (IH s) with (c :: acc) as [Hu Hx]; [cbn; lia|done|by constructor|].
      split; [done|]. intros x Hxl. destruct (Hx x Hxl) as [[->|?]%elem_of_cons|?]; [right; left|by left|by right; right].
Qed.

(** What [splitlines] gives has no boundaries and no other characters. *)
Lemma splitlines_chars s line :
  line ∈ splitlines s → unbroken line ∧ ∀ c, c ∈ line → c ∈ s.
Proof.
  intros Hin. destruct (splitlines_go_chars [] s line Hin) as [Hu Hx]; [by constructor|].
  split; [done|]. intros c Hc. by destruct (Hx c Hc) as [?%elem_of_nil|?].
Qed.

(** ** ASCII texts *)

Definition ascii (s : str) : Prop := Forall (λ c, c < 128) s.

Lemma encode_utf8_ascii s : ascii s → encode_utf8 s = Some (nb <$> s).
Proof.
  induction 1 as [|c s Hc _ IH]; [done|]. cbv beta in Hc. cbn [encode_utf8]. rewrite IH. unfold scalar, utf8_char.
  rewrite (proj2 (N.ltb_lt c 55296)), (proj2 (N.ltb_lt c 128)) by lia. done.
Qed.

Lemma decode_ascii_ascii s : ascii s → decode_ascii (nb <$> s) = Some s.
Proof.
  induction 1 as [|c s Hc _ IH]; [done|]. cbv beta in Hc. cbn -[nb]. rewrite bn_nb, (proj2 (N.ltb_lt _ _)) by lia.
  cbn -[nb]. by rewrite IH.
Qed.

(** A text whose UTF-8 form is ASCII. *)
Lemma decode_ascii_encoded s data t :
  encode_utf8 s = Some data → decode_ascii data = Some t → t = s ∧ ascii s.
Proof.
  revert data t. induction s as [|c s IH]; cbn [encode_utf8]; intros data t.
  { intros [= <-] [= <-]. split; [done|by constructor]. }
  destruct (scalar c) eqn:Hsc; [|done]. rewrite fmap_Some. intros (d & Hd & ->).
  unfold utf8_char. destruct (N.ltb_spec c 128) as [Hc|Hc].
  - cbn -[nb]. rewrite bn_nb, (proj2 (N.ltb_lt _ _)) by lia. rewrite fmap_Some.
    intros (t' & Ht & ->). destruct (IH d t' Hd Ht) as [-> Hs]. split; [done|by constructor].
  - assert (∀ x l, 192 ≤ x → x < 256 → decode_ascii (nb x :: l) = None) as Hhigh.
    { intros x l Hx1 Hx2. cbn -[nb]. by rewrite bn_nb, (proj2 (N.ltb_ge _ _)) by lia. }
    destruct (c <? 2048) eqn:H1; [|destruct (c <? 65536) eqn:H2]; cbn [app];
      rewrite ?N.ltb_lt, ?N.ltb_ge in *.
    + rewrite Hhigh; [done|apply N.le_add_r|]. assert (c / 64 < 32) by (apply N.Div0.div_lt_upper_bound; lia). lia.
    + rewrite Hhigh; [done|generalize (c / 4096); lia|]. assert (c / 4096 < 16) by (apply N.Div0.div_lt_upper_bound; lia). lia.
    + rewrite Hhigh; [done|generalize (c / 262144); lia|]. unfold scalar in Hsc.
      rewrite orb_true_iff, andb_true_iff, N.leb_le, !N.ltb_lt in Hsc.
      assert (c / 262144 < 5) by (apply N.Div0.div_lt_upper_bound; lia). lia.
Qed.

(** ** Encoding and decoding *)

Lemma quot_rem c d : 0 < d → c = d * (c / d) + c mod d ∧ c mod d < d.
Proof. intros Hd. split; [apply N.div_mod; lia|apply N.mod_lt; lia]. Qed.

Lemma cont_nb x : x < 64 → cont (nb (128 + x)) = true.
Proof.
  intros Hx. unfold cont. rewrite bn_nb by lia. apply andb_true_iff. rewrite N.leb_le, N.ltb_lt. lia.
Qed.

Lemma decode_utf8_char c l : scalar c = true → decode_utf8 (utf8_char c ++ l) = cons c <$> decode_utf8 l.
Proof.
  intros Hs. unfold scalar in Hs. rewrite orb_true_iff, andb_true_iff, N.leb_le, !N.ltb_lt in Hs.
  unfold utf8_char.
  destruct (quot_rem c 64) as [E1 B1]; [lia|]. destruct (quot_rem (c / 64) 64) as [E2 B2]; [lia|].
  destruct (quot_rem (c / 4096) 64) as [E3 B3]; [lia|].
  assert (c / 64 / 64 = c / 4096) as D1 by (rewrite N.Div0.div_div; f_equal; lia).
  assert (c / 4096 / 64 = c / 262144) as D2 by (rewrite N.Div0.div_div; f_equal; lia).
  rewrite D1 in E2. rewrite D2 in E3. clear D1 D2. revert E1 E2 E3 B1 B2 B3.
  generalize (c / 262144) (c / 4096) (c / 64) (c / 4096 mod 64) (c / 64 mod 64) (c mod 64).
  intros q3 q2 q1 m3 m2 m1 E1 E2 E3 B1 B2 B3.
  destruct (N.ltb_spec c 128) as [|H1]; [|destruct (N.ltb_spec c 2048) as [|H2]; [|destruct (N.ltb_spec c 65536) as [|H3]]];
    cbn [app decode_utf8]; rewrite ?cont_nb by done;
    rewrite ?(bn_nb (128 + _)) by lia.
  - rewrite bn_nb by lia. by rewrite (proj2 (N.ltb_lt _ _)) by lia.
  - rewrite bn_nb by lia. rewrite (proj2 (N.ltb_ge _ 128)), (proj2 (N.ltb_ge _ 194)), (proj2 (N.ltb_lt _ 224)) by lia.
    do 2 f_equal. lia.
  - rewrite bn_nb by lia. rewrite (proj2 (N.ltb_ge _ 128)), (proj2 (N.ltb_ge _ 194)), (proj2 (N.ltb_ge _ 224)),
      (proj2 (N.ltb_lt _ 240)) by lia.
    replace ((224 + q2 - 224) * 4096 + (128 + m2 - 128) * 64 + (128 + m1 - 128)) with c by lia.
    rewrite (proj2 (N.leb_le 2048 c)) by lia. cbn [andb].
    destruct (N.leb_spec 55296 c), (N.ltb_spec c 57344); cbn [andb negb]; done || lia.
  - rewrite bn_nb by lia. rewrite (proj2 (N.ltb_ge _ 128)), (proj2 (N.ltb_ge _ 194)), (proj2 (N.ltb_ge _ 224)),
      (proj2 (N.ltb_ge _ 240)), (proj2 (N.ltb_lt _ 245)) by lia.
    replace ((240 + q3 - 240) * 262144 + (128 + m3 - 128) * 4096 + (128 + m2 - 128) * 64 + (128 + m1 - 128))
      with c by lia.
    rewrite (proj2 (N.leb_le 65536 c)), (proj2 (N.ltb_lt c 1114112)) by lia. done.
Qed.

(** A text that can be encoded is read back. *)
Lemma decode_encode_utf8 s data : encode_utf8 s = Some data → decode_utf8 data = Some s.
Proof.
  revert data. induction s as [|c s IH]; cbn [encode_utf8]; intros data; [by intros [= <-]|].
  destruct (scalar c) eqn:Hc; [|done]. rewrite fmap_Some. intros (d & Hd & ->).
  by rewrite decode_utf8_char, (IH d Hd).
Qed.

(** ** Fields *)

Lemma split_on_app c s1 s2 : split_on c (s1 ++ c :: s2) = split_on c s1 ++ split_on c s2.
Proof.
  induction s1 as [|x s1 IH]; cbn [app split_on]; [by rewrite N.eqb_refl|].
  destruct (x =? c)%N; [by rewrite IH|]. rewrite IH.
  destruct (split_on c s1) as [|w ws] eqn:E; [|done]. exfalso. destruct s1; cbn in E; [done|].
  by repeat case_match.
Qed.

Lemma split_on_none c s : c ∉ s → split_on c s = [s].
Proof.
  induction s as [|x s IH]; [done|]. rewrite not_elem_of_cons. intros [Hx Hs]. cbn.
  rewrite (proj2 (N.eqb_neq _ _)) by done. by rewrite IH.
Qed.

(** Fields without the separator are read back. *)
Lemma split_on_join c l : l ≠ [] → Forall (λ w, c ∉ w) l → split_on c (join [c] l) = l.
Proof.
  intros Hne Hl. induction Hl as [|w l Hw Hl IH]; [done|]. destruct l as [|w' l]; [by apply split_on_none|].
  rewrite join_cons by done. cbn [app]. rewrite split_on_app, split_on_none by done. by rewrite IH.
Qed.

(** No field holds the separator. *)
Lemma split_on_chars c s w : w ∈ split_on c s → c ∉ w.
Proof.
  revert w. induction s as [|x s IH]; intros w; cbn [split_on].
  - intros ->%list_elem_of_singleton. apply not_elem_of_nil.
  - destruct (N.eqb_spec x c) as [->|Hne].
    + intros [->|Hw]%elem_of_cons; [apply not_elem_of_nil|auto].
    + destruct (split_on c s) as [|v vs] eqn:E.
      * intros ->%list_elem_of_singleton. by apply not_elem_of_cons; split; [|apply not_elem_of_nil].
      * intros [->|Hw]%elem_of_cons; [|apply IH; by right].
        apply not_elem_of_cons. split; [done|]. apply IH. left.
Qed.
