(* ===== verification/JsonRound.v ===== *)
(** * [json.loads] reads back what [json.dumps] writes

    For values built of printable ASCII strings, booleans, null, non-negative integers,
    lists and objects with distinct keys: the result is the value with the members of its
    objects in key order, as [sort_keys=True] writes them. *)

From stdpp Require Import sorting.
From S2P Require Import Prelude PyStr Codec Lines PyFloat Json JsonBytes.

(** ** The values *)

Definition printable (s : str) : Prop := Forall (λ c, 32 ≤ c < 127)%N s.

(** [member_le] orders the members of an object by key. *)
Definition member_le (a c : str * json) : Prop := str_le a.1 c.1.
#[export] Instance member_le_dec : RelDecision member_le.
Proof. intros a c. unfold member_le. apply _. Defined.

Fixpoint norm (v : json) : json :=
  match v with
  | JList l => JList (norm <$> l)
  | JDict d => JDict (merge_sort member_le ((λ kv : str * json, (kv.1, norm kv.2)) <$> d))
  | _ => v
  end.

Fixpoint plain (v : json) : Prop :=
  match v with
  | JNull | JBool _ => True
  | JInt n => (0 ≤ n)%Z ∧ length (dec_Z n) ≤ 4300
  | JFloat _ => False
  | JStr s => printable s
  | JList l => foldr (λ v P, plain v ∧ P) True l
  | JDict d => NoDup d.*1 ∧ foldr (λ kv P, (printable kv.1 ∧ plain kv.2) ∧ P) True d
  end.

(** The nesting of a value, counted as the parser counts its recursion. *)
Fixpoint nesting (v : json) : nat :=
  match v with
  | JList l => S (foldr (λ v n, nesting v `max` n) 0 l)
  | JDict d => S (foldr (λ kv n, nesting kv.2 `max` n) 0 d)
  | _ => 1
  end.

Section json_ind.
Context (P : json → Prop).
Context (Hnull : P JNull) (Hbool : ∀ x, P (JBool x)) (Hint_ : ∀ n, P (JInt n))
  (Hfloat : ∀ f, P (JFloat f)) (Hstr : ∀ s, P (JStr s))
  (Hlist : ∀ l, Forall P l → P (JList l))
  (Hdict : ∀ d, Forall (λ kv, P kv.2) d → P (JDict d)).

(** Induction with the hypothesis for every element and member. *)
Fixpoint json_nested_ind (v : json) : P v :=
  match v with
  | JNull => Hnull | JBool x => Hbool x | JInt n => Hint_ n | JFloat f => Hfloat f
  | JStr s => Hstr s
  | JList l => Hlist l
      ((fix go l : Forall P l :=
          match l with
          | [] => Forall_nil_2 P
          | v :: l => Forall_cons_2 P v l (json_nested_ind v) (go l)
          end) l)
  | JDict d => Hdict d
      ((fix go (d : list (str * json)) : Forall (λ kv, P kv.2) d :=
          match d with
          | [] => Forall_nil_2 _
          | (k, v) :: d => Forall_cons_2 (λ kv : str * json, P kv.2) (k, v) d (json_nested_ind v) (go d)
          end) d)
  end.
End json_ind.

(** ** White space and delimiters *)

Definition blank (s : str) : Prop := Forall (λ c, is_ws c = true) s.

(** A text that starts an item: neither white space nor a closing bracket. *)
Definition starts_item (s : str) : Prop :=
  ∃ c t, s = c :: t ∧ is_ws c = false ∧ c ≠ 93%N ∧ c ≠ 125%N.

(** What may follow a number. *)
Definition stops (s : str) : Prop :=
  match s with
  | [] => True
  | c :: _ => is_digit c = false ∧ c ≠ 46%N ∧ c ≠ 101%N ∧ c ≠ 69%N
  end.

Lemma skip_blank w s : blank w → skip_ws (w ++ s) = skip_ws s.
Proof. induction 1 as [|c w Hc _ IH]; cbn; [done|]. by rewrite Hc. Qed.

Lemma skip_item s r : starts_item s → skip_ws (s ++ r) = s ++ r.
Proof. intros (c & t & -> & Hc & _). cbn. by rewrite Hc. Qed.

Lemma blank_newline level : blank (newline level).
Proof. constructor; [done|]. apply Forall_replicate. done. Qed.

Lemma newline_stops level s : stops (newline level ++ s).
Proof. done. Qed.

(** ** Strings *)

Lemma escape_char_cases c : (32 ≤ c < 127)%N →
  escape_char c = (if (c =? 34) then [92; 34] else if c =? 92 then [92; 92] else [c])%N.
Proof.
  intros Hc. unfold escape_char. destruct (N.eqb_spec c 34); [done|]. destruct (N.eqb_spec c 92); [done|].
  destruct (N.eqb_spec c 10); [lia|]. destruct (N.eqb_spec c 13); [lia|].
  destruct (N.eqb_spec c 9); [lia|]. destruct (N.eqb_spec c 12); [lia|].
  destruct (N.eqb_spec c 8); [lia|]. 
  by rewrite (proj2 (N.leb_le _ _)), (proj2 (N.ltb_lt _ _)) by lia.
Qed.

Lemma scan_string_dump s rest fuel : printable s → length s < fuel →
  scan_string fuel (concat (escape_char <$> s) ++ 34%N :: rest) = Ok (s, rest).
Proof.
  intros Hs. revert fuel. induction Hs as [|c s Hc _ IH]; intros fuel Hf.
  - destruct fuel; [cbn in Hf; lia|done].
  - destruct fuel as [|fuel]; [cbn in Hf; lia|]. rewrite fmap_cons, escape_char_cases by done.
    assert (length s < fuel) as Hf' by (cbn in Hf; lia).
    destruct (N.eqb_spec c 34) as [->|H34]; [|destruct (N.eqb_spec c 92) as [->|H92]];
      cbn [concat app scan_string].
    + cbn. by rewrite (IH _ Hf').
    + cbn. by rewrite (IH _ Hf').
    + rewrite (proj2 (N.eqb_neq _ _) H34), (proj2 (N.eqb_neq _ _) H92), (proj2 (N.ltb_ge _ _)) by lia.
      by rewrite (IH _ Hf').
Qed.

Lemma escape_length s : length s ≤ length (concat (escape_char <$> s)).
Proof.
  induction s as [|c s IH]; [done|]. rewrite fmap_cons. cbn [concat length]. rewrite length_app.
  enough (1 ≤ length (escape_char c)) by lia. unfold escape_char, unicode_escape.
  repeat case_match; rewrite ?length_app; cbn [length]; lia.
Qed.

Lemma scan_string_whole s rest : printable s →
  let text := concat (escape_char <$> s) ++ 34%N :: rest in
  scan_string (length text) text = Ok (s, rest).
Proof.
  intros Hs text. apply scan_string_dump; [done|]. unfold text. rewrite length_app. cbn [length].
  pose proof (escape_length s). lia.
Qed.

Lemma dump_string_app s r :
  dump_string s ++ r = 34%N :: (concat (escape_char <$> s) ++ 34%N :: r).
Proof. unfold dump_string. by rewrite <- !app_assoc. Qed.

(** ** Numbers *)

Lemma take_digits_all d r : Forall (λ c, is_digit c = true) d → stops r → take_digits (d ++ r) = (d, r).
Proof.
  intros Hd Hr. induction Hd as [|c d Hc _ IH]; cbn.
  - destruct r as [|c r]; [done|]. cbn. by destruct Hr as [-> _].
  - by rewrite Hc, IH.
Qed.

Lemma dec_Z_head n : (0 ≤ n)%Z → ∃ c t, dec_Z n = c :: t ∧ is_digit c = true ∧ (c = 48%N → t = []).
Proof.
  intros Hn. destruct (decide (n = 0%Z)) as [->|]; [by exists 48%N, []|].
  destruct (dec_Z_canonical n) as (c & t & -> & Hd & Hc & _); [lia|]. exists c, t.
  apply Forall_cons in Hd as [? _]. done.
Qed.

Definition frac_part (s : str) : str * str :=
  match s with
  | 46%N :: s' => match take_digits s' with ([], _) => ([], s) | (d, r) => (d, r) end
  | _ => ([], s)
  end.

Definition exp_part (s : str) : option Z * str :=
  match s with
  | e :: s' =>
      if ((e =? 101) || (e =? 69))%N then
        let '(sgn, s'') := match s' with
                           | 45%N :: t => (-1, t) | 43%N :: t => (1, t) | t => (1, t)
                           end%Z in
        match take_digits s'' with
        | ([], _) => (None, s)
        | (d, r) => (Some (sgn * digits_value d)%Z, r)
        end
      else (None, s)
  | [] => (None, s)
  end.

Definition number_tail (neg : bool) (int s : str) : bool * str * str * option Z * str :=
  let '(frac, s) := frac_part s in
  let '(exp, s) := exp_part s in
  (neg, int, frac, exp, s).

(** The parser's number in its parts. *)
Lemma number_parts_unfold s :
  number_parts s =
    let '(neg, s) := match s with 45%N :: s' => (true, s') | _ => (false, s) end in
    let '(int, s) := match s with 48%N :: s' => ([48%N], s') | _ => take_digits s end in
    number_tail neg int s.
Proof. reflexivity. Qed.

Lemma frac_none s : stops s → frac_part s = ([], s).
Proof.
  destruct s as [|c s]; [done|]. intros (_ & Hc & _).
  destruct c as [|p]; [done|]. do 6 (destruct p as [p|p|]; try done).
Qed.

Lemma exp_none s : stops s → exp_part s = (None, s).
Proof.
  destruct s as [|c s]; [done|]. intros (_ & _ & H1 & H2). cbn.
  by rewrite (proj2 (N.eqb_neq _ _) H1), (proj2 (N.eqb_neq _ _) H2).
Qed.

Lemma number_tail_stops neg int s : stops s → number_tail neg int s = (neg, int, [], None, s).
Proof. intros Hs. unfold number_tail. by rewrite frac_none, exp_none. Qed.

Lemma digit_cases c : is_digit c = true → c ∈ [48; 49; 50; 51; 52; 53; 54; 55; 56; 57]%N.
Proof.
  unfold is_digit. rewrite andb_true_iff, !N.leb_le. intros [? ?].
  assert (c = 48 ∨ c = 49 ∨ c = 50 ∨ c = 51 ∨ c = 52 ∨ c = 53 ∨ c = 54 ∨ c = 55 ∨ c = 56 ∨ c = 57)%N
    as Hor by lia. rewrite !elem_of_cons. tauto.
Qed.

Ltac each_digit Hc :=
  apply digit_cases in Hc; rewrite !elem_of_cons, elem_of_nil in Hc;
  repeat (destruct Hc as [->|Hc]); [..|done].

Lemma number_parts_dec c t r :
  Forall (λ c, is_digit c = true) (c :: t) → (c = 48%N → t = []) → stops r →
  number_parts (c :: t ++ r) = (false, c :: t, [], None, r).
Proof.
  intros Hd H0 Hr. pose proof (take_digits_all (c :: t) r Hd Hr) as Htake. cbn [app] in Htake.
  rewrite number_parts_unfold. apply Forall_cons in Hd as [Hc _].
  each_digit Hc; [by rewrite H0, number_tail_stops by done|..];
    cbv beta iota zeta; rewrite Htake; by apply number_tail_stops.
Qed.

Section scan.
Context (pairs_hook : list (str * json) → res (list (str * json)))
        (constant_hook : str → res json).

Lemma scan_scalar_int n r : (0 ≤ n)%Z → length (dec_Z n) ≤ 4300 → stops r →
  scan_scalar constant_hook (dec_Z n ++ r) = Ok (JInt n, r).
Proof.
  intros Hn Hl Hr. destruct (dec_Z_nonneg n Hn) as [Hd Hv]. destruct (dec_Z_head n Hn) as (c & t & Hct & Hc & H0).
  rewrite Hct in *. cbn [app].
  assert (scan_scalar constant_hook (c :: t ++ r) = scan_number (c :: t ++ r)) as ->.
  { each_digit Hc; reflexivity. }
  unfold scan_number. rewrite number_parts_dec by done. rewrite (proj2 (Nat.ltb_ge _ _)) by done.
  by rewrite Hv.
Qed.
End scan.

(** ** The loops over elements and members *)

Section loops.
Context (scan : str → res (json * str)).

Fixpoint elements (fuel : nat) (s : str) : res (list json * str) :=
  match fuel with
  | O => Err (decode_error "Expecting value")
  | S fuel =>
    '(v, s) ← scan s;
    '(more, s) ← after_item 93 s;
    if more : bool then '(l, s) ← elements fuel s; Ok (v :: l, s) else Ok ([v], s)
  end.

Fixpoint members (fuel : nat) (s : str) : res (list (str * json) * str) :=
  match fuel with
  | O => Err (decode_error "Expecting property name enclosed in double quotes")
  | S fuel =>
    '(k, s) ← scan_key s;
    '(v, s) ← scan s;
    '(more, s) ← after_item 125 s;
    if more : bool then '(l, s) ← members fuel s; Ok ((k, v) :: l, s) else Ok ([(k, v)], s)
  end.
End loops.

(** The parser in terms of its loops. *)
Lemma scan_value_S pairs_hook constant_hook depth c rest :
  scan_value pairs_hook constant_hook (S depth) (c :: rest) =
    if (c =? 34)%N then '(t, s) ← scan_string (length rest) rest; Ok (JStr t, s)
    else if (c =? 123)%N then
      '(pairs, s) ← (if next_is 125 (skip_ws rest) then Ok ([], tail (skip_ws rest))
                     else members (scan_value pairs_hook constant_hook depth)
                            (length rest) (skip_ws rest));
      d ← pairs_hook pairs; Ok (JDict d, s)
    else if (c =? 91)%N then
      '(l, s) ← (if next_is 93 (skip_ws rest) then Ok ([], tail (skip_ws rest))
                 else elements (scan_value pairs_hook constant_hook depth)
                        (length rest) (skip_ws rest));
      Ok (JList l, s)
    else scan_scalar constant_hook (c :: rest).
Proof. reflexivity. Qed.

Definition separator (level : nat) : str := u "," ++ newline level.

Lemma join_length sep l : Forall starts_item l → length l ≤ length (join sep l).
Proof.
  induction 1 as [|x l (c & t & -> & _) _ IH]; [done|]. destruct l as [|y l]; [cbn; lia|].
  rewrite join_cons, !length_app by done. cbn [length] in *. lia.
Qed.

Lemma join_starts sep l : Forall starts_item l → l ≠ [] → starts_item (join sep l).
Proof.
  intros [|x l' (c & t & -> & Hc) Hl'] Hne; [done|]. destruct l'; [by exists c, t|].
  eexists c, _. split; [reflexivity|done].
Qed.

(** After an item comes the newline of the closing bracket or a comma. *)
Lemma after_item_close close level r :
  is_ws close = false →
  after_item close (newline level ++ close :: r) = Ok (false, r).
Proof.
  intros Hc. unfold after_item. rewrite skip_blank by apply blank_newline.
  cbn [skip_ws]. rewrite Hc. cbn [next_is]. by rewrite N.eqb_refl.
Qed.

Lemma after_item_comma close level s r :
  close ≠ 44%N → starts_item s →
  after_item close (separator level ++ s ++ r) = Ok (true, s ++ r).
Proof.
  intros Hc Hs. unfold after_item. change (separator level) with (44%N :: newline level).
  cbn [app]. change (skip_ws (44%N :: ?s)) with (44%N :: s). unfold next_is at 1.
  destruct (N.eqb_spec 44 close); [congruence|]. cbn [next_is tail N.eqb Pos.eqb].
  rewrite skip_blank by apply blank_newline. by rewrite skip_item.
Qed.

Section items.
Context (scan : str → res (json * str)) (level : nat).

(** A value whose text the parser reads back, whatever follows it. *)
Definition reads (text : str) (v : json) : Prop :=
  starts_item text ∧ ∀ r, stops r → scan (text ++ r) = Ok (v, r).

Lemma scan_elements outer fuel (l : list (str * json)) r :
  Forall (λ tv, reads tv.1 tv.2) l → l ≠ [] → length l ≤ fuel →
  elements scan fuel (join (separator level) l.*1 ++ newline outer ++ 93%N :: r) = Ok (l.*2, r).
Proof.
  intros Hl. revert fuel. induction Hl as [|[text v] l [Hs Hread] Hl IH]; intros fuel Hne Hf; [done|].
  destruct fuel as [|fuel]; [cbn in Hf; lia|]. cbn [elements fst snd] in *.
  destruct (decide (l = [])) as [->|Hl'].
  - cbn [fmap list_fmap join]. rewrite Hread by done. cbn [mbind res_bind].
    by rewrite after_item_close.
  - rewrite !fmap_cons, join_cons by (by destruct l). cbn [fst snd]. rewrite <- !app_assoc, Hread by done.
    cbn [mbind res_bind]. assert (starts_item (join (separator level) l.*1)) as Hj.
    { apply join_starts; [|by destruct l]. rewrite Forall_fmap.
      eapply Forall_impl; [exact Hl|]. by intros tv [? _]. }
    rewrite after_item_comma by done. cbn [mbind res_bind].
    rewrite IH by (done || (cbn in Hf; lia)). done.
Qed.

(** A member's name, its colon and its value. *)
Definition member_text (kt : str * str) : str := dump_string kt.1 ++ u ": " ++ kt.2.

Lemma scan_key_text k text r : printable k → starts_item text →
  scan_key (member_text (k, text) ++ r) = Ok (k, text ++ r).
Proof.
  intros Hk Ht. unfold member_text. cbn [fst snd]. rewrite <- !app_assoc, dump_string_app.
  unfold scan_key. cbn [next_is N.eqb Pos.eqb tail].
  rewrite scan_string_whole by done. cbn [mbind res_bind].
  change (u ": " ++ text ++ r) with (58%N :: 32%N :: text ++ r).
  change (skip_ws (58%N :: ?s)) with (58%N :: s). cbn [next_is N.eqb Pos.eqb tail].
  change (skip_ws (32%N :: ?s)) with (skip_ws s). by rewrite skip_item.
Qed.

Lemma member_starts kt : starts_item (member_text kt).
Proof. exists 34%N. eexists. split; [reflexivity|done]. Qed.

Lemma scan_members outer fuel (l : list (str * (str * json))) r :
  Forall (λ m, printable m.1 ∧ reads m.2.1 m.2.2) l → l ≠ [] → length l ≤ fuel →
  members scan fuel (join (separator level) ((λ m, member_text (m.1, m.2.1)) <$> l)
                     ++ newline outer ++ 125%N :: r)
  = Ok ((λ m, (m.1, m.2.2)) <$> l, r).
Proof.
  intros Hl. revert fuel. induction Hl as [|[k [text v]] l [Hk [Hs Hread]] Hl IH];
    intros fuel Hne Hf; [done|].
  destruct fuel as [|fuel]; [cbn in Hf; lia|]. cbn [members fst snd] in *.
  destruct (decide (l = [])) as [->|Hl'].
  - cbn [fmap list_fmap join fst snd]. rewrite scan_key_text by done. cbn [mbind res_bind].
    rewrite Hread by done. cbn [mbind res_bind]. by rewrite after_item_close.
  - rewrite !fmap_cons, join_cons by (by destruct l). cbn [fst snd].
    rewrite <- !app_assoc, scan_key_text by done. cbn [mbind res_bind].
    rewrite Hread by done. cbn [mbind res_bind].
    assert (starts_item (join (separator level) ((λ m, member_text (m.1, m.2.1)) <$> l))) as Hj.
    { apply join_starts; [|by destruct l]. rewrite Forall_fmap.
      apply Forall_true. intros m. apply member_starts. }
    rewrite after_item_comma by done. cbn [mbind res_bind].
    rewrite IH by (done || (cbn in Hf; lia)). done.
Qed.
End items.

(** ** Sorting the members *)

Section merge_sort_fmap.
Context {A B : Type} (f : A → B) (RA : relation A) (RB : relation B).
Context `{!RelDecision RA} `{!RelDecision RB}.
Context (Hf : ∀ x y, RA x y ↔ RB (f x) (f y)).

Lemma list_merge_fmap l1 l2 :
  list_merge RB (f <$> l1) (f <$> l2) = f <$> list_merge RA l1 l2.
Proof using Hf.
  revert l2. induction l1 as [|x1 l1 IH1]; [by intros []|]. induction l2 as [|x2 l2 IH2]; [done|].
  cbn. rewrite (decide_ext (RB (f x1) (f x2)) (RA x1 x2)) by (symmetry; apply Hf).
  destruct (decide (RA x1 x2)); cbn; f_equal; [apply (IH1 (x2 :: l2))|apply IH2].
Qed.

Lemma merge_sort_fmap l : merge_sort RB (f <$> l) = f <$> merge_sort RA l.
Proof using Hf.
  unfold merge_sort. change (@nil (option (list B))) with (fmap (M := list) (fmap (M := option) (fmap (M := list) f)) []).
  generalize (@nil (option (list A))) as st. induction l as [|x l IH]; intros st; cbn.
  - induction st as [|[l|] st IH]; cbn; [done| |done]. by rewrite IH, list_merge_fmap.
  - rewrite <- IH. f_equal. change [f x] with (f <$> [x]). generalize [x].
    induction st as [|[l'|] st IHst]; intros l0; cbn; [done| |done].
    by rewrite list_merge_fmap, IHst.
Qed.
End merge_sort_fmap.

(** ** The round trip *)

Lemma plain_list l : plain (JList l) ↔ Forall plain l.
Proof. cbn. induction l as [|v l IH]; cbn; [by split|]. by rewrite Forall_cons, IH. Qed.

Lemma plain_dict d :
  plain (JDict d) ↔ NoDup d.*1 ∧ Forall (λ kv, printable kv.1 ∧ plain kv.2) d.
Proof.
  cbn. enough (foldr (λ kv P, (printable kv.1 ∧ plain kv.2) ∧ P) True d
               ↔ Forall (λ kv, printable kv.1 ∧ plain kv.2) d) as -> by done.
  induction d as [|kv d IH]; cbn; [by split|]. by rewrite Forall_cons, IH.
Qed.

Lemma nesting_list l depth : nesting (JList l) ≤ S depth → Forall (λ v, nesting v ≤ depth) l.
Proof. cbn. intros H. induction l; constructor; cbn in H; [|apply IHl]; lia. Qed.

Lemma nesting_dict d depth : nesting (JDict d) ≤ S depth → Forall (λ kv, nesting kv.2 ≤ depth) d.
Proof. cbn. intros H. induction d; constructor; cbn in H; [|apply IHd]; lia. Qed.

Lemma dump_starts level v : plain v → starts_item (dump level v).
Proof.
  destruct v as [|[]|n| |s|[|v l]|d]; cbn [plain]; intros Hv; try done;
    try (eexists _, _; split; [reflexivity|done]).
  - destruct (dec_Z_head n) as (c & t & Ht & Hc & _); [lia|]. cbn [dump]. rewrite Ht.
    exists c, t. split; [done|]. each_digit Hc; done.
  - cbn [dump]. destruct (_ <$> merge_sort _ _); eexists _, _; (split; [reflexivity|done]).
Qed.

(** The members of an object in key order. *)
Lemma dump_dict level d :
  dump level (JDict d) = dump_block (u "{") (u "}") level
    ((λ kv, member_text (kv.1, dump (S level) kv.2)) <$> merge_sort member_le d).
Proof.
  cbn [dump]. rewrite (merge_sort_fmap _ member_le key_le) by done.
  by rewrite <- list_fmap_compose.
Qed.

Lemma norm_dict d : norm (JDict d) = JDict ((λ kv, (kv.1, norm kv.2)) <$> merge_sort member_le d).
Proof. cbn [norm]. by rewrite (merge_sort_fmap _ member_le member_le) by done. Qed.

(** A block's opening bracket, its items and the newline before its closing bracket. *)
Lemma dump_block_items left right level items :
  items ≠ [] →
  dump_block left right level items
  = left ++ newline (S level) ++ join (separator (S level)) items ++ newline level ++ right.
Proof. by destruct items. Qed.

Lemma next_is_item close s r : (close = 93 ∨ close = 125)%N → starts_item s → next_is close (s ++ r) = false.
Proof. intros H (c & t & -> & _ & ? & ?). apply N.eqb_neq. destruct H; congruence. Qed.

(** *** The text is ASCII *)

Definition ascii_char (c : N) : Prop := (0 < c < 128)%N ∧ c ≠ 13%N.

Lemma ascii_string s : printable s → Forall ascii_char (dump_string s).
Proof.
  intros Hs. unfold dump_string. apply Forall_app. split; [by repeat constructor|].
  apply Forall_app. split; [|by repeat constructor]. apply Forall_concat, Forall_fmap.
  eapply Forall_impl; [exact Hs|]. intros c Hc. change (Forall (λ c, (0 < c < 128)%N ∧ c ≠ 13%N) (escape_char c)). rewrite escape_char_cases by done.
  repeat case_match; repeat constructor; cbv beta in Hc; lia.
Qed.

Lemma ascii_newline level : Forall ascii_char (newline level).
Proof. constructor; [done|]. by apply Forall_replicate. Qed.

Lemma ascii_block left right level items :
  Forall ascii_char left → Forall ascii_char right → Forall (Forall ascii_char) items →
  Forall ascii_char (dump_block left right level items).
Proof.
  intros Hl Hr Hi. destruct (decide (items = [])) as [->|Hne]; [by apply Forall_app|].
  rewrite dump_block_items, !Forall_app by done. repeat split; auto using ascii_newline.
  apply Forall_join; [|done]. apply Forall_app. split; [by repeat constructor|apply ascii_newline].
Qed.

Lemma dump_ascii v level : plain v → Forall ascii_char (dump level v).
Proof.
  revert level. induction v as [|[]|n|f|s|l IH|d IH] using json_nested_ind; intros level Hp;
    cbn [plain] in Hp; try (by repeat constructor).
  - cbn [dump]. destruct (dec_Z_nonneg n) as [Hd _]; [lia|]. eapply Forall_impl; [exact Hd|].
    intros c Hc. each_digit Hc; done.
  - by apply ascii_string.
  - apply plain_list in Hp. cbn [dump]. apply ascii_block; [by repeat constructor..|].
    rewrite Forall_fmap. rewrite !Forall_forall in *. intros v Hv. by apply IH; auto.
  - apply plain_dict in Hp as [_ Hp]. rewrite dump_dict. apply ascii_block; [by repeat constructor..|].
    rewrite merge_sort_Permutation, Forall_fmap. rewrite !Forall_forall in *. intros kv Hkv.
    destruct (Hp kv Hkv) as [Hk Hv].
    change (Forall ascii_char (member_text (kv.1, dump (S level) kv.2))).
    unfold member_text. rewrite !Forall_app.
    split; [by apply ascii_string|]. split; [by repeat constructor|]. by apply IH.
Qed.

Lemma loads_ascii pairs_hook constant_hook depth c s :
  ascii_char c →
  loads pairs_hook constant_hook depth (c :: s) =
    '(v, s) ← scan_value pairs_hook constant_hook depth (skip_ws (c :: s));
    match skip_ws s with
    | [] => Ok v
    | _ => Err (decode_error "Extra data")
    end.
Proof.
  intros Hc. destruct c as [|p]; [done|]. unfold ascii_char in Hc.
  do 8 (destruct p as [p|p|]; try lia; try done).
Qed.

Lemma blank_stops w : blank w → stops w.
Proof.
  destruct 1 as [|c w Hc _]; [done|]. unfold is_ws in Hc. apply bool_decide_eq_true in Hc.
  repeat (apply elem_of_cons in Hc as [->|Hc]; [done|]). by apply elem_of_nil in Hc.
Qed.

Section round.
Context (pairs_hook : list (str * json) → res (list (str * json)))
        (constant_hook : str → res json).
(** Distinct members are kept as they are. *)
Context (Hook : ∀ pairs, NoDup pairs.*1 → pairs_hook pairs = Ok pairs).

Definition reads_back (v : json) : Prop :=
  ∀ level depth r, plain v → nesting v ≤ depth → stops r →
    scan_value pairs_hook constant_hook depth (dump level v ++ r) = Ok (norm v, r).

Lemma reads_back_list l : Forall reads_back l → reads_back (JList l).
Proof.
  intros IH level depth r Hp Hn Hr. destruct depth as [|depth]; [cbn in Hn; lia|].
  apply plain_list in Hp. apply nesting_list in Hn.
  destruct (decide (l = [])) as [->|Hne]; [done|]. cbn [dump].
  rewrite dump_block_items by (by destruct l). rewrite <- !app_assoc.
  change (u "[") with [91%N]. change (u "]") with [93%N]. cbn [app]. rewrite scan_value_S. cbn [N.eqb Pos.eqb].
  set (texts := dump (S level) <$> l).
  assert (Forall starts_item texts) as Hs.
  { unfold texts. rewrite Forall_fmap. eapply Forall_impl; [exact Hp|]. intros v. apply dump_starts. }
  assert (starts_item (join (separator (S level)) texts)) as Hj by (apply join_starts; [done|by destruct l]).
  rewrite skip_blank, skip_item, next_is_item by (done || apply blank_newline || by left).
  set (items := (λ v, (dump (S level) v, norm v)) <$> l).
  assert (texts = items.*1) as -> by (unfold items; by rewrite <- list_fmap_compose).
  rewrite scan_elements.
  - cbn. unfold items. by rewrite <- list_fmap_compose.
  - unfold items. rewrite Forall_fmap. rewrite !Forall_forall in *. intros v Hv. split; cbn.
    + apply dump_starts. auto.
    + intros r' Hr'. apply IH; auto.
  - by destruct l.
  - rewrite !length_app. pose proof (join_length (separator (S level)) items.*1 Hs) as Hlen.
    rewrite length_fmap in Hlen. lia.
Qed.

Lemma reads_back_dict d : Forall (λ kv, reads_back kv.2) d → reads_back (JDict d).
Proof using Hook.
  intros IH level depth r Hp Hn Hr. destruct depth as [|depth]; [cbn in Hn; lia|].
  apply plain_dict in Hp as [Hnd Hp]. apply nesting_dict in Hn. rewrite dump_dict, norm_dict.
  pose proof (merge_sort_Permutation member_le d) as Hperm.
  rewrite <- Hperm in Hnd, Hp, Hn, IH. revert Hnd Hp Hn IH. clear Hperm.
  generalize (merge_sort member_le d) as l. clear d. intros l Hnd Hp Hn IH.
  destruct (decide (l = [])) as [->|Hne].
  { transitivity (d ← pairs_hook []; Ok (JDict d, r)); [done|by rewrite Hook by constructor]. }
  rewrite dump_block_items by (by destruct l). rewrite <- !app_assoc.
  change (u "{") with [123%N]. change (u "}") with [125%N]. cbn [app].
  rewrite scan_value_S. cbn [N.eqb Pos.eqb].
  set (items := (λ kv : str * json, (kv.1, (dump (S level) kv.2, norm kv.2))) <$> l).
  set (text := λ m : str * (str * json), member_text (m.1, m.2.1)).
  assert ((λ kv : str * json, member_text (kv.1, dump (S level) kv.2)) <$> l = text <$> items) as ->
    by (unfold items; by rewrite <- list_fmap_compose).
  assert (Forall starts_item (text <$> items)) as Hs.
  { rewrite Forall_fmap. apply Forall_true. intros m. apply member_starts. }
  assert (starts_item (join (separator (S level)) (text <$> items))) as Hj
    by (apply join_starts; [done|by destruct l]).
  rewrite skip_blank, skip_item, next_is_item by (done || apply blank_newline || by right).
  unfold text. rewrite scan_members.
  - cbn [mbind res_bind]. unfold items. rewrite <- list_fmap_compose.
    rewrite Hook by (by rewrite <- list_fmap_compose). done.
  - unfold items. rewrite Forall_fmap. rewrite !Forall_forall in *. intros kv Hkv.
    destruct (Hp kv Hkv) as [Hk Hv]. split; [done|]. split; cbn; [by apply dump_starts|].
    intros r' Hr'. by apply IH; auto.
  - by destruct l.
  - rewrite !length_app. pose proof (join_length (separator (S level)) _ Hs) as Hlen.
    rewrite length_fmap in Hlen. unfold text in Hlen. lia.
Qed.

Lemma scan_dump v : reads_back v.
Proof using Hook.
  induction v using json_nested_ind; [..|by apply reads_back_list|by apply reads_back_dict];
    intros level depth r Hp Hn Hr; (destruct depth as [|depth]; [cbn in Hn; lia|]); cbn [plain] in Hp.
  - done.
  - by destruct x.
  - cbn [dump norm]. destruct Hp as [Hp Hl].
    destruct (dec_Z_head n Hp) as (c & t & Ht & Hc & H0).
    rewrite <- (scan_scalar_int constant_hook n r) by done. rewrite Ht. cbn [app].
    rewrite scan_value_S. clear Ht. each_digit Hc; done.
  - done.
  - cbn [dump norm]. rewrite dump_string_app, scan_value_S. cbn [N.eqb Pos.eqb].
    by rewrite scan_string_whole.
Qed.

(** [json.loads(json.dumps(v, indent=2, sort_keys=True) + w)], [w] being white space. *)
Lemma loads_dumps v depth w :
  plain v → nesting v ≤ depth → blank w →
  loads pairs_hook constant_hook depth (dumps v ++ w) = Ok (norm v).
Proof using Hook.
  intros Hp Hn Hw. pose proof (dump_starts 0 v Hp) as Hs.
  pose proof (dump_ascii v 0 Hp) as Ha. unfold dumps.
  assert (∃ c t, dump 0 v ++ w = c :: t ∧ ascii_char c) as (c & t & Ht & Hc).
  { destruct Hs as (c & t & Ht & _). rewrite Ht in *. apply Forall_cons in Ha as [? _].
    by exists c, (t ++ w). }
  rewrite Ht, loads_ascii, <- Ht by done.
  rewrite skip_item, scan_dump by (done || by apply blank_stops). cbn [mbind res_bind].
  rewrite <- (app_nil_r w), skip_blank by done. done.
Qed.
End round.

(** ** Bytes *)

Lemma decode_ascii_nb s : Forall ascii_char s → decode_ascii (nb <$> s) = Some s.
Proof.
  induction 1 as [|c s Hc _ IH]; [done|]. cbn -[nb]. unfold ascii_char in Hc.
  rewrite bn_nb by lia. rewrite (proj2 (N.ltb_lt _ _)) by lia. cbn -[nb]. by rewrite IH.
Qed.

Lemma nb_ascii c : ascii_char c → bn (nb c) = c.
Proof. unfold ascii_char. intros. apply bn_nb. lia. Qed.

(** ASCII text without NUL is taken for UTF-8. *)
Lemma detect_no_mark x0 data :
  ascii_char (bn x0) →
  detect_encoding (x0 :: data) =
    match data with
    | b1 :: b2 :: b3 :: _ =>
        if (bn b1 =? 0)%N then (if (bn b2 =? 0) && (bn b3 =? 0) then UTF32_LE else UTF16_LE)%N
        else UTF8
    | [b1] => if (bn b1 =? 0)%N then UTF16_LE else UTF8
    | _ => UTF8
    end.
Proof.
  intros [Hx _].
  destruct x0; try (exfalso; revert Hx; cbv; intros [? ?]; congruence);
    by destruct data as [|b1 [|b2 [|b3 data]]].
Qed.

Lemma detect_ascii data : Forall (λ x, ascii_char (bn x)) data → detect_encoding data = UTF8.
Proof.
  intros [|x0 data' Hx Hd]; [done|]. rewrite detect_no_mark by done.
  destruct Hd as [|x1 data' Hx1 Hd]; [done|]. unfold ascii_char in Hx1.
  rewrite (proj2 (N.eqb_neq _ _)) by lia. destruct Hd as [|? ? ? []]; done.
Qed.

Lemma decode_json_ascii s : Forall ascii_char s → decode_json (nb <$> s) = Some s.
Proof.
  intros Hs. unfold decode_json. rewrite detect_ascii.
  - apply utf8_pass_decode, decode_ascii_utf8, decode_ascii_nb, Hs.
  - rewrite Forall_fmap. eapply Forall_impl; [exact Hs|]. intros c Hc.
    change (ascii_char (bn (nb c))). by rewrite nb_ascii.
Qed.

Section bytes.
Context (pairs_hook : list (str * json) → res (list (str * json)))
        (constant_hook : str → res json) (limit : nat).
Context (Hook : ∀ pairs, NoDup pairs.*1 → pairs_hook pairs = Ok pairs).

Lemma loads_bytes_line v :
  plain v → nesting v ≤ limit →
  loads_bytes pairs_hook constant_hook limit (dumps_bytes v ++ [x0a]) = Ok (norm v).
Proof using Hook.
  intros Hp Hn. unfold loads_bytes, dumps_bytes.
  change [x0a] with (nb <$> [10%N]). rewrite <- fmap_app, decode_json_ascii.
  - cbn [of_option mbind res_bind]. apply loads_dumps; [done..|]. by repeat constructor.
  - apply Forall_app. split; [by apply dump_ascii|by repeat constructor].
Qed.

(** The UTF-8 decoding of the text and then [json.loads]. *)
Lemma loads_utf8_line v :
  plain v → nesting v ≤ limit →
  ∃ text, decode_utf8 (dumps_bytes v ++ [x0a]) = Some text
    ∧ loads pairs_hook constant_hook limit text = Ok (norm v) ∧ 13%N ∉ text.
Proof using Hook.
  intros Hp Hn. exists (dumps v ++ [10%N]).
  assert (Forall ascii_char (dumps v ++ [10%N])) as Ha.
  { apply Forall_app. split; [by apply dump_ascii|by repeat constructor]. }
  split_and!.
  - unfold dumps_bytes. change [x0a] with (nb <$> [10%N]). rewrite <- fmap_app.
    by apply decode_ascii_utf8, decode_ascii_nb.
  - apply loads_dumps; [done..|by repeat constructor].
  - intros Hin. rewrite Forall_forall in Ha. by apply Ha in Hin as [_ ?].
Qed.
End bytes.
