(* ===== verification/EvidenceProps.v ===== *)
(** * The evidence of a program: written by [audit_binary], read by [verify_binary_evidence]

    What [write_json] writes is read back by both JSON readers of the scripts.  The file
    binds the platform, the source, the name and the digest of the audited program. *)

From stdpp Require Import sorting.
From S2P Require Import Prelude PyStr PyDict Codec Regex PyFloat Json JsonBytes JsonRound Sha256.
From S2P Require Import PyPath Archive ReleaseText ReleaseSamples ReleaseFixture AuditBase AuditText.
From S2P Require Import AuditManifest AuditBinary AuditProps.

Local Open Scope Z_scope.

(** ** Reading what [write_json] writes *)

(** An object hook that collects members under new keys keeps distinct members. *)
Lemma collect_new (step : dict json → str * json → res (dict json)) pairs :
  (∀ d kv, kv.1 ∉ d.*1 → step d kv = Ok (d ++ [kv])) →
  NoDup pairs.*1 → fold_res step [] pairs = Ok pairs.
Proof.
  intros Hstep Hnd. change (Ok pairs) with (Ok ([] ++ pairs)).
  assert (NoDup (([] : dict json) ++ pairs).*1) as H by done. clear Hnd. revert H.
  generalize ([] : dict json) as d. induction pairs as [|kv pairs IH]; intros d Hnd; cbn [fold_res].
  - by rewrite app_nil_r.
  - rewrite Hstep.
    + cbn [mbind res_bind]. rewrite IH by (by rewrite <- app_assoc). by rewrite <- app_assoc.
    + rewrite fmap_app, NoDup_app in Hnd. destruct Hnd as (_ & Hnd & _). intros Hin.
      apply (Hnd _ Hin). by left.
Qed.

Lemma reject_duplicate_distinct pairs : NoDup pairs.*1 → reject_duplicate_json_keys pairs = Ok pairs.
Proof.
  apply collect_new. intros d [k v] Hk. unfold require.
  rewrite bool_decide_eq_true_2 by by rewrite dict_keys_elem. cbn. by rewrite dict_set_new.
Qed.

Lemma unique_distinct pairs : NoDup pairs.*1 → unique_pairs pairs = Ok pairs.
Proof.
  apply collect_new. intros d [k v] Hk. unfold insert_new, check, require.
  rewrite bool_decide_eq_true_2 by by rewrite dict_keys_elem. cbn. by rewrite dict_set_new.
Qed.

(** The reader of [audit-artifact.py]. *)
Lemma parse_written limit v : plain v → (nesting v ≤ limit)%nat →
  AuditBase.parse_json limit (write_json v) = Ok (norm v).
Proof.
  intros Hp Hn. unfold AuditBase.parse_json, write_json.
  by rewrite (loads_bytes_line _ _ _ reject_duplicate_distinct).
Qed.

(** The reader of [release_verify.py]. *)
Lemma release_parse_written limit d : plain (JDict d) → (nesting (JDict d) ≤ limit)%nat →
  ReleaseText.parse_json limit (write_json (JDict d))
  = Ok (merge_sort member_le ((λ kv, (kv.1, norm kv.2)) <$> d)).
Proof.
  intros Hp Hn. unfold ReleaseText.parse_json, write_json.
  destruct (loads_utf8_line unique_pairs no_constant limit unique_distinct _ Hp Hn)
    as (text & -> & Hl & _). by rewrite Hl.
Qed.

(** ** The evidence *)

Section evidence.
Context `{Digest}.

Lemma hex_printable c : is_hex c = true → (32 ≤ c < 127)%N.
Proof. unfold is_hex, is_digit. rewrite orb_true_iff, !andb_true_iff, !N.leb_le. lia. Qed.

Lemma object_id_printable s : object_id s = true → printable s.
Proof.
  unfold object_id. rewrite orb_true_iff, hex40_spec, hex64_spec.
  intros [[_ Hs]|[_ Hs]]; (eapply Forall_impl; [exact Hs|exact hex_printable]).
Qed.

Lemma hexdigest_printable data : printable (hexdigest data).
Proof.
  pose proof (hexdigest_hex data) as Hd. apply hex64_spec in Hd as [_ Hd].
  eapply Forall_impl; [exact Hd|exact hex_printable].
Qed.

Definition printableb (s : str) : bool := forallb (λ c, (32 <=? c) && (c <? 127))%N s.
Lemma printableb_spec s : printableb s = true → printable s.
Proof.
  unfold printableb. intros Hs. apply Forall_forall. intros c Hc. rewrite forallb_elem in Hs.
  apply Hs in Hc. rewrite andb_true_iff, N.leb_le, N.ltb_lt in Hc. lia.
Qed.

Lemma platform_printable platform : platform ∈ PLATFORMS → printable platform.
Proof.
  intros Hp. apply printableb_spec. revert platform Hp. apply Forall_forall.
  by repeat constructor.
Qed.

(** A small schema number. *)
Lemma plain_small n : 0 ≤ n → (length (dec_Z n) <=? 4300)%nat = true → plain (JInt n).
Proof. intros Hn Hl. split; [done|by apply Nat.leb_le]. Qed.

(** An object with literal keys. *)
Lemma plain_literal d :
  bool_decide (NoDup d.*1) = true → forallb printableb d.*1 = true →
  Forall (λ kv, plain kv.2) d → plain (JDict d).
Proof.
  intros Hnd%bool_decide_eq_true Hk Hv. apply plain_dict. split; [done|].
  rewrite forallb_elem in Hk. rewrite !Forall_forall in *. intros kv Hkv. split; [|by apply Hv].
  apply printableb_spec, Hk, list_elem_of_fmap. by exists kv.
Qed.

Lemma audit_evidence_plain platform source_ref name data :
  printable platform → printable source_ref → printable name →
  plain (audit_evidence platform source_ref name data).
Proof.
  intros Hp Hs Hn. pose proof (hexdigest_printable data) as Hd.
  apply plain_literal; [by vm_compute..|]. repeat (apply Forall_cons; split); [..|by constructor].
  - by apply plain_small.
  - exact Hp.
  - exact Hs.
  - apply plain_literal; [by vm_compute..|]. repeat (apply Forall_cons; split); [..|by constructor]; done.
Qed.

(** The keys in the order in which the file lists them. *)
Lemma norm_evidence platform source_ref name data :
  norm (audit_evidence platform source_ref name data) =
  JDict [(u "binary", strings [(u "name", name); (u "sha256", hexdigest data)]);
         (u "platform", JStr platform); (u "schema", JInt 2); (u "source_ref", JStr source_ref)].
Proof. reflexivity. Qed.

Lemma py_eq_JStr s v : py_eq (JStr s) v = true ↔ v = JStr s.
Proof.
  destruct v; cbn; try (split; [by repeat case_match|done]).
  rewrite bool_decide_eq_true. naive_solver.
Qed.

Lemma evidence_eq platform source_ref name data vp vr name' data' :
  py_eq (norm (audit_evidence platform source_ref name data))
    (JDict [(u "schema", JInt 2); (u "platform", vp); (u "source_ref", vr);
            (u "binary", strings [(u "name", name'); (u "sha256", hexdigest data')])]) = true
  ↔ vp = JStr platform ∧ vr = JStr source_ref ∧ name = name' ∧ hexdigest data = hexdigest data'.
Proof.
  rewrite norm_evidence.
  transitivity ((py_eq (JStr name) (JStr name') && (py_eq (JStr (hexdigest data)) (JStr (hexdigest data')) && true))
    && (py_eq (JStr platform) vp && (true && (py_eq (JStr source_ref) vr && true))) = true).
  - reflexivity.
  - rewrite !andb_true_iff, !py_eq_JStr. split; [|by intros (-> & -> & -> & ->)].
    intros (([= ->] & [= ->] & _) & -> & _ & -> & _). done.
Qed.

(** ** The round trip *)

Context `{Unicode} `{Digits} `{Lower} `{Tools}.

Lemma audit_binary_Ok repo_root t platform source_ref evidence file :
  audit_binary repo_root t platform source_ref true = Ok (evidence, Some file) →
  platform ∈ PLATFORMS ∧ object_id source_ref = true ∧
  ∃ data, t_data t = Some data
    ∧ evidence = audit_evidence platform source_ref (path_name (t_path t)) data
    ∧ file = write_json evidence.
Proof.
  unfold audit_binary. rewrite fail_if_then, negb_false_iff, bool_decide_eq_true.
  unfold validate_source_ref. rewrite fail_if_then, negb_false_iff.
  intros (Hp & Hs & Hd). apply bind_Ok in Hd as (data & Hd & Hrun). apply of_option_Ok in Hd.
  apply bind_Ok in Hrun as (_ & _ & [= <- <-]). by eauto 10.
Qed.

(** C24. The evidence file that [audit_binary] writes for a program is accepted for exactly
    the archives whose manifest has the audited platform and source commit and whose program
    of the audited name has the audited digest.  (The file is parsed back: a limit of three
    nested calls is enough.) *)
Theorem evidence_round_trip (limit : nat) (repo_root : str) (t : target)
    (platform source_ref : str) (evidence : json) (file : bytes)
    (payloads : dict bytes) (manifest : dict json) (program : str)
    (Haudit : audit_binary repo_root t platform source_ref true = Ok (evidence, Some file))
    (Hname : printable (path_name (t_path t)))
    (Hlimit : (3 ≤ limit)%nat)
    (Hfile : dict_get (binary_evidence_name program) payloads = Some file) :
  verify_binary_evidence limit payloads manifest (Some program) = Ok tt ↔
  dict_get (u "platform") manifest = Some (JStr platform)
  ∧ dict_get (u "source_ref") manifest = Some (JStr source_ref)
  ∧ program = path_name (t_path t)
  ∧ hexdigest <$> dict_get program payloads = hexdigest <$> t_data t
  ∧ is_Some (dict_get program payloads).
Proof.
  apply audit_binary_Ok in Haudit as (Hp & Hs & data & Hdata & -> & ->).
  apply platform_printable in Hp. apply object_id_printable in Hs.
  rewrite verify_binary_evidence_Ok. unfold evidence_binds. rewrite Hfile.
  pose proof (parse_written limit _ (audit_evidence_plain _ _ _ data Hp Hs Hname) Hlimit) as Hparse.
  cbn [from_option id]. rewrite Hdata. split.
  - intros (vp & vr & data' & e & Hvp & Hvr & Hd & He & Heq). rewrite Hparse in He.
    injection He as <-. apply evidence_eq in Heq as (-> & -> & <- & Heq). rewrite Hd. cbn. rewrite Heq. by split_and!.
  - intros (Hvp & Hvr & -> & Hd & [data' Hd']). rewrite Hd' in Hd |- *. injection Hd as Hd.
    eexists _, _, data', _. split_and!; [done..|]. by apply evidence_eq.
Qed.
End evidence.

(** ** A sample audit *)

#[local] Existing Instances ascii_unicode length_digest sample_digits sample_lower.

(** What [readelf] prints about a static program. *)
Definition sample_exec (command : list str) (marker : option str) (data : bytes) : res str :=
  if decide (nth 1 command [] = u "-h") then
    Ok (u "ELF Header:
  Class:                             ELF64
  Machine:                           Advanced Micro Devices X86-64
")
  else if decide (nth 1 command [] = u "-SW") then
    Ok (u "Section Headers:
  [ 1] .text             PROGBITS        0000 000000 000010 00  AX  0   0 16
")
  else Ok (u "There is no dynamic section in this file.
").
Definition sample_tools : Tools := {|
  which name := if decide (name = u "readelf") then Some (u "/usr/bin/readelf") else None;
  getenv _ := None;
  resolve path := path;
  exec := sample_exec;
|}.
#[local] Existing Instance sample_tools.

Definition sample_target : target :=
  Target (u "build/siano-ts") (Some (b "program")) [(u "siano-ts", true)].
Definition sample_ref : str := replicate 40 97%N.
Definition sample_evidence : json :=
  audit_evidence (u "linux-x86_64") sample_ref (u "siano-ts") (b "program").

Lemma sample_audited :
  audit_binary (u "/repo") sample_target (u "linux-x86_64") sample_ref true
  = Ok (sample_evidence, Some (write_json sample_evidence)).
Proof. vm_compute. reflexivity. Qed.

Lemma evidence_round_trip_witness :
  let manifest := [(u "platform", JStr (u "linux-x86_64")); (u "source_ref", JStr sample_ref)] in
  let payloads := [(u "evidence/binary-audit.json", write_json sample_evidence);
                   (u "siano-ts", b "program")] in
  verify_binary_evidence 3 payloads manifest (Some (u "siano-ts")) = Ok tt.
Proof.
  intros manifest payloads.
  refine (proj2 (evidence_round_trip 3 (u "/repo") sample_target (u "linux-x86_64") sample_ref
    sample_evidence (write_json sample_evidence) payloads manifest (u "siano-ts")
    sample_audited _ _ _) _).
  - apply printableb_spec. vm_compute. reflexivity.
  - lia.
  - reflexivity.
  - split; [reflexivity|]. split; [reflexivity|]. split; [vm_compute; reflexivity|].
    split; [reflexivity|]. exists (b "program"). reflexivity.
Defined.
