(* ===== verification/Stage.v ===== *)
(** * The staging directory of the packagers

    [scripts/package-artifact.py] and [scripts/package-source.py] collect the files of an
    archive in a temporary directory and list it in path order.  A [stage] is the regular
    files of that directory by their relative POSIX path, each with its permission bits and
    bytes.  Its directories are those that lead to a file. *)

From stdpp Require Import sorting.
From S2P Require Import Prelude PyStr PyDict Codec PyFloat Json Sha256 PyPath.
From S2P Require Import Archive AuditBase AuditManifest AuditBinary.

Local Open Scope Z_scope.

(** ** Files outside the stage *)

(** A path: whether it is a symbolic link, and the mode and the bytes of the regular file it
    leads to, if it leads to one. *)
Record node := Node { n_link : bool; n_file : option (Z * bytes) }.

(** The files of the host by path, as they are while a packager runs. *)
Class Files := { node_at : str → node }.

Section files.
Context `{Files}.

Definition is_file (path : str) : bool := bool_decide (is_Some (n_file (node_at path))).
Definition is_symlink (path : str) : bool := n_link (node_at path).

(** [directory / name], for a resolved directory and a relative name. *)
Definition under (directory name : str) : str :=
  if ends_with (u "/") directory then directory ++ name else directory ++ u "/" ++ name.

(** [path.read_bytes()]. *)
Definition read_bytes (path : str) : res bytes :=
  of_option (OSError "cannot open") (snd <$> n_file (node_at path)).

(** [sha256(path)]: the chunks read add up to the file. *)
Definition sha256 `{Digest} (path : str) : res str := hexdigest <$> read_bytes path.
End files.

(** Text mode: [\r\n] and [\r] are read as [\n]. *)
Fixpoint universal_newlines (s : str) : str :=
  match s with
  | c :: s' =>
      if (c =? 13)%N then
        10%N :: match s' with
                | d :: s'' => if (d =? 10)%N then universal_newlines s'' else universal_newlines s'
                | [] => []
                end
      else c :: universal_newlines s'
  | [] => []
  end.

(** [path.read_text(encoding="utf-8")] and [read_text(encoding="ascii")] of a file's bytes. *)
Definition read_text_utf8 (data : bytes) : res str :=
  universal_newlines <$> of_option (ValueError "UnicodeDecodeError") (decode_utf8 data).
Definition read_text_ascii (data : bytes) : res str :=
  universal_newlines <$> of_option (ValueError "UnicodeDecodeError") (decode_ascii data).

Example universal_newlines_test :
  universal_newlines [97; 13; 10; 98; 13; 13; 10; 99]%N = [97; 10; 98; 10; 10; 99]%N.
Proof. reflexivity. Qed.

(** ** The stage *)

Definition stage : Type := dict (Z * bytes).

(** A file cannot be a directory of another one. *)
Definition leads_to (directory name : str) : bool := starts_with (directory ++ u "/") name.
Definition blocked (s : stage) (name : str) : bool :=
  existsb (λ other, leads_to other name || leads_to name other) s.*1.

(** [path.parent.mkdir(parents=True, exist_ok=True)], then writing [path] and its mode. *)
Definition put (s : stage) (name : str) (mode : Z) (data : bytes) : res stage :=
  if blocked s name then Err (OSError "not a directory or is a directory")
  else Ok (dict_set name (mode, data) s).

(** [write_text]. *)
Definition write_text (s : stage) (name text : str) : res stage :=
  data ← of_option (ValueError "UnicodeEncodeError") (encode_utf8 text);
  put s name 0x1A4 data.

(** A file opened for writing, not [chmod]ed: a new file has the mode that the umask
    leaves. *)
Definition write_file (new_mode : Z) (s : stage) (name : str) (data : bytes) : res stage :=
  put s name (default new_mode (fst <$> dict_get name s)) data.

(** [copy_regular(source, destination, mode=mode)]; without a mode the source's permission
    bits are copied. *)
Definition copy_regular `{Files} (s : stage) (source name : str) (mode : option Z) : res stage :=
  match node_at source with
  | Node false (Some (source_mode, data)) =>
      put s name (default (S_IMODE source_mode) mode) data
  | _ => fail "input must be an ordinary file"
  end.

(** ** Listing the stage *)

(** Paths are compared part by part. *)
Fixpoint parts_leb (a c : list str) : bool :=
  match a, c with
  | [], _ => true
  | _ :: _, [] => false
  | x :: a, y :: c => if decide (x = y) then parts_leb a c else str_leb x y
  end.
Definition file_le (a c : str * (Z * bytes)) : Prop :=
  parts_leb (split_on 47 a.1) (split_on 47 c.1) = true.
#[export] Instance file_le_dec : RelDecision file_le.
Proof. intros a c. unfold file_le. apply _. Defined.

(** The files of [sorted(stage.rglob("*"))]. *)
Definition sorted_files (s : stage) : stage := merge_sort file_le s.

Example sorted_files_test :
  (sorted_files ((λ n, (u n, (0, []))) <$> ["a.b"; "a/b"; "a"; "Z/c"; "a/B"])).*1
  = u <$> ["Z/c"; "a"; "a/B"; "a/b"; "a.b"].
Proof. vm_compute. reflexivity. Qed.

Section listing.
Context `{Digest}.

Definition checksum_row (f : str * (Z * bytes)) : str := hexdigest f.2.2 ++ u "  " ++ f.1.

(** [write_checksums]: every file whose last part is not [SHA256SUMS]. *)
Definition checksum_rows (s : stage) : list str :=
  checksum_row <$> filter (λ f : str * (Z * bytes), path_name f.1 ≠ SUMS) (sorted_files s).
Definition write_checksums (s : stage) : res stage :=
  write_text s SUMS (join [10%N] (checksum_rows s) ++ [10%N]).

(** The records of [manifest["files"]]. *)
Definition file_record (data : bytes) : json :=
  JDict [(u "size", JInt (lenZ data)); (u "sha256", JStr (hexdigest data))].
Definition file_records (s : stage) : dict json :=
  (λ f, (f.1, file_record f.2.2)) <$> sorted_files s.

(** [json.dump(manifest, handle, indent=2, sort_keys=True)] and a newline. *)
Definition write_manifest (new_mode : Z) (s : stage) (name : str) (manifest : dict json) : res stage :=
  write_file new_mode s name (write_json (JDict manifest)).
End listing.

(** ** The archive writers *)

(** [tarfile] with the PAX format in a [gzip] stream, and [zipfile]: the members in order,
    each with its name, mode or external attributes, and bytes.  The remaining header fields
    are constants. *)
Class Writers := {
  tar_gz : list (str * (Z * bytes)) → bytes;
  zip : list (str * (Z * bytes)) → bytes;
}.

Section writers.
Context `{Writers}.

(** [write_deterministic_tar]; a stage holds no link. *)
Definition write_deterministic_tar (s : stage) : bytes :=
  tar_gz ((λ f : str * (Z * bytes), (f.1, (Z.land f.2.1 0xFFF, f.2.2))) <$> sorted_files s).

(** [(stat.S_IFREG | mode) << 16]. *)
Definition zip_attributes (mode : Z) : Z := Z.shiftl (Z.lor 0x8000 (Z.land mode 0xFFF)) 16.
Definition write_deterministic_zip (s : stage) : bytes :=
  zip ((λ f : str * (Z * bytes), (f.1, (zip_attributes f.2.1, f.2.2))) <$> sorted_files s).
End writers.
