(* ===== verification/StageProps.v ===== *)
(** * The stage: its invariant and its checksum list

    Writing keeps the stage a directory tree.  The checksum list that [write_checksums]
    writes is accepted by the audit for exactly the stages whose names it can list. *)

From stdpp Require Import sorting.
From S2P Require Import Prelude PyStr PyDict Codec Regex Lines PyFloat Json Sha256 PyPath.
From S2P Require Import Archive AuditBase AuditBaseProps AuditManifest AuditBinary ReleaseFixture Stage.

Local Open Scope Z_scope.

(** ** The invariant *)

(** A stage is a tree: its names are distinct and no file is the directory of another. *)
Record tree (s : stage) : Prop := {
  tree_distinct : NoDup s.*1;
  tree_leaves : ∀ f g, f ∈ s.*1 → g ∈ s.*1 → leads_to f g = false;
}.

Lemma tree_empty : tree [].
Proof. split; [constructor|]. by intros f g ?%elem_of_nil. Qed.

Lemma blocked_spec s name :
  blocked s name = false ↔ ∀ f, f ∈ s.*1 → leads_to f name = false ∧ leads_to name f = false.
Proof.
  unfold blocked. rewrite existsb_false. by setoid_rewrite orb_false_iff.
Qed.

Lemma leads_to_length f g : leads_to f g = true → (length f < length g)%nat.
Proof.
  unfold leads_to. intros (r & ->)%starts_with_spec. rewrite !length_app.
  change (length (u "/")) with 1%nat. lia.
Qed.

Lemma leads_to_self f : leads_to f f = false.
Proof. apply not_true_iff_false. intros H%leads_to_length. lia. Qed.

Lemma put_Ok s name mode data s' :
  put s name mode data = Ok s' ↔ blocked s name = false ∧ s' = dict_set name (mode, data) s.
Proof. unfold put. destruct (blocked s name); naive_solver. Qed.

Lemma put_tree s name mode data s' : put s name mode data = Ok s' → tree s → tree s'.
Proof.
  intros [Hb ->]%put_Ok [Hd Hl]. rewrite blocked_spec in Hb. split; [by apply dict_set_NoDup|].
  assert (∀ f, f ∈ (dict_set name (mode, data) s).*1 → f = name ∨ f ∈ s.*1) as Hin.
  { intros f. rewrite <- !dict_keys_elem, !elem_of_dict_keys, dict_get_set.
    destruct (decide (name = f)); intros ?; [by left|by right]. }
  intros f g [->|Hf]%Hin [->|Hg]%Hin; [apply leads_to_self|by apply Hb..|by apply Hl].
Qed.

(** ** Listing *)

Lemma sorted_files_perm s : sorted_files s ≡ₚ s.
Proof. apply merge_sort_Permutation. Qed.

(** Payloads that hold the bytes of the stage. *)
Definition holds (s : stage) (payloads : dict bytes) : Prop :=
  ∀ name, dict_get name payloads = snd <$> dict_get name s.

Lemma holds_keys s p : holds s p → dict_keys p = dict_keys s.
Proof.
  intros Hp. apply set_eq. intros name. rewrite !elem_of_dict_keys, Hp.
  by rewrite fmap_is_Some.
Qed.

(** The payloads that an archive of the stage has. *)
Definition contents (s : stage) : dict bytes := (λ f, (f.1, f.2.2)) <$> s.

Lemma contents_holds s : holds s (contents s).
Proof.
  intros name. unfold contents. induction s as [|[f [mode data]] s IH]; [done|].
  rewrite fmap_cons. cbn. by destruct (decide (f = name)).
Qed.

(** ** Checksums *)

Section checksums.
Context `{Digest}.

(** A name that a checksum line can carry, and that [write_checksums] lists. *)
Definition listable (name : str) : Prop :=
  safe_name name ∧ path_name name ≠ SUMS ∧ ascii name ∧ unbroken name.

Definition listed_files (s : stage) : stage :=
  filter (λ f : str * (Z * bytes), path_name f.1 ≠ SUMS) (sorted_files s).
Definition listing (s : stage) : dict str := (λ f, (f.1, hexdigest f.2.2)) <$> listed_files s.

Lemma hexdigest_ascii data : ascii (hexdigest data) ∧ unbroken (hexdigest data)
  ∧ length (hexdigest data) = 64%nat.
Proof.
  pose proof (hexdigest_hex data) as Hd. apply hex64_spec in Hd as [Hl Hd].
  split_and!; [..|done]; (eapply Forall_impl; [exact Hd|]); intros c Hc; cbv beta in *;
    unfold is_hex, is_digit in Hc; rewrite orb_true_iff, !andb_true_iff, !N.leb_le in Hc; [lia|].
  unfold is_linebreak. apply bool_decide_eq_false. rewrite !elem_of_cons, elem_of_nil. lia.
Qed.

Lemma checksum_row_entry f : safe_name f.1 → unbroken f.1 →
  checksum_row f ≠ [] ∧ sum_entry (checksum_row f) = Some (f.1, hexdigest f.2.2).
Proof.
  intros Hs Hu. destruct (hexdigest_ascii f.2.2) as (_ & _ & Hl).
  assert (checksum_row f = hexdigest f.2.2 ++ 32%N :: 32%N :: f.1) as -> by done. split.
  { by destruct (hexdigest f.2.2). }
  unfold sum_entry, checksum_line.
  assert (∀ n r, drop (64 + n) (hexdigest f.2.2 ++ r) = drop n r) as Hdrop.
  { intros n r. by rewrite <- Hl, drop_app_add. }
  change 66%nat with (64 + 2)%nat. change (drop 64) with (drop (A := N) (64 + 0)).
  rewrite !Hdrop. replace (take 64 _) with (hexdigest f.2.2) by (by rewrite <- Hl, take_app_length).
  rewrite hexdigest_hex.
  change (drop 2 (32%N :: 32%N :: f.1)) with f.1. change (drop 0 ?l) with l.
  assert (starts_with (u "  ") (32%N :: 32%N :: f.1) = true) as -> by done.
  rewrite andb_true_l.
  assert (fullmatch (plus (Chr (λ c, negb (one_of [13; 10]%N c)))) f.1 = true) as ->.
  { apply fullmatch_spec. unfold plus. destruct Hs as (Hne & _).
    assert (Forall (λ c, negb (one_of [13; 10]%N c) = true) f.1) as Hc.
    { eapply Forall_impl; [exact Hu|]. intros c Hc. cbv beta in *. unfold is_linebreak in Hc.
      apply bool_decide_eq_false in Hc. apply negb_true_iff, bool_decide_eq_false.
      intros Hin. apply Hc. repeat (apply elem_of_cons in Hin as [->|Hin]; [set_solver|]).
      by apply elem_of_nil in Hin. }
    destruct Hc as [|c name Hc Hall]; [done|].
    apply (lang_cat _ _ [c]); [by constructor|by apply lang_star_chr]. }
  cbn. by rewrite option_guard_True.
Qed.

(** The rows of names that can be listed give the listing. *)
Lemma rows_listing (l : stage) :
  Forall (λ f, safe_name f.1 ∧ unbroken f.1) l →
  mapM sum_entry (filter (λ line, line ≠ []) (checksum_row <$> l))
  = Some ((λ f, (f.1, hexdigest f.2.2)) <$> l).
Proof.
  induction 1 as [|f l [Hs Hu] _ IH]; [done|].
  destruct (checksum_row_entry f Hs Hu) as [Hne He].
  rewrite fmap_cons, filter_cons_True by done. cbn [mapM]. rewrite He. cbn. by rewrite IH.
Qed.

Lemma row_unbroken f : unbroken f.1 → unbroken (checksum_row f).
Proof.
  intros Hu. destruct (hexdigest_ascii f.2.2) as (_ & Hd & _).
  apply Forall_app. split; [done|]. apply Forall_app. split; [by repeat constructor|done].
Qed.

Lemma row_ascii f : ascii f.1 → ascii (checksum_row f).
Proof.
  intros Ha. destruct (hexdigest_ascii f.2.2) as (Hd & _).
  apply Forall_app. split; [done|]. apply Forall_app. split; [by repeat constructor|done].
Qed.

(** The text of the list: a line for each row, or one empty line. *)
Definition checksum_text (s : stage) : str := join [10%N] (checksum_rows s) ++ [10%N].

Lemma checksum_text_lines s : Forall unbroken (checksum_rows s) →
  filter (λ line : str, line ≠ []) (splitlines (checksum_text s))
  = filter (λ line : str, line ≠ []) (checksum_rows s).
Proof.
  intros Hu. unfold checksum_text. destruct (decide (checksum_rows s = [])) as [->|Hne]; [done|].
  by rewrite join_unlines, splitlines_unlines.
Qed.

Lemma elem_of_listed_files s f : f ∈ listed_files s ↔ f ∈ s ∧ path_name f.1 ≠ SUMS.
Proof. unfold listed_files. rewrite list_elem_of_filter, sorted_files_perm. tauto. Qed.

Lemma filter_distinct {A} (P : str * A → Prop) `{!∀ x, Decision (P x)} (l : list (str * A)) :
  NoDup l.*1 → NoDup (filter P l).*1.
Proof.
  induction l as [|x l IH]; [done|]. rewrite fmap_cons, NoDup_cons. intros [Hx Hl].
  rewrite filter_cons. case_decide; [|by apply IH]. rewrite fmap_cons, NoDup_cons.
  split; [|by apply IH]. intros (y & Hy & [_ Hin]%list_elem_of_filter)%list_elem_of_fmap.
  apply Hx. rewrite Hy. apply list_elem_of_fmap. by exists y.
Qed.

Lemma listing_distinct s : NoDup s.*1 → NoDup (listing s).*1.
Proof.
  intros Hs. unfold listing. rewrite <- list_fmap_compose. apply filter_distinct.
  by rewrite sorted_files_perm.
Qed.

Lemma path_name_SUMS : path_name SUMS = SUMS.
Proof. reflexivity. Qed.

Lemma write_checksums_Ok s s' :
  write_checksums s = Ok s' ↔
  ∃ data, encode_utf8 (checksum_text s) = Some data ∧ blocked s SUMS = false
    ∧ s' = dict_set SUMS (0x1A4, data) s.
Proof.
  unfold write_checksums, write_text. rewrite bind_Ok. setoid_rewrite of_option_Ok.
  by setoid_rewrite put_Ok.
Qed.

Lemma sum_entry_inv line e : sum_entry line = Some e → safe_name e.1 ∧ e.1 = drop 66 line.
Proof.
  unfold sum_entry, checksum_line. case_match; cbn; [|done].
  case_guard as Hs; cbn; [|done]. by intros [= <-].
Qed.

(** The names of an accepted list are read from its lines. *)
Lemma listed_names lines listed name :
  mapM sum_entry lines = Some listed → name ∈ dict_keys listed →
  ∃ line, line ∈ lines ∧ safe_name name ∧ name = drop 66 line.
Proof.
  intros Hm (digest & Hd)%elem_of_dict_keys. apply dict_get_Some_elem in Hd.
  apply mapM_Some in Hm. apply list_elem_of_lookup in Hd as [i Hi].
  eapply Forall2_lookup_r in Hm as (line & Hl & He); [|done].
  apply list_elem_of_lookup_2 in Hl.
  apply sum_entry_inv in He as [Hs Hn]. by exists line.
Qed.

Section round_trip.
Context (s : stage) (data : bytes) (p : dict bytes).
Context (Hs : tree s) (Hdata : encode_utf8 (checksum_text s) = Some data).
Context (Hp : holds (dict_set SUMS (0x1A4, data) s) p).

Lemma sums_payload : dict_get SUMS p = Some data.
Proof using Hp. by rewrite Hp, dict_get_set, decide_True. Qed.

Lemma other_payload name : name ≠ SUMS → dict_get name p = snd <$> dict_get name s.
Proof using Hp. intros Hn. by rewrite Hp, dict_get_set, decide_False. Qed.

Lemma other_keys name : name ∈ dict_keys p ∖ {[SUMS]} ↔ name ∈ s.*1 ∧ name ≠ SUMS.
Proof using Hp.
  rewrite elem_of_difference, not_elem_of_singleton, elem_of_dict_keys, <- dict_keys_elem,
    elem_of_dict_keys.
  split; intros [Hn Hne]; (split; [|done]); rewrite other_payload in * by done;
    by rewrite fmap_is_Some in *.
Qed.

Lemma elem_of_listing name : name ∈ (listing s).*1 ↔ name ∈ s.*1 ∧ path_name name ≠ SUMS.
Proof using.
  unfold listing. rewrite <- list_fmap_compose. rewrite !list_elem_of_fmap.
  setoid_rewrite elem_of_listed_files. naive_solver.
Qed.

(** Names that a text line carries make the list the audit reads the one that was written. *)
Lemma listing_read_back :
  (∀ name, name ∈ s.*1 → name ≠ SUMS → safe_name name ∧ unbroken name) →
  mapM sum_entry (filter (λ l, l ≠ []) (splitlines (checksum_text s))) = Some (listing s).
Proof using.
  intros Hnames.
  assert (Forall (λ f, safe_name f.1 ∧ unbroken f.1) (listed_files s)) as Hl.
  { apply Forall_forall. intros f [Hf Hn]%elem_of_listed_files. apply Hnames.
    - apply list_elem_of_fmap. by exists f.
    - intros Heq. by rewrite Heq in Hn. }
  rewrite checksum_text_lines; [by apply rows_listing|].
  unfold checksum_rows. rewrite Forall_fmap. eapply Forall_impl; [exact Hl|].
  intros f [_ Hu]. by apply row_unbroken.
Qed.

Lemma listed_all_names name :
  verify_checksums p = Ok tt → name ∈ s.*1 → name ≠ SUMS → safe_name name ∧ ascii name ∧ unbroken name.
Proof using Hdata Hp.
  intros (data' & text & listed & Hd & Ht & [Hl _ Hk _])%verify_checksums_Ok Hin Hne.
  rewrite sums_payload in Hd. injection Hd as <-.
  destruct (decode_ascii_encoded _ _ _ Hdata Ht) as [-> Ha].
  destruct (listed_names _ _ name Hl) as (line & Hline & Hsafe & ->); [by rewrite Hk, other_keys|].
  apply list_elem_of_filter in Hline as [_ Hline].
  apply splitlines_chars in Hline as [Hu Hc]. split_and!; [done| |by apply Forall_drop].
  apply Forall_drop, Forall_forall. intros c Hcl. unfold ascii in Ha. rewrite Forall_forall in Ha. auto.
Qed.

Lemma verify_written : verify_checksums p = Ok tt ↔ ∀ name, name ∈ s.*1 → name ≠ SUMS → listable name.
Proof using All.
  split.
  - intros Hv name Hin Hne. destruct (listed_all_names name Hv Hin Hne) as (Hsafe & Ha & Hu).
    split_and!; [done| |done..].
    pose proof Hv as (data' & text & listed & Hd & Ht & [Hl _ Hk _])%verify_checksums_Ok.
    rewrite sums_payload in Hd. injection Hd as <-.
    destruct (decode_ascii_encoded _ _ _ Hdata Ht) as [-> _].
    rewrite listing_read_back in Hl.
    2:{ intros n' ? ?. destruct (listed_all_names n' Hv) as (? & _ & ?); done. }
    injection Hl as <-. assert (name ∈ dict_keys (listing s)) as Hn by by rewrite Hk, other_keys.
    by apply dict_keys_elem, elem_of_listing in Hn as [_ ?].
  - intros Hall. apply verify_checksums_Ok. exists data, (checksum_text s), (listing s).
    split; [apply sums_payload|]. split.
    { assert (ascii (checksum_text s)) as Ha.
      { apply Forall_app. split; [|by repeat constructor]. apply Forall_join; [by repeat constructor|].
        unfold checksum_rows. rewrite Forall_fmap. apply Forall_forall.
        intros f [Hf Hn]%elem_of_listed_files. apply row_ascii.
        apply (Hall f.1); [apply list_elem_of_fmap; by exists f|by intros Heq; rewrite Heq in Hn]. }
      rewrite encode_utf8_ascii in Hdata by done. injection Hdata as <-. by apply decode_ascii_ascii. }
    split.
    + apply listing_read_back. intros name Hin Hne. destruct (Hall name Hin Hne) as (? & _ & _ & ?). done.
    + apply listing_distinct, Hs.
    + apply set_eq. intros name. rewrite other_keys, dict_keys_elem, elem_of_listing. split.
      * intros [Hin Hn]. split; [done|]. by intros ->.
      * intros [Hin Hne]. split; [done|]. by destruct (Hall name Hin Hne) as (_ & ? & _).
    + unfold listing. rewrite Forall_fmap. apply Forall_forall.
      intros f [Hf Hn]%elem_of_listed_files. cbn.
      rewrite other_payload by (by intros Heq; rewrite Heq in Hn).
      destruct f as [name [mode content]]. by rewrite (dict_get_elem name (mode, content)) by (done || apply Hs).
Qed.
End round_trip.

(** C23. The checksum list that a packager writes is accepted by the audit, for the same
    files, exactly when every other name of the stage can be listed: safe, ASCII, without a
    line boundary, and not itself called [SHA256SUMS] in a subdirectory. *)
Theorem checksums_round_trip (s s' : stage) (payloads : dict bytes)
    (Htree : tree s) (Hwrite : write_checksums s = Ok s') (Hholds : holds s' payloads) :
  verify_checksums payloads = Ok tt ↔ ∀ name, name ∈ s.*1 → name ≠ SUMS → listable name.
Proof. apply write_checksums_Ok in Hwrite as (data & Hd & _ & ->). by apply (verify_written s data). Qed.
End checksums.

(** ** A sample stage *)

#[local] Existing Instance length_digest.

Definition sample_stage : stage :=
  [(u "siano-ts", (0x1ED, b "program")); (u "mdev/a.conf", (0x1A4, b "conf"));
   (u "COPYING", (0x1A4, b "GPL"))].

Lemma sample_stage_tree : tree sample_stage.
Proof.
  apply (put_tree [(u "siano-ts", (0x1ED, b "program")); (u "mdev/a.conf", (0x1A4, b "conf"))]
    (u "COPYING") 0x1A4 (b "GPL")); [reflexivity|].
  apply (put_tree [(u "siano-ts", (0x1ED, b "program"))] (u "mdev/a.conf") 0x1A4 (b "conf"));
    [reflexivity|].
  apply (put_tree [] (u "siano-ts") 0x1ED (b "program")); [reflexivity|apply tree_empty].
Defined.

Definition sample_listed : stage := match write_checksums sample_stage with Ok s => s | Err _ => [] end.

Lemma checksums_round_trip_witness :
  dict_get SUMS (contents sample_listed) ≠ None ∧ verify_checksums (contents sample_listed) = Ok tt.
Proof.
  assert (write_checksums sample_stage = Ok sample_listed) as Hw by (vm_compute; reflexivity).
  split; [vm_compute; discriminate|].
  apply (checksums_round_trip _ _ _ sample_stage_tree Hw (contents_holds _)).
  intros name Hin _. revert name Hin. apply Forall_forall.
  assert (∀ name, bool_decide (safe_name name ∧ path_name name ≠ SUMS
    ∧ ascii name ∧ unbroken name) = true → listable name) as Hb
    by (intros name; apply bool_decide_eq_true).
  repeat constructor; apply Hb; vm_compute; reflexivity.
Defined.
