(* ===== verification/Package.v ===== *)
(** * Packaging a platform: [scripts/package-artifact.py]

    The inputs are checked, collected in a [stage], described by a dependency notice, a
    manifest and a checksum list, written as one archive and audited. *)

From S2P Require Import Prelude PyStr PyDict Codec Regex PyFloat Json Sha256 PyPath Provenance.
From S2P Require Import Archive AuditBase AuditText AuditManifest AuditBinary AuditArchive Stage.

Local Open Scope Z_scope.

(** A member of a source [tarfile], not streamed: [TarInfo] with [isdir()] and
    [issym() or islnk()]. *)
Record tree_info := TreeInfo { te_info : tar_info; te_isdir : bool; te_islink : bool }.

(** [tarfile.open(path, "r:bz2").getmembers()] and [tarfile.open(path, "r:").getmembers()];
    both may raise [OSError] (here also [TarError]). *)
Class SourceTars := {
  bz_members : bytes → res (list tree_info);
  plain_members : bytes → res (list tree_info);
}.

(** [path.exists()] and [path.mkdir(parents=True, exist_ok=True)] on the host. *)
Class Host := { exists_at : str → bool; make_dirs : str → res unit }.

(** [s.replace(old, new)] for a non-empty [old]; [skip] characters belong to a match. *)
Fixpoint replace_go (old new : str) (skip : nat) (s : str) : str :=
  match s with
  | [] => []
  | c :: s' =>
      match skip with
      | S skip => replace_go old new skip s'
      | O => if starts_with old s then new ++ replace_go old new (length old - 1) s'
             else c :: replace_go old new 0 s'
      end
  end.
Definition replace (old new s : str) : str := replace_go old new 0 s.

(** [s.rstrip("\n")]. *)
Fixpoint lstrip_newlines (s : str) : str :=
  match s with
  | c :: s' => if (c =? 10)%N then lstrip_newlines s' else s
  | [] => []
  end.
Definition rstrip_newlines (s : str) : str := reverse (lstrip_newlines (reverse s)).

Example replace_test :
  replace (u "@V@") (u "1") (u "v=@V@ @@V@V@") = u "v=1 @1V@"
  ∧ rstrip_newlines [97; 10; 98; 10; 10]%N = [97; 10; 98]%N.
Proof. by vm_compute. Qed.

Definition linux_platform (platform : str) : bool := starts_with (u "linux-") platform.

(** ** The sources of libusb *)

Definition libusb_directory : str := u "libusb-" ++ LIBUSB_VERSION.
Definition libusb_tarball : str := libusb_directory ++ u ".tar.bz2".

Definition libusb_member (names : list str) (m : tree_info) : res (list str) :=
  let name := ti_name (te_info m) in
  fail_if (bool_decide (name ∈ names)) "duplicate libusb source member" ;;
  fail_if (negb (bool_decide (name = libusb_directory))
           && negb (starts_with (libusb_directory ++ u "/") name)) "unexpected libusb source member" ;;
  fail_if (negb (ti_isfile (te_info m)) && negb (te_isdir m))
    "libusb source member is not a regular file" ;;
  Ok (names ++ [name]).

(** [archive.getmember(name)]: the names are distinct. *)
Definition get_member (name : str) (members : list tree_info) : res tree_info :=
  of_option (KeyError "filename not found")
    (snd <$> list_find (λ m, ti_name (te_info m) = name) members).

(** The exceptions caught while the archive is read. *)
Definition inspect_error {A} (e : exn) : res A :=
  match e with OSError _ | KeyError _ => fail "cannot inspect libusb source" | _ => Err e end.

(** ** Properties and notices *)

(** [parse_properties]: an empty line has no [=] either. *)
Definition parse_properties (data : str) : res (dict str) :=
  fold_res property [] (splitlines data).

Definition line_of (field : str * str) : str := field.1 ++ u "=" ++ field.2.

(** The fields that every notice starts with. *)
Definition common_fields (version source_ref : str) : dict str :=
  [(u "source.ref", source_ref);
   (u "source.archive", u "siano-ts-" ++ version ++ u "-source.tar.gz");
   (u "firmware.url", FIRMWARE_URL); (u "firmware.sha256", FIRMWARE_SHA256);
   (u "firmware.license.url", FIRMWARE_LICENSE_URL);
   (u "firmware.license.sha256", FIRMWARE_LICENSE_SHA256)].

Definition dependency_names : list str := [u "dtv-userland-core"; u "px4-userland"].

Definition revision_fields (name revision : str) : dict str :=
  [(u "dependency." ++ name ++ u ".commit", revision);
   (u "dependency." ++ name ++ u ".source", u "third_party/" ++ name ++ u "/")].

Definition libusb_source_fields (version : str) : dict str :=
  [(u "corresponding-source", u "siano-ts-" ++ version ++ u "-source.tar.gz");
   (u "corresponding-source.path", u "third_party/" ++ libusb_tarball);
   (u "libusb.source.url", LIBUSB_SOURCE_URL); (u "libusb.source.sha256", LIBUSB_SOURCE_SHA256)].

Definition static_fields : dict str :=
  [(u "dependency.libusb.version", LIBUSB_VERSION); (u "dependency.libusb.linkage", u "static");
   (u "dependency.libusb.license", u "LGPL-2.1-or-later")].

Definition ndk_keys : list str := [u "source_properties"; u "notice"; u "notice_toolchain"].

Definition android_notice (properties ndk_hashes : dict str) : res (dict str) :=
  fail_if (negb (starts_with (u "27.") (default [] (dict_get (u "ndk_revision") properties))))
    "Android package requires NDK r27 evidence" ;;
  fail_if (negb (bool_decide (dict_keys ndk_hashes = list_to_set ndk_keys)))
    "Android package requires all NDK notice hashes" ;;
  ndk_revision ← item properties (u "ndk_revision");
  source_properties ← item ndk_hashes (u "source_properties");
  notice ← item ndk_hashes (u "notice");
  notice_toolchain ← item ndk_hashes (u "notice_toolchain");
  Ok ([(u "ndk_revision", ndk_revision); (u "ndk.source_properties.sha256", source_properties);
       (u "ndk.notice.sha256", notice); (u "ndk.notice_toolchain.sha256", notice_toolchain)]
      ++ static_fields
      ++ [(u "corresponding-source", u "libusb/" ++ libusb_tarball);
          (u "corresponding-source.sha256", LIBUSB_SOURCE_SHA256)]).

Definition windows_notice : dict str :=
  [(u "dependency.libusb.version", LIBUSB_VERSION); (u "dependency.libusb.linkage", u "dynamic");
   (u "dependency.libusb.provider", u "bundled"); (u "libusb.package.url", WINDOWS_LIBUSB_PACKAGE_URL);
   (u "libusb.package.sha256", WINDOWS_LIBUSB_PACKAGE_SHA256);
   (u "corresponding-source.sha256", LIBUSB_SOURCE_SHA256)].

(** [properties.get(key, "unknown")]. *)
Definition known_or (properties : dict str) (key : str) : str :=
  default (u "unknown") (dict_get key properties).

Definition linux_notice (version : str) (properties : dict str) : dict str :=
  static_fields
  ++ [(u "dependency.libusb.backend", u "netlink"); (u "dependency.libusb.udev", u "disabled")]
  ++ libusb_source_fields version
  ++ [(u "dependency.libc.version", known_or properties (u "musl_package"));
      (u "dependency.compiler.version", known_or properties (u "compiler_version"));
      (u "dependency.compiler.target", known_or properties (u "compiler_target"));
      (u "dependency.runtime", u "libgcc");
      (u "dependency.runtime.version", known_or properties (u "libgcc_archive_owner"));
      (u "dependency.libstdcxx", u "static");
      (u "dependency.libstdcxx.version", known_or properties (u "libstdcxx_archive_owner"));
      (u "runtime-license-members", join (u ",") (sorted LINUX_RUNTIME_LICENSE_SHA256.*1))].

Definition darwin_notice (version : str) : dict str :=
  static_fields ++ [(u "dependency.libusb.backend", u "darwin")] ++ libusb_source_fields version.

(** The sentence below the fields. *)
Definition explanation (platform : str) : str :=
  if is_android platform then
    u "Android statically links libusb; see libusb/COPYING, libusb source, REBUILD.md, NDK notices, and evidence/."
  else if is_windows platform then
    u "Windows bundles libusb-1.0.dll; see libusb/NOTICE.txt and the corresponding source archive."
  else if linux_platform platform then
    u "Linux embeds a statically linked libusb " ++ LIBUSB_VERSION
    ++ u " built without udev; see libusb/COPYING and the corresponding source archive."
  else
    u "macOS embeds a statically linked libusb " ++ LIBUSB_VERSION
    ++ u "; only macOS system libraries and frameworks are loaded dynamically. See libusb/COPYING and the corresponding source archive.".

(** The fields of the platform, after those of the dependencies. *)
Definition platform_notice (version platform : str) (build_properties : option str)
    (ndk_hashes : option (dict str)) : res (dict str) :=
  if is_android platform then
    properties ← parse_properties (default [] build_properties);
    android_notice properties (default [] ndk_hashes)
  else if is_windows platform then Ok windows_notice
  else if linux_platform platform then
    properties ← parse_properties (default [] build_properties);
    Ok (linux_notice version properties)
  else Ok (darwin_notice version).

(** The template with the fields and the explanation in it. *)
Definition fill_template (template version platform : str) (fields : dict str) : str :=
  rstrip_newlines
    (replace (u "@DEPENDENCY_TEXT@")
      (join [10%N] (line_of <$> fields) ++ [10%N; 10%N] ++ explanation platform)
      (replace (u "@PLATFORM@") platform (replace (u "@VERSION@") version template))) ++ [10%N].

(** ** The manifest *)

Definition dict_update {A} (d new : dict A) : dict A := foldl (λ d kv, dict_set kv.1 kv.2 d) d new.

(** [metadata]: architecture, linkage and C library. *)
Definition metadata : dict (str * str * str) :=
  [(u "darwin-arm64", (u "arm64", u "static", u "darwin"));
   (u "android-aarch64", (u "aarch64", u "static", u "bionic"));
   (u "android-armv7a", (u "armv7a", u "static", u "bionic"));
   (u "android-x86_64", (u "x86_64", u "static", u "bionic"));
   (u "windows-x64", (u "x86_64", u "dynamic", u "windows"))].

Definition libusb_pin : dict str :=
  [(u "version", LIBUSB_VERSION); (u "source_ref", LIBUSB_SOURCE_URL);
   (u "source_sha256", LIBUSB_SOURCE_SHA256)].

Definition update_metadata (platform : str) (manifest : dict json) : dict json :=
  match dict_get platform metadata with
  | Some (architecture, linkage, libc) =>
      dict_update manifest [(u "architecture", JStr architecture); (u "linkage", JStr linkage);
                            (u "libc", JStr libc)]
  | None => manifest
  end.

Definition update_linux (platform : str) (manifest : dict json) : dict json :=
  if linux_platform platform then
    dict_update manifest
      [(u "architecture", JStr (drop (length (u "linux-")) platform)); (u "libc", JStr (u "none"));
       (u "build_libc", JStr (u "musl")); (u "linkage", JStr (u "static"));
       (u "libusb", strings (libusb_pin ++ [(u "linkage", u "static"); (u "udev", u "disabled");
                                            (u "backend", u "netlink")]))]
  else manifest.

Definition update_darwin (platform : str) (manifest : dict json) : dict json :=
  if is_darwin platform then
    dict_set (u "libusb")
      (strings (libusb_pin ++ [(u "linkage", u "static"); (u "backend", u "darwin")])) manifest
  else manifest.

Definition update_libusb (platform : str) (manifest : dict json) : dict json :=
  if is_android platform || is_windows platform then
    dict_set (u "libusb")
      (strings (libusb_pin
        ++ [(u "linkage", if is_windows platform then u "dynamic" else u "static")]
        ++ (if is_windows platform then [(u "package_sha256", WINDOWS_LIBUSB_PACKAGE_SHA256)]
            else []))) manifest
  else manifest.

(** The manifest of a staged platform. *)
Definition manifest `{Digest} (version platform source_ref : str) (s : stage) : dict json :=
  dict_set (u "files") (JDict (file_records s))
    (update_libusb platform (update_darwin platform (update_linux platform
      (update_metadata platform
        [(u "schema", JInt 1); (u "version", JStr version); (u "platform", JStr platform);
         (u "source_ref", JStr source_ref); (u "programs", JList (JStr <$> program_names platform));
         (u "files", JDict []);
         (u "firmware", strings [(u "url", FIRMWARE_URL); (u "sha256", FIRMWARE_SHA256);
            (u "license_url", FIRMWARE_LICENSE_URL); (u "license_sha256", FIRMWARE_LICENSE_SHA256)])])))).

Section package.
Context `{Unicode} `{Digits} `{Lower} `{Digest} `{Tools} `{Archives} `{Tars}.
Context `{Files} `{Host} `{SourceTars} `{Writers}.
(** The recursion limit, the repository of the running scripts, the directory that the
    audit extracts to, and the mode of a new file. *)
Context (limit : nat) (script_root temporary : str) (new_mode : Z).

(** [verify_source_archive(path, destination)], which writes [COPYING]. *)
Definition verify_source_archive (s : stage) (path destination : str) : res stage :=
  fail_if (negb (bool_decide (path_name path = libusb_tarball))) "libusb source is not the pinned archive" ;;
  digest ← sha256 path;
  fail_if (negb (bool_decide (digest = LIBUSB_SOURCE_SHA256))) "libusb source is not the pinned archive" ;;
  copying ← try_except
    (data ← read_bytes path;
     members ← bz_members data;
     fold_res libusb_member [] members ;;
     member ← get_member (libusb_directory ++ u "/COPYING") members;
     o ← ti_extract (te_info member);
     st ← of_option (AuditError "libusb source has no COPYING") o;
     read_all st) inspect_error;
  text ← of_option (AuditError "libusb COPYING is not UTF-8") (decode_utf8 copying);
  write_text s (destination ++ u "/COPYING") text.

(** The revision file of a dependency. *)
Definition read_revision (repo_root name : str) : res str :=
  data ← read_bytes (path_join repo_root (u "cmake/" ++ name ++ u ".revision"));
  text ← read_text_ascii data;
  let revision := strip text in
  fail_if (negb (hex40 revision)) "invalid source pin" ;;
  Ok revision.

Definition dependency_fields (repo_root : str) (fields : dict str) (name : str) : res (dict str) :=
  revision ← read_revision repo_root name;
  Ok (fields ++ revision_fields name revision).

Definition dependency_notice (repo_root version platform source_ref : str)
    (build_properties : option str) (ndk_hashes : option (dict str)) : res str :=
  let template := path_join repo_root (u "packaging/DEPENDENCY-NOTICE.txt.in") in
  fail_if (negb (is_file template)) "missing dependency notice template" ;;
  fields ← fold_res (dependency_fields repo_root) (common_fields version source_ref) dependency_names;
  more ← platform_notice version platform build_properties ndk_hashes;
  data ← read_bytes template;
  text ← of_option (ValueError "UnicodeDecodeError") (decode_utf8 data);
  Ok (fill_template text version platform (fields ++ more)).

(** ** The command *)

Record args := Args {
  a_platform : str;
  a_version : str;
  a_source_ref : str;
  a_build_dir : str;
  a_output_dir : str;
  a_firmware : str;
  a_libusb : option str;
  a_windows_package : option str;
  a_repo_root : str;
}.

(** The options together. *)
Definition check_options (a : args) : res unit :=
  (if bool_decide (a_platform a ∈ PACKAGE_PLATFORMS) then Ok tt
   else Err (SystemExit 2 "argument --platform: invalid choice")) ;;
  fail_if (negb (fullmatch VERSION_RE (a_version a))) "version must be strict N.N.N" ;;
  validate_source_ref (a_source_ref a) ;;
  fail_if ((is_android (a_platform a) || linux_platform (a_platform a) || is_darwin (a_platform a))
           && negb (bool_decide (is_Some (a_libusb a)))) "packages require --libusb-source-archive" ;;
  fail_if (is_windows (a_platform a)
           && (negb (bool_decide (is_Some (a_windows_package a)))
               || negb (bool_decide (is_Some (a_libusb a))))) "Windows package requires --windows-package".

(** [not path.is_file() or sha256(path) != digest]. *)
Definition pinned_file (path digest : str) (msg : string) : res unit :=
  fail_if (negb (is_file path)) msg ;;
  found ← sha256 path;
  fail_if (negb (bool_decide (found = digest))) msg.

(** A program of the build with its evidence. *)
Definition check_program (a : args) (build binary_name : str) : res unit :=
  let binary := path_join build binary_name in
  fail_if (negb (is_file binary) || is_symlink binary) "missing build output" ;;
  let evidence_path := path_join build (binary_evidence_name binary_name) in
  fail_if (negb (is_file evidence_path) || is_symlink evidence_path)
    "missing build-host binary evidence" ;;
  data ← read_bytes evidence_path;
  evidence ← parse_json limit data;
  digest ← sha256 binary;
  fail_if (negb (py_eq evidence
      (JDict [(u "schema", JInt 2); (u "platform", JStr (a_platform a));
              (u "source_ref", JStr (a_source_ref a));
              (u "binary", strings [(u "name", binary_name); (u "sha256", digest)])])))
    "build-host evidence is not bound to the program/platform/source".

(** The checks before anything is written: the repository, the build and the output. *)
Definition check_inputs (a : args) : res (str * str * str) :=
  check_options a ;;
  pinned_file (resolve (a_firmware a)) FIRMWARE_SHA256 "firmware is not the pinned input" ;;
  let repo_root := resolve (a_repo_root a) in
  version ← read_bytes (path_join repo_root (u "VERSION"));
  fail_if (negb (bool_decide (Some version = encode_ascii (a_version a ++ [10%N]))))
    "--version does not match the exact VERSION file" ;;
  pinned_file (path_join repo_root (u "LICENCE.siano")) FIRMWARE_LICENSE_SHA256
    "repository LICENCE.siano does not match the pinned firmware license" ;;
  let build := resolve (a_build_dir a) in
  for_each (check_program a build) (program_names (a_platform a)) ;;
  make_dirs (a_output_dir a) ;;
  let output := path_join (resolve (a_output_dir a)) (archive_name (a_version a) (a_platform a)) in
  fail_if (exists_at output || is_symlink output) "refusing to overwrite existing archive" ;;
  Ok (repo_root, build, output).

(** ** Staging *)

(** Files copied under their names below [directory]. *)
Definition copy_from (directory : str) (s : stage) (name : str) : res stage :=
  copy_regular s (path_join directory name) name None.

Definition stage_documents (repo_root : str) (s : stage) : res stage :=
  s ← fold_res (copy_from repo_root) s [u "COPYING"; u "LICENCE.siano"; u "README.md"];
  copy_regular s (path_join repo_root (u "packaging/REBUILD.md")) (u "REBUILD.md") None.

Definition stage_program (platform build : str) (s : stage) (binary_name : str) : res stage :=
  s ← copy_regular s (path_join build binary_name) binary_name
        (if is_windows platform then None else Some 0x1ED);
  copy_from build s (binary_evidence_name binary_name).

Definition stage_libusb (a : args) (s : stage) : res stage :=
  match a_libusb a with
  | Some path =>
      let source_archive := resolve path in
      s ← verify_source_archive s source_archive (u "libusb");
      if is_android (a_platform a)
      then copy_regular s source_archive (u "libusb/" ++ libusb_tarball) None else Ok s
  | None => Ok s
  end.

(** A staged file as text. *)
Definition staged_text (s : stage) (name : str) : res str :=
  f ← of_option (OSError "cannot open") (dict_get name s);
  read_text_utf8 f.2.

Definition staged_digest (s : stage) (name : str) : res str :=
  f ← of_option (OSError "cannot open") (dict_get name s);
  Ok (hexdigest f.2).

Definition ndk_members : list (str * str) :=
  [(u "source_properties", u "source.properties"); (u "notice", u "NOTICE");
   (u "notice_toolchain", u "NOTICE.toolchain")].

Definition stage_android (build : str) (s : stage) : res (stage * str * dict str) :=
  s ← copy_regular s (path_join build (u "static-link-inventory.tsv"))
        (u "evidence/static-link-inventory.tsv") None;
  s ← fold_res (λ s program,
        copy_regular s (path_join build (program ++ u "-static-link-inventory.tsv"))
          (u "evidence/" ++ program ++ u "-static-link-inventory.tsv") None)
        s [u "sianod"; u "sianoctl"];
  s ← copy_regular s (path_join build (u "build.properties")) (u "evidence/build.properties") None;
  s ← fold_res (λ s name,
        copy_regular s (path_join build (u "ndk/" ++ name)) (u "evidence/ndk/" ++ name) None)
        s ndk_members.*2;
  properties ← staged_text s (u "evidence/build.properties");
  hashes ← fold_res (λ hashes '(key, name),
             digest ← staged_digest s (u "evidence/ndk/" ++ name);
             Ok (dict_set key digest hashes)) [] ndk_members;
  Ok (s, properties, hashes).

Definition stage_license (repo_root : str) (s : stage) (license : str * str) : res stage :=
  let input := path_join repo_root (u "distribution/licenses/" ++ path_name license.1) in
  pinned_file input license.2 "missing/altered runtime license" ;;
  copy_regular s input license.1 (Some 0x1A4).

Definition stage_linux (repo_root : str) (s : stage) : res stage :=
  s ← fold_res (stage_license repo_root) s LINUX_RUNTIME_LICENSE_SHA256;
  fold_res (λ s name, copy_regular s (path_join repo_root (u "packaging/mdev/" ++ name))
                        (u "mdev/" ++ name) None)
    s [u "siano-ts-mdev.conf"; u "siano-ts-mdev.sh"; u "siano-ts-mdev.start"].

(** The text of [libusb/NOTICE.txt]. *)
Definition windows_libusb_notice (version : str) : str :=
  concat ((λ line, line ++ [10%N]) <$>
    [u "Bundled DLL: libusb-1.0.dll";
     u "Version: " ++ LIBUSB_VERSION;
     u "Package URL: " ++ WINDOWS_LIBUSB_PACKAGE_URL;
     u "Package SHA256: " ++ WINDOWS_LIBUSB_PACKAGE_SHA256;
     u "Corresponding source URL: " ++ LIBUSB_SOURCE_URL;
     u "Corresponding source SHA256: " ++ LIBUSB_SOURCE_SHA256;
     u "Project source archive: siano-ts-" ++ version ++ u "-source.tar.gz";
     u "The downloaded 7z package is verified during the build and is not embedded here.";
     u "License: LGPL-2.1-or-later; see COPYING."]).

Definition stage_windows (a : args) (build : str) (s : stage) : res stage :=
  package ← of_option (AttributeError "NoneType") (resolve <$> a_windows_package a);
  pinned_file package WINDOWS_LIBUSB_PACKAGE_SHA256 "Windows libusb package is not the pinned package" ;;
  let dll := path_join build (u "libusb-1.0.dll") in
  data ← read_bytes dll;
  audit_pe_x64 (Target dll (Some data) []) data false ;;
  s ← copy_regular s dll (u "libusb-1.0.dll") None;
  write_text s (u "libusb/NOTICE.txt") (windows_libusb_notice (a_version a)).

(** The stage of a platform before its notice, with the texts the notice needs. *)
Definition stage_inputs (a : args) (repo_root build : str)
    : res (stage * option str * option (dict str)) :=
  let platform := a_platform a in
  s ← stage_documents repo_root [];
  s ← fold_res (stage_program platform build) s (program_names platform);
  s ← copy_regular s (resolve (a_firmware a)) (u "firmware/isdbt_rio.inp") None;
  s ← stage_libusb a s;
  '(s, build_properties, ndk_hashes) ←
    (if is_android platform then
       '(s, properties, hashes) ← stage_android build s; Ok (s, Some properties, Some hashes)
     else Ok (s, None, None));
  '(s, build_properties) ←
    (if linux_platform platform || is_darwin platform then
       s ← copy_from build s (u "evidence/build.properties");
       properties ← staged_text s (u "evidence/build.properties");
       Ok (s, Some properties)
     else Ok (s, build_properties));
  s ← (if linux_platform platform then stage_linux repo_root s else Ok s);
  s ← (if is_windows platform then stage_windows a build s else Ok s);
  Ok (s, build_properties, ndk_hashes).

(** The notice, the manifest and the checksum list complete the stage. *)
Definition stage_package (a : args) (repo_root build : str) : res stage :=
  '(s, build_properties, ndk_hashes) ← stage_inputs a repo_root build;
  notice ← dependency_notice repo_root (a_version a) (a_platform a) (a_source_ref a)
             build_properties ndk_hashes;
  s ← write_text s (u "DEPENDENCY-NOTICE.txt") notice;
  s ← write_manifest new_mode s MANIFEST (manifest (a_version a) (a_platform a) (a_source_ref a) s);
  write_checksums s.

Definition write_archive (platform : str) (s : stage) : bytes :=
  if is_windows platform then write_deterministic_zip s else write_deterministic_tar s.

(** [main]: the archive left in the output directory, if one was written, and the printed
    path.  A failed audit leaves the archive behind. *)
Definition main (a : args) : option (str * bytes) * res str :=
  match (x ← check_inputs a;
         s ← stage_package a x.1.1 x.1.2; Ok (x.2, write_archive (a_platform a) s)) with
  | Err e => (None, Err e)
  | Ok (output, data) =>
      (Some (output, data),
       audit_binary_archive limit script_root temporary output (Some data) (a_platform a) ;;
       Ok (output ++ [10%N]))
  end.
End package.
