(* ===== verification/PackageProps.v ===== *)
(** * What a package is made of

    The files that [package-artifact.py] stages, in order, with their sources: the members
    of a package are exactly those the audit expects. *)

From S2P Require Import Prelude PyStr PyDict Codec Regex Lines PyFloat Json Sha256 PyPath Provenance.
From S2P Require Import Archive AuditBase AuditBaseProps AuditText AuditManifest AuditBinary.
From S2P Require Import AuditArchive AuditProps Stage StageProps Package.

Local Open Scope Z_scope.

(** ** Dictionaries built in order *)

Lemma dict_update_app {A} (d w1 w2 : dict A) :
  dict_update d (w1 ++ w2) = dict_update (dict_update d w1) w2.
Proof. unfold dict_update. apply foldl_app. Qed.

(** Distinct writes are kept in order. *)
Lemma dict_update_distinct {A} (w : dict A) : NoDup w.*1 → dict_update [] w = w.
Proof. apply dict_of_pairs_id. Qed.

Lemma put_update s name mode data s' :
  put s name mode data = Ok s' → s' = dict_update s [(name, (mode, data))].
Proof. by intros [_ ->]%put_Ok. Qed.

(** ** Sources of staged files *)

Section package.
Context `{Unicode} `{Digits} `{Lower} `{Digest} `{Tools} `{Archives} `{Tars}.
Context `{Files} `{Host} `{SourceTars} `{Writers}.

(** A staged file is the ordinary file at [source], with [mode] if one is given. *)
Definition copied (source : str) (mode : option Z) (f : Z * bytes) : Prop :=
  ∃ source_mode data, node_at source = Node false (Some (source_mode, data))
    ∧ f = (default (S_IMODE source_mode) mode, data).

Lemma copy_regular_Ok s source name mode s' :
  copy_regular s source name mode = Ok s' → ∃ f, copied source mode f ∧ s' = dict_update s [(name, f)].
Proof.
  unfold copy_regular, copied. destruct (node_at source) as [[] [[source_mode data]|]]; try done.
  intros Hp%put_update. eexists. split; [|exact Hp]. by eexists _, _.
Qed.

(** A sequence of copies. *)
Lemma copies_Ok {A} (source name : A → str) mode s l s' :
  fold_res (λ s x, copy_regular s (source x) (name x) mode) s l = Ok s' →
  ∃ fs, Forall2 (λ x f, copied (source x) mode f) l fs ∧ s' = dict_update s (zip_with (λ x f, (name x, f)) l fs).
Proof.
  revert s. induction l as [|x l IH]; intros s; cbn [fold_res].
  - intros [= <-]. by exists [].
  - intros (s1 & (f & Hf & ->)%copy_regular_Ok & (fs & Hfs & ->)%IH)%bind_Ok.
    exists (f :: fs). split; [by constructor|]. done.
Qed.

Lemma write_text_Ok s name text s' :
  write_text s name text = Ok s' →
  ∃ data, encode_utf8 text = Some data ∧ s' = dict_update s [(name, (0x1A4, data))].
Proof. unfold write_text. intros (data & Hd%of_option_Ok & Hp%put_update)%bind_Ok. by exists data. Qed.

Lemma verify_source_archive_Ok s path destination s' :
  verify_source_archive s path destination = Ok s' →
  ∃ f, s' = dict_update s [(destination ++ u "/COPYING", f)]
    ∧ sha256 path = Ok LIBUSB_SOURCE_SHA256.
Proof.
  unfold verify_source_archive. rewrite fail_if_then. intros (_ & (digest & Hd & H')%bind_Ok).
  rewrite fail_if_then, negb_false_iff, bool_decide_eq_true in H'. destruct H' as [-> H'].
  apply bind_Ok in H' as (copying & _ & H'). apply bind_Ok in H' as (text & _ & H').
  apply write_text_Ok in H' as (data & _ & ->). by eexists.
Qed.

(** Reading a file that was staged. *)
Lemma copied_sha256 source mode f : copied source mode f → sha256 source = Ok (hexdigest f.2).
Proof. intros (m & data & Hn & ->). unfold sha256, read_bytes. by rewrite Hn. Qed.

Lemma pinned_file_Ok path digest msg r :
  pinned_file path digest msg = Ok r ↔ sha256 path = Ok digest.
Proof.
  unfold pinned_file. rewrite fail_if_then, bind_Ok. setoid_rewrite fail_if_Ok.
  setoid_rewrite negb_false_iff. setoid_rewrite bool_decide_eq_true. split.
  - by intros (_ & digest' & ? & ->).
  - intros Hd. split; [|by exists digest]. unfold is_file, sha256, read_bytes in *.
    destruct (n_file (node_at path)); [done|discriminate].
Qed.

(** ** The stage of each platform *)

Context (limit : nat) (script_root temporary : str) (new_mode : Z).
Context (a : args) (repo_root build : str).

(** A step that adds files of the given names. *)
Definition adds (names : list str) (s s' : stage) : Prop :=
  ∃ w, w.*1 = names ∧ s' = dict_update s w.

Lemma adds_nil s : adds [] s s.
Proof using. by exists []. Qed.

Lemma adds_app n1 n2 s s1 s' : adds n1 s s1 → adds n2 s1 s' → adds (n1 ++ n2) s s'.
Proof using.
  intros (w1 & <- & ->) (w2 & <- & ->). exists (w1 ++ w2). by rewrite fmap_app, dict_update_app.
Qed.

Lemma stage_documents_Ok s s' : stage_documents repo_root s = Ok s' →
  ∃ f1 f2 f3 f4, copied (path_join repo_root (u "LICENCE.siano")) None f2
    ∧ s' = dict_update s [(u "COPYING", f1); (u "LICENCE.siano", f2); (u "README.md", f3);
                          (u "REBUILD.md", f4)].
Proof using.
  unfold stage_documents, copy_from.
  intros (s1 & (fs & Hfs & ->)%(copies_Ok _ (λ name, name)) & (f4 & _ & ->)%copy_regular_Ok)%bind_Ok.
  inversion Hfs as [|? f1 ? fs1 _ Hfs1]; subst. inversion Hfs1 as [|? f2 ? fs2 H2' Hfs2]; subst.
  inversion Hfs2 as [|? f3 ? fs3 _ Hfs3]; subst. inversion Hfs3; subst.
  exists f1, f2, f3, f4. split; [done|]. by rewrite <- dict_update_app.
Qed.

(** A program, executable but on Windows, and its evidence. *)
Definition program_files (platform : str) (name : str) (w : stage) : Prop :=
  ∃ f g, copied (path_join build name) (if is_windows platform then None else Some 0x1ED) f
    ∧ copied (path_join build (binary_evidence_name name)) None g
    ∧ w = [(name, f); (binary_evidence_name name, g)].

Lemma stage_programs_Ok platform s l s' :
  fold_res (stage_program platform build) s l = Ok s' →
  ∃ ws, Forall2 (program_files platform) l ws ∧ s' = dict_update s (concat ws).
Proof using.
  revert s. induction l as [|name l IH]; intros s; cbn [fold_res].
  - intros [= <-]. by exists [].
  - intros (s1 & Hs1 & (ws & Hws & ->)%IH)%bind_Ok. unfold stage_program, copy_from in Hs1.
    apply bind_Ok in Hs1 as (s2 & (f & Hf & ->)%copy_regular_Ok & (g & Hg & ->)%copy_regular_Ok).
    exists ([(name, f); (binary_evidence_name name, g)] :: ws). split.
    + constructor; [by exists f, g|done].
    + cbn [concat]. by rewrite dict_update_app, <- (dict_update_app s [_] [_]).
Qed.

Lemma adds_copy s source name mode s' : copy_regular s source name mode = Ok s' → adds [name] s s'.
Proof using. intros (f & _ & ->)%copy_regular_Ok. by exists [(name, f)]. Qed.

Lemma adds_text s name text s' : write_text s name text = Ok s' → adds [name] s s'.
Proof using. intros (data & _ & ->)%write_text_Ok. by eexists [(name, _)]. Qed.

Lemma adds_fold {A} (step : stage → A → res stage) (name : A → str) s l s' :
  (∀ s x s', step s x = Ok s' → adds [name x] s s') →
  fold_res step s l = Ok s' → adds (name <$> l) s s'.
Proof using.
  intros Hstep. revert s. induction l as [|x l IH]; intros s; cbn [fold_res].
  - intros [= <-]. apply adds_nil.
  - intros (s1 & Hx%Hstep & Hl%IH)%bind_Ok. change (name <$> x :: l) with ([name x] ++ (name <$> l)). by eapply adds_app.
Qed.

(** The names that the platform adds to the documents, programs and firmware. *)
Definition android_names : list str :=
  [u "evidence/static-link-inventory.tsv"; u "evidence/sianod-static-link-inventory.tsv";
   u "evidence/sianoctl-static-link-inventory.tsv"; u "evidence/build.properties"]
  ++ ((λ name, u "evidence/ndk/" ++ name) <$> ndk_members.*2).
Definition linux_names : list str :=
  LINUX_RUNTIME_LICENSE_SHA256.*1
  ++ ((λ name, u "mdev/" ++ name) <$> [u "siano-ts-mdev.conf"; u "siano-ts-mdev.sh"; u "siano-ts-mdev.start"]).
Definition extra_names (platform : str) : list str :=
  [u "libusb/COPYING"] ++ (if is_android platform then [u "libusb/" ++ libusb_tarball] else [])
  ++ (if is_android platform then android_names else [])
  ++ (if linux_platform platform || is_darwin platform then [u "evidence/build.properties"] else [])
  ++ (if linux_platform platform then linux_names else [])
  ++ (if is_windows platform then [u "libusb-1.0.dll"; u "libusb/NOTICE.txt"] else []).

Lemma stage_libusb_Ok s s' : is_Some (a_libusb a) → stage_libusb a s = Ok s' →
  adds ([u "libusb/COPYING"] ++ (if is_android (a_platform a) then [u "libusb/" ++ libusb_tarball] else []))
    s s'.
Proof using.
  intros [path Hp]. unfold stage_libusb. rewrite Hp.
  intros (s1 & (f & -> & _)%verify_source_archive_Ok & Hc)%bind_Ok.
  eapply adds_app; [by exists [(u "libusb/COPYING", f)]|].
  destruct (is_android _); [by apply adds_copy in Hc|]. injection Hc as <-. apply adds_nil.
Qed.

Lemma stage_android_Ok s r : stage_android build s = Ok r → adds android_names s r.1.1.
Proof using.
  unfold stage_android. intros (s1 & K1%adds_copy & H')%bind_Ok.
  apply bind_Ok in H' as (s2 & K2%(adds_fold _ (λ program, u "evidence/" ++ program ++ u "-static-link-inventory.tsv")) & H').
  2:{ intros s0 x s0' Hc. by apply adds_copy in Hc. }
  apply bind_Ok in H' as (s3 & K3%adds_copy & H').
  apply bind_Ok in H' as (s4 & K4%(adds_fold _ (λ name, u "evidence/ndk/" ++ name)) & H').
  2:{ intros s0 x s0' Hc. by apply adds_copy in Hc. }
  apply bind_Ok in H' as (properties & _ & H'). apply bind_Ok in H' as (hashes & _ & [= <-]).
  cbn [fst]. eapply (adds_app [_]); [exact K1|]. eapply (adds_app [_; _]); [exact K2|].
  eapply (adds_app [_]); [exact K3|exact K4].
Qed.

Lemma stage_linux_Ok s s' : stage_linux repo_root s = Ok s' → adds linux_names s s'.
Proof using.
  unfold stage_linux. intros (s1 & K1%(adds_fold _ fst) & K2%(adds_fold _ (λ name, u "mdev/" ++ name)))%bind_Ok.
  - eapply adds_app; [exact K1|exact K2].
  - intros s0 x s0' Hc. by apply adds_copy in Hc.
  - intros s0 [name digest] s0'. unfold stage_license. intros (_ & _ & Hc)%bind_Ok. by apply adds_copy in Hc.
Qed.

Lemma stage_windows_Ok s s' : stage_windows a build s = Ok s' →
  adds [u "libusb-1.0.dll"; u "libusb/NOTICE.txt"] s s'.
Proof using.
  unfold stage_windows. intros (package & _ & H')%bind_Ok. apply bind_Ok in H' as (_ & _ & H').
  apply bind_Ok in H' as (data & _ & H'). apply bind_Ok in H' as (_ & _ & H').
  apply bind_Ok in H' as (s1 & K1%adds_copy & K2%adds_text).
  exact (adds_app _ _ _ _ _ K1 K2).
Qed.

Lemma stage_extra_Ok s s1 s2 s3 s' properties hashes properties' :
  is_Some (a_libusb a) → let platform := a_platform a in
  stage_libusb a s = Ok s1 →
  (if is_android platform then
     '(s, properties, hashes) ← stage_android build s1; Ok (s, Some properties, Some hashes)
   else Ok (s1, None, None)) = Ok (s2, properties, hashes) →
  (if linux_platform platform || is_darwin platform then
     s ← copy_from build s2 (u "evidence/build.properties");
     properties ← staged_text s (u "evidence/build.properties");
     Ok (s, Some properties)
   else Ok (s2, properties)) = Ok (s3, properties') →
  (s ← (if linux_platform platform then stage_linux repo_root s3 else Ok s3);
   (if is_windows platform then stage_windows a build s else Ok s)) = Ok s' →
  adds (extra_names platform) s s'.
Proof using.
  intros Hsome platform K1%stage_libusb_Ok K2 K3 K4; [|done]. unfold extra_names. fold platform in K1 |- *.
  rewrite app_assoc. eapply adds_app; [exact K1|].
  eapply adds_app.
  { destruct (is_android platform); [|by injection K2 as <- _ _; apply adds_nil].
    apply bind_Ok in K2 as ([[s0 p] h] & Ha%stage_android_Ok & [= <- _ _]). exact Ha. }
  eapply adds_app.
  { destruct (_ || _); [|by injection K3 as <- _; apply adds_nil].
    apply bind_Ok in K3 as (s0 & Hc & K3). unfold copy_from in Hc. apply adds_copy in Hc.
    apply bind_Ok in K3 as (p & _ & [= <- _]). exact Hc. }
  apply bind_Ok in K4 as (s4 & K4 & K5). eapply adds_app.
  { destruct (linux_platform platform); [by apply stage_linux_Ok|injection K4 as ->; apply adds_nil]. }
  destruct (is_windows platform); [by apply stage_windows_Ok|injection K5 as ->; apply adds_nil].
Qed.

(** ** The whole stage *)

Definition documents : list str := [u "COPYING"; u "LICENCE.siano"; u "README.md"; u "REBUILD.md"].

(** The names in the order of staging, before the notice. *)
Definition staged_names (platform : str) : list str :=
  documents ++ concat ((λ name, [name; binary_evidence_name name]) <$> program_names platform)
  ++ [u "firmware/isdbt_rio.inp"] ++ extra_names platform.

(** What [stage_inputs] collects: each program with its evidence, the firmware and the
    license are the input files that were checked. *)
Record inputs_staged (s : stage) : Prop := {
  is_names : s.*1 = staged_names (a_platform a);
  is_license : ∃ f, dict_get (u "LICENCE.siano") s = Some f
                    ∧ copied (path_join repo_root (u "LICENCE.siano")) None f;
  is_firmware : ∃ f, dict_get (u "firmware/isdbt_rio.inp") s = Some f
                     ∧ copied (resolve (a_firmware a)) None f;
  is_programs : ∀ name, name ∈ program_names (a_platform a) →
    ∃ f g, dict_get name s = Some f ∧ dict_get (binary_evidence_name name) s = Some g
      ∧ copied (path_join build name) (if is_windows (a_platform a) then None else Some 0x1ED) f
      ∧ copied (path_join build (binary_evidence_name name)) None g;
}.

Definition all_names (platform : str) : list str :=
  staged_names platform ++ [u "DEPENDENCY-NOTICE.txt"; MANIFEST; SUMS].

(** A boolean fact about every item of a literal list. *)
Ltac each_evaluates :=
  repeat (apply Forall_cons_2; [vm_compute; reflexivity|]); apply Forall_nil_2.

Lemma all_names_distinct platform : platform ∈ PLATFORMS → NoDup (all_names platform).
Proof using.
  intros Hp. apply (bool_decide_eq_true_1 (NoDup (all_names platform))). revert platform Hp. apply Forall_forall.
  each_evaluates.
Qed.

Lemma same_members (l1 l2 : list str) :
  forallb (λ x, bool_decide (x ∈ l2)) l1 && forallb (λ x, bool_decide (x ∈ l1)) l2 = true →
  (list_to_set l1 : gset str) = list_to_set l2.
Proof using.
  rewrite andb_true_iff, !forallb_elem. setoid_rewrite bool_decide_eq_true. set_solver.
Qed.

Lemma expected_all_names platform : platform ∈ PLATFORMS →
  expected_members platform = Ok (list_to_set (all_names platform)).
Proof using.
  intros Hp. unfold expected_members. rewrite bool_decide_eq_true_2 by done. cbn [negb fail_if mbind res_bind].
  f_equal. apply same_members. revert platform Hp. apply Forall_forall. each_evaluates.
Qed.

Lemma stage_inputs_parts s properties hashes :
  is_Some (a_libusb a) → stage_inputs a repo_root build = Ok (s, properties, hashes) →
  ∃ f1 f2 f3 f4 ws fw extra,
    s = dict_update [] ([(u "COPYING", f1); (u "LICENCE.siano", f2); (u "README.md", f3);
                         (u "REBUILD.md", f4)] ++ concat ws ++ [(u "firmware/isdbt_rio.inp", fw)] ++ extra)
    ∧ copied (path_join repo_root (u "LICENCE.siano")) None f2
    ∧ Forall2 (program_files (a_platform a)) (program_names (a_platform a)) ws
    ∧ copied (resolve (a_firmware a)) None fw ∧ extra.*1 = extra_names (a_platform a).
Proof using.
  intros Hsome Hi. unfold stage_inputs in Hi.
  apply bind_Ok in Hi as (s1 & (f1 & f2 & f3 & f4 & Hlic & ->)%stage_documents_Ok & Hi).
  apply bind_Ok in Hi as (s2 & (ws & Hws & ->)%stage_programs_Ok & Hi).
  apply bind_Ok in Hi as (s3 & (fw & Hfw & ->)%copy_regular_Ok & Hi).
  apply bind_Ok in Hi as (s4 & Hl & Hi). apply bind_Ok in Hi as ([[s5 p5] h5] & Ha & Hi).
  apply bind_Ok in Hi as ([s6 p6] & Hb & Hi). apply bind_Ok in Hi as (s7 & Hx & Hi).
  apply bind_Ok in Hi as (s8 & Hw & [= -> -> ->]).
  destruct (stage_extra_Ok _ _ _ _ s _ _ _ Hsome Hl Ha Hb) as (extra & Hex & ->).
  { apply bind_Ok. by exists s7. }
  exists f1, f2, f3, f4, ws, fw, extra. split_and!; [|done..].
  by rewrite !dict_update_app.
Qed.

Lemma program_files_names ws :
  Forall2 (program_files (a_platform a)) (program_names (a_platform a)) ws →
  (concat ws).*1 = concat ((λ name, [name; binary_evidence_name name]) <$> program_names (a_platform a)).
Proof using.
  induction 1 as [|name w l ws (f & g & _ & _ & ->) _ IH]; [done|]. cbn. by rewrite IH.
Qed.

Lemma stage_inputs_Ok s properties hashes :
  is_Some (a_libusb a) → a_platform a ∈ PLATFORMS →
  stage_inputs a repo_root build = Ok (s, properties, hashes) → inputs_staged s.
Proof using.
  intros Hsome Hp (f1 & f2 & f3 & f4 & ws & fw & extra & -> & Hlic & Hws & Hfw & Hex)%stage_inputs_parts;
    [|done].
  pose proof (program_files_names ws Hws) as Hnames.
  set (w := _ ++ concat ws ++ _).
  assert (w.*1 = staged_names (a_platform a)) as Hw.
  { unfold w. rewrite !fmap_app, Hnames, Hex. reflexivity. }
  assert (NoDup w.*1) as Hnd.
  { rewrite Hw. pose proof (all_names_distinct _ Hp) as Hall. by apply NoDup_app in Hall as [? _]. }
  rewrite dict_update_distinct by done.
  assert (∀ name f, (name, f) ∈ w → dict_get name w = Some f) as Hget
    by (intros; by apply dict_get_elem).
  split.
  - done.
  - exists f2. split; [|done]. apply Hget. unfold w. apply elem_of_app. left. right. left.
  - exists fw. split; [|done]. apply Hget. unfold w. rewrite !elem_of_app. right. right. left. left.
  - intros name [i Hi]%list_elem_of_lookup.
    destruct (Forall2_lookup_l _ _ _ _ _ Hws Hi) as (w' & Hw' & f & g & Hf & Hg & ->).
    assert (∀ x, x ∈ [(name, f); (binary_evidence_name name, g)] → x ∈ w) as Hin.
    { intros x Hx. unfold w. rewrite !elem_of_app. right. left. apply list_elem_of_In, in_concat.
      exists [(name, f); (binary_evidence_name name, g)]. split; apply list_elem_of_In; [|done].
      by apply list_elem_of_lookup_2 in Hw'. }
    exists f, g. split_and!; [apply Hget, Hin; left|apply Hget, Hin; right; left|done|done].
Qed.

(** The files added after the inputs. *)
Lemma stage_package_Ok s' : stage_package new_mode a repo_root build = Ok s' →
  ∃ s properties hashes notice data mode sums,
    stage_inputs a repo_root build = Ok (s, properties, hashes)
    ∧ dependency_notice repo_root (a_version a) (a_platform a) (a_source_ref a) properties hashes = Ok notice
    ∧ encode_utf8 notice = Some data
    ∧ let s1 := dict_update s [(u "DEPENDENCY-NOTICE.txt", (0x1A4, data))] in
      let s2 := dict_update s1 [(MANIFEST, (mode, write_json (JDict
                  (manifest (a_version a) (a_platform a) (a_source_ref a) s1))))] in
      write_checksums s2 = Ok s' ∧ s' = dict_update s2 [(SUMS, (0x1A4, sums))].
Proof using.
  unfold stage_package. intros ([[s properties] hashes] & Hi & H')%bind_Ok.
  apply bind_Ok in H' as (notice & Hn & H'). apply bind_Ok in H' as (s1 & (data & Hd & ->)%write_text_Ok & H').
  apply bind_Ok in H' as (s2 & Hm & H'). unfold write_manifest, write_file in Hm. apply put_update in Hm as ->.
  pose proof H' as (sums & _ & Hs')%write_text_Ok.
  exists s, properties, hashes, notice, data. eexists _, sums. split_and!; [done..| |]; [exact H'|exact Hs'].
Qed.
End package.
