(* ===== verification/ManifestProps.v ===== *)
(** * The manifest of a package

    The manifest that [package-artifact.py] writes is read back and accepted by the audit's
    [verify_manifest], for every platform, version and source commit. *)

From stdpp Require Import sorting.
From S2P Require Import Prelude PyStr PyDict Codec Regex Lines PyFloat Json JsonRound Sha256 PyPath.
From S2P Require Import Provenance Archive AuditBase AuditBaseProps AuditText AuditManifest AuditBinary.
From S2P Require Import AuditArchive AuditProps EvidenceProps Stage StageProps Package PackageProps.

Local Open Scope Z_scope.

(** ** Normal forms of objects *)

Definition norm_members (d : dict json) : dict json :=
  merge_sort member_le ((λ kv, (kv.1, norm kv.2)) <$> d).

Lemma norm_members_keys d : (norm_members d).*1 ≡ₚ d.*1.
Proof. unfold norm_members. rewrite merge_sort_Permutation, <- list_fmap_compose. done. Qed.

Lemma dict_get_norm k d : NoDup d.*1 → dict_get k (norm_members d) = norm <$> dict_get k d.
Proof.
  intros Hd. rewrite (dict_get_perm _ _ ((λ kv, (kv.1, norm kv.2)) <$> d));
    [|by rewrite norm_members_keys|apply merge_sort_Permutation].
  clear Hd. induction d as [|[k' v] d IH]; [done|]. rewrite fmap_cons. cbn. by destruct (decide (k' = k)).
Qed.

Lemma norm_strings d : norm (strings d) = JDict (norm_members ((λ kv, (kv.1, JStr kv.2)) <$> d)).
Proof. done. Qed.

Lemma norm_list_strings l : norm (JList (JStr <$> l)) = JList (JStr <$> l).
Proof. cbn. f_equal. rewrite <- list_fmap_compose. done. Qed.

(** ** Plain values *)

Lemma Forall_dict_set {A} (P : str * A → Prop) k v d :
  Forall P d → P (k, v) → Forall P (dict_set k v d).
Proof.
  intros Hd Hk. induction Hd as [|[k' v'] d Hkv Hd IH]; cbn; [by repeat constructor|].
  destruct (decide (k' = k)) as [->|]; by constructor.
Qed.

Lemma plain_set k v d : plain (JDict d) → printable k → plain v → plain (JDict (dict_set k v d)).
Proof.
  rewrite !plain_dict. intros [Hnd Hd] Hk Hv. split; [by apply dict_set_NoDup|].
  by apply Forall_dict_set.
Qed.

Lemma plain_update d new :
  plain (JDict d) → Forall (λ kv, printable kv.1 ∧ plain kv.2) new → plain (JDict (dict_update d new)).
Proof.
  intros Hd Hnew. revert d Hd. induction Hnew as [|kv new [Hk Hv] _ IH]; intros d Hd; [done|].
  apply IH. by apply plain_set.
Qed.

(** A literal object of literal strings. *)
Lemma plain_strings d :
  bool_decide (NoDup d.*1) && forallb (λ kv, printableb kv.1 && printableb kv.2) d = true → plain (strings d).
Proof.
  rewrite andb_true_iff, bool_decide_eq_true, forallb_elem. intros [Hnd Hd]. apply plain_dict.
  rewrite <- list_fmap_compose, Forall_fmap. split; [done|]. apply Forall_forall.
  intros kv Hkv. specialize (Hd kv Hkv). apply andb_true_iff in Hd as [Hk Hv].
  split; [by apply printableb_spec|]. exact (printableb_spec _ Hv).
Qed.

(** The characters of the texts that a pattern matches. *)
Fixpoint chars_in (P : N → Prop) (r : re) : Prop :=
  match r with
  | Void | Eps => True
  | Chr p => ∀ c, p c = true → P c
  | Cat r1 r2 | Alt r1 r2 => chars_in P r1 ∧ chars_in P r2
  | Star r => chars_in P r
  end.

Lemma lang_chars P r s : lang r s → chars_in P r → Forall P s.
Proof.
  induction 1; cbn; intros HP; try (by constructor).
  - constructor; [by apply HP|done].
  - destruct HP. apply Forall_app. auto.
  - destruct HP. auto.
  - destruct HP. auto.
  - apply Forall_app. auto.
Qed.

Lemma version_printable v : fullmatch VERSION_RE v = true → printable v.
Proof.
  intros Hv%fullmatch_spec. apply (lang_chars _ _ _ Hv).
  assert (∀ c, is_digit c = true → (32 ≤ c < 127)%N) as Hd
    by (intros c; unfold is_digit; rewrite andb_true_iff, !N.leb_le; lia).
  assert (∀ c, (46 =? c)%N = true → (32 ≤ c < 127)%N) as Hdot by (intros c <-%N.eqb_eq; lia).
  unfold VERSION_RE. change (u ".") with [46%N]. cbn -[N.eqb]. tauto.
Qed.

Section manifest.
Context `{Digest}.

(** ** The records of the files *)

(** File sizes that [int] reads back. *)
Definition readable_sizes (s : stage) : Prop :=
  Forall (λ f, length (dec_Z (lenZ f.2.2)) ≤ 4300)%nat s.

Lemma file_record_plain data :
  (length (dec_Z (lenZ data)) ≤ 4300)%nat → plain (file_record data).
Proof.
  intros Hl. apply plain_literal; [by vm_compute..|].
  constructor; [|constructor; [|constructor]]; cbn.
  - split; [unfold lenZ; lia|done].
  - apply hexdigest_printable.
Qed.

Lemma file_records_keys s : (file_records s).*1 ≡ₚ s.*1.
Proof. unfold file_records. rewrite <- list_fmap_compose. by rewrite sorted_files_perm. Qed.

Lemma file_records_plain s :
  tree s → Forall printable s.*1 → readable_sizes s → plain (JDict (file_records s)).
Proof.
  intros [Hnd _] Hp Hsz. apply plain_dict. rewrite file_records_keys. split; [done|].
  unfold file_records. rewrite Forall_fmap, sorted_files_perm. unfold readable_sizes in Hsz.
  rewrite Forall_fmap in Hp. rewrite !Forall_forall in *. intros f Hf. split; [by apply Hp|].
  by apply file_record_plain, Hsz.
Qed.

Lemma dict_get_records s name :
  NoDup s.*1 → dict_get name (file_records s) = file_record ∘ snd <$> dict_get name s.
Proof.
  intros Hnd. rewrite (dict_get_perm _ _ ((λ f, (f.1, file_record f.2.2)) <$> s)).
  - clear Hnd. induction s as [|[n [m data]] s IH]; [done|]. rewrite fmap_cons. cbn.
    by destruct (decide (n = name)).
  - by rewrite file_records_keys.
  - unfold file_records. by rewrite sorted_files_perm.
Qed.

Lemma norm_record_describes data : record_describes data (norm (file_record data)).
Proof.
  exists [(u "sha256", JStr (hexdigest data)); (u "size", JInt (lenZ data))].
  split; [reflexivity|]. split; [|done]. unfold dict_keys. cbn [fmap list_fmap fst]. set_solver.
Qed.

(** ** The members of the manifest *)

(** Literal keys. *)
Ltac literal_members :=
  repeat (apply Forall_cons_2; [split; [by apply printableb_spec|]|]); [..|apply Forall_nil_2]; cbn [snd].

Lemma metadata_plain platform d : plain (JDict d) → plain (JDict (update_metadata platform d)).
Proof.
  unfold update_metadata. destruct (dict_get platform metadata) as [[[ar li] lc]|] eqn:Hm; [|done].
  apply dict_get_Some_elem in Hm.
  assert (Forall (λ kv, printable kv.2.1.1 ∧ printable kv.2.1.2 ∧ printable kv.2.2) metadata) as Hall.
  { repeat (apply Forall_cons_2; [split_and!; by apply printableb_spec|]). apply Forall_nil_2. }
  rewrite Forall_forall in Hall. destruct (Hall _ Hm) as (? & ? & ?).
  intros Hd. apply plain_update; [done|]. by literal_members.
Qed.

Lemma linux_plain platform d :
  printable platform → plain (JDict d) → plain (JDict (update_linux platform d)).
Proof.
  intros Hp Hd. unfold update_linux. destruct (linux_platform platform); [|done].
  apply plain_update; [done|]. literal_members; try by apply printableb_spec.
  - by apply Forall_drop.
  - by apply plain_strings.
Qed.

Lemma darwin_plain platform d : plain (JDict d) → plain (JDict (update_darwin platform d)).
Proof.
  intros Hd. unfold update_darwin. destruct (is_darwin platform); [|done].
  apply plain_set; [done|by apply printableb_spec|by apply plain_strings].
Qed.

Lemma libusb_plain platform d : plain (JDict d) → plain (JDict (update_libusb platform d)).
Proof.
  intros Hd. unfold update_libusb. destruct (_ || _); [|done].
  apply plain_set; [done|by apply printableb_spec|]. destruct (is_windows platform); by apply plain_strings.
Qed.

Lemma manifest_plain version platform source_ref s :
  printable version → printable platform → printable source_ref →
  tree s → Forall printable s.*1 → readable_sizes s →
  plain (JDict (manifest version platform source_ref s)).
Proof.
  intros Hv Hp Hr Hs Hn Hsz. unfold manifest.
  apply plain_set; [|by apply printableb_spec|by apply file_records_plain].
  apply libusb_plain, darwin_plain, linux_plain, metadata_plain; [done|].
  apply plain_literal; [by vm_compute..|].
  repeat (apply Forall_cons_2); [..|apply Forall_nil_2]; cbn [snd]; try done.
  - by apply plain_small.
  - apply plain_list. rewrite Forall_fmap. apply Forall_forall. intros name Hname.
    change (printable name). unfold program_names in Hname. apply list_elem_of_fmap in Hname as (x & -> & Hx).
    apply Forall_app. split; [|destruct (is_windows platform); by apply printableb_spec].
    apply printableb_spec. revert x Hx. apply Forall_forall.
    repeat (apply Forall_cons_2; [vm_compute; reflexivity|]). apply Forall_nil_2.
  - by apply plain_dict; split; constructor.
  - by apply plain_strings.
Qed.

(** The members that do not depend on the platform. *)
Lemma manifest_members version platform source_ref s : platform ∈ PLATFORMS →
  let d := manifest version platform source_ref s in
  dict_get (u "schema") d = Some (JInt 1)
  ∧ dict_get (u "version") d = Some (JStr version)
  ∧ dict_get (u "platform") d = Some (JStr platform)
  ∧ dict_get (u "source_ref") d = Some (JStr source_ref)
  ∧ dict_get (u "programs") d = Some (JList (JStr <$> program_names platform))
  ∧ dict_get (u "files") d = Some (JDict (file_records s))
  ∧ dict_get (u "firmware") d = Some expected_firmware.
Proof.
  revert platform. apply Forall_forall.
  repeat (apply Forall_cons_2; [split_and!; reflexivity|]). apply Forall_nil_2.
Qed.

(** What the audit reads of the build of the platform: the metadata and the libusb pin. *)
Definition build_keys : list str :=
  [u "architecture"; u "libc"; u "build_libc"; u "linkage"; u "libusb"].

Lemma exact_strings_ext msg expected d1 d2 :
  (∀ k, k ∈ expected.*1 → dict_get k d1 = dict_get k d2) →
  exact_strings msg expected d1 = exact_strings msg expected d2.
Proof.
  unfold exact_strings. induction expected as [|[k v] expected IH]; intros Hext; [done|].
  cbn [for_each]. unfold get_eq. rewrite (Hext k) by left.
  destruct (fail_if _ _); [|done]. cbn. apply IH. intros k' Hk'. apply Hext. by right.
Qed.

Lemma other_metadata_keys platform m :
  other_metadata platform = Ok m → m.*1 = [u "architecture"; u "linkage"; u "libc"].
Proof. unfold other_metadata. by intros (architecture & _ & [= <-])%bind_Ok. Qed.

Lemma build_manifest_ext platform d1 d2 :
  (∀ k, k ∈ build_keys → dict_get k d1 = dict_get k d2) →
  verify_platform_manifest platform d1 = verify_platform_manifest platform d2.
Proof.
  intros Hext.
  assert (∀ msg expected, forallb (λ k, bool_decide (k ∈ build_keys)) expected.*1 = true →
    exact_strings msg expected d1 = exact_strings msg expected d2) as Hexact.
  { intros msg expected Hs. rewrite forallb_elem in Hs. apply exact_strings_ext. intros k Hk.
    by apply Hext, (bool_decide_eq_true_1 (k ∈ build_keys)), Hs. }
  assert (dict_get (u "libusb") d1 = dict_get (u "libusb") d2) as Hl by (apply Hext; set_solver).
  unfold verify_platform_manifest, get_eq. rewrite Hl.
  destruct (is_linux platform); [done|]. destruct (is_darwin platform).
  { by rewrite Hexact. }
  destruct (_ || _); [|done]. destruct (other_metadata platform) as [m|] eqn:Hm; [|done].
  cbn [mbind res_bind]. rewrite Hexact by by rewrite (other_metadata_keys _ _ Hm). unfold verify_libusb. by rewrite Hl.
Qed.

Lemma manifest_distinct version platform source_ref s : platform ∈ PLATFORMS →
  NoDup (manifest version platform source_ref s).*1.
Proof.
  intros Hp. apply (bool_decide_eq_true_1 (NoDup (manifest version platform source_ref s).*1)).
  revert platform Hp. apply Forall_forall.
  repeat (apply Forall_cons_2; [vm_compute; reflexivity|]). apply Forall_nil_2.
Qed.

Lemma build_lookup version platform source_ref s k : platform ∈ PLATFORMS → k ∈ build_keys →
  dict_get k (norm_members (manifest version platform source_ref s))
  = dict_get k (norm_members (manifest [] platform [] [])).
Proof.
  intros Hp Hk. rewrite !dict_get_norm by (by apply manifest_distinct). f_equal.
  revert k Hk. apply Forall_forall. revert platform Hp. apply Forall_forall.
  repeat (apply Forall_cons_2; [repeat (apply Forall_cons_2; [reflexivity|]); apply Forall_nil_2|]).
  apply Forall_nil_2.
Qed.

(** For every platform the manifest says what the audit expects of the build. *)
Lemma manifest_build version platform source_ref s : platform ∈ PLATFORMS →
  verify_platform_manifest platform (norm_members (manifest version platform source_ref s)) = Ok tt.
Proof.
  intros Hp. rewrite (build_manifest_ext _ _ (norm_members (manifest [] platform [] []))).
  - revert platform Hp. apply Forall_forall.
    repeat (apply Forall_cons_2; [vm_compute; reflexivity|]). apply Forall_nil_2.
  - intros k Hk. by apply build_lookup.
Qed.

(** The metadata of a Linux manifest. *)
Lemma manifest_linux version platform source_ref s : platform ∈ PLATFORMS →
  (if is_linux platform
   then metadata ← linux_metadata platform;
        exact_strings "" metadata (norm_members (manifest version platform source_ref s))
   else Ok tt) = Ok tt.
Proof.
  intros Hp. transitivity (if is_linux platform
   then metadata ← linux_metadata platform;
        exact_strings "" metadata (norm_members (manifest [] platform [] []))
   else Ok tt).
  - destruct (is_linux platform); [|done]. destruct (linux_metadata platform) as [m|] eqn:Hm; [|done].
    cbn [mbind res_bind]. apply exact_strings_ext. intros k Hk. assert (k ∈ build_keys) as Hb.
    { unfold linux_metadata in Hm. apply bind_Ok in Hm as (ar & _ & [= <-]). cbn in Hk. set_solver. }
    by apply build_lookup.
  - revert platform Hp. apply Forall_forall.
    repeat (apply Forall_cons_2; [vm_compute; reflexivity|]). apply Forall_nil_2.
Qed.

(** ** Nesting *)

Lemma nesting_members d n : Forall (λ kv, (nesting kv.2 ≤ n)%nat) d → (nesting (JDict d) ≤ S n)%nat.
Proof. intros Hd. cbn [nesting]. apply le_n_S. induction Hd; cbn in *; lia. Qed.

Lemma nesting_strings d : (nesting (strings d) ≤ 2)%nat.
Proof. apply nesting_members. rewrite Forall_fmap. apply Forall_true.
  intros kv. cbn. lia.
Qed.

Lemma Forall_dict_update {A} (P : str * A → Prop) d new :
  Forall P d → Forall P new → Forall P (dict_update d new).
Proof.
  intros Hd Hnew. revert d Hd. induction Hnew as [|[k v] new Hk _ IH]; intros d Hd; [done|].
  by apply IH, Forall_dict_set.
Qed.

Lemma manifest_nesting version platform source_ref s :
  (nesting (JDict (manifest version platform source_ref s)) ≤ 4)%nat.
Proof.
  assert (nesting (JDict (file_records s)) ≤ 3)%nat as Hf.
  { apply nesting_members. unfold file_records. rewrite Forall_fmap. apply Forall_true.
    intros f. cbn. lia. }
  assert (∀ d, nesting (strings d) ≤ 3)%nat as Hs by (intros d; pose proof (nesting_strings d); lia).
  apply nesting_members. unfold manifest. apply Forall_dict_set; [|exact Hf].
  assert (∀ platform d, Forall (λ kv : str * json, nesting kv.2 ≤ 3)%nat d →
    Forall (λ kv : str * json, nesting kv.2 ≤ 3)%nat
      (update_libusb platform (update_darwin platform (update_linux platform (update_metadata platform d)))))
    as Hupdates.
  { clear platform. intros platform d Hd. unfold update_libusb, update_darwin, update_linux, update_metadata.
    assert (Forall (λ kv : str * json, nesting kv.2 ≤ 3)%nat
      (match dict_get platform metadata with
       | Some (architecture, linkage, libc) =>
           dict_update d [(u "architecture", JStr architecture); (u "linkage", JStr linkage);
                          (u "libc", JStr libc)]
       | None => d end)) as Hm.
    { destruct (dict_get platform metadata) as [[[? ?] ?]|]; [|done].
      apply Forall_dict_update; [done|]. repeat constructor. }
    destruct (_ || _), (is_darwin platform), (linux_platform platform);
      repeat first [apply Forall_dict_set|apply Forall_dict_update]; try done; try apply Hs;
      repeat constructor; cbn [snd]; try apply Hs; cbn; lia. }
  apply Hupdates. repeat (apply Forall_cons_2); [..|apply Forall_nil_2]; cbn [snd]; try apply Hs; try (cbn; lia).
Qed.

(** ** The round trip *)

Section round_trip.
Context (limit : nat) (version platform source_ref : str) (s : stage) (mode : Z) (sums : Z * bytes).
Context (p : dict bytes).

(** The stage when the manifest and the checksum list have been written. *)
Definition completed : stage :=
  dict_update s [(MANIFEST, (mode, write_json (JDict (manifest version platform source_ref s))));
                 (SUMS, sums)].

Context (Hversion : fullmatch VERSION_RE version = true) (Hplatform : platform ∈ PLATFORMS)
  (Href : object_id source_ref = true).
Context (Htree : tree s) (Hnames : Forall printable s.*1) (Hsizes : readable_sizes s).
Context (Hlimit : (4 ≤ limit)%nat) (Hholds : holds completed p).

Lemma completed_get name : dict_get name completed =
  if decide (SUMS = name) then Some sums
  else if decide (MANIFEST = name)
  then Some (mode, write_json (JDict (manifest version platform source_ref s)))
  else dict_get name s.
Proof using. unfold completed, dict_update. cbn [foldl]. by rewrite !dict_get_set. Qed.

Lemma inventory_read_back :
  MANIFEST ∉ s.*1 → SUMS ∉ s.*1 → inventory_of p MANIFEST (norm_members (file_records s)).
Proof using Hholds Htree.
  intros Hm Hs. destruct Htree as [Hnd _].
  assert (∀ name, name ≠ MANIFEST → name ≠ SUMS → dict_get name p = snd <$> dict_get name s) as Hget.
  { intros name ? ?. by rewrite Hholds, completed_get, !decide_False by done. }
  split.
  - apply set_eq. intros name. rewrite elem_of_difference, not_elem_of_union, !not_elem_of_singleton.
    rewrite dict_keys_elem, (norm_members_keys (file_records s)), file_records_keys. split.
    + intros Hin. assert (name ≠ MANIFEST ∧ name ≠ SUMS) as [? ?] by (split; intros ->; done).
      split; [|done]. rewrite elem_of_dict_keys, Hget by done. rewrite fmap_is_Some.
      by rewrite <- elem_of_dict_keys, dict_keys_elem.
    + intros [Hin [? ?]]. rewrite elem_of_dict_keys, Hget, fmap_is_Some in Hin by done.
      by rewrite <- elem_of_dict_keys, dict_keys_elem in Hin.
  - intros name data Hd ? ?. rewrite Hget in Hd by done. apply fmap_Some in Hd as ([m data'] & Hd & ->).
    exists (norm (file_record data')). split; [|apply norm_record_describes].
    rewrite dict_get_norm, dict_get_records, Hd; [done|done|by rewrite file_records_keys].
Qed.

Lemma manifest_read_back :
  MANIFEST ∉ s.*1 → SUMS ∉ s.*1 →
  manifest_of limit p platform (norm_members (manifest version platform source_ref s)).
Proof using All.
  intros Hm Hs. pose proof (manifest_members version platform source_ref s Hplatform)
    as (K1 & K2 & K3 & K4 & K5 & K6 & K7).
  assert (∀ k v, dict_get k (manifest version platform source_ref s) = Some v →
    dict_get k (norm_members (manifest version platform source_ref s)) = Some (norm v)) as Hget.
  { intros k v Hk. by rewrite dict_get_norm, Hk by (by apply manifest_distinct). }
  split.
  - rewrite Hholds, completed_get, decide_False, decide_True by done. cbn [fmap option_fmap option_map snd default from_option].
    apply parse_written; [|pose proof (manifest_nesting version platform source_ref s); lia].
    apply manifest_plain; [by apply version_printable|by apply platform_printable|by apply object_id_printable|done..].
  - unfold get_eq. by rewrite (Hget _ _ K1).
  - apply (Hget _ _ K3).
  - exists version. split; [apply (Hget _ _ K2)|done].
  - exists source_ref. split; [apply (Hget _ _ K4)|done].
  - rewrite (Hget _ _ K5). by rewrite norm_list_strings.
  - exists (norm_members (file_records s)). split; [apply (Hget _ _ K6)|by apply inventory_read_back].
  - unfold get_eq. rewrite (Hget _ _ K7). vm_compute. reflexivity.
  - intros Hlin. pose proof (manifest_linux version platform source_ref s Hplatform) as Hl.
    rewrite Hlin in Hl. apply bind_Ok in Hl as (m & Hm' & Hx). exists m. split; [done|].
    by apply exact_strings_Ok in Hx.
  - by apply manifest_build.
Qed.
End round_trip.
End manifest.
