(* ===== verification/JsonCanonical.v ===== *)
(** * The canonical encoding

    [json.dumps] with [sort_keys=True] writes a value and its normal form alike, so what a
    packager writes is what the release gate takes for the canonical encoding of what it
    reads. *)

From stdpp Require Import sorting.
From S2P Require Import Prelude PyStr PyDict Codec Regex PyFloat Json JsonRound Sha256 PyPath.
From S2P Require Import Archive ReleaseText ReleaseVerify AuditBase AuditManifest AuditBinary EvidenceProps Stage ManifestProps.

(** ** Keys in order *)

#[export] Instance str_le_trans : Transitive str_le.
Proof.
  unfold str_le. intros s t r. revert t r. induction s as [|x s IH]; intros [|y t] [|z r]; cbn; try done.
  destruct (x =? y)%N eqn:Hxy, (y =? z)%N eqn:Hyz; rewrite ?N.eqb_eq, ?N.eqb_neq, ?N.ltb_lt in *;
    subst; try rewrite N.eqb_refl; intros H1 H2.
  - by apply (IH t).
  - destruct (y =? z)%N eqn:Hz; rewrite ?N.eqb_eq, ?N.ltb_lt in *; [by subst|done].
  - destruct (x =? z)%N eqn:Hz; rewrite ?N.eqb_eq, ?N.ltb_lt in *; [by subst|done].
  - destruct (x =? z)%N eqn:Hz; rewrite ?N.eqb_eq, ?N.ltb_lt in *; [subst; lia|lia].
Qed.

#[export] Instance str_le_total : Total str_le.
Proof.
  unfold str_le. intros s. induction s as [|x s IH]; intros [|y t]; cbn; [by left..|by right|].
  rewrite (N.eqb_sym y x). destruct (x =? y)%N eqn:Hxy; [apply IH|].
  rewrite N.eqb_neq in Hxy. rewrite !N.ltb_lt. lia.
Qed.

#[export] Instance str_le_antisymm : AntiSymm (=) str_le.
Proof.
  unfold str_le. intros s. induction s as [|x s IH]; intros [|y t]; cbn; try done.
  rewrite (N.eqb_sym y x). destruct (x =? y)%N eqn:Hxy.
  - apply N.eqb_eq in Hxy as ->. intros ? ?. f_equal. by apply IH.
  - rewrite !N.ltb_lt. lia.
Qed.

#[export] Instance member_le_trans : Transitive member_le.
Proof. intros a c d. unfold member_le. apply str_le_trans. Qed.
#[export] Instance member_le_total : Total member_le.
Proof. intros a c. unfold member_le. apply str_le_total. Qed.

(** ** Sorted members *)

(** Sorting members that are sorted, with distinct keys. *)
Lemma merge_sort_members (d : list (str * json)) :
  NoDup d.*1 → merge_sort member_le (merge_sort member_le d) = merge_sort member_le d.
Proof.
  intros Hnd. pose proof (merge_sort_Permutation member_le d) as Hp.
  apply (Sorted_unique_strong member_le).
  - intros [k v] [k' v'] Hin Hin' H1 H2. rewrite merge_sort_Permutation, Hp in Hin. rewrite Hp in Hin'.
    assert (k = k') as -> by (by apply (anti_symm str_le)).
    apply dict_get_elem in Hin, Hin'; [|done..]. congruence.
  - apply Sorted_merge_sort, _.
  - apply Sorted_merge_sort, _.
  - apply merge_sort_Permutation.
Qed.

Lemma dump_norm v : ∀ level, plain v → dump level (norm v) = dump level v.
Proof.
  induction v as [|?|?|?|?|l IH|d IH] using json_nested_ind; intros level Hp; try done.
  - apply plain_list in Hp. cbn [norm dump]. f_equal. rewrite <- list_fmap_compose.
    rewrite Forall_forall in IH, Hp. apply list_fmap_ext. intros i v Hv%list_elem_of_lookup_2. cbn. auto.
  - apply plain_dict in Hp as [Hnd Hp]. rewrite norm_dict, !dump_dict. f_equal.
    rewrite (merge_sort_fmap (λ kv : str * json, (kv.1, norm kv.2)) member_le member_le) by done.
    rewrite merge_sort_members by done. rewrite <- list_fmap_compose.
    apply list_fmap_ext. intros i [k v] Hkv%list_elem_of_lookup_2.
    rewrite merge_sort_Permutation in Hkv. rewrite Forall_forall in IH, Hp.
    pose proof (IH (k, v) Hkv (S level) (proj2 (Hp (k, v) Hkv))) as Hv. cbn [compose fst snd] in *. by rewrite Hv.
Qed.

(** What [write_json] writes is canonical for what is read back. *)
Lemma canonical_written d : plain (JDict d) → canonical_json_file (write_json (JDict d)) (norm_members d) = true.
Proof.
  intros Hp. unfold canonical_json_file, canonical_json. apply bool_decide_eq_true. right.
  change (JDict (norm_members d)) with (norm (JDict d)). unfold write_json, dumps_bytes, dumps.
  by rewrite dump_norm.
Qed.

Lemma ends_written v : ends_with_newline (write_json v) = true.
Proof. unfold ends_with_newline, write_json. rewrite last_snoc. by apply bool_decide_eq_true. Qed.

(** A plain value equals itself. *)
Lemma py_eq_refl v : plain v → py_eq v v = true.
Proof.
  induction v as [|x|n|f|s|l IH|d IH] using json_nested_ind; intros Hp; try done.
  - by destruct x.
  - by apply py_eq_int.
  - by apply py_eq_str.
  - apply plain_list in Hp. cbn [py_eq]. induction IH as [|v l Hv _ IHl]; [done|].
    apply Forall_cons in Hp as [Hpv Hpl]. cbn [list_eqb]. by rewrite Hv, IHl.
  - apply plain_dict in Hp as [Hnd Hp]. apply py_eq_dict; [done..|]. intros k.
    destruct (dict_get k d) as [v|] eqn:Hk; [|done]. apply dict_get_Some_elem in Hk.
    rewrite Forall_forall in IH, Hp. apply (IH _ Hk), (Hp _ Hk).
Qed.

Lemma plain_norm v : plain v → plain (norm v).
Proof.
  induction v as [|?|?|?|?|l IH|d IH] using json_nested_ind; intros Hp; try done.
  - apply plain_list in Hp. cbn [norm]. apply plain_list, Forall_fmap.
    rewrite Forall_forall in *. intros v Hv. cbn. auto.
  - apply plain_dict in Hp as [Hnd Hp]. change (norm (JDict d)) with (JDict (norm_members d)).
    apply plain_dict. rewrite norm_members_keys. split; [done|]. unfold norm_members.
    rewrite merge_sort_Permutation, Forall_fmap. rewrite Forall_forall in *. intros kv Hkv.
    destruct (Hp kv Hkv). split; cbn; auto.
Qed.

(** The lookups of two normal forms are equal where those of the objects are. *)
Lemma option_py_eq_norm d1 d2 k :
  NoDup d1.*1 → NoDup d2.*1 → dict_get k d1 = dict_get k d2 → plain (JDict d1) →
  option_py_eq (dict_get k (norm_members d1)) (dict_get k (norm_members d2)).
Proof.
  intros H1 H2 Hk Hp. rewrite (dict_get_norm k d2), <- Hk, <- (dict_get_norm k d1) by done.
  destruct (dict_get k (norm_members d1)) as [v|] eqn:Hv; [|done]. apply py_eq_refl.
  apply plain_norm, plain_dict in Hp as [_ Hp]. rewrite Forall_forall in Hp. apply dict_get_Some_elem in Hv.
  apply (Hp _ Hv).
Qed.
