(* ===== verification/NoticeProps.v ===== *)
(** * The dependency notice: written by the packager, read by the audit

    The notice that [dependency_notice] builds from the repository's template is read by
    [notice_fields] as the version, the platform and the written fields, in order; they are
    the fields that the audit expects. *)

From S2P Require Import Prelude PyStr PyDict Codec Regex Lines PyFloat Json JsonRound Sha256 PyPath.
From S2P Require Import Provenance Archive AuditBase AuditBaseProps AuditText AuditManifest AuditBinary.
From S2P Require Import AuditArchive AuditProps EvidenceProps Stage StageProps Package PackageProps.
From S2P Require Import ManifestProps.

Local Open Scope Z_scope.

(** ** [replace] *)

Section replace.
Context (c : N) (old new : str).

Lemma replace_skip s1 s2 : c ∉ s1 → replace (c :: old) new (s1 ++ s2) = s1 ++ replace (c :: old) new s2.
Proof.
  unfold replace. induction s1 as [|x s1 IH]; [done|]. rewrite not_elem_of_cons. intros [Hx Hs].
  cbn [app replace_go]. assert (starts_with (c :: old) (x :: s1 ++ s2) = false) as ->.
  { cbn. by rewrite (proj2 (N.eqb_neq _ _)) by done. }
  by rewrite IH.
Qed.

Lemma replace_go_skip s1 s2 : replace_go (c :: old) new (length s1) (s1 ++ s2) = replace_go (c :: old) new 0 s2.
Proof. induction s1 as [|x s1 IH]; [by destruct s2|]. exact IH. Qed.

Lemma replace_hit s : replace (c :: old) new ((c :: old) ++ s) = new ++ replace (c :: old) new s.
Proof.
  unfold replace. cbn [app replace_go].
  assert (starts_with (c :: old) (c :: old ++ s) = true) as -> by (apply starts_with_spec; by exists s).
  f_equal. replace (length (c :: old) - 1)%nat with (length old) by (cbn; lia). apply replace_go_skip.
Qed.
End replace.

Lemma rstrip_last s c : c ≠ 10%N → rstrip_newlines (s ++ [c; 10%N]) = s ++ [c].
Proof.
  intros Hc. unfold rstrip_newlines. rewrite reverse_app.
  change (reverse [c; 10%N]) with [10%N; c]. cbn [app lstrip_newlines].
  change (10 =? 10)%N with true. rewrite (proj2 (N.eqb_neq _ _) Hc).
  by rewrite reverse_cons, reverse_involutive.
Qed.

(** ** The template *)

(** [packaging/DEPENDENCY-NOTICE.txt.in]: the lines around its three markers. *)
Definition NOTICE_TAIL : list str :=
  [u "Linux packages contain the exact musl copyright and GCC GPL/runtime exception";
   u "under toolchain/. build.properties identifies the compiler, libc, libgcc and";
   u "libstdc++ static archive versions, package owners and hashes used by this build.";
   [];
   u "The application source is GPL-2.0-or-later; see COPYING.";
   u "The linked PX4 host facade and Core host adapters are GPL-2.0-only.";
   u "The Core engine library is MIT. Corresponding source, full license texts and";
   u "provenance are in third_party/px4-userland/ and third_party/dtv-userland-core/";
   u "inside the matching project source archive. This package is not MIT-only.";
   u "The Siano firmware is separately licensed; see LICENCE.siano.";
   u "Firmware provenance is recorded in the archive manifest and SHA256SUMS."].
Definition NOTICE_TITLE : str := u "Siano userland dependency notice".

Definition NOTICE_TEMPLATE : str :=
  unlines ([NOTICE_TITLE; u "version=@VERSION@"; u "platform=@PLATFORM@"; []; u "@DEPENDENCY_TEXT@"; []]
           ++ NOTICE_TAIL).

(** The lines of a filled notice. *)
Definition notice_text (version platform : str) (fields : dict str) : str :=
  unlines ([NOTICE_TITLE; u "version=" ++ version; u "platform=" ++ platform; []]
           ++ (line_of <$> fields) ++ [[]; explanation platform; []] ++ NOTICE_TAIL).

Lemma unlines_app l1 l2 : unlines (l1 ++ l2) = unlines l1 ++ unlines l2.
Proof. unfold unlines. by rewrite fmap_app, concat_app. Qed.

Lemma no_marker (s : str) : bool_decide (64%N ∉ s) = true → 64%N ∉ s.
Proof. apply bool_decide_eq_true. Qed.

Section fill.
Context (version platform body : str) (Hv : 64%N ∉ version) (Hp : 64%N ∉ platform).

Let title : str := NOTICE_TITLE ++ [10%N] ++ u "version=".
Let between : str := [10%N] ++ u "platform=".
Let tail : str := [10%N; 10%N] ++ unlines NOTICE_TAIL.

Lemma fill_version :
  replace (u "@VERSION@") version NOTICE_TEMPLATE
  = title ++ version ++ between ++ u "@PLATFORM@" ++ [10%N; 10%N] ++ u "@DEPENDENCY_TEXT@" ++ tail.
Proof using.
  change NOTICE_TEMPLATE with (title ++ u "@VERSION@" ++ between ++ u "@PLATFORM@"
    ++ [10%N; 10%N] ++ u "@DEPENDENCY_TEXT@" ++ tail).
  change (u "@VERSION@") with (64%N :: u "VERSION@").
  rewrite replace_skip by (apply no_marker; by vm_compute). by rewrite replace_hit.
Qed.

Lemma fill_platform rest :
  replace (u "@PLATFORM@") platform (title ++ version ++ between ++ u "@PLATFORM@" ++ rest)
  = title ++ version ++ between ++ platform ++ replace (u "@PLATFORM@") platform rest.
Proof using Hv.
  change (u "@PLATFORM@") with (64%N :: u "PLATFORM@").
  rewrite !replace_skip by (done || (apply no_marker; by vm_compute)). by rewrite replace_hit.
Qed.

Lemma fill_body rest :
  replace (u "@DEPENDENCY_TEXT@") body
    (title ++ version ++ between ++ platform ++ [10%N; 10%N] ++ u "@DEPENDENCY_TEXT@" ++ rest)
  = title ++ version ++ between ++ platform ++ [10%N; 10%N] ++ body
    ++ replace (u "@DEPENDENCY_TEXT@") body rest.
Proof using Hv Hp.
  change (u "@DEPENDENCY_TEXT@") with (64%N :: u "DEPENDENCY_TEXT@").
  rewrite !replace_skip by (done || (apply no_marker; by vm_compute)). by rewrite replace_hit.
Qed.

Lemma fill_markers :
  rstrip_newlines (replace (u "@DEPENDENCY_TEXT@") body
    (replace (u "@PLATFORM@") platform (replace (u "@VERSION@") version NOTICE_TEMPLATE))) ++ [10%N]
  = title ++ version ++ between ++ platform ++ [10%N; 10%N] ++ body ++ tail.
Proof using Hv Hp.
  rewrite fill_version, fill_platform.
  change (replace (u "@PLATFORM@") platform ([10%N; 10%N] ++ ?r)) with ([10%N; 10%N] ++ r).
  change (replace (u "@PLATFORM@") platform ?r) with r.
  rewrite fill_body. change (replace (u "@DEPENDENCY_TEXT@") body tail) with tail.
  assert (tail = take (length tail - 2) tail ++ [46; 10]%N) as -> by (vm_compute; reflexivity).
  rewrite !app_assoc, rstrip_last by done. by rewrite <- !app_assoc.
Qed.
End fill.

Lemma fill_template_text version platform fields :
  64%N ∉ version → 64%N ∉ platform → fields ≠ [] →
  fill_template NOTICE_TEMPLATE version platform fields = notice_text version platform fields.
Proof.
  intros Hv Hp Hf. unfold fill_template. rewrite fill_markers by done. unfold notice_text.
  rewrite !unlines_app, <- (join_unlines (line_of <$> fields)) by (by destruct fields).
  rewrite !unlines_cons. change (unlines []) with (@nil N).
  repeat (rewrite <- !app_assoc; cbn [app]). reflexivity.
Qed.

(** ** Reading the fields *)

Lemma split1_None c s : c ∉ s → split1 c s = None.
Proof.
  induction s as [|x s IH]; [done|]. rewrite not_elem_of_cons. intros [Hx Hs]. cbn.
  by rewrite (proj2 (N.eqb_neq _ _)), IH.
Qed.

Lemma split1_first c k v : c ∉ k → split1 c (k ++ c :: v) = Some (k, v).
Proof.
  induction k as [|x k IH]; cbn; [by rewrite N.eqb_refl|]. rewrite not_elem_of_cons. intros [Hx Hk].
  by rewrite (proj2 (N.eqb_neq _ _)), IH.
Qed.

(** A key that the audit reads. *)
Definition readable_key (k : str) : bool := fullmatch notice_key k && negb (bool_decide (61%N ∈ k)).

Lemma fold_fields d fields :
  forallb readable_key fields.*1 = true → NoDup (d ++ fields).*1 →
  fold_res notice_field d (line_of <$> fields) = Ok (d ++ fields).
Proof.
  revert d. induction fields as [|[k v] fields IH]; intros d; [by rewrite app_nil_r|].
  cbn [fmap list_fmap fst forallb fold_res]. rewrite andb_true_iff. intros [Hk Hks] Hnd.
  unfold readable_key in Hk. rewrite andb_true_iff, negb_true_iff, bool_decide_eq_false in Hk.
  destruct Hk as [Hm Hk]. assert (split1 61 (line_of (k, v)) = Some (k, v)) as Hsplit
    by exact (split1_first 61 k v Hk).
  assert (k ∉ d.*1) as Hn.
  { rewrite fmap_app in Hnd. apply NoDup_app in Hnd as (_ & Hnd & _). intros Hin. apply (Hnd k Hin). by left. }
  assert (notice_field d (line_of (k, v)) = Ok (d ++ [(k, v)])) as ->.
  { unfold notice_field. rewrite Hsplit, Hm. by apply new_field_Ok. }
  cbn [mbind res_bind].
  rewrite IH by (done || by rewrite <- app_assoc). by rewrite <- app_assoc.
Qed.

Lemma fold_plain_lines d lines :
  forallb (λ l, negb (bool_decide (61%N ∈ l))) lines = true → fold_res notice_field d lines = Ok d.
Proof.
  induction lines as [|l lines IH]; cbn [forallb fold_res]; [done|]. rewrite andb_true_iff, negb_true_iff.
  intros [Hl%bool_decide_eq_false Hls]. assert (notice_field d l = Ok d) as ->.
  { unfold notice_field. by rewrite split1_None. }
  by apply IH.
Qed.

Definition identity_fields (version platform : str) : dict str :=
  [(u "version", version); (u "platform", platform)].

Lemma unbroken_check s : forallb (λ c, negb (is_linebreak c)) s = true → unbroken s.
Proof.
  rewrite forallb_elem. intros Hs. apply Forall_forall. intros c Hc. by apply negb_true_iff, Hs.
Qed.

Lemma explanation_plain platform :
  unbroken (explanation platform) ∧ bool_decide (61%N ∈ explanation platform) = false.
Proof.
  unfold explanation. destruct (is_android platform), (is_windows platform), (linux_platform platform);
    (split; [apply unbroken_check|]; by vm_compute).
Qed.

Lemma header_fields version platform :
  NoDup (identity_fields version platform).*1 →
  fold_res notice_field [] ([NOTICE_TITLE] ++ (line_of <$> identity_fields version platform) ++ [[]])
  = Ok (identity_fields version platform).
Proof.
  intros Hnd. rewrite fold_res_app, (fold_plain_lines [] [NOTICE_TITLE]) by (by vm_compute).
  cbn [mbind res_bind]. rewrite fold_res_app, (fold_fields [] (identity_fields version platform)).
  - by apply fold_plain_lines.
  - by vm_compute.
  - done.
Qed.

Lemma notice_text_fields version platform fields data :
  unbroken version → unbroken platform → Forall (λ kv, unbroken (line_of kv)) fields →
  forallb readable_key fields.*1 = true → NoDup (identity_fields version platform ++ fields).*1 →
  encode_utf8 (notice_text version platform fields) = Some data →
  notice_fields data = Ok (identity_fields version platform ++ fields).
Proof.
  intros Hv Hp Hf Hkeys Hnd Henc. unfold notice_fields.
  rewrite (decode_encode_utf8 _ _ Henc). cbn [of_option mbind res_bind]. unfold notice_text.
  destruct (explanation_plain platform) as [Hex Hx].
  rewrite splitlines_unlines.
  - rewrite !fold_res_app.
    change (fold_res notice_field [] [NOTICE_TITLE; _; _; []])
      with (fold_res notice_field [] ([NOTICE_TITLE] ++ (line_of <$> identity_fields version platform) ++ [[]])).
    rewrite header_fields by (rewrite fmap_app in Hnd; by apply NoDup_app in Hnd as [? _]).
    cbn [mbind res_bind].
    rewrite fold_res_app, fold_fields by done. cbn [mbind res_bind].
    rewrite fold_res_app, (fold_plain_lines _ [[]; explanation platform; []]) by (cbn [forallb]; by rewrite Hx).
    cbn [mbind res_bind]. apply fold_plain_lines. by vm_compute.
  - rewrite !Forall_app, Forall_fmap. split_and!; [|done| |].
    + rewrite !Forall_cons, Forall_nil. split_and!; [by apply unbroken_check| | |by constructor|done];
        (apply Forall_app; split; [by apply unbroken_check|done]).
    + rewrite !Forall_cons, Forall_nil. split_and!; [by constructor|done|by constructor|done].
    + unfold NOTICE_TAIL. rewrite !Forall_cons, Forall_nil. split_and!; (exact I || by apply unbroken_check).
Qed.

(** ** The fields of a notice *)

(** The field values that stay on their line. *)
Definition on_one_line (d : dict str) : Prop := Forall (λ kv, unbroken kv.2) d.

Lemma properties_unbroken text d : parse_properties text = Ok d → on_one_line d.
Proof.
  unfold parse_properties. apply fold_res_ind; [by constructor|].
  intros d1 line d2 Hline Hd1 Hp. unfold property in Hp.
  apply bind_Ok in Hp as ([key value] & Hs%of_option_Ok & Hn). apply new_field_Ok in Hn as [_ ->].
  apply Forall_app. split; [done|]. constructor; [|constructor]. cbn.
  apply splitlines_chars in Hline as [Hu _]. clear Hd1. revert key value Hs.
  induction Hu as [|c line Hc Hu IH]; intros key value; cbn; [done|].
  destruct (c =? 61)%N; [by intros [= _ <-]|]. destruct (split1 61 line) as [[k v]|]; [|done].
  intros [= _ <-]. by apply (IH k).
Qed.

Lemma known_or_unbroken d key : on_one_line d → unbroken (known_or d key).
Proof.
  intros Hd. unfold known_or. destruct (dict_get key d) as [v|] eqn:Hk; cbn.
  - apply dict_get_Some_elem in Hk. unfold on_one_line in Hd. rewrite Forall_forall in Hd. by apply (Hd _ Hk).
  - by apply unbroken_check.
Qed.

Lemma item_unbroken d key v : on_one_line d → item d key = Ok v → unbroken v.
Proof.
  intros Hd Hk%item_Ok%dict_get_Some_elem. unfold on_one_line in Hd. rewrite Forall_forall in Hd.
  by apply (Hd _ Hk).
Qed.

(** What the audit expects beyond the firmware and the source archive. *)
Definition platform_fields (version platform : str) : dict str :=
  if is_linux platform then linux_fields version
  else if is_android platform then android_fields
  else if is_windows platform then windows_fields else darwin_fields version.

Definition platform_keys (platform : str) : list str :=
  match platform_notice [] platform (Some (u "ndk_revision=27."))
          (Some [(u "source_properties", []); (u "notice", []); (u "notice_toolchain", [])]) with
  | Ok more => more.*1
  | Err _ => []
  end.

Lemma source_archive_unbroken version : unbroken version → unbroken (source_archive version).
Proof.
  intros Hv. apply Forall_app. split; [by apply unbroken_check|]. apply Forall_app.
  split; [done|by apply unbroken_check].
Qed.

Ltac lines_hold :=
  unfold on_one_line; rewrite ?Forall_app, ?Forall_cons, ?Forall_nil; split_and!;
  cbn [snd]; try exact I; try (by apply unbroken_check); try done.

Lemma static_lines : on_one_line static_fields.
Proof. unfold static_fields. lines_hold. Qed.

Lemma libusb_source_lines version : unbroken version → on_one_line (libusb_source_fields version).
Proof. intros Hv. unfold libusb_source_fields. lines_hold. by apply source_archive_unbroken. Qed.

Lemma windows_lines : on_one_line windows_notice.
Proof. unfold windows_notice. lines_hold. Qed.

Lemma darwin_lines version : unbroken version → on_one_line (darwin_notice version).
Proof.
  intros Hv. unfold darwin_notice. lines_hold; [apply static_lines|by apply libusb_source_lines].
Qed.

Lemma linux_lines version d : unbroken version → on_one_line d → on_one_line (linux_notice version d).
Proof.
  intros Hv Hd. unfold linux_notice.
  lines_hold; try (by apply known_or_unbroken); [apply static_lines|by apply libusb_source_lines].
Qed.

Lemma android_notice_Ok d hashes more :
  android_notice d hashes = Ok more → on_one_line d → on_one_line hashes →
  ∃ r h1 h2 h3, more = [(u "ndk_revision", r); (u "ndk.source_properties.sha256", h1);
       (u "ndk.notice.sha256", h2); (u "ndk.notice_toolchain.sha256", h3)]
      ++ static_fields ++ [(u "corresponding-source", u "libusb/" ++ libusb_tarball);
                           (u "corresponding-source.sha256", LIBUSB_SOURCE_SHA256)]
    ∧ on_one_line more.
Proof.
  intros Hm Hd Hh. unfold android_notice in Hm. rewrite !fail_if_then in Hm. destruct Hm as (_ & _ & Hm).
  apply bind_Ok in Hm as (r & Hr & Hm). apply bind_Ok in Hm as (h1 & Hh1 & Hm).
  apply bind_Ok in Hm as (h2 & Hh2 & Hm). apply bind_Ok in Hm as (h3 & Hh3 & [= <-]).
  exists r, h1, h2, h3. split; [done|].
  apply (item_unbroken _ _ _ Hd) in Hr. apply (item_unbroken _ _ _ Hh) in Hh1, Hh2, Hh3.
  lines_hold.
Qed.

Lemma linux_is_linux platform : platform ∈ PLATFORMS →
  is_linux platform = linux_platform platform
  ∧ (linux_platform platform && (is_android platform || is_windows platform)
     || is_android platform && is_windows platform) = false.
Proof.
  revert platform. apply Forall_forall.
  repeat (apply Forall_cons_2; [split; vm_compute; reflexivity|]). apply Forall_nil_2.
Qed.

Lemma platform_notice_Ok version platform properties hashes more :
  platform ∈ PLATFORMS → unbroken version → on_one_line (default [] hashes) →
  platform_notice version platform properties hashes = Ok more →
  more.*1 = platform_keys platform ∧ on_one_line more ∧ has id (platform_fields version platform) more.
Proof.
  intros Hp Hv Hh Hm. destruct (linux_is_linux platform Hp) as [Hl Hdis].
  unfold platform_keys, platform_fields, platform_notice in *. rewrite Hl.
  destruct (is_android platform), (is_windows platform), (linux_platform platform); try discriminate Hdis.
  - apply bind_Ok in Hm as (d & Hd%properties_unbroken & Hm).
    destruct (android_notice_Ok _ _ _ Hm Hd Hh) as (r & h1 & h2 & h3 & -> & Hlines).
    split_and!; [by vm_compute|done|]. repeat (apply Forall_cons_2; [reflexivity|]). apply Forall_nil_2.
  - injection Hm as <-. split_and!; [by vm_compute|apply windows_lines|].
    repeat (apply Forall_cons_2; [reflexivity|]). apply Forall_nil_2.
  - apply bind_Ok in Hm as (d & Hd%properties_unbroken & [= <-]).
    split_and!; [by vm_compute|by apply linux_lines|].
    repeat (apply Forall_cons_2; [reflexivity|]). apply Forall_nil_2.
  - injection Hm as <-. split_and!; [by vm_compute|by apply darwin_lines|].
    repeat (apply Forall_cons_2; [reflexivity|]). apply Forall_nil_2.
Qed.

Section notice.
Context `{Unicode} `{Digits} `{Lower} `{Digest} `{Tools} `{Archives} `{Tars}.
Context `{Files} `{Host} `{SourceTars} `{Writers}.

(** The fields that [dependency_notice] writes. *)
Definition written_fields (version source_ref core px4 : str) (more : dict str) : dict str :=
  common_fields version source_ref ++ revision_fields (u "dtv-userland-core") core
  ++ revision_fields (u "px4-userland") px4 ++ more.

Lemma read_revision_Ok repo_root name r : read_revision repo_root name = Ok r → hex40 r = true.
Proof.
  unfold read_revision. intros (data & _ & H')%bind_Ok. apply bind_Ok in H' as (text & _ & H').
  rewrite fail_if_then, negb_false_iff in H'. by destruct H' as [? [= <-]].
Qed.

Lemma dependency_notice_Ok repo_root version platform source_ref properties hashes text :
  dependency_notice repo_root version platform source_ref properties hashes = Ok text →
  ∃ core px4 more template, hex40 core = true ∧ hex40 px4 = true
    ∧ platform_notice version platform properties hashes = Ok more
    ∧ (data ← read_bytes (path_join repo_root (u "packaging/DEPENDENCY-NOTICE.txt.in"));
       of_option (ValueError "UnicodeDecodeError") (decode_utf8 data)) = Ok template
    ∧ text = fill_template template version platform (written_fields version source_ref core px4 more).
Proof.
  unfold dependency_notice. rewrite fail_if_then. intros (_ & (fields & Hf & H')%bind_Ok).
  unfold dependency_names in Hf. cbn [fold_res] in Hf.
  apply bind_Ok in Hf as (f1 & Hf1 & Hf). apply bind_Ok in Hf as (f2 & Hf2 & [= <-]).
  apply bind_Ok in Hf1 as (core & Hcore%read_revision_Ok & [= <-]).
  apply bind_Ok in Hf2 as (px4 & Hpx4%read_revision_Ok & [= <-]).
  apply bind_Ok in H' as (more & Hm & H'). apply bind_Ok in H' as (data & Hd & H').
  apply bind_Ok in H' as (template & Ht & [= <-]).
  exists core, px4, more, template. split_and!; [done..|apply bind_Ok; by exists data|].
  reflexivity.
Qed.

Lemma hex_unbroken s : Forall (λ c, is_hex c = true) s → unbroken s ∧ 64%N ∉ s.
Proof.
  intros Hs. split.
  - eapply Forall_impl; [exact Hs|]. intros c Hc. cbv beta in Hc. unfold is_hex, is_digit in Hc.
    rewrite orb_true_iff, !andb_true_iff, !N.leb_le in Hc. unfold is_linebreak.
    apply bool_decide_eq_false. rewrite !elem_of_cons, elem_of_nil. lia.
  - intros Hin. rewrite Forall_forall in Hs. by apply Hs in Hin.
Qed.

Lemma version_characters version : fullmatch VERSION_RE version = true → unbroken version ∧ 64%N ∉ version.
Proof.
  intros Hv%fullmatch_spec.
  assert (Forall (λ c, is_digit c = true ∨ c = 46%N) version) as Hc.
  { apply (lang_chars _ _ _ Hv). unfold VERSION_RE. change (u ".") with [46%N]. cbn -[N.eqb].
    assert (∀ c, (46 =? c)%N = true → is_digit c = true ∨ c = 46%N) by (intros c <-%N.eqb_eq; by right).
    tauto. }
  split.
  - eapply Forall_impl; [exact Hc|]. intros c Hd. cbv beta in Hd. unfold is_digit in Hd.
    rewrite andb_true_iff, !N.leb_le in Hd. unfold is_linebreak.
    apply bool_decide_eq_false. rewrite !elem_of_cons, elem_of_nil. lia.
  - intros Hin. rewrite Forall_forall in Hc. by destruct (Hc _ Hin).
Qed.

Lemma object_id_unbroken s : object_id s = true → unbroken s.
Proof.
  unfold object_id. rewrite orb_true_iff, hex40_spec, hex64_spec.
  intros [[_ Hs]|[_ Hs]]; by apply hex_unbroken.
Qed.

Lemma hexdigest_unbroken data : unbroken (hexdigest data).
Proof. pose proof (hexdigest_hex data) as [_ Hs]%hex64_spec. by apply hex_unbroken. Qed.

Lemma platform_characters platform : platform ∈ PLATFORMS →
  unbroken platform ∧ 64%N ∉ platform
  ∧ forallb readable_key (written_fields [] [] [] [] []).*1 && forallb readable_key (platform_keys platform) = true
  ∧ NoDup ((identity_fields [] []).*1 ++ (written_fields [] [] [] [] []).*1 ++ platform_keys platform).
Proof.
  intros Hp. split_and!.
  - apply unbroken_check. revert platform Hp. apply Forall_forall.
    repeat (apply Forall_cons_2; [vm_compute; reflexivity|]). apply Forall_nil_2.
  - apply no_marker. revert platform Hp. apply Forall_forall.
    repeat (apply Forall_cons_2; [vm_compute; reflexivity|]). apply Forall_nil_2.
  - revert platform Hp. apply Forall_forall.
    repeat (apply Forall_cons_2; [vm_compute; reflexivity|]). apply Forall_nil_2.
  - apply (bool_decide_eq_true_1 (NoDup _)). revert platform Hp. apply Forall_forall.
    repeat (apply Forall_cons_2; [vm_compute; reflexivity|]). apply Forall_nil_2.
Qed.

Lemma line_of_unbroken kv : unbroken kv.1 → unbroken kv.2 → unbroken (line_of kv).
Proof.
  intros Hk Hv. apply Forall_app. split; [done|]. apply Forall_app. split; [by apply unbroken_check|done].
Qed.

Lemma readable_key_unbroken k : readable_key k = true → unbroken k.
Proof.
  unfold readable_key. rewrite andb_true_iff. intros [Hk%fullmatch_spec _].
  apply (lang_chars _ _ _ Hk). cbn. enough (∀ c, ((97 <=? c) && (c <=? 122) || is_digit c
    || bool_decide (c ∈ [95; 46; 45]))%N = true → is_linebreak c = false) by tauto.
  intros c. rewrite !orb_true_iff, andb_true_iff, bool_decide_eq_true. unfold is_digit.
  rewrite andb_true_iff, !N.leb_le, !elem_of_cons, elem_of_nil. intros Hc. unfold is_linebreak.
  apply bool_decide_eq_false. rewrite !elem_of_cons, elem_of_nil. lia.
Qed.

Lemma written_keys version source_ref core px4 more :
  (written_fields version source_ref core px4 more).*1 = (written_fields [] [] [] [] []).*1 ++ more.*1.
Proof. reflexivity. Qed.

Lemma written_lines version source_ref core px4 more :
  unbroken version → unbroken source_ref → unbroken core → unbroken px4 → on_one_line more →
  on_one_line (written_fields version source_ref core px4 more).
Proof.
  intros Hv Hs Hc Hx Hm. unfold written_fields, common_fields, revision_fields.
  lines_hold; by apply source_archive_unbroken.
Qed.

(** What the audit finds in a notice. *)
Definition notice_accepted (version platform : str) (fields : dict str) : Prop :=
  has id firmware_fields fields
  ∧ dict_get (u "source.archive") fields = Some (source_archive version)
  ∧ has id (platform_fields version platform) fields.

Lemma written_accepted version platform source_ref core px4 more :
  platform ∈ PLATFORMS → has id (platform_fields version platform) more →
  notice_accepted version platform
    (identity_fields version platform ++ written_fields version source_ref core px4 more).
Proof.
  intros Hp Hm. split_and!; [repeat (apply Forall_cons_2; [reflexivity|]); apply Forall_nil_2|reflexivity|].
  unfold has in *. assert (Forall (λ k, ∀ r : dict str,
    dict_get k (identity_fields version platform ++ written_fields version source_ref core px4 r) = dict_get k r)
    (platform_fields version platform).*1) as Hskip.
  { unfold platform_fields. destruct (is_linux platform), (is_android platform), (is_windows platform);
      repeat (apply Forall_cons_2; [intros r; reflexivity|]); apply Forall_nil_2. }
  rewrite Forall_fmap in Hskip. rewrite Forall_forall in *. intros kv Hkv.
  specialize (Hskip kv Hkv more). rewrite <- (Hm kv Hkv). exact Hskip.
Qed.

(** The fields that the audit reads in a written notice. *)
Lemma notice_read_back repo_root version platform source_ref properties hashes text data :
  fullmatch VERSION_RE version = true → platform ∈ PLATFORMS → object_id source_ref = true →
  on_one_line (default [] hashes) →
  (data ← read_bytes (path_join repo_root (u "packaging/DEPENDENCY-NOTICE.txt.in"));
   of_option (ValueError "UnicodeDecodeError") (decode_utf8 data)) = Ok NOTICE_TEMPLATE →
  dependency_notice repo_root version platform source_ref properties hashes = Ok text →
  encode_utf8 text = Some data →
  ∃ fields, notice_fields data = Ok fields ∧ notice_accepted version platform fields.
Proof.
  intros Hv Hp Hs Hh Htemplate Hnotice Henc.
  apply dependency_notice_Ok in Hnotice as (core & px4 & more & template & Hc & Hx & Hm & Ht & ->).
  assert (template = NOTICE_TEMPLATE) as -> by congruence. clear Ht.
  apply version_characters in Hv as [Huv Hav]. apply object_id_unbroken in Hs.
  apply hex40_spec in Hc as [_ [Hc _]%hex_unbroken]. apply hex40_spec in Hx as [_ [Hx _]%hex_unbroken].
  destruct (platform_notice_Ok _ _ _ _ _ Hp Huv Hh Hm) as (Hkeys & Hlines & Hexp).
  destruct (platform_characters _ Hp) as (Hup & Hap & Hread & Hnd). apply andb_true_iff in Hread as [Hr1 Hr2].
  assert (forallb readable_key (written_fields version source_ref core px4 more).*1 = true) as Hread.
  { rewrite written_keys, forallb_app, Hr1, Hkeys. exact Hr2. }
  rewrite fill_template_text in Henc by done.
  eexists. split; [|by apply (written_accepted version platform source_ref core px4 more)].
  apply notice_text_fields; [done|done| |done| |done].
  - pose proof (written_lines version source_ref core px4 more Huv Hs Hc Hx Hlines) as Hone.
    rewrite forallb_elem in Hread. unfold on_one_line in Hone. rewrite Forall_forall in *.
    intros kv Hkv. apply line_of_unbroken; [|by apply Hone].
    apply readable_key_unbroken, Hread, list_elem_of_fmap. by exists kv.
  - rewrite fmap_app, written_keys, Hkeys. exact Hnd.
Qed.
End notice.
