(* ===== verification/PackageAudit.v ===== *)
(** * A package passes its audit

    [package-artifact.py] audits the archive it has written.  Everything the audit asks of
    the members, the manifest, the modes of the programs, the pinned files, the notice, the
    evidence and the checksums holds by construction: only the inspection of the programs and
    of the build of the platform can fail. *)

From S2P Require Import Prelude PyStr PyDict Codec Regex Lines PyFloat Json JsonRound Sha256 PyPath.
From S2P Require Import Provenance Archive AuditBase AuditBaseProps AuditText AuditManifest AuditBinary.
From S2P Require Import AuditArchive AuditProps EvidenceProps Stage StageProps Package PackageProps.
From S2P Require Import ManifestProps NoticeProps.

Local Open Scope Z_scope.

(** ** Paths *)

Lemma path_name_join dir name : 47%N ∉ name → name ≠ [] → name ≠ u "." →
  path_name (path_join dir name) = name.
Proof.
  intros Hs Hne Hdot. unfold path_name, path_names, path_join.
  change (dir ++ u "/" ++ name) with (dir ++ 47%N :: name).
  rewrite split_on_app, (split_on_none 47 name), filter_app by done.
  rewrite (filter_cons_True _ name []) by done. by rewrite filter_nil, last_snoc.
Qed.

(** ** A stage of given names *)

Definition names_tree (names : list str) : bool :=
  bool_decide (NoDup names) && forallb (λ f, forallb (λ g, negb (leads_to f g)) names) names.

Lemma names_tree_spec (s : stage) : names_tree s.*1 = true → tree s.
Proof.
  unfold names_tree. rewrite andb_true_iff, bool_decide_eq_true, forallb_elem. intros [Hnd Hl].
  split; [done|]. intros f g Hf Hg. specialize (Hl f Hf). rewrite forallb_elem in Hl.
  by apply negb_true_iff, Hl.
Qed.

Definition names_listable (names : list str) : bool :=
  forallb (λ name, bool_decide (name = SUMS)
    || bool_decide (safe_name name ∧ path_name name ≠ SUMS ∧ ascii name ∧ unbroken name)
       && printableb name) names.

(** The names staged before the checksum list. *)
Definition described_names (platform : str) : list str :=
  staged_names platform ++ [u "DEPENDENCY-NOTICE.txt"; MANIFEST].

Lemma platform_names platform : platform ∈ PLATFORMS →
  names_tree (staged_names platform ++ [u "DEPENDENCY-NOTICE.txt"]) && names_tree (described_names platform)
  && names_listable (described_names platform) = true.
Proof.
  revert platform. apply Forall_forall.
  repeat (apply Forall_cons_2; [vm_compute; reflexivity|]). apply Forall_nil_2.
Qed.

Section package.
Context `{Unicode} `{Digits} `{Lower} `{Digest} `{Tools} `{Archives} `{Tars}.
Context `{Files} `{Host} `{SourceTars} `{Writers}.
Context (limit : nat) (script_root temporary : str) (new_mode : Z).
Context (a : args) (repo_root build output : str).

(** ** The checked inputs *)

Record inputs_checked : Prop := {
  ic_root : repo_root = resolve (a_repo_root a);
  ic_output : output = path_join (resolve (a_output_dir a)) (archive_name (a_version a) (a_platform a));
  ic_platform : a_platform a ∈ PLATFORMS;
  ic_version : fullmatch VERSION_RE (a_version a) = true;
  ic_source : object_id (a_source_ref a) = true;
  ic_libusb : is_Some (a_libusb a);
  ic_firmware : sha256 (resolve (a_firmware a)) = Ok FIRMWARE_SHA256;
  ic_license : sha256 (path_join repo_root (u "LICENCE.siano")) = Ok FIRMWARE_LICENSE_SHA256;
  ic_programs : Forall (λ name, check_program limit a build name = Ok tt) (program_names (a_platform a));
}.

Lemma every_platform platform : platform ∈ PLATFORMS →
  is_android platform || linux_platform platform || is_darwin platform || is_windows platform = true.
Proof using.
  revert platform. apply Forall_forall.
  repeat (apply Forall_cons_2; [vm_compute; reflexivity|]). apply Forall_nil_2.
Qed.

Lemma check_options_Ok r : check_options a = Ok r →
  a_platform a ∈ PLATFORMS ∧ fullmatch VERSION_RE (a_version a) = true
  ∧ object_id (a_source_ref a) = true ∧ is_Some (a_libusb a).
Proof using.
  unfold check_options, validate_source_ref. intros ([] & Hp & H')%bind_Ok.
  destruct (bool_decide (a_platform a ∈ PACKAGE_PLATFORMS)) eqn:Hb; [|done].
  apply bool_decide_eq_true in Hb. pose proof (every_platform _ Hb) as Hall.
  rewrite !fail_if_then, fail_if_Ok, !negb_false_iff in H'. destruct H' as (Hv & Hs & Hl & Hw).
  split_and!; [done..|]. destruct (a_libusb a); [by eexists|]. exfalso.
  change (bool_decide (is_Some None)) with false in Hl, Hw.
  destruct (is_windows (a_platform a)); [by destruct (negb _) in Hw|].
  rewrite orb_false_r in Hall. by rewrite Hall in Hl.
Qed.

Lemma check_inputs_Ok : check_inputs limit a = Ok (repo_root, build, output) → inputs_checked.
Proof using.
  unfold check_inputs. intros ([] & Ho%check_options_Ok & H')%bind_Ok.
  apply bind_Ok in H' as ([] & Hf%pinned_file_Ok & H'). apply bind_Ok in H' as (version & _ & H').
  rewrite fail_if_then in H'. destruct H' as [_ H'].
  apply bind_Ok in H' as ([] & Hl%pinned_file_Ok & H').
  apply bind_Ok in H' as ([] & Hprograms%for_each_Ok & H').
  apply bind_Ok in H' as ([] & _ & H'). rewrite fail_if_then in H'. destruct H' as [_ [= Hr Hb Hout]].
  destruct Ho as (? & ? & ? & ?). rewrite Hr in Hl. rewrite Hb in Hprograms. split; done.
Qed.

(** ** The complete stage *)

Lemma Forall_set {A} (P : A → Prop) k v (d : dict A) :
  Forall (λ kv, P kv.2) d → P v → Forall (λ kv, P kv.2) (dict_set k v d).
Proof using. intros Hd Hv. by apply Forall_dict_set. Qed.

Lemma stage_android_hashes s r : stage_android build s = Ok r → on_one_line r.2.
Proof using.
  unfold stage_android. intros (s1 & _ & H')%bind_Ok. apply bind_Ok in H' as (s2 & _ & H').
  apply bind_Ok in H' as (s3 & _ & H'). apply bind_Ok in H' as (s4 & _ & H').
  apply bind_Ok in H' as (properties & _ & H'). apply bind_Ok in H' as (hashes & Hh & [= <-]).
  cbn [snd]. revert Hh. apply fold_res_ind; [by constructor|].
  intros d [key name] d' _ Hd Hs. apply bind_Ok in Hs as (digest & Hg & [= <-]).
  apply (Forall_set unbroken); [done|]. unfold staged_digest in Hg.
  apply bind_Ok in Hg as (f & _ & [= <-]). apply hexdigest_unbroken.
Qed.

Lemma stage_inputs_hashes s properties hashes :
  stage_inputs a repo_root build = Ok (s, properties, hashes) → on_one_line (default [] hashes).
Proof using.
  unfold stage_inputs. intros (s1 & _ & H')%bind_Ok. apply bind_Ok in H' as (s2 & _ & H').
  apply bind_Ok in H' as (s3 & _ & H'). apply bind_Ok in H' as (s4 & _ & H').
  apply bind_Ok in H' as ([[s5 p5] h5] & Ha & H'). apply bind_Ok in H' as ([s6 p6] & _ & H').
  apply bind_Ok in H' as (s7 & _ & H'). apply bind_Ok in H' as (s8 & _ & [= -> -> ->]).
  destruct (is_android (a_platform a)); [|injection Ha as _ _ <-; by constructor].
  apply bind_Ok in Ha as ([[s9 p9] h9] & Hh%stage_android_hashes & [= _ _ <-]). exact Hh.
Qed.

(** The files in the order of writing, with the bytes of the last three. *)
Record packaged (s s1 : stage) (mode : Z) (sums : bytes) (s' : stage) : Prop := {
  pk_inputs : inputs_staged a repo_root build s;
  pk_notice : ∃ properties hashes notice data,
    dependency_notice repo_root (a_version a) (a_platform a) (a_source_ref a) properties hashes = Ok notice
    ∧ on_one_line (default [] hashes) ∧ encode_utf8 notice = Some data
    ∧ s1 = s ++ [(u "DEPENDENCY-NOTICE.txt", (0x1A4, data))];
  pk_sums : encode_utf8 (checksum_text (s1 ++ [(MANIFEST, (mode, write_json (JDict
              (manifest (a_version a) (a_platform a) (a_source_ref a) s1))))])) = Some sums;
  pk_stage : s' = s1 ++ [(MANIFEST, (mode, write_json (JDict
              (manifest (a_version a) (a_platform a) (a_source_ref a) s1)))); (SUMS, (0x1A4, sums))];
  pk_names : s'.*1 = all_names (a_platform a);
}.

Lemma update_one {A} (d : dict A) k v : k ∉ d.*1 → dict_update d [(k, v)] = d ++ [(k, v)].
Proof using. apply dict_set_new. Qed.

Lemma stage_package_packaged s' : inputs_checked → stage_package new_mode a repo_root build = Ok s' →
  ∃ s s1 mode sums, packaged s s1 mode sums s'.
Proof using.
  intros Hin Hs. apply stage_package_Ok in Hs
    as (s & properties & hashes & notice & data & mode & sums' & Hi & Hn & Hd & Hw & Hs').
  pose proof (stage_inputs_hashes _ _ _ Hi) as Hh.
  apply stage_inputs_Ok in Hi; [|apply Hin..].
  pose proof (all_names_distinct _ (ic_platform Hin)) as Hnd. unfold all_names in Hnd.
  rewrite <- (is_names _ _ _ _ Hi) in Hnd.
  assert (∀ n1 n2 n3 : str, NoDup (s.*1 ++ [n1; n2; n3]) → n1 ∉ s.*1 ∧ n2 ∉ s.*1 ++ [n1] ∧ n3 ∉ s.*1 ++ [n1; n2]) as Hnew.
  { intros n1 n2 n3 (_ & Hx & Hr)%NoDup_app. rewrite !NoDup_cons in Hr. rewrite !not_elem_of_app.
    split_and!; try (intros Hin'; apply (Hx _ Hin'); set_solver); set_solver. }
  destruct (Hnew _ _ _ Hnd) as (N1 & N2 & N3).
  rewrite (update_one s) in Hw, Hs' by done.
  rewrite (update_one (s ++ _)) in Hw, Hs' by (rewrite fmap_app; exact N2).
  apply write_checksums_Ok in Hw as (sums & Hsums & _ & Hw).
  rewrite dict_set_new in Hw by (rewrite !fmap_app, <- app_assoc; exact N3).
  exists s, (s ++ [(u "DEPENDENCY-NOTICE.txt", (0x1A4, data))]), mode, sums. split; [done| |done| |].
  - exists properties, hashes, notice, data. by split_and!.
  - rewrite Hw. by rewrite <- app_assoc.
  - rewrite Hw, !fmap_app, (is_names _ _ _ _ Hi). unfold all_names. by rewrite <- !app_assoc.
Qed.

(** ** The audit of the stage *)

Section audit.
Context (s s1 s' : stage) (mode : Z) (sums : bytes) (st : payload_state).
Context (Hin : inputs_checked) (Hpk : packaged s s1 mode sums s').
Context (Hlimit : (4 ≤ limit)%nat) (Hsizes : readable_sizes s1).
Context (Htemplate : (data ← read_bytes (path_join repo_root (u "packaging/DEPENDENCY-NOTICE.txt.in"));
   of_option (ValueError "UnicodeDecodeError") (decode_utf8 data)) = Ok NOTICE_TEMPLATE).
Context (Hholds : holds s' (payloads st)).
Context (Hmodes : is_windows (a_platform a) = false →
   ∀ name, dict_get name (modes st) = (λ f : Z * bytes, Z.land f.1 0xFFF) <$> dict_get name s').

Let the_manifest : dict json := manifest (a_version a) (a_platform a) (a_source_ref a) s1.

Lemma described_stage :
  s1.*1 = staged_names (a_platform a) ++ [u "DEPENDENCY-NOTICE.txt"]
  ∧ tree s1 ∧ Forall printable s1.*1 ∧ MANIFEST ∉ s1.*1 ∧ SUMS ∉ s1.*1.
Proof using Hin Hpk.
  pose proof (platform_names _ (ic_platform Hin)) as Hnames.
  rewrite !andb_true_iff in Hnames. destruct Hnames as [[H1' H2'] H3'].
  assert (s1.*1 = staged_names (a_platform a) ++ [u "DEPENDENCY-NOTICE.txt"]) as Hs1.
  { destruct (pk_notice _ _ _ _ _ Hpk) as (? & ? & ? & ? & _ & _ & _ & Heq).
    by rewrite Heq, fmap_app, (is_names _ _ _ _ (pk_inputs _ _ _ _ _ Hpk)). }
  pose proof (all_names_distinct _ (ic_platform Hin)) as Hnd. unfold all_names in Hnd.
  change [u "DEPENDENCY-NOTICE.txt"; MANIFEST; SUMS] with ([u "DEPENDENCY-NOTICE.txt"] ++ [MANIFEST; SUMS]) in Hnd.
  rewrite app_assoc, <- Hs1 in Hnd. apply NoDup_app in Hnd as (_ & Hx & _).
  split_and!; [done|apply names_tree_spec; by rewrite Hs1| | |].
  - rewrite Hs1. apply Forall_forall. intros name Hname. unfold names_listable in H3'.
    rewrite forallb_elem in H3'. assert (name ∈ described_names (a_platform a)) as Hd.
    { unfold described_names. apply elem_of_app. apply elem_of_app in Hname as [?|Hname%list_elem_of_singleton]; [by left|].
      subst. right. left. }
    apply H3' in Hd. apply orb_true_iff in Hd as [Hd|Hd].
    + apply bool_decide_eq_true in Hd as ->. by apply printableb_spec.
    + apply andb_true_iff in Hd as [_ Hd]. by apply printableb_spec.
  - intros Hm. apply (Hx _ Hm). left.
  - intros Hm. apply (Hx _ Hm). right. left.
Qed.

Lemma completed_stage : completed (a_version a) (a_platform a) (a_source_ref a) s1 mode (0x1A4, sums) = s'.
Proof using Hin Hpk.
  destruct described_stage as (_ & _ & _ & Hm & Hs). rewrite (pk_stage _ _ _ _ _ Hpk).
  unfold completed. change [?x; ?y] with ([x] ++ [y]). rewrite dict_update_app, (update_one s1) by done.
  rewrite update_one; [by rewrite <- app_assoc|]. rewrite fmap_app, not_elem_of_app.
  split; [done|]. by apply (bool_decide_eq_false_1 (SUMS ∈ [MANIFEST])).
Qed.

Lemma package_manifest : manifest_of limit (payloads st) (a_platform a) (norm_members the_manifest).
Proof using Hin Hpk Hlimit Hsizes Hholds.
  destruct described_stage as (_ & Htree & Hprint & Hm & Hs).
  apply (manifest_read_back _ _ _ _ _ mode (0x1A4, sums)); try done; try apply Hin.
  by rewrite completed_stage.
Qed.

(** A staged file is in the payloads, with its mode. *)
Lemma staged_file name f : dict_get name s = Some f →
  dict_get name s' = Some f ∧ dict_get name (payloads st) = Some f.2.
Proof using Hpk Hin Hholds.
  intros Hf. rewrite Hholds. enough (dict_get name s' = Some f) as -> by done.
  apply dict_get_elem.
  - rewrite (pk_names _ _ _ _ _ Hpk). apply all_names_distinct, Hin.
  - rewrite (pk_stage _ _ _ _ _ Hpk). apply elem_of_app. left.
    destruct (pk_notice _ _ _ _ _ Hpk) as (? & ? & ? & ? & _ & _ & _ & Heq).
    rewrite Heq. apply elem_of_app. left. by apply dict_get_Some_elem.
Qed.

Lemma package_members : expected_members (a_platform a) = Ok (dict_keys (payloads st)).
Proof using Hpk Hin Hholds.
  rewrite expected_all_names by apply Hin. rewrite (holds_keys s') by done. unfold dict_keys.
  by rewrite (pk_names _ _ _ _ _ Hpk).
Qed.

Lemma package_executable : Forall (executable (modes st) (a_platform a)) (program_names (a_platform a)).
Proof using Hpk Hin Hholds Hmodes.
  apply Forall_forall. intros name Hname. unfold executable.
  destruct (is_windows (a_platform a)) eqn:Hw; [by left|right].
  destruct (is_programs _ _ _ _ (pk_inputs _ _ _ _ _ Hpk) name Hname) as (f & g & Hf & _ & Hc & _).
  rewrite Hw in Hc. destruct Hc as (m & data & _ & ->).
  destruct (staged_file _ _ Hf) as [Hf' _]. rewrite (Hmodes eq_refl), Hf'. by eexists.
Qed.

Lemma package_pinned :
  has_digest (payloads st) (u "firmware/isdbt_rio.inp") FIRMWARE_SHA256
  ∧ has_digest (payloads st) (u "LICENCE.siano") FIRMWARE_LICENSE_SHA256.
Proof using Hpk Hin Hholds.
  destruct (pk_inputs _ _ _ _ _ Hpk) as [_ (f & Hf & Hc) (g & Hg & Hd) _].
  apply copied_sha256 in Hc, Hd. rewrite (ic_license Hin) in Hc. rewrite (ic_firmware Hin) in Hd.
  destruct (staged_file _ _ Hf) as [_ Hf']. destruct (staged_file _ _ Hg) as [_ Hg'].
  unfold has_digest. rewrite Hf', Hg'. cbn. split; congruence.
Qed.

Lemma check_program_Ok name : check_program limit a build name = Ok tt →
  ∃ data evidence digest,
    read_bytes (path_join build (binary_evidence_name name)) = Ok data
    ∧ parse_json limit data = Ok evidence ∧ sha256 (path_join build name) = Ok digest
    ∧ py_eq evidence (JDict [(u "schema", JInt 2); (u "platform", JStr (a_platform a));
        (u "source_ref", JStr (a_source_ref a));
        (u "binary", strings [(u "name", name); (u "sha256", digest)])]) = true.
Proof using.
  unfold check_program. rewrite !fail_if_then. intros (_ & _ & (data & Hd & H')%bind_Ok).
  apply bind_Ok in H' as (evidence & He & H'). apply bind_Ok in H' as (digest & Hg & H').
  apply fail_if_Ok, negb_false_iff in H'. by exists data, evidence, digest.
Qed.

Lemma package_evidence :
  Forall (evidence_binds limit (payloads st) (norm_members the_manifest)) (program_names (a_platform a)).
Proof using Hpk Hin Hholds.
  apply Forall_forall. intros name Hname.
  destruct (is_programs _ _ _ _ (pk_inputs _ _ _ _ _ Hpk) name Hname) as (f & g & Hf & Hg & Hcf & Hcg).
  pose proof (ic_programs Hin) as Hall. rewrite Forall_forall in Hall.
  destruct (check_program_Ok _ (Hall _ Hname)) as (data & evidence & digest & Hd & He & Hdig & Heq).
  rewrite (copied_sha256 _ _ _ Hcf) in Hdig. injection Hdig as <-.
  destruct Hcg as (m & data' & Hnode & ->). unfold read_bytes in Hd. rewrite Hnode in Hd.
  injection Hd as ->. destruct (staged_file _ _ Hf) as [_ Hf']. destruct (staged_file _ _ Hg) as [_ Hg'].
  pose proof (manifest_members (a_version a) (a_platform a) (a_source_ref a) s1 (ic_platform Hin))
    as (_ & _ & K3 & K4 & _).
  exists (JStr (a_platform a)), (JStr (a_source_ref a)), f.2, evidence.
  unfold the_manifest. rewrite !dict_get_norm, K3, K4 by (apply manifest_distinct, Hin).
  rewrite Hg'. by split_and!.
Qed.

Lemma package_checksums : ∃ data text listed, dict_get SUMS (payloads st) = Some data
  ∧ decode_ascii data = Some text ∧ checksums_of (payloads st) text listed.
Proof using Hpk Hin Hholds.
  apply (verify_checksums_Ok (payloads st) tt).
  destruct described_stage as (Hs1 & _ & _ & Hm & Hs).
  pose proof (platform_names _ (ic_platform Hin)) as Hnames.
  rewrite !andb_true_iff in Hnames. destruct Hnames as [[_ Htree] Hlist].
  set (s2 := s1 ++ [(MANIFEST, (mode, write_json (JDict the_manifest)))]).
  assert (s2.*1 = described_names (a_platform a)) as Hs2.
  { unfold s2. rewrite fmap_app, Hs1. unfold described_names. by rewrite <- app_assoc. }
  rewrite <- Hs2 in Htree, Hlist.
  apply (verify_written s2 sums); [by apply names_tree_spec|apply Hpk| |].
  - assert (s' = dict_set SUMS (0x1A4, sums) s2) as <-; [|done].
    rewrite dict_set_new; [rewrite (pk_stage _ _ _ _ _ Hpk); unfold s2; by rewrite <- app_assoc|].
    unfold s2. rewrite fmap_app, not_elem_of_app. split; [done|].
    by apply (bool_decide_eq_false_1 (SUMS ∈ [MANIFEST])).
  - intros name Hname Hne. unfold names_listable in Hlist. rewrite forallb_elem in Hlist.
    specialize (Hlist _ Hname). rewrite orb_true_iff, andb_true_iff, !bool_decide_eq_true in Hlist.
    destruct Hlist as [?|[Hl _]]; [done|exact Hl].
Qed.

Lemma package_notice : ∃ fields,
  (data ← item (payloads st) (u "DEPENDENCY-NOTICE.txt"); notice_fields data) = Ok fields
  ∧ notice_accepted (a_version a) (a_platform a) fields.
Proof using Hpk Hin Hholds Htemplate.
  destruct (pk_notice _ _ _ _ _ Hpk) as (properties & hashes & notice & data & Hn & Hh & Hd & Heq).
  destruct (notice_read_back _ _ _ _ _ _ _ _ (ic_version Hin) (ic_platform Hin) (ic_source Hin)
    Hh Htemplate Hn Hd) as (fields & Hf & Hacc).
  exists fields. split; [|done]. apply bind_Ok. exists data. split; [|done]. apply item_Ok.
  rewrite Hholds. enough (dict_get (u "DEPENDENCY-NOTICE.txt") s' = Some (0x1A4, data)) as -> by done.
  apply dict_get_elem; [rewrite (pk_names _ _ _ _ _ Hpk); apply all_names_distinct, Hin|].
  rewrite (pk_stage _ _ _ _ _ Hpk), Heq. rewrite !elem_of_app. left. right. left.
Qed.

Lemma archive_name_characters version platform : 47%N ∉ version → platform ∈ PLATFORMS →
  47%N ∉ archive_name version platform ∧ archive_name version platform ≠ [] ∧ archive_name version platform ≠ u ".".
Proof using.
  intros Hv Hp. split_and!; [|done|done].
  assert (bool_decide (47%N ∉ archive_name [] platform) = true) as Hb.
  { revert platform Hp. apply Forall_forall.
    repeat (apply Forall_cons_2; [vm_compute; reflexivity|]). apply Forall_nil_2. }
  apply bool_decide_eq_true in Hb. unfold archive_name in *. rewrite !not_elem_of_app in *.
  destruct Hb as (? & _ & ?). done.
Qed.

Lemma version_no_slash version : fullmatch VERSION_RE version = true → 47%N ∉ version.
Proof using.
  intros Hv%fullmatch_spec Hin'.
  assert (Forall (λ c, is_digit c = true ∨ c = 46%N) version) as Hc.
  { apply (lang_chars _ _ _ Hv). unfold VERSION_RE. change (u ".") with [46%N]. cbn -[N.eqb].
    assert (∀ c, (46 =? c)%N = true → is_digit c = true ∨ c = 46%N) by (intros c <-%N.eqb_eq; by right).
    tauto. }
  rewrite Forall_forall in Hc. by destruct (Hc _ Hin').
Qed.

(** The checks of the audit that depend on the programs and on the build. *)
Definition build_checks : Prop :=
  verify_linux_mdev_modes (modes st) (a_platform a) = Ok tt
  ∧ ∃ fields, (data ← item (payloads st) (u "DEPENDENCY-NOTICE.txt"); notice_fields data) = Ok fields
      ∧ platform_checks script_root temporary st fields (a_version a) (a_platform a).

Lemma package_released :
  build_checks ↔ ∃ manifest, released limit script_root temporary output (a_platform a) st manifest.
Proof using All.
  split.
  - intros (Hmdev & fields & Hf & Hplat). exists (norm_members the_manifest).
    destruct package_pinned as [Hfw Hlic]. destruct package_notice as (fields' & Hf' & Hff & Hsa & _).
    assert (fields' = fields) as -> by congruence.
    constructor; [apply package_members|apply package_manifest|apply package_executable|exact Hmdev
      |exact Hfw|exact Hlic| |apply package_evidence|apply package_checksums].
    + exists (a_version a), fields.
      pose proof (manifest_members (a_version a) (a_platform a) (a_source_ref a) s1 (ic_platform Hin))
        as (_ & K2 & _).
      split_and!; [| |exact Hf|exact Hff|exact Hsa|exact Hplat].
      * unfold the_manifest. by rewrite dict_get_norm, K2 by (apply manifest_distinct, Hin).
      * rewrite (ic_output Hin). apply path_name_join; apply archive_name_characters;
          (apply version_no_slash, Hin || apply Hin).
  - intros (manifest & Hrel). split; [exact (rl_mdev _ _ _ _ _ _ _ Hrel)|].
    pose proof (rl_manifest _ _ _ _ _ _ _ Hrel) as Hm.
    destruct (rl_fields _ _ _ _ _ _ _ Hrel) as (version & fields & Hv & _ & Hf & _ & _ & Hplat).
    exists fields. split; [done|].
    pose proof (mf_text _ _ _ _ Hm) as Ht. pose proof (mf_text _ _ _ _ package_manifest) as Ht'.
    rewrite Ht in Ht'. injection Ht' as ->. unfold the_manifest in Hv.
    pose proof (manifest_members (a_version a) (a_platform a) (a_source_ref a) s1 (ic_platform Hin))
      as (_ & K2 & _).
    rewrite dict_get_norm, K2 in Hv by (apply manifest_distinct, Hin). injection Hv as <-. done.
Qed.
End audit.

(** What reading back a package gives: its files, and their modes but on Windows, where the
    modes of programs do not matter. *)
Definition reads_back (s' : stage) (st : payload_state) : Prop :=
  holds s' (payloads st) ∧
  (is_windows (a_platform a) = false →
   ∀ name, dict_get name (modes st) = (λ f : Z * bytes, Z.land f.1 0xFFF) <$> dict_get name s').

Lemma main_Ok s' printed :
  check_inputs limit a = Ok (repo_root, build, output) → stage_package new_mode a repo_root build = Ok s' →
  let archive := write_archive (a_platform a) s' in
  main limit script_root temporary new_mode a = (Some (output, archive), Ok printed) ↔
  printed = output ++ [10%N]
  ∧ ∃ r, audit_binary_archive limit script_root temporary output (Some archive) (a_platform a) = Ok r.
Proof using.
  intros Hc Hs archive. unfold main. rewrite Hc. cbn [mbind res_bind fst snd]. rewrite Hs.
  cbn [mbind res_bind]. fold archive. split.
  - intros [= H']. apply bind_Ok in H' as (r & Hr & [= <-]). split; [done|by exists r].
  - intros (-> & r & Hr). rewrite Hr. done.
Qed.
End package.
