(* ===== verification/PackageMain.v ===== *)
(** * The packager as a whole

    A run of [package-artifact.py] whose inputs pass the checks leaves its archive in the
    output directory, and ends well exactly when the audit's inspection of the programs and
    of the build does. *)

From S2P Require Import Prelude PyStr PyDict Codec Regex Lines PyFloat Json JsonRound Sha256 PyPath.
From S2P Require Import Provenance Archive ReleaseSamples ReleaseFixture AuditBase AuditBaseProps.
From S2P Require Import AuditText AuditManifest AuditBinary AuditArchive AuditProps EvidenceProps Stage.
From S2P Require Import StageProps Package PackageProps ManifestProps NoticeProps PackageAudit.

Local Open Scope Z_scope.

Section package.
Context `{Unicode} `{Digits} `{Lower} `{Digest} `{Tools} `{Archives} `{Tars}.
Context `{Files} `{Host} `{SourceTars} `{Writers}.
Context (limit : nat) (script_root temporary : str) (new_mode : Z).

(** C22. The members of a package are those the audit expects: for checked inputs, the files
    that are staged for a platform are exactly the members allowed for it. *)
Theorem package_has_expected_members (a : args) (repo_root build output : str) (s : stage)
    (Hcheck : check_inputs limit a = Ok (repo_root, build, output))
    (Hstage : stage_package new_mode a repo_root build = Ok s) :
  expected_members (a_platform a) = Ok (dict_keys s) ∧ NoDup s.*1.
Proof.
  apply check_inputs_Ok in Hcheck.
  destruct (stage_package_packaged _ _ _ _ _ _ _ Hcheck Hstage) as (s0 & s1 & mode & sums & Hpk).
  pose proof (pk_names _ _ _ _ _ _ _ _ Hpk) as Hn. pose proof (ic_platform _ _ _ _ _ Hcheck) as Hp.
  split; [|by rewrite Hn; apply all_names_distinct].
  rewrite expected_all_names by done. unfold dict_keys. by rewrite Hn.
Qed.

End package.

(** ** A sample run *)

Definition sample_hex (data : bytes) : str :=
  if decide (data = b "firmware") then FIRMWARE_SHA256
  else if decide (data = b "license") then FIRMWARE_LICENSE_SHA256
  else if decide (data = b "libusb") then LIBUSB_SOURCE_SHA256 else length_hex data.
Lemma sample_hex_ok data : hex64 (sample_hex data) = true.
Proof. unfold sample_hex. repeat case_decide; [by vm_compute..|apply length_hex_ok]. Qed.
Definition sample_digest : Digest := {| hexdigest := sample_hex; hexdigest_hex := sample_hex_ok |}.

#[local] Existing Instances ascii_unicode sample_digits sample_lower sample_digest.

Definition sample_args : args := {|
  a_platform := u "darwin-arm64"; a_version := u "1.2.3"; a_source_ref := sample_ref;
  a_build_dir := u "/build"; a_output_dir := u "/out"; a_firmware := u "/rio.inp";
  a_libusb := Some (u "/libusb-1.0.30.tar.bz2"); a_windows_package := None; a_repo_root := u "/repo"
|}.

Definition sample_file (name : str) : option (Z * bytes) :=
  if decide (name = u "/rio.inp") then Some (0x81A4, b "firmware")
  else if decide (name = u "/libusb-1.0.30.tar.bz2") then Some (0x81A4, b "libusb")
  else if decide (name = u "/repo/VERSION") then Some (0x81A4, b "1.2.3" ++ [x0a])
  else if decide (name = u "/repo/LICENCE.siano") then Some (0x81A4, b "license")
  else if decide (name = u "/repo/packaging/DEPENDENCY-NOTICE.txt.in")
  then Some (0x81A4, nb <$> NOTICE_TEMPLATE)
  else if starts_with (u "/repo/cmake/") name then Some (0x81A4, nb <$> sample_ref)
  else if decide (name = u "/build/evidence/build.properties") then Some (0x81A4, b "libc=darwin")
  else if starts_with (u "/build/evidence/") name then
    let program := if ends_with (u "sianod-binary-audit.json") name then u "sianod"
                   else if ends_with (u "sianoctl-binary-audit.json") name then u "sianoctl"
                   else u "siano-ts" in
    Some (0x81A4, write_json (audit_evidence (u "darwin-arm64") sample_ref program (b "program")))
  else if starts_with (u "/build/") name then Some (0x81A4, b "program")
  else if starts_with (u "/repo/") name then Some (0x81A4, b "text")
  else None.

Definition sample_files : Files := {| node_at name := Node false (sample_file name) |}.
Definition sample_host : Host := {| exists_at _ := false; make_dirs _ := Ok tt |}.
Definition sample_tools : Tools := {|
  which _ := None; getenv _ := None; resolve path := path; exec _ _ _ := Err (OSError "no tool") |}.
Definition copying_info : tree_info := TreeInfo
  (TarInfo (u "libusb-1.0.30/COPYING") 0x1A4 4 true false
     (Ok (Some (Stream (b "LGPL") None)))) false false.
Definition sample_sources : SourceTars := {|
  bz_members _ := Ok [copying_info]; plain_members _ := Ok [] |}.
Definition sample_writers : Writers := {| tar_gz _ := b "archive"; zip _ := b "archive" |}.
#[local] Existing Instances sample_files sample_host sample_tools sample_sources sample_writers.

Definition sample_package : stage :=
  match stage_package 0x1A4 sample_args (u "/repo") (u "/build") with Ok s => s | Err _ => [] end.

(** The reader gives the members back. *)
Definition sample_infos : list tar_info :=
  (λ f : str * (Z * bytes),
     TarInfo f.1 (Z.land f.2.1 0xFFF) (lenZ f.2.2) true false (Ok (Some (Stream f.2.2 None))))
  <$> sorted_files sample_package.
Definition sample_archives : Archives := {| zip_open _ := Ok []; tar_open _ := ([], None) |}.
Definition sample_tars : Tars := {| tar_members _ := Ok sample_infos |}.
#[local] Existing Instances sample_archives sample_tars.

Definition sample_payloads : payload_state :=
  PayloadState (contents (sorted_files sample_package))
    ((λ f : str * (Z * bytes), (f.1, Z.land f.2.1 0xFFF)) <$> sorted_files sample_package).
Definition sample_output : str := u "/out/siano-ts-1.2.3-darwin-arm64.tar.gz".

Lemma sample_checked : check_inputs 4 sample_args = Ok (u "/repo", u "/build", sample_output).
Proof. vm_compute. reflexivity. Qed.

Lemma sample_staged : stage_package 0x1A4 sample_args (u "/repo") (u "/build") = Ok sample_package.
Proof. vm_compute. reflexivity. Qed.

Lemma sample_read :
  archive_payloads sample_output (Some (write_archive (a_platform sample_args) sample_package))
  = Ok sample_payloads.
Proof. vm_compute. reflexivity. Qed.

Lemma dict_get_modes (s : stage) name :
  dict_get name ((λ f : str * (Z * bytes), (f.1, Z.land f.2.1 0xFFF)) <$> s)
  = (λ f : Z * bytes, Z.land f.1 0xFFF) <$> dict_get name s.
Proof.
  induction s as [|[n f] s IH]; [done|]. rewrite fmap_cons. cbn. by destruct (decide (n = name)).
Qed.

Lemma sample_reads_back : reads_back sample_args sample_package sample_payloads.
Proof.
  assert (NoDup sample_package.*1) as Hnd
    by (apply (bool_decide_eq_true_1 (NoDup sample_package.*1)); vm_compute; reflexivity).
  assert (∀ name, dict_get name (sorted_files sample_package) = dict_get name sample_package) as Hget.
  { intros name. apply dict_get_perm; [|apply sorted_files_perm]. by rewrite sorted_files_perm. }
  split.
  - intros name. rewrite <- Hget. apply contents_holds.
  - intros _ name. rewrite <- Hget. apply dict_get_modes.
Qed.


Lemma package_has_expected_members_witness :
  expected_members (u "darwin-arm64") = Ok (dict_keys sample_package) ∧ NoDup sample_package.*1.
Proof.
  exact (package_has_expected_members 4 0x1A4 sample_args (u "/repo") (u "/build")
    sample_output sample_package sample_checked sample_staged).
Defined.
