(* ===== verification/SourcePackage.v ===== *)
(** * Packaging the corresponding source: [scripts/package-source.py]

    The snapshots that [git archive] makes of the repository and of its two dependencies are
    checked and collected in a [stage], described and written as one archive that is
    audited.  [--prepare-dependencies] is in [SourceCheckout]; [--self-test] is not modelled. *)

From S2P Require Import Prelude PyStr PyDict Codec Regex PyRe PyFloat Json Sha256 PyPath Provenance.
From S2P Require Import Archive AuditBase AuditText AuditManifest AuditBinary AuditArchive Stage Package.

Local Open Scope Z_scope.

(** [git -C root arguments]: what it prints, and the tar file that [git archive] writes for a
    commit.  A command that fails or cannot start raises [OSError] (here also
    [CalledProcessError]). *)
Class SourceGit := {
  git_print : str → list str → res bytes;
  git_archive : str → str → res bytes;
}.

(** The file of a member below [directory]: the normalised path of the member. *)
Definition member_path (directory name : str) : str := join [47%N] (path_names (directory ++ u "/" ++ name)).

Definition is_absolute (name : str) : bool := starts_with (u "/") name.
Definition climbs (name : str) : bool := bool_decide (u ".." ∈ path_parts name).

(** ** libusb *)

Definition verify_libusb_members (members : list tree_info) : res unit :=
  fold_res libusb_member [] members ;;
  fail_if (negb (existsb (λ m, bool_decide (ti_name (te_info m) = libusb_directory ++ u "/COPYING")) members))
    "libusb source archive has no COPYING".

Section source.
Context `{Unicode} `{Digits} `{Lower} `{Digest} `{Tools} `{Archives} `{Tars}.
Context `{Files} `{Host} `{SourceTars} `{Writers} `{SourceGit}.
Context (limit : nat) (new_mode : Z).

Definition run_git (root : str) (arguments : list str) : res bytes :=
  try_except (git_print root arguments)
    (λ e, match e with OSError _ => fail "git command failed" | _ => Err e end).
Definition run_git_archive (root commit : str) : res bytes :=
  try_except (git_archive root commit)
    (λ e, match e with OSError _ => fail "git command failed" | _ => Err e end).

(** [str(run_git(...)).strip()]. *)
Definition git_line (root : str) (arguments : list str) : res str :=
  data ← run_git root arguments;
  text ← of_option (ValueError "UnicodeDecodeError") (decode_utf8 data);
  Ok (strip text).

Definition rev_parse (root revision kind : str) : res str :=
  git_line root [u "rev-parse"; u "--verify"; revision ++ u "^{" ++ kind ++ u "}"].

(** A member of the repository's snapshot. *)
Definition repository_member (s : stage) (m : tree_info) : res stage :=
  let name := ti_name (te_info m) in
  fail_if (is_absolute name || climbs name) "unsafe source tree member" ;;
  fail_if (te_islink m || negb (ti_isfile (te_info m) || te_isdir m))
    "source tree contains non-regular member" ;;
  fail_if (ti_isfile (te_info m) && searches SOURCE_FORBIDDEN name) "forbidden source tree member" ;;
  if negb (ti_isfile (te_info m)) then Ok s else
  o ← ti_extract (te_info m);
  st ← of_option (AuditError "cannot read source tree member") o;
  data ← read_all st;
  put s (member_path (u "repository") name) (S_IMODE (ti_mode (te_info m))) data.

Definition snapshot_error {A} (e : exn) : res A :=
  match e with OSError _ => fail "cannot inspect Git source snapshot" | _ => Err e end.

(** [snapshot_repository]: the stage, the commit and its tree. *)
Definition snapshot_repository (root source_ref : str) (s : stage) : res (stage * str * str) :=
  commit ← rev_parse root source_ref (u "commit");
  tree ← rev_parse root commit (u "tree");
  version_data ← run_git root [u "show"; commit ++ u ":VERSION"];
  fail_if (negb (bool_decide (last version_data = Some x0a)))
    "VERSION at --source-ref must end with one newline" ;;
  of_option (AuditError "VERSION at --source-ref is not ASCII") (decode_ascii version_data) ;;
  tar ← run_git_archive root commit;
  s ← try_except (members ← plain_members tar; fold_res repository_member s members) snapshot_error;
  Ok (s, commit, tree).

(** A member of a dependency's snapshot. *)
Definition dependency_member (name : str) (s : stage) (m : tree_info) : res stage :=
  let path := ti_name (te_info m) in
  let destination_name := u "third_party/" ++ name ++ u "/" ++ path_str path in
  fail_if (is_absolute path || climbs path || negb (ti_isfile (te_info m) || te_isdir m))
    "unsafe dependency source member" ;;
  if negb (ti_isfile (te_info m)) then Ok s else
  fail_if (forbidden_source_member destination_name) "forbidden dependency source member" ;;
  o ← ti_extract (te_info m);
  st ← of_option (AuditError "cannot read dependency member") o;
  data ← read_all st;
  put s (join [47%N] (path_names destination_name)) (S_IMODE (ti_mode (te_info m))) data.

Definition snapshot_dependency (root revision : str) (s : stage) (name : str) : res (stage * str * str) :=
  fail_if (negb (hex40 revision)) "invalid dependency revision" ;;
  commit ← rev_parse root revision (u "commit");
  fail_if (negb (bool_decide (commit = revision))) "dependency did not resolve to the pinned commit" ;;
  tree ← rev_parse root commit (u "tree");
  tar ← run_git_archive root commit;
  members ← plain_members tar;
  s ← fold_res (dependency_member name) s members;
  Ok (s, commit, tree).

(** [verify_libusb_archive(path)]. *)
Definition verify_libusb_archive (path : str) : res unit :=
  fail_if (negb (bool_decide (path_name path = libusb_tarball))) "libusb source is not the pinned archive" ;;
  digest ← sha256 path;
  fail_if (negb (bool_decide (digest = LIBUSB_SOURCE_SHA256))) "libusb source is not the pinned archive" ;;
  try_except (data ← read_bytes path; members ← bz_members data; verify_libusb_members members)
    (λ e, match e with OSError _ => fail "cannot inspect libusb source archive" | _ => Err e end).

(** ** The command *)

Record args := Args {
  a_version : option str;
  a_source_ref : option str;
  a_source_root : option str;
  a_libusb : option str;
  a_output_dir : option str;
  a_core_root : option str;
  a_px4_root : option str;
}.

(** A staged file copied to another name. *)
Definition copy_staged (s : stage) (source name : str) : res stage :=
  '(mode, data) ← of_option (AuditError "source input must be an ordinary file") (dict_get source s);
  put s name mode data.

(** One dependency: its name, its pin in the staged repository and its source directory. *)
Definition stage_dependency (root : str) (acc : stage * dict (str * str)) (dependency : str * option str)
    : res (stage * dict (str * str)) :=
  let '(s, found) := acc in
  let '(name, source) := dependency in
  pin ← of_option (OSError "cannot open") (dict_get (u "repository/cmake/" ++ name ++ u ".revision") s);
  text ← read_text_ascii pin.2;
  let dependency_root := default (path_join root (u "third_party/" ++ name)) source in
  '(s, commit, tree) ← snapshot_dependency dependency_root (strip text) s name;
  Ok (s, dict_set name (commit, tree) found).

Definition source_notice_lines (source_ref commit tree : str) : dict str :=
  [(u "source.ref", source_ref); (u "source.resolved_commit", commit); (u "source.tree", tree);
   (u "dependency.libusb.version", LIBUSB_VERSION);
   (u "dependency.libusb.license", u "LGPL-2.1-or-later");
   (u "corresponding-source", u "third_party/" ++ libusb_tarball);
   (u "corresponding-source.sha256", LIBUSB_SOURCE_SHA256);
   (u "libusb.source.url", LIBUSB_SOURCE_URL);
   (u "firmware.url", FIRMWARE_URL); (u "firmware.sha256", FIRMWARE_SHA256);
   (u "firmware.license.url", FIRMWARE_LICENSE_URL);
   (u "firmware.license.sha256", FIRMWARE_LICENSE_SHA256);
   (u "firmware", u "excluded-from-source-archive");
   (u "vendor-blobs", u "excluded-from-source-archive")].

Definition dependency_lines (dependencies : dict (str * str)) : dict str :=
  [(u "dependency.dtv-userland-core.license", u "MIT-and-GPL-2.0-only-adapters");
   (u "dependency.px4-userland.license", u "GPL-2.0-only")]
  ++ concat ((λ d : str * (str * str),
       [(u "dependency." ++ d.1 ++ u ".commit", d.2.1); (u "dependency." ++ d.1 ++ u ".tree", d.2.2);
        (u "dependency." ++ d.1 ++ u ".source", u "third_party/" ++ d.1 ++ u "/")]) <$> dependencies).

(** The lines of a notice, each ended by a newline. *)
Definition notice_of (fields : dict str) : str :=
  concat ((λ field, line_of field ++ [10%N]) <$> fields).

Definition source_manifest (version source_ref commit tree : str) (dependencies : dict (str * str))
    (s : stage) : dict json :=
  [(u "schema", JInt 1); (u "version", JStr version); (u "source_ref", JStr source_ref);
   (u "dependencies", JDict ((λ d : str * (str * str),
      (d.1, strings [(u "commit", d.2.1); (u "tree", d.2.2)])) <$> dependencies));
   (u "resolved_commit", JStr commit); (u "tree", JStr tree);
   (u "libusb_version", JStr LIBUSB_VERSION); (u "libusb_source_url", JStr LIBUSB_SOURCE_URL);
   (u "libusb_source_sha256", JStr LIBUSB_SOURCE_SHA256);
   (u "libusb_license", JStr (u "LGPL-2.1-or-later")); (u "linux_linkage", JStr (u "static"));
   (u "linux_libusb_backend", JStr (u "netlink")); (u "darwin_linkage", JStr (u "static"));
   (u "darwin_libusb_backend", JStr (u "darwin"));
   (u "firmware_url", JStr FIRMWARE_URL); (u "firmware_sha256", JStr FIRMWARE_SHA256);
   (u "firmware_license_url", JStr FIRMWARE_LICENSE_URL);
   (u "firmware_license_sha256", JStr FIRMWARE_LICENSE_SHA256); (u "files", JDict (file_records s))].

(** What the stage of a source archive is made for. *)
Record source_inputs := SourceInputs {
  i_version : str; i_source_ref : str; i_root : str; i_libusb : str; i_output : str;
  i_core_root : option str; i_px4_root : option str;
}.

(** [all((...))]: an option is missing or an empty string. *)
Definition check_options (a : args) : res (str * str * str * str * str) :=
  match a_version a, a_source_ref a, a_source_root a, a_libusb a, a_output_dir a with
  | Some (c :: version), Some (d :: source_ref), Some root, Some libusb, Some output =>
      fail_if (negb (fullmatch VERSION_RE (c :: version))) "version must be strict N.N.N" ;;
      Ok (c :: version, d :: source_ref, resolve root, libusb, output)
  | _, _, _, _, _ => Err (SystemExit 2 "normal mode requires --version, --source-ref, --source-root")
  end.

Definition check_inputs (a : args) : res source_inputs :=
  '(version, source_ref, root, libusb, output_dir) ← check_options a;
  make_dirs output_dir ;;
  let output := path_join (resolve output_dir) (source_archive version) in
  fail_if (exists_at output || is_symlink output) "refusing to overwrite existing archive" ;;
  let libusb := resolve libusb in
  verify_libusb_archive libusb ;;
  Ok (SourceInputs version source_ref root libusb output (a_core_root a) (a_px4_root a)).

(** The snapshots, the documents and libusb. *)
Definition stage_snapshots (i : source_inputs) : res (stage * str * str * dict (str * str)) :=
  '(s, commit, tree) ← snapshot_repository (i_root i) (i_source_ref i) [];
  '(s, dependencies) ← fold_res (stage_dependency (i_root i)) (s, [])
    [(u "dtv-userland-core", i_core_root i); (u "px4-userland", i_px4_root i)];
  version_file ← of_option (OSError "cannot open") (dict_get (u "repository/VERSION") s);
  fail_if (negb (bool_decide (Some version_file.2 = encode_ascii (i_version i ++ [10%N]))))
    "--version does not match VERSION at --source-ref" ;;
  s ← fold_res (λ s name, copy_staged s (u "repository/" ++ name) name) s
        [u "COPYING"; u "LICENCE.siano"; u "README.md"];
  s ← copy_staged s (u "repository/packaging/REBUILD.md") (u "BUILD-RELINK.md");
  license ← of_option (OSError "cannot open") (dict_get (u "LICENCE.siano") s);
  fail_if (negb (bool_decide (hexdigest license.2 = FIRMWARE_LICENSE_SHA256)))
    "repository LICENCE.siano does not match the pinned firmware license" ;;
  s ← copy_regular s (i_libusb i) (u "third_party/" ++ libusb_tarball) None;
  Ok (s, commit, tree, dependencies).

(** The notice is written twice, the second time with the dependencies. *)
Definition stage_source (i : source_inputs) : res stage :=
  '(s, commit, tree, dependencies) ← stage_snapshots i;
  let fields := source_notice_lines (i_source_ref i) commit tree in
  s ← write_text s (u "DEPENDENCY-NOTICE.txt") (notice_of fields);
  s ← write_text s (u "DEPENDENCY-NOTICE.txt") (notice_of (fields ++ dependency_lines dependencies));
  s ← write_manifest new_mode s SOURCE_MANIFEST
        (source_manifest (i_version i) (i_source_ref i) commit tree dependencies s);
  write_checksums s.

(** [main]: the archive left in the output directory and the printed path. *)
Definition main (a : args) : option (str * bytes) * res str :=
  match (i ← check_inputs a; s ← stage_source i; Ok (i_output i, write_deterministic_tar s)) with
  | Err e => (None, Err e)
  | Ok (output, data) =>
      (Some (output, data), audit_source_archive limit output (Some data) ;; Ok (output ++ [10%N]))
  end.
End source.
