(* ===== verification/Strip.v ===== *)
(** * White space and line ends: [str.strip] and text mode

    A text whose stripped form has no line end has the same stripped form before its line
    ends are translated. *)

From S2P Require Import Prelude PyStr Codec Stage.

Local Open Scope N_scope.

Definition blanks (s : str) : Prop := Forall (λ c, is_space c = true) s.

Lemma lstrip_split s : ∃ w, s = w ++ lstrip s ∧ blanks w.
Proof.
  induction s as [|c s (w & Hs & Hw)]; [by exists []; split; [|constructor]|]. cbn.
  destruct (is_space c) eqn:Hc.
  - exists (c :: w). split; [cbn; by f_equal|by constructor].
  - exists []. by split; [|constructor].
Qed.

Lemma strip_split s : ∃ w1 w2, s = w1 ++ strip s ++ w2 ∧ blanks w1 ∧ blanks w2.
Proof.
  destruct (lstrip_split s) as (w1 & H1 & Hw1). destruct (lstrip_split (reverse (lstrip s))) as (w2 & H2 & Hw2).
  exists w1, (reverse w2). split_and!; [|done|by apply Forall_reverse].
  rewrite H1 at 1. f_equal. unfold strip. apply (inj reverse). rewrite reverse_app, !reverse_involutive. exact H2.
Qed.

Lemma lstrip_blanks w s : blanks w → lstrip (w ++ s) = lstrip s.
Proof. induction 1 as [|c w Hc _ IH]; [done|]. cbn. by rewrite Hc. Qed.

Lemma lstrip_word w s : w ≠ [] → Forall (λ c, is_space c = false) w → lstrip (w ++ s) = w ++ s.
Proof. intros Hne Hw. destruct Hw as [|c l Hc _]; [done|]. cbn. by rewrite Hc. Qed.

(** A word between blanks is what is left. *)
Lemma strip_word w1 w w2 : blanks w1 → blanks w2 → w ≠ [] → Forall (λ c, is_space c = false) w →
  strip (w1 ++ w ++ w2) = w.
Proof.
  intros H1 H2 Hne Hw. unfold strip. rewrite lstrip_blanks, lstrip_word by done.
  rewrite reverse_app, lstrip_blanks by by apply Forall_reverse.
  rewrite <- (app_nil_r (reverse w)), lstrip_word, app_nil_r, reverse_involutive; [done| |by apply Forall_reverse].
  intros Hr. apply Hne. by apply (inj reverse).
Qed.

(** ** Text mode *)

Lemma universal_newlines_ind (P : str → Prop) :
  P [] → (∀ s, P s → P (13 :: 10 :: s)) → (∀ s, (∀ t, s ≠ 10 :: t) → P s → P (13 :: s)) →
  (∀ c s, c ≠ 13 → P s → P (c :: s)) → ∀ s, P s.
Proof.
  intros H0 H1 H2 H3 s. induction s as [s IH] using (well_founded_induction (well_founded_ltof _ length)).
  unfold ltof in IH. destruct s as [|c s]; [done|]. destruct (decide (c = 13)) as [->|Hc].
  - destruct s as [|d s]; [by apply H2|]. destruct (decide (d = 10)) as [->|Hd].
    + apply H1, IH. cbn. lia.
    + apply H2; [congruence|]. apply IH. cbn. lia.
  - apply H3; [done|]. apply IH. cbn. lia.
Qed.

Lemma newlines_return s : (∀ t, s ≠ 10 :: t) → universal_newlines (13 :: s) = 10 :: universal_newlines s.
Proof.
  intros Hs. cbn. destruct s as [|d s]; [done|]. destruct (N.eqb_spec d 10) as [->|]; [by destruct (Hs s)|done].
Qed.

Lemma newlines_other c s : c ≠ 13 → universal_newlines (c :: s) = c :: universal_newlines s.
Proof. intros Hc. cbn. by rewrite (proj2 (N.eqb_neq _ _)). Qed.

Lemma newlines_id s : 13 ∉ s → universal_newlines s = s.
Proof.
  induction s as [|c s IH]; [done|]. rewrite not_elem_of_cons. intros [Hc Hs].
  rewrite newlines_other by done. by rewrite IH.
Qed.

(** A character that is no line end comes from the same character. *)
Lemma newlines_char s a c r : c ≠ 10 → universal_newlines s = a ++ c :: r →
  ∃ a' r', s = a' ++ c :: r' ∧ universal_newlines a' = a ∧ universal_newlines r' = r.
Proof.
  intros Hc. revert a. induction s as [|s IH|s Hs IH|d s Hd IH] using universal_newlines_ind; intros a.
  - by destruct a.
  - cbn [universal_newlines]. change (13 =? 13) with true. change (10 =? 10) with true. cbv iota.
    destruct a as [|x a]; [by intros [= <- _]|]. intros [= <- (a' & r' & -> & <- & Hr)%IH]. by exists (13 :: 10 :: a'), r'.
  - rewrite newlines_return by done. destruct a as [|x a]; [by intros [= <- _]|].
    intros [= <- (a' & r' & -> & <- & Hr)%IH]. exists (13 :: a'), r'. split_and!; [done| |done].
    apply newlines_return. intros t ->. by eapply Hs.
  - rewrite newlines_other by done. destruct a as [|x a].
    + intros [= -> Hr]. by exists [], s.
    + intros [= <- (a' & r' & -> & <- & Hr)%IH]. exists (d :: a'), r'. split_and!; [done| |done].
      by apply newlines_other.
Qed.

Lemma newlines_prefix s h r : 10 ∉ h → universal_newlines s = h ++ r →
  ∃ r', s = h ++ r' ∧ universal_newlines r' = r.
Proof.
  revert s. induction h as [|c h IH]; intros s; [by exists s|].
  rewrite not_elem_of_cons. intros [Hc Hh] Hs. destruct (newlines_char s [] c (h ++ r)) as (a & r' & -> & Ha & Hr);
    [done..|]. assert (a = []) as ->.
  { destruct a as [|x a]; [done|]. destruct (decide (x = 13)) as [->|Hx].
    - destruct a as [|y a]; [done|]. cbn in Ha. destruct (y =? 10); discriminate.
    - by rewrite newlines_other in Ha. }
  apply IH in Hr as (r'' & -> & Hr); [|done]. by exists r''.
Qed.

Lemma newlines_blanks s : blanks (universal_newlines s) → blanks s.
Proof.
  induction s as [|s IH|s Hs IH|c s Hc IH] using universal_newlines_ind.
  - done.
  - intros [_ H]%Forall_cons. constructor; [done|]. constructor; [done|]. by apply IH.
  - rewrite newlines_return by done. intros [_ H]%Forall_cons. constructor; [done|]. by apply IH.
  - rewrite newlines_other by done. intros [Hs H]%Forall_cons. constructor; [done|]. by apply IH.
Qed.

(** Stripping sees no difference. *)
Lemma strip_newlines s h : h ≠ [] → Forall (λ c, is_space c = false) h →
  strip (universal_newlines s) = h → strip s = h.
Proof.
  intros Hne Hh Hs. destruct (strip_split (universal_newlines s)) as (w1 & w2 & Hu & H1 & H2). rewrite Hs in Hu.
  assert (10 ∉ h) as Hlf by (intros Hin; rewrite Forall_forall in Hh; by apply Hh in Hin).
  pose proof Hh as Hh'. destruct Hh' as [|c h Hc _]; [done|]. apply not_elem_of_cons in Hlf as [H10 Hlf].
  destruct (newlines_char s w1 c (h ++ w2)) as (a & r & -> & <- & Hr); [done..|].
  apply newlines_prefix in Hr as (r' & -> & <-); [|done].
  change (a ++ c :: h ++ r') with (a ++ (c :: h) ++ r').
  apply strip_word; [by apply newlines_blanks..|done|done].
Qed.
