(* ===== verification/SourceProps.v ===== *)
(** * What a source stage is made of

    The snapshots, documents and libusb that [package-source.py] stages: where every file
    lies, and which contents the later checks can rely on. *)

From S2P Require Import Prelude PyStr PyDict Codec Regex PyRe Lines PyFloat Json Sha256 PyPath Provenance.
From S2P Require Import Archive AuditBase AuditBaseProps AuditText AuditManifest AuditBinary AuditArchive.
From S2P Require Import Strip Stage StageProps Package PackageProps SourcePackage.

Local Open Scope Z_scope.

(** ** Places in the stage *)

(** A component of a relative path. *)
Definition component (w : str) : Prop := w ≠ [] ∧ w ≠ u "." ∧ w ≠ u ".." ∧ 47%N ∉ w.
#[export] Instance component_dec w : Decision (component w).
Proof. unfold component. apply _. Defined.

(** A path at or below a directory. *)
Definition staged_at (directory : list str) (name : str) : Prop :=
  ∃ parts, Forall component parts ∧ name = join [47%N] (directory ++ parts).

Lemma path_names_components s : u ".." ∉ path_names s → Forall component (path_names s).
Proof.
  intros Hdots. apply Forall_forall. intros w Hw. pose proof Hw as [[? ?] Hs]%list_elem_of_filter.
  split_and!; [done|done|by intros ->|by eapply split_on_chars].
Qed.

Lemma path_names_below directory s : directory ≠ [] → Forall component directory →
  path_names (join [47%N] directory ++ u "/" ++ s) = directory ++ path_names s.
Proof.
  intros Hne Hd. unfold path_names. change (u "/" ++ s) with (47%N :: s).
  rewrite split_on_app, filter_app. f_equal. rewrite split_on_join.
  - clear Hne. induction Hd as [|w d [? [? _]] _ IH]; [done|]. by rewrite filter_cons_True, IH.
  - done.
  - eapply Forall_impl; [exact Hd|]. by intros w (_ & _ & _ & ?).
Qed.

(** The components of a staged path. *)
Lemma staged_split directory name : directory ≠ [] → Forall component directory → staged_at directory name →
  ∃ parts, Forall component parts ∧ split_on 47 name = directory ++ parts.
Proof.
  intros Hne Hd (parts & Hp & ->). exists parts. split; [done|]. apply split_on_join.
  - by destruct directory.
  - apply Forall_app. split; (eapply Forall_impl; [eassumption|]); by intros w (_ & _ & _ & ?).
Qed.

(** ** Steps that add files *)

(** [s'] is [s] with files at places [P] added or replaced. *)
Record grows (P : str → Prop) (s s' : stage) : Prop := {
  gr_tree : tree s → tree s';
  gr_kept name : ¬ P name → dict_get name s' = dict_get name s;
  gr_names name : name ∈ s'.*1 → name ∈ s.*1 ∨ P name;
}.

Lemma grows_refl P s : grows P s s.
Proof. split; auto. Qed.

Lemma grows_trans P s s1 s2 : grows P s s1 → grows P s1 s2 → grows P s s2.
Proof.
  intros [T1 K1 N1] [T2 K2 N2]. split; [auto|by intros n Hn; rewrite K2, K1|].
  intros n [Hn|Hn]%N2; [by apply N1|by right].
Qed.

Lemma grows_weaken (P Q : str → Prop) s s' : (∀ name, P name → Q name) → grows P s s' → grows Q s s'.
Proof.
  intros HPQ [T K N]. split; [done| |].
  - intros n Hn. apply K. intros HP. by apply Hn, HPQ.
  - intros n [?|?]%N; [by left|right; auto].
Qed.

#[export] Instance grows_preorder P : PreOrder (grows P).
Proof. split; [exact (grows_refl P)|exact (grows_trans P)]. Qed.

Lemma dict_set_elem {A} k k' v (d : dict A) : k' ∈ (dict_set k v d).*1 → k' ∈ d.*1 ∨ k' = k.
Proof.
  rewrite <- !dict_keys_elem, !elem_of_dict_keys, dict_get_set. case_decide; [by right|by left].
Qed.

Lemma grows_put s name mode data s' : put s name mode data = Ok s' → grows (λ n, n = name) s s'.
Proof.
  intros Hp. split; [by eapply put_tree| |]; apply put_Ok in Hp as [_ ->].
  - intros n Hn. by rewrite dict_get_set, decide_False by congruence.
  - intros n. apply dict_set_elem.
Qed.

Lemma put_get s name mode data s' : put s name mode data = Ok s' → dict_get name s' = Some (mode, data).
Proof. intros [_ ->]%put_Ok. by rewrite dict_get_set, decide_True. Qed.

Lemma grows_get P s s' name f : grows P s s' → ¬ P name → dict_get name s = Some f → dict_get name s' = Some f.
Proof. intros Hg HP Hf. by rewrite (gr_kept _ _ _ Hg). Qed.

Lemma grows_fold {A} (P : str → Prop) (step : stage → A → res stage) s l s' :
  (∀ s x s', x ∈ l → step s x = Ok s' → grows P s s') → fold_res step s l = Ok s' → grows P s s'.
Proof.
  intros Hstep. apply fold_res_ind with (P := λ s', grows P s s'); [apply grows_refl|].
  intros s1 x s2 Hx H1 H2. eapply grows_trans; [done|by eapply Hstep].
Qed.

(** A name that evaluates to another one. *)
Ltac differs := cbv beta;
  match goal with |- ¬ ?P => apply (bool_decide_eq_false_1 P); vm_compute; reflexivity end.

(** ** The snapshots *)

Section source.
Context `{Unicode} `{Digits} `{Lower} `{Digest} `{Tools} `{Archives} `{Tars}.
Context `{Files} `{Host} `{SourceTars} `{Writers} `{SourceGit}.

Definition repository : list str := [u "repository"].
Definition third_party (name : str) : list str := [u "third_party"; name].

Lemma repository_components : Forall component repository.
Proof using. apply (bool_decide_eq_true_1 (Forall component repository)). by vm_compute. Qed.

Lemma third_party_components name : component name → Forall component (third_party name).
Proof using.
  intros Hn. repeat apply Forall_cons_2; [|done|apply Forall_nil_2].
  apply (bool_decide_eq_true_1 (component (u "third_party"))). by vm_compute.
Qed.

Lemma relative_names name : is_absolute name || climbs name = false →
  path_parts name = path_names name ∧ u ".." ∉ path_names name.
Proof using.
  unfold is_absolute, climbs. rewrite orb_false_iff, bool_decide_eq_false. intros [Ha Hc].
  by rewrite path_parts_relative in *.
Qed.

Lemma repository_member_grows s m s' :
  repository_member s m = Ok s' → grows (staged_at repository) s s'.
Proof using.
  unfold repository_member. rewrite !fail_if_then. intros (Hsafe & _ & _ & Hp).
  destruct (negb _); [injection Hp as <-; apply grows_refl|].
  apply bind_Ok in Hp as (o & _ & Hp). apply bind_Ok in Hp as (st & _ & Hp).
  apply bind_Ok in Hp as (data & _ & Hp). eapply grows_weaken; [|by eapply grows_put].
  intros n ->. apply relative_names in Hsafe as [_ Hdots].
  exists (path_names (ti_name (te_info m))). split; [by apply path_names_components|].
  unfold member_path. f_equal.
Qed.

Lemma snapshot_repository_grows root source_ref s s' commit tree :
  snapshot_repository root source_ref s = Ok (s', commit, tree) → grows (staged_at repository) s s'.
Proof using.
  unfold snapshot_repository. intros Hs.
  apply bind_Ok in Hs as (c & _ & Hs). apply bind_Ok in Hs as (t & _ & Hs).
  apply bind_Ok in Hs as (data & _ & Hs). rewrite fail_if_then in Hs. destruct Hs as [_ Hs].
  apply bind_Ok in Hs as (text & _ & Hs). apply bind_Ok in Hs as (tar & _ & Hs).
  apply bind_Ok in Hs as (s1 & Hs1 & [= <- <- <-]). apply try_except_Ok in Hs1; [|by intros []].
  apply bind_Ok in Hs1 as (members & _ & Hf). eapply grows_fold; [|exact Hf].
  intros s2 m s3 _. apply repository_member_grows.
Qed.

(** The places of a dependency, which the audit does not forbid. *)
Definition dependency_place (name n : str) : Prop :=
  staged_at (third_party name) n
  ∧ (n ≠ join [47%N] (third_party name) → forbidden_source_member n = false).

Lemma path_names_join parts : Forall component parts → path_names (join [47%N] parts) = parts.
Proof using.
  intros Hp. destruct (decide (parts = [])) as [->|Hne]; [done|]. unfold path_names. rewrite split_on_join.
  - clear Hne. induction Hp as [|w l (? & ? & _) _ IH]; [done|]. by rewrite filter_cons_True, IH.
  - done.
  - eapply Forall_impl; [exact Hp|]. by intros w (_ & _ & _ & ?).
Qed.

Lemma path_root_relative path : starts_with (u "/") path = false → path_root path = [].
Proof using.
  intros Hr. unfold path_root. rewrite Hr.
  assert (starts_with (u "//") path = false) as ->; [|done].
  apply not_true_iff_false. intros (r & ->)%starts_with_spec. by vm_compute in Hr.
Qed.

Lemma path_str_join path : starts_with (u "/") path = false → path_names path ≠ [] →
  path_str path = join [47%N] (path_names path).
Proof using.
  intros Hr Hne. unfold path_str. rewrite path_root_relative by done. cbn [app].
  destruct (path_names path) as [|w l] eqn:E; [done|].
  assert (w ≠ []) as Hw.
  { assert (w ∈ path_names path) as [[? _] _]%list_elem_of_filter by (rewrite E; left). done. }
  destruct w as [|c w]; [done|]. by destruct l.
Qed.

Lemma path_str_names path : starts_with (u "/") path = false → u ".." ∉ path_names path →
  path_names (path_str path) = path_names path.
Proof using.
  intros Hr Hdots. destruct (decide (path_names path = [])) as [E|Hne].
  - unfold path_str. rewrite path_root_relative, E by done. reflexivity.
  - rewrite path_str_join by done. by apply path_names_join, path_names_components.
Qed.

Lemma dependency_member_grows name s m s' : component name →
  dependency_member name s m = Ok s' → grows (dependency_place name) s s'.
Proof using.
  intros Hname. unfold dependency_member. rewrite fail_if_then. intros [Hsafe Hp].
  destruct (negb (ti_isfile (te_info m))) in Hp; [injection Hp as <-; apply grows_refl|].
  rewrite fail_if_then in Hp. destruct Hp as [Hforb Hp].
  apply bind_Ok in Hp as (o & _ & Hp). apply bind_Ok in Hp as (st & _ & Hp).
  apply bind_Ok in Hp as (data & _ & Hp). eapply grows_weaken; [|by eapply grows_put].
  intros n ->. rewrite orb_false_iff in Hsafe. destruct Hsafe as [Hsafe _].
  pose proof Hsafe as [_ Hdots]%relative_names. unfold is_absolute in Hsafe.
  apply orb_false_iff in Hsafe as [Hrel _].
  assert (path_names (u "third_party/" ++ name ++ u "/" ++ path_str (ti_name (te_info m)))
    = third_party name ++ path_names (ti_name (te_info m))) as Hn.
  { rewrite <- (path_str_names (ti_name (te_info m))) by done. rewrite <- path_names_below; [|done|by apply third_party_components].
    unfold third_party. cbn [join]. by rewrite <- !app_assoc. }
  rewrite Hn. split.
  - exists (path_names (ti_name (te_info m))). split; [by apply path_names_components|done].
  - intros Hne. replace (join _ _) with (u "third_party/" ++ name ++ u "/" ++ path_str (ti_name (te_info m)));
      [done|].
    destruct (path_names (ti_name (te_info m))) as [|w l] eqn:E; [by rewrite app_nil_r in Hne|].
    rewrite path_str_join by (done || by rewrite E). rewrite E. reflexivity.
Qed.

Lemma snapshot_dependency_Ok root revision s name s' commit tree : component name →
  snapshot_dependency root revision s name = Ok (s', commit, tree) →
  grows (dependency_place name) s s' ∧ commit = revision ∧ hex40 revision = true.
Proof using.
  intros Hname. unfold snapshot_dependency. rewrite fail_if_then, negb_false_iff. intros [Hhex Hs].
  apply bind_Ok in Hs as (c & _ & Hs). rewrite fail_if_then, negb_false_iff, bool_decide_eq_true in Hs.
  destruct Hs as [-> Hs]. apply bind_Ok in Hs as (t & _ & Hs). apply bind_Ok in Hs as (tar & _ & Hs).
  apply bind_Ok in Hs as (members & _ & Hs). apply bind_Ok in Hs as (s1 & Hf & [= <- <- <-]).
  split; [|done]. eapply grows_fold; [|exact Hf]. intros s2 m s3 _. by apply dependency_member_grows.
Qed.

Definition pin_file (name : str) : str := u "repository/cmake/" ++ name ++ u ".revision".

(** The pin of a dependency in the stage. *)
Definition pinned_at (s : stage) (name commit : str) : Prop :=
  ∃ mode data text, dict_get (pin_file name) s = Some (mode, data) ∧ decode_ascii data = Some text
    ∧ strip text = commit ∧ hex40 commit = true.

Lemma hex40_word s : hex40 s = true → s ≠ [] ∧ Forall (λ c, is_space c = false) s.
Proof using.
  intros [Hl Hs]%hex40_spec. split; [by intros ->|]. eapply Forall_impl; [exact Hs|]. intros c Hc. cbv beta in Hc.
  unfold is_hex, is_digit in Hc. rewrite orb_true_iff, !andb_true_iff, !N.leb_le in Hc.
  apply not_true_iff_false. unfold is_space. rewrite !orb_true_iff, !andb_true_iff, !N.leb_le, bool_decide_eq_true.
  rewrite !elem_of_cons, elem_of_nil. lia.
Qed.

Lemma stage_dependency_Ok root s found name source s' found' : component name →
  stage_dependency root (s, found) (name, source) = Ok (s', found') →
  ∃ commit tree, grows (dependency_place name) s s' ∧ pinned_at s name commit
    ∧ found' = dict_set name (commit, tree) found.
Proof using.
  intros Hname. unfold stage_dependency. intros Hs. apply bind_Ok in Hs as ([mode data] & Hpin%of_option_Ok & Hs).
  cbn [snd] in Hs. apply bind_Ok in Hs as (text & Ht & Hs). apply bind_Ok in Hs as ([[s1 commit] tree] & Hd & [= <- <-]).
  apply snapshot_dependency_Ok in Hd as (Hg & -> & Hhex); [|done].
  unfold read_text_ascii in Ht. apply fmap_Ok in Ht as (text' & Ht%of_option_Ok & <-).
  exists (strip (universal_newlines text')), tree. split; [done|]. split; [|done].
  exists mode, data, text'. split_and!; [done..| |done].
  destruct (hex40_word _ Hhex) as [Hne Hw]. by apply (strip_newlines _ _ Hne Hw).
Qed.

(** ** The stage before its notice *)

Definition core_name : str := u "dtv-userland-core".
Definition px4_name : str := u "px4-userland".

Lemma names_components : component core_name ∧ component px4_name.
Proof using. apply (bool_decide_eq_true_1 (component core_name ∧ component px4_name)). by vm_compute. Qed.

(** Names that start elsewhere. *)
Lemma not_staged directory n : directory ≠ [] → Forall component directory →
  bool_decide (take (length directory) (split_on 47 n) = directory) = false → ¬ staged_at directory n.
Proof using.
  intros Hne Hd Hb Hs. apply bool_decide_eq_false in Hb. apply Hb.
  destruct (staged_split _ _ Hne Hd Hs) as (parts & _ & ->). by rewrite take_app_length.
Qed.

Definition in_dependencies (n : str) : Prop := dependency_place core_name n ∨ dependency_place px4_name n.

Lemma not_dependency n :
  bool_decide (take 1 (split_on 47 n) = [u "third_party"]) = false → ¬ in_dependencies n.
Proof using.
  intros Hb. apply bool_decide_eq_false in Hb. destruct names_components as [Hc Hp].
  assert (∀ name, component name → ¬ dependency_place name n) as Hnot.
  { intros name Hn [Hs _]. apply Hb.
    destruct (staged_split (third_party name) n) as (parts & _ & ->);
      [done|by apply third_party_components|done|]. reflexivity. }
  intros [Hd|Hd]; [by apply (Hnot core_name)|by apply (Hnot px4_name)].
Qed.

Lemma copy_staged_Ok s source name s' : copy_staged s source name = Ok s' →
  grows (λ n, n = name) s s' ∧ ∃ f, dict_get source s = Some f ∧ dict_get name s' = Some f.
Proof using.
  unfold copy_staged. intros Hs. apply bind_Ok in Hs as ([mode data] & Hf%of_option_Ok & Hp).
  split; [by eapply grows_put|]. exists (mode, data). split; [done|by eapply put_get].
Qed.

Definition relink : str := u "BUILD-RELINK.md".
Definition documents : list str := [u "COPYING"; u "LICENCE.siano"; u "README.md"; relink; third_party_libusb].

Lemma copies_staged s l s' :
  fold_res (λ s name, copy_staged s (u "repository/" ++ name) name) s l = Ok s' →
  NoDup l → Forall (λ name, name ∉ (λ n, u "repository/" ++ n) <$> l) l →
  grows (λ n, n ∈ l) s s' ∧ Forall (λ name, is_Some (dict_get name s')) l.
Proof using.
  revert s. induction l as [|name l IH]; intros s; cbn [fold_res].
  - intros [= <-] _ _. split; [apply grows_refl|constructor].
  - intros Hs [Hn Hnd]%NoDup_cons Hall. apply bind_Ok in Hs as (s1 & (Hg & f & _ & Hf)%copy_staged_Ok & Hs).
    destruct (IH _ Hs) as [Hg' Hf']; [done| |].
    { apply Forall_cons in Hall as [_ Hall]. eapply Forall_impl; [exact Hall|].
      intros n Hnn Hin. apply Hnn. rewrite fmap_cons. by right. }
    split.
    + eapply grows_trans; (eapply grows_weaken; [|eassumption]); [intros n ->; left|by right].
    + constructor; [|done]. exists f. eapply grows_get; [exact Hg'|done|done].
Qed.

(** The pins are no files of a dependency, nor documents. *)
Lemma pin_apart name : name ∈ [core_name; px4_name] →
  bool_decide (pin_file name ∈ documents) = false ∧ ¬ in_dependencies (pin_file name).
Proof using.
  intros Hn. split.
  - revert name Hn. apply Forall_forall.
    repeat (apply Forall_cons_2; [vm_compute; reflexivity|]). apply Forall_nil_2.
  - apply not_dependency. revert name Hn. apply Forall_forall.
    repeat (apply Forall_cons_2; [vm_compute; reflexivity|]). apply Forall_nil_2.
Qed.

Lemma pinned_grows P s s' name commit : grows P s s' →
  (∀ n, P n → in_dependencies n ∨ n ∈ documents) → name ∈ [core_name; px4_name] →
  pinned_at s name commit → pinned_at s' name commit.
Proof using.
  intros Hg HP Hn (m & data & text & Hf & Ht). exists m, data, text. split; [|done].
  eapply grows_get; [exact Hg| |done]. destruct (pin_apart name Hn) as [Hd%bool_decide_eq_false Hi].
  intros [?|?]%HP; done.
Qed.

(** Both dependencies: their files, and their commits as the repository pins them. *)
Lemma dependencies_staged root core_root px4_root s s' d :
  fold_res (stage_dependency root) (s, []) [(core_name, core_root); (px4_name, px4_root)] = Ok (s', d) →
  grows in_dependencies s s'
  ∧ ∃ core px4 core_tree px4_tree, pinned_at s' core_name core ∧ pinned_at s' px4_name px4
      ∧ d = [(core_name, (core, core_tree)); (px4_name, (px4, px4_tree))].
Proof using.
  cbn [fold_res]. intros Hs. destruct names_components as [Hcn Hpn].
  apply bind_Ok in Hs as ([s2 d1] & Hcore & Hs). apply bind_Ok in Hs as ([s3 d2] & Hpx4 & [= -> ->]).
  apply stage_dependency_Ok in Hcore as (core & core_tree & Gcore & Pcore & ->); [|done].
  apply stage_dependency_Ok in Hpx4 as (px4 & px4_tree & Gpx4 & Ppx4 & ->); [|done].
  assert (grows in_dependencies s s2) as G1 by (eapply grows_weaken; [|exact Gcore]; by left).
  assert (grows in_dependencies s2 s') as G2 by (eapply grows_weaken; [|exact Gpx4]; by right).
  split; [by etrans|]. exists core, px4, core_tree, px4_tree. split_and!; [| |reflexivity].
  - eapply pinned_grows; [exact G2|by left|left|]. by eapply pinned_grows; [exact G1|left|left|].
  - by eapply pinned_grows; [exact G2|left|right; left|].
Qed.

(** The libusb archive, the last file of the snapshots. *)
Lemma libusb_staged source s s' : copy_regular s source third_party_libusb None = Ok s' →
  grows (λ n, n = third_party_libusb) s s'
  ∧ ∃ f, dict_get third_party_libusb s' = Some f ∧ copied source None f.
Proof using.
  unfold copy_regular, copied. intros Hc. destruct (node_at _) as [[] [[m data]|]]; try done.
  split; [by eapply grows_put|]. eexists. split; [by eapply put_get|]. by exists m, data.
Qed.

(** What [stage_snapshots] collects. *)
Record snapshots (i : source_inputs) (s : stage) (dependencies : dict (str * str)) : Prop := {
  sn_tree : tree s;
  sn_names n : n ∈ s.*1 → staged_at repository n ∨ in_dependencies n ∨ n ∈ documents;
  sn_version : ∃ mode data, dict_get (u "repository/VERSION") s = Some (mode, data)
    ∧ encode_ascii (i_version i ++ [10%N]) = Some data;
  sn_documents : Forall (λ n, is_Some (dict_get n s)) [u "COPYING"; u "README.md"];
  sn_license : ∃ mode data, dict_get (u "LICENCE.siano") s = Some (mode, data)
    ∧ hexdigest data = FIRMWARE_LICENSE_SHA256;
  sn_relink : ∃ f, dict_get relink s = Some f ∧ dict_get (u "repository/packaging/REBUILD.md") s = Some f;
  sn_libusb : ∃ f, dict_get third_party_libusb s = Some f ∧ copied (i_libusb i) None f;
  sn_dependencies : ∃ core px4 core_tree px4_tree, pinned_at s core_name core ∧ pinned_at s px4_name px4
    ∧ dependencies = [(core_name, (core, core_tree)); (px4_name, (px4, px4_tree))];
}.

Lemma stage_snapshots_Ok i s commit tree dependencies :
  stage_snapshots i = Ok (s, commit, tree, dependencies) → snapshots i s dependencies.
Proof using.
  unfold stage_snapshots. intros Hs.
  apply bind_Ok in Hs as ([[s1 c] t] & Hrepo%snapshot_repository_grows & Hs).
  apply bind_Ok in Hs as ([s3 d] & [Gdep (core & px4 & core_tree & px4_tree & Pcore & Ppx4 & Hd)]%dependencies_staged & Hs).
  apply bind_Ok in Hs as ([vm vdata] & Hv%of_option_Ok & Hs).
  rewrite fail_if_then, negb_false_iff, bool_decide_eq_true in Hs. destruct Hs as [Hvd Hs].
  apply bind_Ok in Hs as (s4 & Hdocs & Hs). apply bind_Ok in Hs as (s5 & Hrelink & Hs).
  apply bind_Ok in Hs as ([lm ldata] & Hl%of_option_Ok & Hs).
  rewrite fail_if_then, negb_false_iff, bool_decide_eq_true in Hs. destruct Hs as [Hld Hs].
  apply bind_Ok in Hs as (s6 & [Glib Hlibf]%libusb_staged & [= <- <- <- <-]).
  apply copies_staged in Hdocs as [Gdocs Hdocs]; [|apply (bool_decide_eq_true_1 _); by vm_compute..].
  apply copy_staged_Ok in Hrelink as (Grel & f & Hrf & Hrel).
  assert (grows (λ n, n ∈ documents) s3 s6) as Gall.
  { etrans; [|etrans]; (eapply grows_weaken; [|eassumption]); intros n Hn; cbv beta in Hn.
    - unfold documents. rewrite !elem_of_cons in *. set_solver.
    - subst n. unfold documents. set_solver.
    - subst n. unfold documents. set_solver. }
  assert (∀ n f, bool_decide (n = relink ∨ n = third_party_libusb) = false →
    dict_get n s4 = Some f → dict_get n s6 = Some f) as Hlate.
  { intros n g Hn%bool_decide_eq_false Hg. eapply grows_get; [exact Glib|tauto|].
    eapply grows_get; [exact Grel|tauto|done]. }
  split.
  - apply Gall, Gdep, Hrepo, tree_empty.
  - intros n [Hn|Hn]%(gr_names _ _ _ Gall); [|auto].
    apply (gr_names _ _ _ Gdep) in Hn as [Hn|Hn]; [|auto].
    apply (gr_names _ _ _ Hrepo) in Hn as [Hn|Hn]; [by apply elem_of_nil in Hn|by left].
  - exists vm, vdata. split; [|done]. eapply grows_get; [exact Gall|differs|done].
  - rewrite !Forall_cons in Hdocs. destruct Hdocs as ([f1 H1'] & _ & [f3 H3'] & _).
    constructor; [exists f1; by apply Hlate|]. constructor; [exists f3; by apply Hlate|constructor].
  - exists lm, ldata. split; [|done]. eapply grows_get; [exact Glib|differs|done].
  - exists f. split; [eapply grows_get; [exact Glib|differs|done]|].
    apply Hlate; [by vm_compute|done].
  - done.
  - exists core, px4, core_tree, px4_tree.
    split_and!; [eapply pinned_grows; [exact Gall|by right|left|done]
      |eapply pinned_grows; [exact Gall|by right|right; left|done]|done].
Qed.
End source.
