(* ===== verification/PyReProps.v ===== *)
(** * What the matches of a pattern consume

    Inversion lemmas for [matches]: a match consumes a prefix of the text, which for each
    kind of pattern has the form that the pattern describes; the matches that [re.findall]
    reports lie in the text. *)

From S2P Require Import Prelude PyStr Codec Regex PyRe.

Scheme matches_mut := Minimality for matches Sort Prop
with repeats_mut := Minimality for repeats Sort Prop.
Combined Scheme matches_repeats_ind from matches_mut, repeats_mut.

(** [eats s w s']: [s'] is [s] after the text [w]. *)
Definition eats (s : pos) (w : str) (s' : pos) : Prop :=
  rest s = w ++ rest s' ∧ before s' = default (before s) (Some <$> last w).

Lemma eats_nil s s' : rest s = rest s' → before s = before s' → eats s [] s'.
Proof. by split. Qed.

Lemma eats_app s w1 s1 w2 s2 : eats s w1 s1 → eats s1 w2 s2 → eats s (w1 ++ w2) s2.
Proof.
  intros [H1 B1] [H2 B2]. split; [by rewrite H1, H2, app_assoc|]. rewrite B2, B1.
  destruct w2 as [|c w2] using rev_ind; [by rewrite app_nil_r|].
  by rewrite app_assoc, !last_snoc.
Qed.

Lemma matches_eats_both :
  (∀ p s s', matches p s s' → ∃ w, eats s w s') ∧ (∀ p s s', repeats p s s' → ∃ w, eats s w s').
Proof.
  apply matches_repeats_ind.
  - intros s. exists []. by apply eats_nil.
  - intros f prev c r gs _. by exists [c].
  - intros p q s1 s2 s3 _ [w1 H1] _ [w2 H2]. exists (w1 ++ w2). by eapply eats_app.
  - done.
  - done.
  - done.
  - done.
  - intros p s s' _ [w Hw]. exists w. exact Hw.
  - intros s _. exists []. by apply eats_nil.
  - intros s _. exists []. by apply eats_nil.
  - intros word s _. exists []. by apply eats_nil.
  - intros s _. exists []. by apply eats_nil.
  - intros s _. exists []. by apply eats_nil.
  - intros p s s' _ _. exists []. by apply eats_nil.
  - intros _ s. exists []. by apply eats_nil.
  - intros p s1 s2 s3 _ [w1 H1] _ _ [w2 H2]. exists (w1 ++ w2). by eapply eats_app.
Qed.

Lemma matches_eats p s s' : matches p s s' → ∃ w, eats s w s'.
Proof. apply matches_eats_both. Qed.

Lemma eats_length s w s' : eats s w s' → length (rest s) = length w + length (rest s').
Proof. intros [-> _]. apply length_app. Qed.

Lemma eats_take s w s' : eats s w s' → take (length (rest s) - length (rest s')) (rest s) = w.
Proof.
  intros He. rewrite (eats_length _ _ _ He). destruct He as [-> _].
  replace (length w + length (rest s') - length (rest s')) with (length w) by lia. apply take_app_length.
Qed.

(** The same text after [s] is eaten in one way only. *)
Lemma eats_inj s w w' s' : eats s w s' → eats s w' s' → w = w'.
Proof. intros [H1 _] [H2 _]. rewrite H1 in H2. by apply app_inv_tail in H2. Qed.

(** ** The forms of patterns *)

Lemma matches_seq p q s s' : matches (Seq p q) s s' ↔ ∃ s1, matches p s s1 ∧ matches q s1 s'.
Proof. split; [inversion 1; eauto|]. intros (s1 & ? & ?). by econstructor. Qed.

Lemma matches_or p q s s' : matches (Or p q) s s' ↔ matches p s s' ∨ matches q s s'.
Proof. split; [inversion 1; auto|]. intros [?|?]; [by apply m_or_l|by apply m_or_r]. Qed.

Lemma matches_class f s s' :
  matches (Class_ f) s s' ↔ ∃ c, f c = true ∧ rest s = c :: rest s' ∧ before s' = Some c ∧ groups s' = groups s.
Proof.
  split.
  - inversion 1; subst. eexists. cbn. eauto.
  - destruct s as [prev r gs], s' as [prev' r' gs']. cbn. intros (c & Hc & -> & -> & ->). by constructor.
Qed.

Lemma matches_line_start s s' : matches LineStart s s' ↔ at_line_start s = true ∧ s' = s.
Proof. split; [by inversion 1|]. intros [? ->]. by constructor. Qed.

Lemma matches_text_end s s' : matches TextEnd s s' ↔ rest s = [] ∧ s' = s.
Proof. split; [by inversion 1|]. intros [? ->]. by constructor. Qed.

Lemma matches_ahead p s s' : matches (Ahead p) s s' ↔ s' = s ∧ ∃ s1, matches p s s1.
Proof. split; [inversion 1; eauto|]. intros (-> & s1 & ?). by econstructor. Qed.

(** A match with its consumed text, the groups unchanged. *)
Definition spells (p : pat) (P : str → Prop) : Prop :=
  ∀ s s', matches p s s' ↔ ∃ w, P w ∧ eats s w s' ∧ groups s' = groups s.

Lemma spells_class f : spells (Class_ f) (λ w, ∃ c, w = [c] ∧ f c = true).
Proof.
  intros s s'. rewrite matches_class. split.
  - intros (c & Hc & Hr & Hb & Hg). exists [c]. split; [by exists c|]. by split; [split|].
  - intros (w & (c & -> & Hc) & [Hr Hb] & Hg). by exists c.
Qed.

Lemma eats_of_nil s s' : eats s [] s' → groups s' = groups s → s' = s.
Proof. destruct s, s'. intros [H1 H2]. cbn in *. by intros ->; subst. Qed.

Lemma spells_text t : spells (Text t) (λ w, w = u t).
Proof.
  unfold Text. induction (u t) as [|c l IH]; intros s s'; cbn [foldr].
  - split.
    + inversion 1; subst. exists []. by split; [|split; [split|]].
    + intros (w & -> & He & Hg). rewrite (eats_of_nil s s') by done. constructor.
  - rewrite matches_seq. split.
    + intros (s1 & (w1 & (d & -> & <-%N.eqb_eq) & He1 & Hg1)%spells_class & (w2 & -> & He2 & Hg2)%IH).
      exists (c :: l). split; [done|]. split; [by apply (eats_app _ [c] s1)|congruence].
    + intros (w & -> & [Hr Hb] & Hg). exists (Pos (Some c) (l ++ rest s') (groups s)). split.
      * apply spells_class. exists [c]. split; [exists c; by rewrite N.eqb_refl|]. by split; [split|].
      * apply IH. exists l. split; [done|]. split; [|done]. split; [done|]. rewrite Hb. cbn.
        rewrite last_cons. by destruct (last l).
Qed.

Lemma repeats_class f s s' :
  repeats (Class_ f) s s' ↔ ∃ w, Forall (λ c, f c = true) w ∧ eats s w s' ∧ groups s' = groups s.
Proof.
  split.
  - remember (Class_ f) as p. induction 1 as [p s|p s1 s2 s3 H1 Hl H2 IH]; subst.
    + exists []. split; [constructor|]. by split; [split|].
    + apply (spells_class f) in H1 as (w1 & (c & -> & Hc) & He1 & Hg1).
      destruct IH as (w2 & Hw2 & He2 & Hg2); [done|]. exists (c :: w2).
      split; [by constructor|]. split; [by apply (eats_app _ [c] s2)|congruence].
  - intros (w & Hw & He & Hg). revert s He Hg. induction Hw as [|c w Hc _ IH]; intros s [Hr Hb] Hg.
    + rewrite (eats_of_nil s s') by done. constructor.
    + apply (r_more _ _ (Pos (Some c) (w ++ rest s') (groups s))).
      * apply matches_class. by exists c.
      * cbn. rewrite Hr. cbn. lia.
      * apply IH; [|done]. split; [done|]. rewrite Hb. cbn. rewrite last_cons. by destruct (last w).
Qed.

Lemma spells_many f : spells (Many (Class_ f)) (Forall (λ c, f c = true)).
Proof. intros s s'. rewrite <- repeats_class. split; [by inversion 1|by constructor]. Qed.

Lemma spells_few f : spells (Few (Class_ f)) (Forall (λ c, f c = true)).
Proof. intros s s'. rewrite <- repeats_class. split; [by inversion 1|by constructor]. Qed.

Lemma spells_seq p q P Q : spells p P → spells q Q →
  spells (Seq p q) (λ w, ∃ w1 w2, w = w1 ++ w2 ∧ P w1 ∧ Q w2).
Proof.
  intros Hp Hq s s'. rewrite matches_seq. split.
  - intros (s1 & (w1 & H1 & He1 & Hg1)%Hp & (w2 & H2 & He2 & Hg2)%Hq). exists (w1 ++ w2).
    split; [by exists w1, w2|]. split; [by eapply eats_app|congruence].
  - intros (w & (w1 & w2 & -> & H1 & H2) & [Hr Hb] & Hg).
    set (s1 := Pos (default (before s) (Some <$> last w1)) (w2 ++ rest s') (groups s)).
    exists s1. split.
    + apply Hp. exists w1. split; [done|]. split; [|done]. split; [by rewrite Hr, <- app_assoc|done].
    + apply Hq. exists w2. split; [done|]. split; [|done]. split; [done|]. rewrite Hb. cbn.
      destruct w2 as [|c w2 _] using rev_ind; [by rewrite app_nil_r|]. by rewrite app_assoc, !last_snoc.
Qed.

Lemma spells_some f : spells (Some_ (Class_ f)) (λ w, w ≠ [] ∧ Forall (λ c, f c = true) w).
Proof.
  intros s s'. unfold Some_. rewrite (spells_seq _ _ _ _ (spells_class f) (spells_many f) s s').
  split; intros (w & Hw & He); exists w; (split; [|done]).
  - destruct Hw as (w1 & w2 & -> & (c & -> & Hc) & Hw2). split; [done|by constructor].
  - destruct Hw as [Hne Hw]. destruct Hw as [|c w Hc Hw]; [done|]. exists [c], w. eauto 10.
Qed.

Lemma matches_group p P s s' : spells p P →
  matches (Group p) s s' ↔ ∃ w, P w ∧ eats s w s' ∧ groups s' = w :: groups s.
Proof.
  intros Hp. split.
  - inversion 1 as [| | | | | | |q s0 s1 Hm| | | | | |]; subst. apply Hp in Hm as (w & Hw & He & Hg).
    exists w. split; [done|]. split; [exact He|]. cbn. by rewrite (eats_take _ _ _ He), Hg.
  - intros (w & Hw & He & Hg).
    assert (matches p s (Pos (before s') (rest s') (groups s))) as Hm%m_group
      by (apply Hp; exists w; split; [done|]; by split).
    cbn [before rest groups] in Hm. rewrite (eats_take _ _ _ He), <- Hg in Hm. by destruct s'.
Qed.

(** ** The matches in a text *)

Lemma match_at_matches p s gs s' :
  match_at p s = Some (gs, s') → matches p (Pos (before s) (rest s) []) s' ∧ gs = reverse (groups s').
Proof.
  unfold match_at. intros (s1 & H1 & [= <- <-])%run_sound. done.
Qed.

(** Each match of [re.findall] starts after some prefix of the text. *)
Lemma findall_from_matches fuel p prev s found :
  found ∈ findall_from fuel p prev s →
  ∃ prev' pre r s', s = pre ++ r ∧ matches p (Pos prev' r []) s'
    ∧ found.2 = reverse (groups s') ∧ eats (Pos prev' r []) found.1 s'.
Proof.
  revert prev s. induction fuel as [|fuel IH]; intros prev s; cbn [findall_from]; [by intros ?%elem_of_nil|].
  destruct (match_at p (Pos prev s [])) as [[gs s']|] eqn:Hm.
  - apply match_at_matches in Hm as [Hm ->]. cbn [before rest] in Hm.
    destruct (matches_eats _ _ _ Hm) as [w He]. intros [->|Hin]%elem_of_cons.
    + exists prev, [], s, s'. split; [done|]. split; [done|]. split; [done|].
      pose proof (eats_take _ _ _ He) as Ht. cbn [rest] in Ht. cbn [fst]. by rewrite Ht.
    + apply IH in Hin as (prev' & pre & r & s1 & Hs & H). destruct He as [He _]. cbn in He.
      exists prev', (w ++ pre), r, s1. split; [by rewrite He, Hs, app_assoc|done].
  - destruct s as [|c s]; [by intros ?%elem_of_nil|]. intros (prev' & pre & r & s1 & -> & H)%IH.
    by exists prev', (c :: pre), r, s1.
Qed.

Lemma re_findall_matches p s found :
  found ∈ re_findall p s →
  ∃ prev pre r s', s = pre ++ r ∧ matches p (Pos prev r []) s'
    ∧ found.2 = reverse (groups s') ∧ eats (Pos prev r []) found.1 s'.
Proof. apply findall_from_matches. Qed.
