(* ===== verification/LinkInventory.v ===== *)
(** * The static members of an Android program: [scripts/android-link-inventory.py]

    The archive members that a linker map names, classified and written as the table that
    the audit of an Android archive reads. *)

From stdpp Require Import sorting.
From S2P Require Import Prelude PyStr PyDict Codec Regex PyRe PyPath PyFloat AuditBase Stage.

Local Open Scope Z_scope.

Definition archive_char (c : N) : bool := negb (is_space c) && negb (one_of [40; 41]%N c).
Definition member_char (c : N) : bool := negb (one_of [40; 41; 13; 10]%N c).

(** [(?P<archive>[^\s()]+\.a)\((?P<member>[^()\r\n]+)\)] *)
Definition ARCHIVE_MEMBER : pat :=
  Seq (Group (Seq (Some_ (Class_ archive_char)) (Text ".a")))
    (Seq (Text "(") (Seq (Group (Some_ (Class_ member_char))) (Text ")"))).

Definition runtime_archives : list str :=
  [u "libc++_static.a"; u "libc++abi.a"; u "libunwind.a"; u "libgcc.a"; u "libatomic.a"].

Definition category (archive : str) : str :=
  let name := path_name archive in
  if decide (name = u "libusb-1.0.a") then u "libusb"
  else if starts_with (u "libdtv_userland_") name || starts_with (u "libsiano_") name
  then u "project"
  else if starts_with (u "libclang_rt.") name || bool_decide (name ∈ runtime_archives)
  then u "ndk-runtime"
  else u "other-static".

(** A row: category, archive and member, compared as a tuple. *)
Definition row : Type := str * str * str.

Definition row_leb (a c : row) : bool :=
  let '(x1, x2, x3) := a in
  let '(y1, y2, y3) := c in
  if decide (x1 = y1) then if decide (x2 = y2) then str_leb x3 y3 else str_leb x2 y2
  else str_leb x1 y1.
Definition row_le (a c : row) : Prop := row_leb a c = true.
#[export] Instance row_le_dec : RelDecision row_le.
Proof. intros a c. unfold row_le. apply _. Defined.

Definition invalid_member (member : str) : bool :=
  bool_decide (member = []) || bool_decide (9%N ∈ member) || bool_decide (92%N ∈ member)
  || starts_with (u "/") member || bool_decide (u ".." ∈ path_parts member).

(** One match; the set of rows is a list without duplicates. *)
Definition add_row (rows : list row) (found : str * list str) : res (list row) :=
  match found.2 with
  | [archive; member] =>
      let member := strip member in
      if invalid_member member then Err (ValueError "invalid archive member")
      else
        let new := (category archive, path_name archive, member) in
        Ok (if decide (new ∈ rows) then rows else rows ++ [new])
  | _ => Err (IndexError "no such group")
  end.

Definition row_line (r : row) : str := join [9%N] [r.1.1; r.1.2; r.2].

(** The rows of a map, for the program that it links. *)
Definition inventory_rows (text : str) (program : option str) : res (list row) :=
  rows ← fold_res add_row [] (re_findall ARCHIVE_MEMBER text);
  if decide (rows = []) then Err (ValueError "no static archive members found")
  else if bool_decide (program ∈ [None; Some (u "sianod")])
          && negb (existsb (λ r : row, bool_decide (r.1.2 = u "libusb-1.0.a")) rows)
  then Err (ValueError "libusb-1.0.a members missing")
  else if existsb (λ r : row, bool_decide (r.1.1 = u "other-static")) rows
  then Err (ValueError "unclassified static archive")
  else Ok rows.

(** The text written to the output. *)
Definition inventory_text (rows : list row) : str :=
  u "category" ++ [9%N] ++ u "archive" ++ [9%N] ++ u "member" ++ [10%N]
  ++ concat ((λ r, row_line r ++ [10%N]) <$> merge_sort row_le rows).

Definition inventory_programs : list str := [u "sianod"; u "sianoctl"; u "siano-ts"].

(** [main]: the bytes of the output file; [None] is a map that cannot be opened. *)
Definition main (map : option bytes) (program : option str) : res bytes :=
  match program with
  | Some p => if decide (p ∈ inventory_programs) then Ok tt
              else Err (SystemExit 2 "argument --program: invalid choice")
  | None => Ok tt
  end ;;
  data ← of_option (OSError "cannot open") map;
  text ← read_text_utf8 data;
  rows ← inventory_rows text program;
  of_option (ValueError "UnicodeEncodeError") (encode_utf8 (inventory_text rows)).

Example main_test :
  main (Some (b "x /ndk/libusb-1.0.a(core.o) y build/libsiano_ts.a( ts.o ) /ndk/libusb-1.0.a(core.o)"))
    None
  = Ok (nb <$> (u "category" ++ [9%N] ++ u "archive" ++ [9%N] ++ u "member" ++ [10%N]
      ++ u "libusb" ++ [9%N] ++ u "libusb-1.0.a" ++ [9%N] ++ u "core.o" ++ [10%N]
      ++ u "project" ++ [9%N] ++ u "libsiano_ts.a" ++ [9%N] ++ u "ts.o" ++ [10%N])).
Proof. vm_compute. reflexivity. Qed.
