(* ===== verification/LinkInventoryProps.v ===== *)
(** * The inventory that the link map gives is the one the audit accepts

    Every row comes from a match in the map; the table is read back by the audit of an
    Android archive exactly when no member name holds a line boundary. *)

From stdpp Require Import sorting.
From S2P Require Import Prelude PyStr PyDict Codec Regex PyRe PyReProps Lines PyPath PyFloat Sha256.
From S2P Require Import Archive AuditBase AuditText AuditArchive ReleaseFixture Stage LinkInventory.

Local Open Scope Z_scope.

(** ** What a match gives *)

Definition archive_name (a : str) : Prop :=
  ∃ stem, stem ≠ [] ∧ Forall (λ c, archive_char c = true) stem ∧ a = stem ++ u ".a".
Definition member_name (m : str) : Prop := m ≠ [] ∧ Forall (λ c, member_char c = true) m.

Lemma archive_member_groups s s' : matches ARCHIVE_MEMBER s s' → groups s = [] →
  ∃ a m, archive_name a ∧ member_name m ∧ groups s' = [m; a]
    ∧ eats s (a ++ u "(" ++ m ++ u ")") s'.
Proof.
  intros (s1 & Ha & (s2 & Ho & (s3 & Hm & Hc)%matches_seq)%matches_seq)%matches_seq Hg.
  apply (matches_group _ _ _ _ (spells_seq _ _ _ _ (spells_some _) (spells_text _)))
    in Ha as (a & (stem & e & -> & [Hne Hst] & ->) & Ea & Ga).
  apply spells_text in Ho as (w2 & -> & Eo & Go).
  apply (matches_group _ _ _ _ (spells_some _)) in Hm as (m & Hm & Em & Gm).
  apply spells_text in Hc as (w4 & -> & Ec & Gc).
  exists (stem ++ u ".a"), m. split; [by exists stem|]. split; [done|]. split; [by rewrite Gc, Gm, Go, Ga, Hg|].
  eapply eats_app; [exact Ea|]. eapply eats_app; [exact Eo|]. by eapply eats_app.
Qed.

(** The matches in a map, as pairs of an archive and a member. *)
Lemma found_groups text found : found ∈ re_findall ARCHIVE_MEMBER text →
  ∃ a m, found.2 = [a; m] ∧ archive_name a ∧ member_name m
    ∧ ∃ pre post, text = pre ++ a ++ u "(" ++ m ++ u ")" ++ post.
Proof.
  intros (prev & pre & r & s' & -> & Hm & Hg & He)%re_findall_matches.
  destruct (archive_member_groups _ _ Hm eq_refl) as (a & m & Ha & Hmm & Hgs & [Hr _]).
  exists a, m. rewrite Hg, Hgs. split; [done|]. split; [done|]. split; [done|].
  exists pre, (rest s'). cbn in Hr. by rewrite Hr, <- !app_assoc.
Qed.

(** ** Names *)

Lemma archive_char_plain c : archive_char c = true → is_linebreak c = false ∧ c ≠ 9%N.
Proof.
  unfold archive_char. rewrite andb_true_iff, negb_true_iff. intros [Hs _].
  assert (∀ d, d ∈ [9; 10; 11; 12; 13; 28; 29; 30; 133; 8232; 8233]%N → is_space d = true) as Hb.
  { apply Forall_forall. repeat (apply Forall_cons_2; [vm_compute; reflexivity|]). apply Forall_nil_2. }
  split.
  - apply bool_decide_eq_false. intros Hc. rewrite (Hb c) in Hs; [done|by right].
  - intros ->. rewrite (Hb 9%N) in Hs; [done|by left].
Qed.

Lemma last_split c s t : c ∉ t → ∃ w, last (split_on c (s ++ t)) = Some (w ++ t) ∧ ∀ x, x ∈ w → x ∈ s.
Proof.
  intros Ht. induction s as [|x s (w & Hw & Hin)].
  - exists []. split; [|by intros ? ?%elem_of_nil]. cbn [app]. by rewrite split_on_none.
  - assert (∀ y, y ∈ w → y ∈ x :: s) as Hin' by (intros; right; auto).
    cbn [app split_on]. destruct (split_on c (s ++ t)) as [|v vs] eqn:E; [done|].
    destruct (x =? c)%N.
    { exists w. by rewrite last_cons_cons. }
    destruct vs as [|v' vs].
    + injection Hw as ->. exists (x :: w). split; [done|]. intros y [->|Hy]%elem_of_cons; [left|auto].
    + exists w. by rewrite last_cons_cons in *.
Qed.

Lemma archive_path_name a : archive_name a →
  ∃ w, path_name a = w ++ u ".a" ∧ ∀ c, c ∈ path_name a → is_linebreak c = false ∧ c ≠ 9%N.
Proof.
  intros (stem & _ & Hst & ->).
  destruct (last_split 47 stem (u ".a")) as (w & Hw & Hin).
  { change (u ".a") with [46; 97]%N. rewrite !not_elem_of_cons. split_and!; [done|done|apply not_elem_of_nil]. }
  exists w. assert (path_name (stem ++ u ".a") = w ++ u ".a") as Hn.
  { unfold path_name, path_names. destruct (split_on 47 (stem ++ u ".a")) as [|x l _] using rev_ind; [done|].
    rewrite last_snoc in Hw. injection Hw as ->. rewrite filter_app, filter_cons_True, filter_nil, last_snoc; [done|].
    split; intros Heq; apply (f_equal length) in Heq; rewrite length_app in Heq;
      change (length (u ".a")) with 2%nat in Heq; [change (length []) with 0%nat in Heq|change (length (u ".")) with 1%nat in Heq]; lia. }
  split; [done|]. rewrite Hn. intros c [Hc|Hc]%elem_of_app.
  - apply archive_char_plain. rewrite Forall_forall in Hst. auto.
  - revert c Hc. apply Forall_forall. change (u ".a") with [46; 97]%N.
    repeat (apply Forall_cons_2; [split; [vm_compute; reflexivity|done]|]). apply Forall_nil_2.
Qed.

Lemma elem_of_lstrip c s : c ∈ lstrip s → c ∈ s.
Proof.
  induction s as [|x s IH]; [done|]. cbn. destruct (is_space x); [|done]. intros Hc. right. auto.
Qed.

Lemma elem_of_strip c s : c ∈ strip s → c ∈ s.
Proof.
  unfold strip. rewrite elem_of_reverse. intros Hc%elem_of_lstrip. rewrite elem_of_reverse in Hc.
  by apply elem_of_lstrip.
Qed.

(** ** The rows *)

(** A row that the audit can read: the fields without tabs, the archive a classified one
    whose name holds no line boundary. *)
Record fit_row (r : row) : Prop := {
  fr_category : r.1.1 ∈ link_categories;
  fr_archive : ends_with (u ".a") r.1.2 = true;
  fr_unbroken : unbroken r.1.2;
  fr_tab : 9%N ∉ r.1.2;
  fr_member : r.2 ≠ [];
  fr_member_chars : ∀ c, c ∈ r.2 → c ≠ 9%N ∧ c ≠ 13%N ∧ c ≠ 10%N;
}.

(** The row of a match, if its member is valid. *)
Definition row_of (a m : str) : row := (category a, path_name a, strip m).

Lemma add_row_Ok rows a m w rows' :
  add_row rows (w, [a; m]) = Ok rows' ↔
  invalid_member (strip m) = false
  ∧ rows' = if decide (row_of a m ∈ rows) then rows else rows ++ [row_of a m].
Proof. unfold add_row, row_of. cbn. destruct (invalid_member _); naive_solver. Qed.

Lemma category_cases a : category a ∈ link_categories ∨ category a = u "other-static".
Proof.
  unfold category, link_categories. repeat case_match; try (by right); left; set_solver.
Qed.

Lemma category_other a : category a ≠ u "other-static" → category a ∈ link_categories.
Proof. destruct (category_cases a); [done|]. by intros []. Qed.

Lemma invalid_member_false m : invalid_member m = false → m ≠ [] ∧ 9%N ∉ m.
Proof.
  unfold invalid_member. rewrite !orb_false_iff, !bool_decide_eq_false. tauto.
Qed.

Lemma row_of_fit a m : archive_name a → member_name m → invalid_member (strip m) = false →
  category a ≠ u "other-static" → fit_row (row_of a m).
Proof.
  intros Ha [_ Hm] [Hne Htab]%invalid_member_false Hcat. destruct (archive_path_name a Ha) as (w & Hw & Hc).
  split; cbn [row_of fst snd].
  - by apply category_other.
  - rewrite Hw. unfold ends_with. rewrite reverse_app. apply starts_with_spec. by eexists.
  - apply Forall_forall. intros c Hin. by apply Hc.
  - intros Hin. by apply Hc in Hin as [_ ?].
  - done.
  - intros c Hin. assert (c ≠ 9%N) as H9 by (by intros ->). split; [done|].
    apply elem_of_strip in Hin. rewrite Forall_forall in Hm. specialize (Hm c Hin).
    unfold member_char, one_of in Hm. rewrite negb_true_iff, bool_decide_eq_false in Hm. set_solver.
Qed.

(** The rows collected from the matches. *)
Lemma collected_rows found rows rows' :
  (∀ f, f ∈ found → ∃ a m, f.2 = [a; m] ∧ archive_name a ∧ member_name m) →
  NoDup rows → fold_res add_row rows found = Ok rows' →
  NoDup rows' ∧ ∀ r, r ∈ rows' ↔
    r ∈ rows ∨ ∃ f a m, f ∈ found ∧ f.2 = [a; m] ∧ archive_name a ∧ member_name m
                 ∧ invalid_member (strip m) = false ∧ r = row_of a m.
Proof.
  revert rows. induction found as [|[w gs] found IH]; intros rows Hf Hnd.
  { intros [= <-]. split; [done|]. intros r. split; [auto|].
    by intros [?|(f & _ & _ & []%elem_of_nil & _)]. }
  cbn [fold_res]. intros (rows1 & H1 & H2)%bind_Ok.
  destruct (Hf (w, gs)) as (a & m & Hgs & Ha & Hm); [left|]. cbn in Hgs. subst gs.
  apply add_row_Ok in H1 as [Hv ->].
  apply IH in H2 as [Hnd' Hin]; [|intros f Hff; apply Hf; by right|].
  2:{ case_decide as Hr; [done|]. apply NoDup_app. split; [done|]. split; [|apply NoDup_singleton].
      by intros r Hrr ->%list_elem_of_singleton. }
  split; [done|]. intros r. rewrite Hin.
  assert (r ∈ (if decide (row_of a m ∈ rows) then rows else rows ++ [row_of a m])
          ↔ r ∈ rows ∨ r = row_of a m) as ->.
  { case_decide as Hr; [|by rewrite elem_of_app, list_elem_of_singleton].
    split; [auto|]. by intros [?| ->]. }
  split.
  - intros [[?| ->]|(f & a' & m' & Hff & Hr)]; [by left| |].
    + right. exists (w, [a; m]), a, m. split; [left|done].
    + right. exists f, a', m'. split; [by right|done].
  - intros [?|(f & a' & m' & [->|Hff]%elem_of_cons & Hg & Hr)]; [by left; left| |].
    + injection Hg as <- <-. left; right. apply Hr.
    + right. by exists f, a', m'.
Qed.

Lemma fold_res_elem {S A} (f : S → A → res S) s l s' x :
  fold_res f s l = Ok s' → x ∈ l → ∃ s1 s2, f s1 x = Ok s2.
Proof.
  revert s. induction l as [|y l IH]; intros s; [by intros _ ?%elem_of_nil|].
  cbn. intros (s1 & H1 & H2)%bind_Ok [->|Hx]%elem_of_cons; eauto.
Qed.

Lemma inventory_rows_Ok text program rows : inventory_rows text program = Ok rows →
  rows ≠ [] ∧ NoDup rows ∧ Forall fit_row rows
  ∧ (program ∈ [None; Some (u "sianod")] → ∃ r, r ∈ rows ∧ r.1.2 = u "libusb-1.0.a")
  ∧ (∀ r, r ∈ rows ↔
       ∃ f a m, f ∈ re_findall ARCHIVE_MEMBER text ∧ f.2 = [a; m] ∧ archive_name a ∧ member_name m
         ∧ invalid_member (strip m) = false ∧ r = row_of a m)
  ∧ ∀ f a m, f ∈ re_findall ARCHIVE_MEMBER text → f.2 = [a; m] → invalid_member (strip m) = false.
Proof.
  unfold inventory_rows. intros (rows' & Hrows & H)%bind_Ok.
  case_decide as Hne; [done|]. destruct (_ && _) eqn:Husb; [done|]. destruct (existsb (λ r : row, bool_decide (r.1.1 = _)) _) eqn:Hcat; [done|].
  injection H as ->. pose proof Hrows as Hfold. apply collected_rows in Hrows as [Hnd Hin]; [|intros f Hf|constructor].
  2:{ destruct (found_groups text f Hf) as (a & m & ? & ? & ? & _). by exists a, m. }
  assert (∀ r, r ∈ rows ↔ ∃ f a m, f ∈ re_findall ARCHIVE_MEMBER text ∧ f.2 = [a; m] ∧ archive_name a
            ∧ member_name m ∧ invalid_member (strip m) = false ∧ r = row_of a m) as Hin'.
  { intros r. rewrite Hin. split; [by intros [?%elem_of_nil|?]|auto]. }
  split_and!; [done|done| | |done|].
  - apply Forall_forall. intros r Hr. pose proof (proj1 (Hin' r) Hr) as (f & a & m & _ & _ & Ha & Hm & Hv & ->).
    apply row_of_fit; [done..|]. rewrite existsb_false in Hcat. specialize (Hcat _ Hr).
    by apply bool_decide_eq_false in Hcat.
  - intros Hp. apply andb_false_iff in Husb as [Hf%bool_decide_eq_false|He]; [done|].
    apply negb_false_iff, existsb_elem in He as (r & Hr & He%bool_decide_eq_true). eauto.
  - intros [w gs] a m Hf Hgs. cbn in Hgs. subst gs.
    destruct (fold_res_elem _ _ _ _ _ Hfold Hf) as (s1 & s2 & [Hv _]%add_row_Ok). done.
Qed.

(** ** Reading the table *)

Definition header_line : str := u "category" ++ [9%N] ++ u "archive" ++ [9%N] ++ u "member".

Lemma header_unbroken : unbroken header_line.
Proof. apply (bool_decide_eq_true_1 (Forall (λ c, is_linebreak c = false) header_line)). by vm_compute. Qed.

Lemma category_plain c x : c ∈ link_categories → x ∈ c → is_linebreak x = false ∧ x ≠ 9%N.
Proof.
  assert (Forall (Forall (λ x, is_linebreak x = false ∧ x ≠ 9%N)) link_categories) as Hall.
  { apply (bool_decide_eq_true_1 (Forall (Forall (λ x, is_linebreak x = false ∧ x ≠ 9%N)) link_categories)).
    by vm_compute. }
  rewrite Forall_forall in Hall. intros Hc Hx. specialize (Hall c Hc). rewrite Forall_forall in Hall. auto.
Qed.

Lemma row_fields r : fit_row r → split_on 9 (row_line r) = [r.1.1; r.1.2; r.2].
Proof.
  intros Hr. apply split_on_join; [done|]. repeat apply Forall_cons_2; [| | |apply Forall_nil_2].
  - intros Hx. by apply (category_plain _ _ (fr_category r Hr)) in Hx as [_ ?].
  - apply Hr.
  - intros Hx. by apply (fr_member_chars r Hr) in Hx as [? _].
Qed.

Lemma row_head_unbroken r : fit_row r → unbroken (r.1.1 ++ [9%N] ++ r.1.2 ++ [9%N]).
Proof.
  intros Hr. unfold unbroken. rewrite !Forall_app. split_and!.
  - apply Forall_forall. intros c Hc. by apply (category_plain _ _ (fr_category r Hr)) in Hc as [? _].
  - by repeat constructor.
  - apply Hr.
  - by repeat constructor.
Qed.

Lemma row_line_unfold r : row_line r = (r.1.1 ++ [9%N] ++ r.1.2 ++ [9%N]) ++ r.2.
Proof. unfold row_line. cbn [join]. by rewrite <- !app_assoc. Qed.

Lemma inventory_row_unbroken r : fit_row r → unbroken r.2 → unbroken (row_line r).
Proof. intros Hr Hm. rewrite row_line_unfold. apply Forall_app. split; [by apply row_head_unbroken|done]. Qed.

(** The audit's rows are the fields of the written ones. *)
Lemma link_rows seen rows : Forall fit_row rows → NoDup rows →
  (∀ r, r ∈ rows → [r.1.1; r.1.2; r.2] ∉ seen) →
  fold_res link_row seen (row_line <$> rows) = Ok (seen ++ ((λ r : row, [r.1.1; r.1.2; r.2]) <$> rows)).
Proof.
  intros Hall. revert seen. induction Hall as [|r rows Hr _ IH]; intros seen Hnd Hseen.
  { cbn. by rewrite app_nil_r. }
  apply NoDup_cons in Hnd as [Hnr Hnd]. rewrite fmap_cons. cbn [fold_res].
  unfold link_row at 2. rewrite row_fields by done.
  rewrite (bool_decide_eq_false_2 ([r.1.1; r.1.2; r.2] ∈ seen)) by (apply Hseen; left).
  rewrite (bool_decide_eq_true_2 (r.1.1 ∈ link_categories)) by apply Hr.
  rewrite (fr_archive r Hr), (bool_decide_eq_false_2 (r.2 = [])) by apply Hr. cbn.
  rewrite IH; [by rewrite <- app_assoc|done|].
  intros r' Hr' [Hin|Hin%list_elem_of_singleton]%elem_of_app; [by eapply Hseen; [right|]|].
  apply Hnr. destruct r as [[??]?], r' as [[??]?]. cbn in Hin. by injection Hin as -> -> ->.
Qed.

(** The first line of a text without tabs or carriage returns has no tab. *)
Lemma first_line acc t rest : 9%N ∉ acc → 9%N ∉ t → 13%N ∉ t →
  ∃ line, line ∈ splitlines_go acc (t ++ 10%N :: rest) ∧ 9%N ∉ line.
Proof.
  revert acc. induction t as [|c t IH]; intros acc Ha H9 H13; cbn [app splitlines_go].
  - exists (reverse acc). split; [left|by rewrite elem_of_reverse].
  - apply not_elem_of_cons in H9 as [H9 ?], H13 as [H13 ?].
    rewrite (proj2 (N.eqb_neq c 13)) by done. destruct (is_linebreak c).
    + exists (reverse acc). split; [left|by rewrite elem_of_reverse].
    + apply IH; [by apply not_elem_of_cons|done..].
Qed.

Lemma broken_split m : ¬ unbroken m → ∃ m1 x m2, m = m1 ++ x :: m2 ∧ unbroken m1 ∧ is_linebreak x = true.
Proof.
  induction m as [|c m IH]; [by intros []; constructor|]. intros Hm. destruct (is_linebreak c) eqn:Hc.
  - exists [], c, m. by split; [|split; [constructor|]].
  - destruct IH as (m1 & x & m2 & -> & Hm1 & Hx).
    + intros Hu. apply Hm. by constructor.
    + exists (c :: m1), x, m2. by split; [|split; [constructor|]].
Qed.

Lemma splitlines_go_break acc line x rest : unbroken line → is_linebreak x = true → x ≠ 13%N →
  splitlines_go acc (line ++ x :: rest) = (reverse acc ++ line) :: splitlines_go [] rest.
Proof.
  intros Hl Hx H13. revert acc. induction Hl as [|c line Hc _ IH]; intros acc; cbn [app splitlines_go].
  - rewrite (proj2 (N.eqb_neq x 13)), Hx, app_nil_r by done. done.
  - assert ((c =? 13)%N = false) as -> by (apply N.eqb_neq; by intros ->).
    by rewrite Hc, IH, reverse_cons, <- app_assoc.
Qed.

(** A member with a line boundary leaves a line without fields. *)
Lemma broken_row rows r : Forall fit_row rows → r ∈ rows → ¬ unbroken r.2 →
  ∃ line, line ∈ splitlines (unlines (row_line <$> rows)) ∧ 9%N ∉ line.
Proof.
  intros Hall. revert r. induction Hall as [|r0 rows Hr0 _ IH]; intros r; [by intros ?%elem_of_nil|].
  rewrite fmap_cons, unlines_cons. destruct (decide (unbroken r0.2)) as [Hu|Hb].
  - intros [->|Hr]%elem_of_cons Hbr; [done|]. destruct (IH r Hr Hbr) as (line & Hl & H9).
    exists line. split; [|done]. unfold splitlines. rewrite splitlines_go_line by (by apply inventory_row_unbroken). by right.
  - intros _ _. destruct (broken_split _ Hb) as (m1 & x & m2 & Hm & Hm1 & Hx).
    assert (∀ c, c ∈ m2 → c ≠ 9%N ∧ c ≠ 13%N ∧ c ≠ 10%N) as Hm2.
    { intros c Hc. apply (fr_member_chars r0 Hr0). rewrite Hm. apply elem_of_app. by right; right. }
    assert (x ≠ 13%N) as Hx13.
    { apply (fr_member_chars r0 Hr0). rewrite Hm. apply elem_of_app. right; left. }
    destruct (first_line [] m2 (unlines (row_line <$> rows))) as (line & Hl & H9);
      [by apply not_elem_of_nil|by intros []%Hm2|by intros (_ & [] & _)%Hm2|].
    exists line. split; [|done]. rewrite row_line_unfold, Hm.
    replace (_ ++ 10%N :: _) with
      (((r0.1.1 ++ [9%N] ++ r0.1.2 ++ [9%N]) ++ m1) ++ x :: m2 ++ 10%N :: unlines (row_line <$> rows))
      by (by rewrite <- !app_assoc).
    unfold splitlines. rewrite splitlines_go_break; [by right| |done..].
    apply Forall_app. split; [by apply row_head_unbroken|done].
Qed.

Lemma read_rows rows r : r ∈ merge_sort row_le rows ↔ r ∈ rows.
Proof. by rewrite merge_sort_Permutation. Qed.

Lemma inventory_lines rows : inventory_text rows = unlines (header_line :: (row_line <$> merge_sort row_le rows)).
Proof.
  unfold inventory_text. rewrite unlines_cons. unfold unlines, header_line. rewrite <- list_fmap_compose.
  by rewrite <- !app_assoc.
Qed.

Lemma inventory_main_Ok map program out : main map program = Ok out ↔
  (∀ p, program = Some p → p ∈ inventory_programs)
  ∧ ∃ data text rows, map = Some data ∧ read_text_utf8 data = Ok text
    ∧ inventory_rows text program = Ok rows ∧ encode_utf8 (inventory_text rows) = Some out.
Proof.
  unfold main. split.
  - intros (done & Hp & (data & Hd%of_option_Ok & (text & Ht & (rows & Hr & Ho%of_option_Ok)
      %bind_Ok)%bind_Ok)%bind_Ok)%bind_Ok. split; [|by exists data, text, rows].
    intros p Heq. rewrite Heq in Hp. by case_decide.
  - intros (Hp & data & text & rows & -> & Ht & Hr & Ho). cbn [of_option mbind res_bind].
    rewrite Ht. cbn [mbind res_bind]. rewrite Hr. cbn [mbind res_bind]. rewrite Ho.
    destruct program as [p|]; [|done]. by rewrite decide_True by auto.
Qed.

Section audit.
Context `{Digest}.

Lemma verify_inventory_rows payloads program out rows :
  dict_get (inventory_name program) payloads = Some out → encode_utf8 (inventory_text rows) = Some out →
  verify_link_inventory payloads program = Ok tt ↔
  ∃ seen, fold_res link_row [] (splitlines (unlines (row_line <$> merge_sort row_le rows))) = Ok seen
    ∧ (program ∈ [None; Some (u "sianod")] → existsb libusb_row seen = true).
Proof using.
  intros Hp Ho. unfold verify_link_inventory, text_of, item. rewrite Hp. cbn [of_option mbind res_bind].
  rewrite (decode_encode_utf8 _ _ Ho), inventory_lines. cbn [of_option mbind res_bind].
  change (header_line :: (row_line <$> merge_sort row_le rows)) with
    ([header_line] ++ (row_line <$> merge_sort row_le rows)).
  unfold unlines at 1. rewrite fmap_app, concat_app. fold (unlines [header_line]).
  fold (unlines (row_line <$> merge_sort row_le rows)).
  rewrite splitlines_unlines_app by (repeat constructor; apply header_unbroken). cbn [app].
  rewrite (bool_decide_eq_true_2 (header_line = inventory_header)) by reflexivity. cbn [negb fail_if mbind res_bind].
  assert (∀ seen,
    fail_if (bool_decide (program ∈ [None; Some (u "sianod")]) && negb (existsb libusb_row seen))
      "Android static-link inventory has no libusb archive" = Ok tt
    ↔ (program ∈ [None; Some (u "sianod")] → existsb libusb_row seen = true)) as Hlast.
  { intros seen. rewrite fail_if_Ok, andb_false_iff, bool_decide_eq_false, negb_false_iff.
    destruct (decide (program ∈ [None; Some (u "sianod")])) as [Hin|Hout].
    - split; [by intros [?|He]|]. intros He. right. by apply He.
    - split; [by intros|]. by left. }
  split.
  - intros (seen & Hf & Hl)%bind_Ok. exists seen. split; [done|]. exact (proj1 (Hlast seen) Hl).
  - intros (seen & Hf & Hl). apply bind_Ok. exists seen. split; [done|]. exact (proj2 (Hlast seen) Hl).
Qed.

End audit.

(** ** A sample map *)

#[local] Existing Instance length_digest.

Definition sample_map : bytes :=
  b "1f0 10 4 /ndk/libusb-1.0.a(core.o):(.text) 2f0 10 4 build/libsiano_ts.a(ts.o):(.text)".
Definition sample_text : str := default [] (decode_utf8 sample_map).
Definition sample_inventory : bytes :=
  match main (Some sample_map) (Some (u "sianod")) with Ok out => out | Err _ => [] end.


(** A vertical tab in a member name: the packager writes an inventory that its audit
    rejects. *)
Example broken_inventory :
  let map := b "/ndk/libusb-1.0.a(co" ++ [x0b] ++ b "re.o)" in
  match main (Some map) None with
  | Ok out => verify_link_inventory [(u "evidence/static-link-inventory.tsv", out)] None
              = Err (AuditError "Android static-link inventory is malformed or duplicated")
  | Err _ => False
  end.
Proof. vm_compute. reflexivity. Qed.
