(* ===== verification/SourceIdentity.v ===== *)
(** * The commit of a source archive: [scripts/source-identity.py]

    The commit that a source manifest names, read from the manifest's file. *)

From S2P Require Import Prelude PyStr PyDict Codec Regex Json AuditBase Stage.

Local Open Scope Z_scope.

(** [dict.get(key)] is a text with the property. *)
Definition text_field (d : dict json) (key : str) (ok : str → bool) : bool :=
  match dict_get key d with Some (JStr s) => ok s | _ => false end.

Definition value_error {A} (msg : string) : res A := Err (ValueError msg).
Definition value_error_if (c : bool) (msg : string) : res unit := if c then value_error msg else Ok tt.

(** [resolved_commit(path)]; [None] is a file that cannot be opened. *)
Definition resolved_commit (limit : nat) (file : option bytes) : res str :=
  data ← of_option (ValueError "cannot read source manifest") file;
  text ← of_option (ValueError "cannot read source manifest") (decode_utf8 data);
  manifest ← try_except (loads_default limit (universal_newlines text))
    (λ e, match e with JSONDecodeError _ => value_error "cannot read source manifest" | _ => Err e end);
  match manifest with
  | JDict d =>
      value_error_if (negb (text_field d (u "source_ref") (λ s, negb (bool_decide (strip s = [])))))
        "source manifest source_ref is missing" ;;
      value_error_if (negb (text_field d (u "resolved_commit") object_id))
        "source manifest resolved_commit must be a full lowercase commit ID" ;;
      value_error_if (negb (text_field d (u "tree") object_id))
        "source manifest tree must be a full lowercase tree ID" ;;
      match dict_get (u "resolved_commit") d with
      | Some (JStr commit) => Ok commit
      | _ => value_error "source manifest resolved_commit must be a full lowercase commit ID"
      end
  | _ => value_error "source manifest identity is missing"
  end.

(** The command: its exit code and what it prints. *)
Definition main (limit : nat) (open : str → option bytes) (arguments : list str)
    : res (Z * str) :=
  match arguments with
  | [path] =>
      try_except (commit ← resolved_commit limit (open path); Ok (0, commit ++ [10%N]))
        (λ e, match e with ValueError _ => Ok (1, []) | _ => Err e end)
  | _ => Ok (2, [])
  end.
