(* ===== verification/VersionGuard.v ===== *)
(** * The tag of a release candidate: [scripts/check-release-version.py]

    A candidate may use a version whose tag does not exist, or whose tag already points to
    the candidate's commit; the guard passes exactly for these, and its self test passes. *)

From S2P Require Import Prelude PyStr PyDict Codec Regex AuditBase.

Local Open Scope Z_scope.

(** [git show-ref --verify --quiet ref]: its exit code; [git rev-parse --verify ref^{commit}]:
    what it prints.  A command that cannot start, and a failed [rev-parse], raise [OSError]
    (here also [CalledProcessError]). *)
Class TagGit := {
  show_ref : str → res Z;
  rev_parse_commit : str → res str;
}.

Section version.
Context `{Lower} `{TagGit}.

(** [check_version_tag(tag_commit, source_commit)]: whether the tag is unused. *)
Inductive tag_state := Unused | SameCommit.

Definition check_version_tag (tag_commit : option str) (source_commit : str) : res tag_state :=
  match tag_commit with
  | None => Ok Unused
  | Some tag_commit =>
      if decide (str_lower tag_commit = str_lower source_commit) then Ok SameCommit
      else Err (ValueError "version tag already points to another commit")
  end.

Definition resolve_tag_commit (tag_ref : str) : res (option str) :=
  code ← show_ref tag_ref;
  if code =? 1 then Ok None
  else if negb (code =? 0) then Err (RuntimeError "git show-ref failed")
  else Some ∘ strip <$> rev_parse_commit tag_ref.

(** [assert]: here [AssertionError] is a [RuntimeError]. *)
Definition assert_that (c : bool) : res unit := if c then Ok tt else Err (RuntimeError "AssertionError").

Definition self_test : res unit :=
  let source := replicate 40 97%N in
  let other := replicate 40 98%N in
  unused ← check_version_tag None source;
  assert_that (match unused with Unused => true | _ => false end) ;;
  same ← check_version_tag (Some source) source;
  assert_that (match same with SameCommit => true | _ => false end) ;;
  match check_version_tag (Some other) source with
  | Err (ValueError _) => Ok tt
  | Err e => Err e
  | Ok _ => assert_that false
  end.

Definition any_hex (c : N) : bool := is_hex c || ((65 <=? c) && (c <=? 70))%N.
Definition any_object_id (s : str) : bool :=
  fullmatch (Alt (rep 40 (Chr any_hex)) (rep 64 (Chr any_hex))) s.

Definition parser_error {A} (msg : string) : res A := Err (SystemExit 2 msg).

(** The options; a missing one is [None], and an empty one counts as missing. *)
Definition version_options (version source_commit : option str) : res (str * str) :=
  match version, source_commit with
  | Some (c :: v), Some (d :: s) =>
      if negb (fullmatch VERSION_RE (c :: v)) then parser_error "VERSION must use numeric form"
      else if negb (any_object_id (d :: s)) then parser_error "source commit must be a full object id"
      else Ok (c :: v, d :: s)
  | _, _ => parser_error "--version and --source-commit are required"
  end.

(** [main]: the exit code and the printed line. *)
Definition main (run_self_test : bool) (version source_commit : option str) : res (Z * str) :=
  if run_self_test then
    self_test ;; Ok (0, u "release version guard self-test: PASS" ++ [10%N])
  else
  '(version, source_commit) ← version_options version source_commit;
  try_except
    (tag_commit ← resolve_tag_commit (u "refs/tags/v" ++ version);
     state ← check_version_tag tag_commit source_commit;
     Ok (0, u "release version guard: v" ++ version
            ++ match state with
               | Unused => u " is unused"
               | SameCommit => u " resolves to source commit"
               end ++ [10%N]))
    (λ e, match e with
          | OSError _ | RuntimeError _ | ValueError _ => Ok (1, [])
          | _ => Err e
          end).

Definition tag_ref (version : str) : str := u "refs/tags/v" ++ version.

Lemma version_options_Ok version source_commit r :
  version_options version source_commit = Ok r ↔
  version = Some r.1 ∧ source_commit = Some r.2
  ∧ fullmatch VERSION_RE r.1 = true ∧ any_object_id r.2 = true.
Proof.
  destruct r as [v s]. cbn [fst snd]. split.
  - unfold version_options. intros H'. destruct version as [[|c w]|], source_commit as [[|d t]|]; try done.
    destruct (fullmatch _ _) eqn:Hv; [|done]. cbn [negb] in H'.
    destruct (any_object_id _) eqn:Hs; [|done]. by injection H' as <- <-.
  - intros (-> & -> & Hv & Hs). unfold version_options.
    destruct v as [|c v]; [by vm_compute in Hv|]. destruct s as [|d s]; [by vm_compute in Hs|].
    by rewrite Hv, Hs.
Qed.

(** C36. The guard passes exactly for a version and a full commit identifier whose tag does
    not exist, or whose tag resolves to that commit, up to the case of the digits; a failure
    of Git never passes. *)
Theorem version_guard_passes (version source_commit : option str) (line : str) :
  main false version source_commit = Ok (0, line) ↔
  ∃ v s, version = Some v ∧ source_commit = Some s
    ∧ fullmatch VERSION_RE v = true ∧ any_object_id s = true
    ∧ ((show_ref (tag_ref v) = Ok 1 ∧ line = u "release version guard: v" ++ v ++ u " is unused" ++ [10%N])
       ∨ (show_ref (tag_ref v) = Ok 0
          ∧ (∃ out, rev_parse_commit (tag_ref v) = Ok out ∧ str_lower (strip out) = str_lower s)
          ∧ line = u "release version guard: v" ++ v ++ u " resolves to source commit" ++ [10%N])).
Proof.
  unfold main. rewrite bind_Ok. setoid_rewrite version_options_Ok. split.
  - intros ([v s] & (-> & -> & Hv & Hs) & Hm). exists v, s. split_and!; [done..|]. cbn [fst snd] in *.
    unfold resolve_tag_commit in Hm. fold (tag_ref v) in Hm.
    destruct (show_ref (tag_ref v)) as [code|e]; [|by destruct e]. cbn [mbind res_bind] in Hm.
    destruct (code =? 1) eqn:E1; [left; apply Z.eqb_eq in E1 as ->; by injection Hm as <-|].
    destruct (code =? 0) eqn:E0; [|done]. apply Z.eqb_eq in E0 as ->. right. split; [done|]. cbn [negb] in Hm.
    destruct (rev_parse_commit (tag_ref v)) as [out|e]; [|by destruct e].
    cbn [fmap res_fmap mbind res_bind compose check_version_tag] in Hm.
    destruct (decide _) as [Heq|]; [|done]. injection Hm as <-. split; [by exists out|done].
  - intros (v & s & -> & -> & Hv & Hs & Hcase). exists (v, s). split; [done|]. unfold resolve_tag_commit.
    fold (tag_ref v). destruct Hcase as [[-> ->]|(-> & (out & -> & Heq) & ->)]; [done|].
    cbn. by rewrite decide_True.
Qed.

Lemma guard_self_test_passes version source_commit :
  main true version source_commit = Ok (0, u "release version guard self-test: PASS" ++ [10%N]).
Proof.
  assert (str_lower (replicate 40 97%N) = replicate 40 97%N) as Ha
    by (apply (str_lower_ascii (replicate 40 97%N)); repeat constructor).
  assert (str_lower (replicate 40 98%N) = replicate 40 98%N) as Hb
    by (apply (str_lower_ascii (replicate 40 98%N)); repeat constructor).
  unfold main, self_test, check_version_tag. rewrite Ha, Hb.
  vm_compute. reflexivity.
Qed.
End version.
