(* ===== verification/SourceAudit.v ===== *)
(** * A source package and its audit

    What [package-source.py] writes into its stage after the snapshots, read back: the
    notice, the manifest and the inventory are those that the audit of the archive and
    [source-identity.py] expect. *)

From stdpp Require Import sorting.
From S2P Require Import Prelude PyStr PyDict Codec Regex PyRe Lines PyFloat Json JsonRound Sha256 PyPath.
From S2P Require Import Provenance Archive AuditBase AuditBaseProps AuditText AuditManifest AuditBinary.
From S2P Require Import AuditArchive AuditProps AuditSourceProps EvidenceProps Strip Stage StageProps.
From S2P Require Import Package PackageProps ManifestProps NoticeProps SourcePackage SourceProps SourceIdentity.

Local Open Scope Z_scope.

Definition NOTICE : str := u "DEPENDENCY-NOTICE.txt".

Section source.
Context `{Unicode} `{Digits} `{Lower} `{Digest} `{Tools} `{Archives} `{Tars}.
Context `{Files} `{Host} `{SourceTars} `{Writers} `{SourceGit}.
Context (new_mode : Z).

(** ** The completed stage *)

(** The stage with its notice, and with its manifest. *)
Record completed (i : source_inputs) (s0 s1 s : stage) (commit tree_id : str)
    (dependencies : dict (str * str)) : Prop := {
  cp_snapshots : snapshots i s0 dependencies;
  cp_notice : ∃ data, s1 = dict_set NOTICE (0x1A4, data) s0
    ∧ encode_utf8 (notice_of (source_notice_lines (i_source_ref i) commit tree_id
                              ++ dependency_lines dependencies)) = Some data;
  cp_tree : tree s1;
  cp_manifest : ∃ mode, let m := write_json (JDict (source_manifest (i_version i) (i_source_ref i)
                                                      commit tree_id dependencies s1)) in
    tree (dict_set SOURCE_MANIFEST (mode, m) s1)
    ∧ write_checksums (dict_set SOURCE_MANIFEST (mode, m) s1) = Ok s;
}.

Lemma dict_set_set {A} k (v v' : A) (d : dict A) : dict_set k v (dict_set k v' d) = dict_set k v d.
Proof using.
  induction d as [|[k' w] d IH]; cbn; [by rewrite decide_True|].
  destruct (decide (k' = k)) as [->|Hk]; cbn; [by rewrite decide_True|]. by rewrite decide_False, IH.
Qed.

Lemma stage_source_Ok i s : stage_source new_mode i = Ok s →
  ∃ s0 s1 commit tree_id dependencies,
    stage_snapshots i = Ok (s0, commit, tree_id, dependencies)
    ∧ completed i s0 s1 s commit tree_id dependencies.
Proof using.
  unfold stage_source. intros Hs. apply bind_Ok in Hs as ([[[s0 commit] tree_id] dependencies] & Hsnap & Hs).
  pose proof Hsnap as Hfacts%stage_snapshots_Ok.
  apply bind_Ok in Hs as (s1 & Hn1 & Hs). apply bind_Ok in Hs as (s2 & Hn2 & Hs).
  apply bind_Ok in Hs as (s3 & Hm & Hs). unfold write_text in Hn1, Hn2.
  apply bind_Ok in Hn1 as (d1 & _ & Hp1). apply bind_Ok in Hn2 as (d2 & Hd2%of_option_Ok & Hp2).
  pose proof (put_tree _ _ _ _ _ Hp1 (sn_tree _ _ _ Hfacts)) as T1. pose proof (put_tree _ _ _ _ _ Hp2 T1) as T2.
  apply put_Ok in Hp1 as [_ ->]. apply put_Ok in Hp2 as [_ ->]. rewrite dict_set_set in *.
  exists s0, (dict_set NOTICE (0x1A4, d2) s0), commit, tree_id, dependencies. split; [done|].
  unfold write_manifest, write_file in Hm. pose proof (put_tree _ _ _ _ _ Hm T2) as T3.
  apply put_Ok in Hm as [_ ->]. split; [done|by exists d2|done|]. by eexists.
Qed.

(** ** Where the files are *)

Definition written_names : list str := documents ++ [NOTICE; SOURCE_MANIFEST; SUMS].

Lemma completed_names i s0 s1 s commit tree_id dependencies n :
  completed i s0 s1 s commit tree_id dependencies → n ∈ s.*1 →
  staged_at repository n ∨ in_dependencies n ∨ n ∈ written_names.
Proof using.
  intros [Hsn (d & -> & _) _ (mode & _ & Hw)] Hn. apply write_checksums_Ok in Hw as (sums & _ & _ & ->).
  unfold written_names. repeat (apply dict_set_elem in Hn as [Hn|Hn]; [|right; right; subst n; set_solver]).
  destruct (sn_names _ _ _ Hsn n Hn) as [?|[?|Hd]]; [by left|by right; left|right; right].
  apply elem_of_app. by left.
Qed.

(** The components of a staged name. *)
Lemma source_name_components n :
  staged_at repository n ∨ in_dependencies n ∨ n ∈ written_names → Forall component (split_on 47 n).
Proof using.
  destruct names_components as [Hc Hp].
  assert (∀ directory, directory ≠ [] → Forall component directory → staged_at directory n →
    Forall component (split_on 47 n)) as Hdir.
  { intros directory Hne Hd Hs. destruct (staged_split _ _ Hne Hd Hs) as (parts & Hparts & ->).
    by apply Forall_app. }
  intros [Hs|[[[Hs _]|[Hs _]]|Hn]].
  - by apply (Hdir repository); [|apply repository_components|].
  - by apply (Hdir (third_party core_name)); [|apply third_party_components|].
  - by apply (Hdir (third_party px4_name)); [|apply third_party_components|].
  - clear Hdir. revert n Hn. apply Forall_forall.
    apply (bool_decide_eq_true_1 (Forall (λ n, Forall component (split_on 47 n)) written_names)). by vm_compute.
Qed.

(** C32. A source stage is well formed: its files are a directory tree, and every name is a
    relative path of proper components below [repository/], below a dependency in
    [third_party/], or one of the eight files the packager writes.  A member of a snapshot
    never lands elsewhere. *)
Theorem source_stage_well_formed (i : source_inputs) (s : stage)
    (Hstage : stage_source new_mode i = Ok s) :
  tree s ∧ ∀ name, name ∈ s.*1 →
    Forall component (split_on 47 name)
    ∧ (staged_at repository name ∨ in_dependencies name ∨ name ∈ written_names).
Proof.
  apply stage_source_Ok in Hstage as (s0 & s1 & commit & tree_id & dependencies & _ & Hc). split.
  - destruct Hc as [_ _ _ (mode & Ht & Hw)]. unfold write_checksums, write_text in Hw.
    apply bind_Ok in Hw as (data & _ & Hp). by apply (put_tree _ _ _ _ _ Hp).
  - intros name Hn. pose proof (completed_names _ _ _ _ _ _ _ _ Hc Hn) as Hplace.
    split; [by apply source_name_components|done].
Qed.

(** The manifest describes neither itself nor the checksum list. *)
Lemma described_apart i s0 s1 s commit tree_id dependencies n :
  completed i s0 s1 s commit tree_id dependencies → n ∈ s1.*1 → n ≠ SOURCE_MANIFEST ∧ n ≠ SUMS.
Proof using.
  intros [Hsn (notice & Hs1 & _) _ _]. rewrite Hs1. intros Hn.
  assert (∀ m, bool_decide (m ∈ NOTICE :: documents) = false →
    bool_decide (take 1 (split_on 47 m) = [u "third_party"]) = false →
    bool_decide (take 1 (split_on 47 m) = repository) = false → n ≠ m) as Hne.
  { intros m Hdoc%bool_decide_eq_false Hd%not_dependency Hr ->. apply dict_set_elem in Hn as [Hn|Hn].
    - destruct (sn_names _ _ _ Hsn _ Hn) as [Hs|[Hs|Hs]]; [|done|by apply Hdoc; right].
      revert Hs. by apply not_staged; [|apply repository_components|].
    - apply Hdoc. rewrite Hn. left. }
  split; apply Hne; vm_compute; reflexivity.
Qed.

Lemma readable_described i s0 s1 s commit tree_id dependencies :
  completed i s0 s1 s commit tree_id dependencies → readable_sizes s → readable_sizes s1.
Proof using.
  intros Hc Hs. unfold readable_sizes in *. rewrite Forall_forall in *. intros [n f] Hf. apply (Hs (n, f)).
  assert (n ∈ s1.*1) as Hn by (apply list_elem_of_fmap; by exists (n, f)).
  pose proof (tree_distinct _ (cp_tree _ _ _ _ _ _ _ Hc)) as Hnd.
  destruct (described_apart _ _ _ _ _ _ _ _ Hc Hn) as [Hm Hsum].
  destruct Hc as [_ _ _ (mode & _ & Hw)]. apply write_checksums_Ok in Hw as (sums & _ & _ & ->).
  apply dict_get_Some_elem. rewrite !dict_get_set, !decide_False by done. by apply dict_get_elem.
Qed.

(** ** Reading the manifest back *)

(** Identities as Git prints them. *)
Record identified (commit tree_id : str) (dependencies : dict (str * str)) : Prop := {
  idn_commit : object_id commit = true;
  idn_tree : object_id tree_id = true;
  idn_dependencies : Forall (λ d : str * (str * str), hex40 d.2.1 = true ∧ hex40 d.2.2 = true) dependencies;
}.

Definition source_keys : list str :=
  u <$> ["schema"; "version"; "source_ref"; "dependencies"; "resolved_commit"; "tree"; "libusb_version";
         "libusb_source_url"; "libusb_source_sha256"; "libusb_license"; "linux_linkage";
         "linux_libusb_backend"; "darwin_linkage"; "darwin_libusb_backend"; "firmware_url";
         "firmware_sha256"; "firmware_license_url"; "firmware_license_sha256"; "files"].

Lemma source_manifest_keys version source_ref commit tree_id dependencies s :
  (source_manifest version source_ref commit tree_id dependencies s).*1 = source_keys.
Proof using. reflexivity. Qed.

Lemma source_keys_distinct : NoDup source_keys.
Proof using. apply (bool_decide_eq_true_1 (NoDup source_keys)). by vm_compute. Qed.

Lemma hex40_printable s : hex40 s = true → printable s.
Proof using. intros Hs. apply object_id_printable. unfold object_id. by rewrite Hs. Qed.

Definition dependency_records (dependencies : dict (str * str)) : dict json :=
  (λ d, (d.1, strings [(u "commit", d.2.1); (u "tree", d.2.2)])) <$> dependencies.

Lemma dependency_records_plain dependencies core px4 core_tree px4_tree :
  dependencies = [(core_name, (core, core_tree)); (px4_name, (px4, px4_tree))] →
  Forall (λ d : str * (str * str), hex40 d.2.1 = true ∧ hex40 d.2.2 = true) dependencies →
  plain (JDict (dependency_records dependencies)).
Proof using.
  intros -> Hd. rewrite !Forall_cons in Hd. destruct Hd as ([Hc Hct] & [Hp Hpt] & _).
  cbn [fst snd] in *. apply hex40_printable in Hc, Hct, Hp, Hpt.
  apply plain_literal; [by vm_compute..|].
  repeat (apply Forall_cons_2; [apply plain_literal; [by vm_compute..|];
    repeat (apply Forall_cons_2; [done|]); apply Forall_nil_2|]). apply Forall_nil_2.
Qed.

Lemma source_manifest_plain version source_ref commit tree_id dependencies s :
  printable version → printable source_ref → printable commit → printable tree_id →
  plain (JDict (dependency_records dependencies)) → plain (JDict (file_records s)) →
  plain (JDict (source_manifest version source_ref commit tree_id dependencies s)).
Proof using.
  intros Hv Hr Hc Ht Hd Hf. apply plain_literal.
  - rewrite source_manifest_keys. by vm_compute.
  - rewrite source_manifest_keys. by vm_compute.
  - unfold source_manifest. fold (dependency_records dependencies).
    repeat (apply Forall_cons_2; [cbn [snd]; first [done|apply plain_small; [lia|by vm_compute]
      |apply printableb_spec; by vm_compute]|]). apply Forall_nil_2.
Qed.

Lemma source_manifest_nesting version source_ref commit tree_id dependencies s :
  (nesting (JDict (source_manifest version source_ref commit tree_id dependencies s)) ≤ 4)%nat.
Proof using.
  apply nesting_members. unfold source_manifest. fold (dependency_records dependencies).
  assert (nesting (JDict (dependency_records dependencies)) ≤ 3)%nat as Hd.
  { apply nesting_members. unfold dependency_records. rewrite Forall_fmap. apply Forall_true.
    intros d. apply nesting_strings. }
  assert (nesting (JDict (file_records s)) ≤ 3)%nat as Hf.
  { apply nesting_members. unfold file_records. rewrite Forall_fmap. apply Forall_true. intros f. cbn. lia. }
  repeat (apply Forall_cons_2; [cbn [snd]; first [exact Hd|exact Hf|cbn; lia]|]). apply Forall_nil_2.
Qed.

Lemma source_manifest_get version source_ref commit tree_id dependencies s k v :
  dict_get k (source_manifest version source_ref commit tree_id dependencies s) = Some v →
  dict_get k (norm_members (source_manifest version source_ref commit tree_id dependencies s))
  = Some (norm v).
Proof using.
  intros Hk. rewrite dict_get_norm, Hk; [done|]. rewrite source_manifest_keys. apply source_keys_distinct.
Qed.

(** The notice, line by line. *)
Lemma notice_of_lines fields : notice_of fields = unlines (line_of <$> fields).
Proof using. unfold notice_of, unlines. by rewrite <- list_fmap_compose. Qed.

Lemma printable_unbroken text : printable text → unbroken text.
Proof using.
  intros Ht. eapply Forall_impl; [exact Ht|]. intros c Hc. cbv beta in Hc. unfold is_linebreak.
  apply bool_decide_eq_false. rewrite !elem_of_cons, elem_of_nil. lia.
Qed.

(** ** The archive of a completed stage *)

Section archive.
Context (limit : nat) (i : source_inputs) (s0 s1 s : stage) (commit tree_id : str)
  (dependencies : dict (str * str)) (p : dict bytes).
Context (Hdone : completed i s0 s1 s commit tree_id dependencies) (Hholds : holds s p).
Context (Hids : identified commit tree_id dependencies).
Context (Hversion : fullmatch VERSION_RE (i_version i) = true).
Context (Href : printable (i_source_ref i)) (Href_set : i_source_ref i ≠ []).
Context (Hlibusb : sha256 (i_libusb i) = Ok LIBUSB_SOURCE_SHA256).
Context (Hnames : Forall printable s.*1) (Hsizes : readable_sizes s1) (Hlimit : (4 ≤ limit)%nat).

Definition the_manifest : dict json :=
  source_manifest (i_version i) (i_source_ref i) commit tree_id dependencies s1.

(** A staged file that the notice, the manifest and the checksum list do not replace. *)
Lemma source_completed_get : ∃ notice sums, ∀ n,
  dict_get n p = if decide (SUMS = n) then Some sums
                 else if decide (SOURCE_MANIFEST = n) then Some (write_json (JDict the_manifest))
                 else if decide (NOTICE = n) then Some notice
                 else snd <$> dict_get n s0.
Proof using All.
  destruct Hdone as [Hsn (notice & Hs1 & _) _ (mode & _ & Hw)].
  apply write_checksums_Ok in Hw as (sums & _ & _ & Hs). exists notice, sums. intros n.
  rewrite Hholds, Hs. fold the_manifest. rewrite dict_get_set. case_decide; [done|].
  rewrite dict_get_set. case_decide; [done|]. rewrite Hs1, dict_get_set. by case_decide.
Qed.

Definition written (n : str) : Prop := n ∈ [SUMS; SOURCE_MANIFEST; NOTICE].

Lemma snapshot_get n : bool_decide (written n) = false → dict_get n p = snd <$> dict_get n s0.
Proof using All.
  intros Hn%bool_decide_eq_false. destruct source_completed_get as (notice & sums & Hget).
  rewrite Hget. rewrite !decide_False; [done|..]; intros <-; apply Hn; unfold written; set_solver.
Qed.

Lemma manifest_get : dict_get SOURCE_MANIFEST p = Some (write_json (JDict the_manifest)).
Proof using All.
  destruct source_completed_get as (notice & sums & Hget). by rewrite Hget.
Qed.

Lemma the_manifest_plain : plain (JDict the_manifest).
Proof using All.
  destruct Hids as [Hc Ht Hd]. pose proof (cp_snapshots _ _ _ _ _ _ _ Hdone) as Hsn.
  destruct (sn_dependencies _ _ _ Hsn) as (core & px4 & ct & pt & _ & _ & Hdeps).
  apply source_manifest_plain; [by apply version_printable|done|by apply object_id_printable..| |].
  - by eapply dependency_records_plain.
  - apply file_records_plain; [apply Hdone| |done].
    destruct Hdone as [_ _ _ (mode & _ & Hw)]. apply write_checksums_Ok in Hw as (sums & _ & _ & Hs).
    rewrite Forall_forall in *. intros n Hn. apply Hnames. rewrite Hs.
    rewrite <- dict_keys_elem, elem_of_dict_keys in *. rewrite !dict_get_set. by repeat case_decide.
Qed.

Lemma manifest_parsed : AuditBase.parse_json limit (write_json (JDict the_manifest)) = Ok (norm (JDict the_manifest)).
Proof using All.
  apply parse_written; [apply the_manifest_plain|].
  pose proof (source_manifest_nesting (i_version i) (i_source_ref i) commit tree_id dependencies s1).
  unfold the_manifest. lia.
Qed.

(** [source-identity.py] prints the commit of the snapshot. *)
Lemma identity_read_back : strip (i_source_ref i) ≠ [] →
  resolved_commit limit (dict_get SOURCE_MANIFEST p) = Ok commit.
Proof using All.
  intros Hstrip. rewrite manifest_get. unfold resolved_commit. cbn [of_option mbind res_bind].
  destruct (loads_utf8_line (λ pairs, Ok (dict_of_pairs pairs)) default_constant limit
    (λ pairs Hnd, f_equal Ok (dict_of_pairs_id pairs Hnd)) _ the_manifest_plain) as (text & Hd & Hl & H13).
  { pose proof (source_manifest_nesting (i_version i) (i_source_ref i) commit tree_id dependencies s1).
    unfold the_manifest. lia. }
  unfold write_json. rewrite Hd. cbn [of_option mbind res_bind].
  change (norm (JDict the_manifest)) with (JDict (norm_members the_manifest)) in Hl.
  rewrite newlines_id by done. unfold loads_default. rewrite Hl. cbn [try_except mbind res_bind].
  assert (∀ k v ok, dict_get k the_manifest = Some (JStr v) → ok v = true →
    text_field (norm_members the_manifest) k ok = true) as Hfield.
  { intros k v ok Hk Hok. unfold text_field, the_manifest. by rewrite (source_manifest_get _ _ _ _ _ _ _ _ Hk). }
  rewrite (Hfield (u "source_ref") (i_source_ref i)) by
    (reflexivity || by apply negb_true_iff, bool_decide_eq_false).
  rewrite (Hfield (u "resolved_commit") commit) by (reflexivity || apply Hids).
  rewrite (Hfield (u "tree") tree_id) by (reflexivity || apply Hids).
  assert (dict_get (u "resolved_commit") the_manifest = Some (JStr commit)) as Hc by reflexivity.
  unfold the_manifest in *. by rewrite (source_manifest_get _ _ _ _ _ _ _ _ Hc).
Qed.

(** ** The audit *)

(** What the audit asks of a source package and the packager does not ensure itself: the
    repository's files, those of the dependencies, and names that can be listed. *)
Record source_complete : Prop := {
  sc_required : Forall (λ n, n ∈ dict_keys p)
    [u "repository/Makefile"; u "repository/scripts/build-linux-static.sh";
     u "repository/scripts/build-macos-static.sh"; u "repository/scripts/test-static-relink.sh";
     u "repository/scripts/source-identity.py"];
  sc_licenses : Forall (λ license,
      hexdigest (default [] (dict_get (u "repository/distribution/licenses/"
                                       ++ path_name license.1) p)) = license.2)
    LINUX_RUNTIME_LICENSE_SHA256;
  sc_allowed : ∀ n, n ∈ dict_keys p → staged_at repository n → forbidden_source_member n = false;
  sc_recipe : ∃ rebuild, text_of p relink = Ok rebuild
    ∧ Forall (λ text, contains text rebuild = true) relink_recipe;
  sc_dependencies : Forall (λ name, u "third_party/" ++ name ++ u "/CMakeLists.txt" ∈ dict_keys p
    ∧ u "third_party/" ++ name ++ u "/LICENSE" ∈ dict_keys p) [core_name; px4_name];
  sc_closure : core_closure p;
  sc_listable : ∀ n, n ∈ dict_keys p → n ≠ SUMS → listable n;
}.

Lemma checksums_accepted :
  verify_checksums p = Ok tt ↔ ∀ n, n ∈ dict_keys p → n ≠ SUMS → listable n.
Proof using All.
  destruct Hdone as [_ _ _ (mode & Ht & Hw)]. apply write_checksums_Ok in Hw as (sums & Hd & _ & Hs).
  rewrite Hs in Hholds. rewrite (verify_written _ _ _ Ht Hd Hholds).
  split; intros Hall n Hin Hne; apply Hall; try done.
  - rewrite (holds_keys _ _ Hholds), dict_keys_elem in Hin. by apply dict_set_elem in Hin as [?|?].
  - rewrite (holds_keys _ _ Hholds), elem_of_dict_keys, dict_get_set, decide_False by done.
    by rewrite <- elem_of_dict_keys, dict_keys_elem.
Qed.

Lemma released_complete manifest : source_released limit p manifest → source_complete.
Proof using All.
  intros [[Hreq Hid] Hlic Hn _ Hrec _ Hdeps Hcl _ _ _ Hsums].
  assert (∀ n, bool_decide (n ∈ SOURCE_REQUIRED) = true → n ∈ dict_keys p) as Hr.
  { intros n Hin%bool_decide_eq_true. rewrite Forall_forall in Hreq. by apply Hreq. }
  apply source_dependencies_Ok in Hdeps as (d & core & px4 & _ & _ & _ & [_ Hc] & _ & [_ Hp]).
  split; [|done| |done| |done|].
  - repeat (apply Forall_cons_2; [first [exact Hid|apply Hr; vm_compute; reflexivity]|]). apply Forall_nil_2.
  - intros n Hin _. rewrite Forall_forall in Hn. apply Hn. by apply dict_keys_elem.
  - by repeat (apply Forall_cons_2; [done|]).
  - apply checksums_accepted, verify_checksums_Ok, Hsums.
Qed.

(** Names of the snapshots are no file where a directory is needed. *)
Lemma not_directory directory n : directory ++ u "/" ++ n ∈ dict_keys p → directory ∉ dict_keys p.
Proof using All.
  intros Hn Hd. destruct Hdone as [_ _ _ (mode & Ht & Hw)]. unfold write_checksums, write_text in Hw.
  apply bind_Ok in Hw as (data & _ & Hp%put_tree); [|done]. destruct Hp as [_ Hl].
  rewrite (holds_keys _ _ Hholds), dict_keys_elem in Hn, Hd. specialize (Hl _ _ Hd Hn).
  unfold leads_to in Hl. apply not_true_iff_false in Hl. apply Hl, starts_with_spec. exists n.
  by rewrite <- app_assoc.
Qed.

Lemma staged_below directory n : directory ≠ [] → staged_at directory n → n ≠ join [47%N] directory →
  ∃ rest, n = join [47%N] directory ++ u "/" ++ rest.
Proof using.
  intros Hne ([|w parts] & _ & ->) Hn; [by rewrite app_nil_r in Hn|]. exists (join [47%N] (w :: parts)).
  clear Hn. induction directory as [|d l IH]; [done|]. destruct l as [|d' l]; [done|].
  change ((d :: d' :: l) ++ w :: parts) with (d :: ((d' :: l) ++ w :: parts)).
  rewrite !join_cons by done. rewrite IH by done. by rewrite <- !app_assoc.
Qed.

Lemma version_present : u "repository/VERSION" ∈ dict_keys p.
Proof using All.
  destruct (sn_version _ _ _ (cp_snapshots _ _ _ _ _ _ _ Hdone)) as (mode & data & Hv & _).
  rewrite elem_of_dict_keys, snapshot_get, Hv by (by vm_compute). by eexists.
Qed.

(** Every name is below an expected prefix, and not forbidden. *)
Lemma complete_names : source_complete → ∀ n, n ∈ dict_keys p →
  forbidden_source_member n = false ∧ ∃ prefix rest, prefix ∈ source_prefixes ∧ n = prefix ++ rest.
Proof using All.
  intros Hsc n Hn. pose proof Hn as Hin. rewrite (holds_keys _ _ Hholds), dict_keys_elem in Hin.
  assert (∀ name, name ∈ [core_name; px4_name] → n ≠ join [47%N] (third_party name)) as Hdep.
  { intros name Hname ->. pose proof (sc_dependencies Hsc) as Hd. rewrite Forall_forall in Hd.
    destruct (Hd name Hname) as [Hc _]. revert Hn.
    apply (not_directory (join [47%N] (third_party name)) (u "CMakeLists.txt")).
    replace (_ ++ _) with (u "third_party/" ++ name ++ u "/CMakeLists.txt"); [done|].
    unfold third_party. cbn [join]. by rewrite <- !app_assoc. }
  assert (∀ name, name ∈ [core_name; px4_name] → dependency_place name n →
    forbidden_source_member n = false ∧ ∃ prefix rest, prefix ∈ source_prefixes ∧ n = prefix ++ rest) as Hplace.
  { intros name Hname [Hs Hf]. split; [by apply Hf, Hdep|].
    destruct (staged_below (third_party name) n) as [rest ->]; [done|done|by apply Hdep|].
    exists (u "third_party/"), (name ++ u "/" ++ rest). split.
    - apply (bool_decide_eq_true_1 (u "third_party/" ∈ source_prefixes)). by vm_compute.
    - unfold third_party. cbn [join]. by rewrite <- !app_assoc. }
  destruct (completed_names _ _ _ _ _ _ _ _ Hdone Hin) as [Hr|[[Hc|Hp]|Hw]].
  - split; [by apply (sc_allowed Hsc)|].
    destruct (staged_below repository n) as [rest ->]; [done|done| |].
    + intros ->. revert Hn. apply (not_directory _ (u "VERSION")). exact version_present.
    + exists (u "repository/"), rest. split; [left|done].
  - apply (Hplace core_name); [left|done].
  - apply (Hplace px4_name); [right; left|done].
  - assert (Forall (λ n, forbidden_source_member n = false
      ∧ existsb (λ prefix, starts_with prefix n) source_prefixes = true) written_names) as Hall.
    { repeat (apply Forall_cons_2; [split; vm_compute; reflexivity|]). apply Forall_nil_2. }
    rewrite Forall_forall in Hall. destruct (Hall n Hw) as [Hf (prefix & Hp & [rest ->]%starts_with_spec)%existsb_elem].
    split; [done|]. by exists prefix, rest.
Qed.

Lemma snapshot_present n : bool_decide (written n) = false → is_Some (dict_get n s0) → n ∈ dict_keys p.
Proof using All. intros Hn Hs. by rewrite elem_of_dict_keys, snapshot_get, fmap_is_Some. Qed.

Lemma complete_required : source_complete → Forall (λ n, n ∈ dict_keys p) SOURCE_REQUIRED.
Proof using All.
  intros Hsc. pose proof (cp_snapshots _ _ _ _ _ _ _ Hdone) as Hsn.
  pose proof (sc_required Hsc) as Hreq. rewrite !Forall_cons in Hreq.
  destruct Hreq as (? & ? & ? & ? & _). pose proof (sn_documents _ _ _ Hsn) as Hdoc.
  rewrite !Forall_cons in Hdoc. destruct Hdoc as (Hcopy & Hread & _).
  destruct (sn_license _ _ _ Hsn) as (lm & ld & Hl & _). destruct (sn_relink _ _ _ Hsn) as (f & Hrel & Hreb).
  destruct (sn_libusb _ _ _ Hsn) as (g & Hlib & _).
  destruct source_completed_get as (notice & sums & Hget).
  assert (∀ n, n ∈ [SUMS; SOURCE_MANIFEST; NOTICE] → n ∈ dict_keys p) as Hwritten.
  { apply Forall_forall. repeat (apply Forall_cons_2; [rewrite elem_of_dict_keys, Hget; by eexists|]).
    apply Forall_nil_2. }
  repeat (apply Forall_cons_2; [first
    [done
    |apply snapshot_present; [by vm_compute|first [exact Hcopy|exact Hread|exact (mk_is_Some _ _ Hrel)
        |exact (mk_is_Some _ _ Hreb)|exact (mk_is_Some _ _ Hlib)|exact (mk_is_Some _ _ Hl)]]
    |apply Hwritten; first [left|right; left|right; right; left]]|]).
  apply Forall_nil_2.
Qed.

Lemma pinned_members : has_digest p third_party_libusb LIBUSB_SOURCE_SHA256
  ∧ has_digest p (u "LICENCE.siano") FIRMWARE_LICENSE_SHA256.
Proof using All.
  pose proof (cp_snapshots _ _ _ _ _ _ _ Hdone) as Hsn. unfold has_digest.
  destruct (sn_license _ _ _ Hsn) as (lm & ld & Hl & Hd). destruct (sn_libusb _ _ _ Hsn) as (g & Hlib & Hcp).
  rewrite !snapshot_get by (by vm_compute). rewrite Hl, Hlib. cbn. split; [|by rewrite Hd].
  apply copied_sha256 in Hcp. rewrite Hlibusb in Hcp. by injection Hcp as <-.
Qed.

Lemma pin_not_written name : name ∈ [core_name; px4_name] → bool_decide (written (pin_file name)) = false.
Proof using.
  revert name. apply Forall_forall. repeat (apply Forall_cons_2; [vm_compute; reflexivity|]).
  apply Forall_nil_2.
Qed.

(** The dependencies in the manifest are at their pins. *)
Lemma complete_dependencies : source_complete →
  source_dependencies p (JDict (norm_members the_manifest)) = Ok tt.
Proof using All.
  intros Hsc. pose proof (cp_snapshots _ _ _ _ _ _ _ Hdone) as Hsn. destruct Hids as [_ _ Hhex].
  destruct (sn_dependencies _ _ _ Hsn) as (core & px4 & ct & pt & Hc & Hp & Hdeps).
  pose proof (sc_dependencies Hsc) as Hm. rewrite !Forall_cons in Hm. destruct Hm as (Hmc & Hmp & _).
  rewrite Hdeps, !Forall_cons in Hhex. destruct Hhex as ([_ Hct] & [_ Hpt] & _).
  assert (dict_get (u "dependencies") the_manifest = Some (JDict (dependency_records dependencies))) as Hd by reflexivity.
  apply (source_manifest_get (i_version i)) in Hd.
  assert (∀ name commit' tree', name ∈ [core_name; px4_name] → pinned_at s0 name commit' → hex40 tree' = true →
    u "third_party/" ++ name ++ u "/CMakeLists.txt" ∈ dict_keys p
      ∧ u "third_party/" ++ name ++ u "/LICENSE" ∈ dict_keys p →
    dependency_of p name (norm (strings [(u "commit", commit'); (u "tree", tree')]))) as Hof.
  { intros name commit' tree' Hname (m & data & text & Hpin & Ht & Hstrip & Hx) Htree Hmem.
    split; [|done]. exists [(u "commit", JStr commit'); (u "tree", JStr tree')], text, tree'.
    split_and!; try done.
    - change (u "repository/cmake/" ++ name ++ u ".revision") with (pin_file name).
      rewrite snapshot_get, Hpin; [done|]. apply (pin_not_written name Hname).
    - by rewrite Hstrip.
    - by rewrite Hstrip. }
  apply source_dependencies_Ok. exists (norm_members (dependency_records dependencies)).
  exists (norm (strings [(u "commit", core); (u "tree", ct)])), (norm (strings [(u "commit", px4); (u "tree", pt)])).
  split_and!.
  - exact Hd.
  - rewrite Hdeps. apply set_eq. intros n.
    rewrite dict_keys_elem, (norm_members_keys (dependency_records _)). cbn. set_solver.
  - rewrite Hdeps. reflexivity.
  - apply Hof; [left|done..].
  - rewrite Hdeps. reflexivity.
  - apply Hof; [right; left|done..].
Qed.

Lemma complete_provenance :
  Forall (λ kv, get_eq (norm_members the_manifest) kv.1 kv.2 = true) expected_provenance.
Proof using All.
  assert (∀ k v, dict_get k the_manifest = Some v → norm v = v → py_eq v v = true →
    get_eq (norm_members the_manifest) k v = true) as Hget.
  { intros k v Hk Hn Hv. unfold get_eq, the_manifest. by rewrite (source_manifest_get _ _ _ _ _ _ _ _ Hk), Hn. }
  unfold expected_provenance. cbn [fmap list_fmap fst snd].
  repeat (apply Forall_cons_2; [apply Hget; cbn [fst snd]; [reflexivity|reflexivity|vm_compute; reflexivity]|]).
  apply Forall_nil_2.
Qed.

Lemma complete_identities :
  identities (norm_members the_manifest) (i_version i) (i_source_ref i) commit tree_id.
Proof using All.
  assert (∀ k v, dict_get k the_manifest = Some (JStr v) →
    dict_get k (norm_members the_manifest) = Some (JStr v)) as Hget.
  { intros k v Hk. apply (source_manifest_get _ _ _ _ _ _ _ _ Hk). }
  destruct Hids as [Hc Ht _]. split; (split; [by apply Hget|done]).
Qed.

Definition the_fields : dict str :=
  source_notice_lines (i_source_ref i) commit tree_id ++ dependency_lines dependencies.

Lemma fields_unbroken : Forall (λ kv : str * str, unbroken kv.2) the_fields.
Proof using All.
  destruct Hids as [Hc%object_id_unbroken Ht%object_id_unbroken Hd].
  destruct (sn_dependencies _ _ _ (cp_snapshots _ _ _ _ _ _ _ Hdone)) as (core & px4 & ct & pt & _ & _ & Hdeps).
  rewrite Hdeps in Hd. rewrite !Forall_cons in Hd. destruct Hd as ([H1' H2'] & [H3' H4'] & _). cbn [fst snd] in *.
  apply hex40_printable, printable_unbroken in H1', H2', H3', H4'. apply printable_unbroken in Href.
  unfold the_fields. rewrite Hdeps. unfold source_notice_lines, dependency_lines. cbn [fmap list_fmap concat app].
  repeat (apply Forall_cons_2; [cbn [snd]; first [done|apply unbroken_check; by vm_compute]|]). apply Forall_nil_2.
Qed.

Lemma notice_accepted_fields : ∃ fields,
  (data ← item p NOTICE; notice_fields data) = Ok fields
  ∧ has id (source_fields (i_source_ref i) commit tree_id) fields.
Proof using All.
  destruct Hdone as [Hsn (notice & Hs1 & Henc) _ (mode & _ & Hw)].
  apply write_checksums_Ok in Hw as (sums & _ & _ & Hs).
  assert (dict_get NOTICE p = Some notice) as Hn.
  { rewrite Hholds, Hs, dict_get_set, decide_False, dict_get_set, decide_False, Hs1, dict_get_set, decide_True;
      [done|done|by apply (bool_decide_eq_false_1 (SOURCE_MANIFEST = NOTICE)); vm_compute
      |by apply (bool_decide_eq_false_1 (SUMS = NOTICE)); vm_compute]. }
  exists the_fields. split.
  - unfold item. rewrite Hn. cbn [of_option mbind res_bind]. unfold notice_fields.
    rewrite (decode_encode_utf8 _ _ Henc). cbn [of_option mbind res_bind]. rewrite notice_of_lines.
    destruct (sn_dependencies _ _ _ Hsn) as (core & px4 & ct & pt & _ & _ & Hdeps).
    assert (forallb readable_key the_fields.*1 = true) as Hkeys.
    { unfold the_fields. rewrite Hdeps. vm_compute. reflexivity. }
    rewrite splitlines_unlines.
    + apply (fold_fields []); [done|]. cbn [app]. unfold the_fields. rewrite Hdeps.
      apply (bool_decide_eq_true_1 (NoDup _)). vm_compute. reflexivity.
    + rewrite Forall_fmap. pose proof fields_unbroken as Hu. rewrite forallb_elem in Hkeys.
      rewrite Forall_forall in *. intros kv Hkv. apply line_of_unbroken; [|by apply Hu].
      apply readable_key_unbroken, Hkeys, list_elem_of_fmap. by exists kv.
  - repeat (apply Forall_cons_2; [reflexivity|]). apply Forall_nil_2.
Qed.

Lemma described_get n : n ≠ SOURCE_MANIFEST → n ≠ SUMS → dict_get n p = snd <$> dict_get n s1.
Proof using All.
  intros Hm Hn. destruct Hdone as [_ _ _ (mode & _ & Hw)].
  apply write_checksums_Ok in Hw as (sums & _ & _ & Hs).
  by rewrite Hholds, Hs, !dict_get_set, !decide_False by done.
Qed.

Lemma complete_inventory : source_inventory_of p (norm_members the_manifest).
Proof using All.
  pose proof (tree_distinct _ (cp_tree _ _ _ _ _ _ _ Hdone)) as Hnd.
  assert (dict_get (u "files") the_manifest = Some (JDict (file_records s1))) as Hf by reflexivity.
  apply (source_manifest_get (i_version i)) in Hf. exists (norm_members (file_records s1)).
  split; [exact Hf|]. clear Hf. split.
  - apply set_eq. intros n. rewrite elem_of_difference, not_elem_of_union, !not_elem_of_singleton.
    rewrite dict_keys_elem, (norm_members_keys (file_records s1)), file_records_keys. split.
    + intros Hn. pose proof (described_apart _ _ _ _ _ _ _ _ Hdone Hn) as [Hm Hs]. split; [|done].
      rewrite elem_of_dict_keys, described_get, fmap_is_Some by done.
      by rewrite <- elem_of_dict_keys, dict_keys_elem.
    + intros [Hn [Hm Hs]]. rewrite elem_of_dict_keys, described_get, fmap_is_Some in Hn by done.
      by rewrite <- elem_of_dict_keys, dict_keys_elem in Hn.
  - apply Forall_forall. intros [n record] Hin. cbn [fst snd].
    assert (NoDup (norm_members (file_records s1)).*1) as Hnd'.
    { by rewrite (norm_members_keys (file_records s1)), file_records_keys. }
    apply (dict_get_elem n record) in Hin; [|done].
    rewrite dict_get_norm, dict_get_records in Hin by (done || by rewrite file_records_keys).
    destruct (dict_get n s1) as [[m data]|] eqn:Hn; [|done]. injection Hin as <-.
    assert (n ∈ s1.*1) as Hin by (rewrite <- dict_keys_elem, elem_of_dict_keys, Hn; by eexists).
    apply (described_apart _ _ _ _ _ _ _ _ Hdone) in Hin as [Hm Hs]. exists data. split; [by rewrite described_get, Hn by done|].
    exists [(u "sha256", JStr (hexdigest data)); (u "size", JInt (lenZ data))].
    split; [reflexivity|]. split; [unfold dict_keys; cbn [fmap list_fmap fst]; set_solver|].
    split; [|done]. unfold get_eq. cbn. by apply py_eq_int.
Qed.

(** The archive is a releasable source exactly when it is complete. *)
Lemma complete_released : source_complete → source_released limit p (norm_members the_manifest).
Proof using All.
  intros Hsc. destruct notice_accepted_fields as (fields & Hfields & Hhas).
  destruct (sn_version _ _ _ (cp_snapshots _ _ _ _ _ _ _ Hdone)) as (mode & data & Hv & Hdata).
  pose proof (sc_required Hsc) as Hreq. rewrite !Forall_cons in Hreq. destruct Hreq as (_ & _ & _ & _ & Hid & _).
  split.
  - split; [by apply complete_required|done].
  - apply Hsc.
  - apply Forall_forall. intros n Hn. apply complete_names; [done|by apply dict_keys_elem].
  - apply pinned_members.
  - apply Hsc.
  - unfold item. rewrite manifest_get. apply manifest_parsed.
  - by apply complete_dependencies.
  - apply Hsc.
  - apply complete_provenance.
  - exists (i_version i), (i_source_ref i), commit, tree_id, data, fields. split_and!; try done.
    + apply complete_identities.
    + by rewrite snapshot_get, Hv by (by vm_compute).
  - apply complete_inventory.
  - apply (verify_checksums_Ok p tt), checksums_accepted. apply (sc_listable Hsc).
Qed.
End archive.

(** The checks before the staging. *)
Lemma source_inputs_Ok a i : check_inputs a = Ok i →
  fullmatch VERSION_RE (i_version i) = true ∧ i_source_ref i ≠ []
  ∧ sha256 (i_libusb i) = Ok LIBUSB_SOURCE_SHA256.
Proof using.
  unfold check_inputs. intros Hc. apply bind_Ok in Hc as ([[[[version ref] root] libusb] output] & Ho & Hc).
  apply bind_Ok in Hc as ([] & _ & Hc). rewrite fail_if_then in Hc. destruct Hc as [_ Hc].
  apply bind_Ok in Hc as ([] & Hlib & [= <-]). cbn [i_version i_source_ref i_libusb].
  unfold check_options in Ho. repeat case_match; try done. rewrite fail_if_then, negb_false_iff in Ho.
  destruct Ho as [Hv [= <- <- <- <- <-]]. split; [done|]. split; [done|].
  unfold verify_libusb_archive in Hlib. rewrite fail_if_then in Hlib. destruct Hlib as [_ Hlib].
  apply bind_Ok in Hlib as (digest & Hd & Hlib).
  rewrite fail_if_then, negb_false_iff, bool_decide_eq_true in Hlib. by destruct Hlib as [-> _].
Qed.
End source.
