(* ===== verification/SourceMain.v ===== *)
(** * The source packager as a whole

    A run of [package-source.py] leaves its archive in the output directory and ends well
    exactly when the snapshots are complete; [source-identity.py] then reads the commit of
    the snapshot in the manifest. *)

From stdpp Require Import sorting.
From S2P Require Import Prelude PyStr PyDict Codec Regex PyRe Lines PyFloat Json JsonRound Sha256 PyPath.
From S2P Require Import Provenance Archive ReleaseSamples ReleaseFixture AuditBase AuditBaseProps.
From S2P Require Import AuditText AuditManifest AuditBinary AuditArchive AuditProps AuditSourceProps.
From S2P Require Import EvidenceProps Strip Stage StageProps Package PackageProps ManifestProps NoticeProps.
From S2P Require Import SourcePackage SourceProps SourceAudit SourceIdentity.

Local Open Scope Z_scope.

Section source.
Context `{Unicode} `{Digits} `{Lower} `{Digest} `{Tools} `{Archives} `{Tars}.
Context `{Files} `{Host} `{SourceTars} `{Writers} `{SourceGit}.
Context (limit : nat) (new_mode : Z).

(** A run that stages the snapshot of a commit: the inputs pass the checks, Git prints
    object identifiers, and the names, the source reference and the sizes can be written as
    plain JSON that [json.loads] reads within [limit] nested calls. *)
Record staged_run (a : args) (i : source_inputs) (s : stage) (commit : str) : Prop := {
  run_checked : check_inputs a = Ok i;
  run_staged : stage_source new_mode i = Ok s;
  run_snapshot : ∃ s0 tree_id dependencies,
    stage_snapshots i = Ok (s0, commit, tree_id, dependencies) ∧ identified commit tree_id dependencies;
  run_reference : printable (i_source_ref i);
  run_names : Forall printable s.*1;
  run_sizes : readable_sizes s;
  run_limit : (4 ≤ limit)%nat;
}.

(** The conditions of a run as computations. *)
Lemma staged_run_intro a i s commit :
  check_inputs a = Ok i → stage_source new_mode i = Ok s →
  match stage_snapshots i with
  | Ok (_, commit', tree_id, dependencies) =>
      bool_decide (commit' = commit) && object_id commit && object_id tree_id
      && forallb (λ d : str * (str * str), hex40 d.2.1 && hex40 d.2.2) dependencies
  | Err _ => false
  end = true →
  printableb (i_source_ref i) = true → forallb printableb s.*1 = true →
  forallb (λ f : str * (Z * bytes), length (dec_Z (lenZ f.2.2)) <=? 4300)%nat s = true →
  (4 ≤ limit)%nat → staged_run a i s commit.
Proof using.
  intros Hcheck Hstage Hs Href Hnames Hsizes Hlim. split; [done|done| | | | |done].
  - destruct (stage_snapshots i) as [[[[s0 commit'] tree_id] dependencies]|]; [|done].
    rewrite !andb_true_iff, bool_decide_eq_true, forallb_elem in Hs. destruct Hs as [[[-> Hc] Ht] Hd].
    exists s0, tree_id, dependencies. split; [done|]. split; [done|done|].
    apply Forall_forall. intros d Hin. by apply andb_true_iff, Hd.
  - by apply printableb_spec.
  - apply Forall_forall. intros n Hn. apply printableb_spec. rewrite forallb_elem in Hnames. by apply Hnames.
  - apply Forall_forall. intros f Hf. apply Nat.leb_le. rewrite forallb_elem in Hsizes. apply Hsizes, Hf.
Qed.

(** The completed stage of a run. *)
Lemma staged_run_completed a i s commit : staged_run a i s commit →
  ∃ s0 s1 tree_id dependencies, stage_snapshots i = Ok (s0, commit, tree_id, dependencies)
    ∧ completed i s0 s1 s commit tree_id dependencies
    ∧ identified commit tree_id dependencies ∧ readable_sizes s1.
Proof using.
  intros Hrun. destruct (run_snapshot _ _ _ _ Hrun) as (s0 & tree_id & dependencies & Hsnap & Hids).
  destruct (stage_source_Ok _ _ _ (run_staged _ _ _ _ Hrun)) as (s0' & s1 & c' & t' & d' & Hsnap' & Hc).
  rewrite Hsnap in Hsnap'. injection Hsnap' as <- <- <- <-.
  exists s0, s1, tree_id, dependencies. split_and!; [done..|].
  eapply readable_described; [exact Hc|apply Hrun].
Qed.

Lemma source_main_Ok a i s printed : check_inputs a = Ok i → stage_source new_mode i = Ok s →
  SourcePackage.main limit new_mode a = (Some (i_output i, write_deterministic_tar s), Ok printed) ↔
  printed = i_output i ++ [10%N]
  ∧ is_Ok (audit_source_archive limit (i_output i) (Some (write_deterministic_tar s))).
Proof using.
  intros Hc Hs. unfold SourcePackage.main. rewrite Hc. cbn [mbind res_bind]. rewrite Hs. cbn [mbind res_bind]. split.
  - intros [= H']. apply bind_Ok in H' as (r & Hr & [= <-]). split; [done|by exists r].
  - intros (-> & r & Hr). rewrite Hr. done.
Qed.

(** C33. A source package passes its audit exactly when the snapshots are complete: the
    repository has the build files, the licenses and the relink recipe, the dependencies
    have theirs with the closure of the core's build, no name of the repository is
    forbidden and every name can be listed.  Everything else the audit asks holds by
    construction: the members' places, the pinned libusb and license, the dependencies at
    their pins, the manifest with its provenance, identities and records, the notice, and
    the checksums.  (Reading an archive gives back what was written.) *)
Theorem source_package_passes_audit (a : args) (i : source_inputs) (s : stage) (commit printed : str)
    (st : payload_state)
    (Hrun : staged_run a i s commit)
    (Hread : archive_payloads (i_output i) (Some (write_deterministic_tar s)) = Ok st)
    (Hback : holds s (payloads st)) :
  SourcePackage.main limit new_mode a = (Some (i_output i, write_deterministic_tar s), Ok printed) ↔
  printed = i_output i ++ [10%N] ∧ source_complete (payloads st).
Proof using All.
  destruct (staged_run_completed _ _ _ _ Hrun) as (s0 & s1 & tree_id & dependencies & _ & Hc & Hids & Hsz).
  destruct Hrun as [Hcheck Hstage _ Href Hnames _ Hlim].
  rewrite (source_main_Ok a i s printed Hcheck Hstage).
  apply source_inputs_Ok in Hcheck as (Hv & Hne & Hlib).
  split; intros [-> Hok]; (split; [done|]).
  - destruct Hok as [[members manifest] (st' & Hst & _ & Hr)%audit_source_archive_inv].
    rewrite Hread in Hst. injection Hst as <-.
    by apply (released_complete new_mode limit i s0 s1 s commit tree_id dependencies (payloads st) Hc Hback Hids
      Hv Href Hne Hlib Hnames Hsz Hlim manifest).
  - eexists. eapply audit_source_archive_intro; [exact Hread|].
    by apply (complete_released new_mode limit i s0 s1 s commit tree_id dependencies (payloads st) Hc Hback Hids
      Hv Href Hne Hlib Hnames Hsz Hlim).
Qed.

(** C34. The identity round trip: on the manifest that a run of the source packager stages,
    [source-identity.py] prints the commit that Git resolved for the snapshot. *)
Theorem source_identity_round_trip (a : args) (i : source_inputs) (s : stage) (commit path : str)
    (open : str → option bytes)
    (Hrun : staged_run a i s commit)
    (Hset : strip (i_source_ref i) ≠ [])
    (Hopen : open path = snd <$> dict_get SOURCE_MANIFEST s) :
  SourceIdentity.main limit open [path] = Ok (0, commit ++ [10%N]).
Proof using All.
  destruct (staged_run_completed _ _ _ _ Hrun) as (s0 & s1 & tree_id & dependencies & _ & Hc & Hids & Hsz).
  destruct Hrun as [Hcheck Hstage _ Href Hnames _ Hlim]. apply source_inputs_Ok in Hcheck as (Hv & Hne & Hlib).
  unfold SourceIdentity.main. rewrite Hopen, <- (contents_holds s).
  rewrite (identity_read_back new_mode limit i s0 s1 s commit tree_id dependencies (contents s) Hc (contents_holds s)
    Hids Hv Href Hne Hlib Hnames Hsz Hlim Hset). done.
Qed.
End source.

(** ** A sample run *)

(** A digest for which a file that holds 64 hexadecimal digits has them as its digest. *)
Definition sample_hex (data : bytes) : str :=
  if hex64 (bn <$> data) then bn <$> data else length_hex data.
Lemma source_hex_ok data : hex64 (sample_hex data) = true.
Proof. unfold sample_hex. destruct (hex64 (bn <$> data)) eqn:Hd; [done|apply length_hex_ok]. Qed.
Definition sample_digest : Digest := {| hexdigest := sample_hex; hexdigest_hex := source_hex_ok |}.

#[local] Existing Instances ascii_unicode sample_digits sample_lower sample_digest.

Definition sample_id : str := replicate 40 97%N.
Definition sample_args : args :=
  Args (Some (u "1.2.3")) (Some (u "v1")) (Some (u "/src")) (Some (u "/libusb-1.0.30.tar.bz2"))
    (Some (u "/out")) None None.

Definition sample_member (name : str) (data : bytes) : tree_info :=
  TreeInfo (TarInfo name 0x1A4 (lenZ data) true false (Ok (Some (Stream data None)))) false false.

(** The repository, with the licenses of the runtime, and the dependencies. *)
Definition sample_repository : list tree_info :=
  ((λ license : str * str, sample_member (u "distribution/licenses/" ++ path_name license.1) (nb <$> license.2))
     <$> LINUX_RUNTIME_LICENSE_SHA256)
  ++ [sample_member (u "VERSION") (b "1.2.3" ++ [x0a]);
      sample_member (u "LICENCE.siano") (nb <$> FIRMWARE_LICENSE_SHA256);
      sample_member (u "cmake/dtv-userland-core.revision") (nb <$> sample_id ++ [13%N; 10%N]);
      sample_member (u "cmake/px4-userland.revision") (nb <$> sample_id);
      sample_member (u "packaging/REBUILD.md")
        (b "--disable-shared --enable-static --disable-udev test-static-relink.sh build-macos-static.sh")]
  ++ ((λ name, sample_member (u name) (b "text")) <$>
      ["COPYING"; "README.md"; "Makefile"; "scripts/build-linux-static.sh"; "scripts/build-macos-static.sh";
       "scripts/test-static-relink.sh"; "scripts/source-identity.py"])%string.
Definition sample_dependency : list tree_info :=
  [sample_member (u "CMakeLists.txt") (b "cmake"); sample_member (u "LICENSE") (b "text")].

Definition sample_git : SourceGit := {|
  git_print _ arguments :=
    if decide (head arguments = Some (u "show")) then Ok (b "1.2.3" ++ [x0a])
    else Ok (nb <$> sample_id ++ [10%N]);
  git_archive root _ := Ok (nb <$> root) |}.
Definition sample_sources : SourceTars := {|
  bz_members _ := Ok [sample_member (u "libusb-1.0.30/COPYING") (b "LGPL")];
  plain_members tar := Ok (if decide (tar = b "/src") then sample_repository else sample_dependency) |}.
Definition sample_files : Files := {|
  node_at name := if decide (name = u "/libusb-1.0.30.tar.bz2")
                  then Node false (Some (0x81A4, nb <$> LIBUSB_SOURCE_SHA256)) else Node false None |}.
Definition sample_host : Host := {| exists_at _ := false; make_dirs _ := Ok tt |}.
Definition sample_tools : Tools := {|
  which _ := None; getenv _ := None; resolve path := path; exec _ _ _ := Err (OSError "no tool") |}.
Definition sample_writers : Writers := {| tar_gz _ := b "archive"; zip _ := b "archive" |}.
#[local] Existing Instances sample_git sample_sources sample_files sample_host sample_tools sample_writers.

Definition sample_output : str := u "/out/siano-ts-1.2.3-source.tar.gz".
Definition sample_inputs : source_inputs :=
  SourceInputs (u "1.2.3") (u "v1") (u "/src") (u "/libusb-1.0.30.tar.bz2") sample_output None None.
Definition sample_stage : stage := Eval vm_compute in
  match stage_source 0x1A4 sample_inputs with Ok s => s | Err _ => [] end.

(** The reader gives the members back. *)
Definition sample_archives : Archives := {| zip_open _ := Ok []; tar_open _ := ([], None) |}.
Definition sample_tars : Tars := {| tar_members _ := Ok ((λ f : str * (Z * bytes),
  TarInfo f.1 (Z.land f.2.1 0xFFF) (lenZ f.2.2) true false (Ok (Some (Stream f.2.2 None))))
  <$> sorted_files sample_stage) |}.
#[local] Existing Instances sample_archives sample_tars.

Definition sample_payloads : payload_state :=
  PayloadState (contents (sorted_files sample_stage))
    ((λ f : str * (Z * bytes), (f.1, Z.land f.2.1 0xFFF)) <$> sorted_files sample_stage).

Lemma source_sample_staged : stage_source 0x1A4 sample_inputs = Ok sample_stage.
Proof. vm_compute. reflexivity. Qed.

Lemma sample_run : staged_run 4 0x1A4 sample_args sample_inputs sample_stage sample_id.
Proof.
  apply staged_run_intro; [|apply source_sample_staged|..|lia]; vm_compute; reflexivity.
Qed.

Lemma source_sample_read :
  archive_payloads sample_output (Some (write_deterministic_tar sample_stage)) = Ok sample_payloads.
Proof. vm_compute. reflexivity. Qed.

Lemma sample_back : holds sample_stage (payloads sample_payloads).
Proof.
  assert (NoDup sample_stage.*1) as Hnd
    by (apply (bool_decide_eq_true_1 (NoDup sample_stage.*1)); vm_compute; reflexivity).
  intros name. rewrite <- (dict_get_perm name (sorted_files sample_stage)); [|by rewrite sorted_files_perm|apply sorted_files_perm].
  apply contents_holds.
Qed.

Lemma source_identity_round_trip_witness :
  SourceIdentity.main 4 (λ _, snd <$> dict_get SOURCE_MANIFEST sample_stage) [u "source-manifest.json"]
  = Ok (0, sample_id ++ [10%N]).
Proof.
  apply (source_identity_round_trip 4 0x1A4 sample_args sample_inputs sample_stage sample_id _ _ sample_run);
    [by vm_compute|reflexivity].
Defined.

(** The snapshots of the sample are complete. *)
Lemma sample_complete : source_complete (payloads sample_payloads).
Proof.
  pose (names := sample_stage.*1).
  assert (∀ n, n ∈ dict_keys (payloads sample_payloads) ↔ n ∈ names) as Hin.
  { intros n. rewrite (holds_keys _ _ sample_back), dict_keys_elem. done. }
  assert (∀ P : str → Prop, Forall P names → ∀ n, n ∈ dict_keys (payloads sample_payloads) → P n) as Hall.
  { intros P HP n Hn%Hin. revert n Hn. by apply Forall_forall. }
  split.
  - apply (Forall_impl (λ n, n ∈ names)); [|intros; by apply Hin].
    apply (bool_decide_eq_true_1 (Forall (λ n, n ∈ names) _)). vm_compute. reflexivity.
  - apply (bool_decide_eq_true_1 (Forall _ _)). vm_compute. reflexivity.
  - intros n Hn _. revert n Hn. apply Hall, (bool_decide_eq_true_1 (Forall _ _)). vm_compute. reflexivity.
  - eexists. split; [by vm_compute|]. apply (bool_decide_eq_true_1 (Forall _ _)). vm_compute. reflexivity.
  - apply (Forall_impl (λ name, (u "third_party/" ++ name ++ u "/CMakeLists.txt") ∈ names
      ∧ (u "third_party/" ++ name ++ u "/LICENSE") ∈ names)); [|intros ? []; split; by apply Hin].
    apply (bool_decide_eq_true_1 (Forall _ _)). vm_compute. reflexivity.
  - eexists. split; [by vm_compute|]. apply (bool_decide_eq_true_1 (Forall _ _)). vm_compute. reflexivity.
  - intros n Hn Hs. revert n Hn Hs. apply (Hall (λ n, n ≠ SUMS → listable n)).
    assert (Forall (λ n, n = SUMS ∨ listable n) names) as Hl.
    { unfold listable, ascii, unbroken. apply (bool_decide_eq_true_1 (Forall _ _)). vm_compute. reflexivity. }
    eapply Forall_impl; [exact Hl|]. intros n [?|?]; done.
Qed.

Lemma source_package_passes_audit_witness :
  SourcePackage.main 4 0x1A4 sample_args
    = (Some (sample_output, write_deterministic_tar sample_stage), Ok (sample_output ++ [10%N])).
Proof.
  apply (source_package_passes_audit 4 0x1A4 sample_args sample_inputs sample_stage sample_id
    (sample_output ++ [10%N]) sample_payloads sample_run source_sample_read sample_back).
  split; [reflexivity|apply sample_complete].
Defined.

Lemma source_stage_well_formed_witness :
  tree sample_stage ∧ ∀ name, name ∈ sample_stage.*1 →
    Forall component (split_on 47 name)
    ∧ (staged_at repository name ∨ in_dependencies name ∨ name ∈ written_names).
Proof. exact (source_stage_well_formed 0x1A4 sample_inputs sample_stage source_sample_staged). Defined.
