(* ===== verification/Workflow.v ===== *)
(** * The release workflows: [scripts/check-workflow-invariants.py]

    The checks of the workflow files, the Windows makefile and the build scripts.  Each
    returns the lines of its complaints, in order; the command passes when there are none.
    In the texts of this file a backquote stands for a double quote. *)

From S2P Require Import Prelude PyStr PyDict Codec Regex PyRe AuditBase Stage.

(** ** Texts *)

(** A text with double quotes. *)
Definition uq (s : string) : str := (λ c, if (c =? 96)%N then 34%N else c) <$> u s.
Definition TextQ (s : string) : pat := foldr (λ c p, Seq (Class_ (N.eqb c)) p) Nothing (uq s).

Definition has (needle : string) (text : str) : bool := contains (uq needle) text.
(** One of the texts is not in the text. *)
Definition lacks (needles : list string) (text : str) : bool :=
  existsb (λ needle, negb (has needle text)) needles.

(** [text.find(needle)]. *)
Definition find_at (needle : string) (text : str) : Z :=
  match find (uq needle) text with Some i => Z.of_nat i | None => -1 end.

(** [text.count(needle)]: occurrences that do not overlap. *)
Fixpoint count_go (skip : nat) (needle s : str) : nat :=
  match s with
  | [] => 0
  | _ :: s' =>
      match skip with
      | S skip => count_go skip needle s'
      | O => if starts_with needle s then S (count_go (length needle - 1) needle s')
             else count_go 0 needle s'
      end
  end.
Definition count (needle : string) (text : str) : nat := count_go 0 (uq needle) text.

(** [text.split(sep, 1)[-1]] and [text.split(sep, 1)[0]]. *)
Definition after_first (sep : string) (text : str) : str :=
  match find (uq sep) text with Some i => drop (i + length (uq sep)) text | None => text end.
Definition before_first (sep : string) (text : str) : str :=
  match find (uq sep) text with Some i => take i text | None => text end.

(** [if c: errors.append(message)]. *)
Definition report (c : bool) (message : str) : list str := if c then [message] else [].

(** ** Patterns *)

(** The word characters [\w] of Python's [re]. *)
Class Word := {
  word_char : N → bool;
  word_char_ascii c : (c < 128)%N → word_char c =
    (is_digit c || (65 <=? c) && (c <=? 90) || (97 <=? c) && (c <=? 122) || (c =? 95))%N;
}.

(** [^  [^ \n][^:]*:]: the first line of a job. *)
Definition job_header : pat :=
  Seq LineStart (Seq (Text "  ") (Seq (Class_ (λ c, negb (one_of [32; 10] c)))
    (Seq (Many (Class_ (λ c, negb (c =? 58)))) (Text ":"))))%N.

Definition job_line (job_id : str) : str := u "  " ++ job_id ++ [58; 10]%N.

(** [(?ms)^  JOB:\n.*?(?=^  [^ \n][^:]*:|\Z)] *)
Definition job_pattern (job_id : str) : pat :=
  Seq LineStart (Seq (foldr (λ c p, Seq (Class_ (N.eqb c)) p) Nothing (job_line job_id))
    (Seq (Few anything) (Ahead (Or job_header TextEnd)))).

(** [workflow_job(text, job_id)]; [None] is its [ValueError]. *)
Definition workflow_job (text job_id : str) : option str :=
  groups ← re_search (Group (job_pattern job_id)) text;
  head groups.

Definition missing_job (prefix job_id : str) : list str :=
  [prefix ++ u ": missing workflow job: " ++ job_id].

(** A check of a job: a missing job is its only complaint. *)
Definition with_job (prefix text job_id : str) (checks : str → list str) : list str :=
  match workflow_job text job_id with
  | Some job => checks job
  | None => missing_job prefix job_id
  end.

Definition blank : pat := Class_ (one_of [32; 9]%N).
(** [(?m)^[ \t]+docker run --rm[^\n]*] *)
Definition docker_run : pat :=
  Seq LineStart (Seq (Some_ blank) (Seq (Text "docker run --rm") (Many not_newline))).

(** The text from each start to the next one. *)
Fixpoint cuts (starts : list nat) (text : str) : list str :=
  match starts with
  | [] => []
  | a :: later => take (default (length text) (head later) - a) (drop a text) :: cuts later text
  end.

Definition build_container_blocks (text : str) : list str := cuts (re_starts docker_run text) text.

(** ** Jobs on Windows *)

Section workflows.
Context `{Lower} `{Word}.

Definition check_windows (text path : str) : list str :=
  with_job path text (u "windows") (λ job,
    let e c message := report c (path ++ u ": Windows job must " ++ u message) in
    let helper_at := find_at "reproducible-windows-build.ps1" job in
    let help_at := find_at "siano-ts.exe --help" job in
    let audit_at := find_at "audit-artifact.py --platform windows-x64" job in
    let upload_at := find_at "uses: actions/upload-artifact@" job in
    e (lacks ["runs-on: windows-2022"] job) "use windows-2022" ++
    e (lacks ["reproducible-windows-build.ps1"] job) "run the reproducibility helper" ++
    e (lacks ["siano-ts.exe --help"] job) "smoke-test the second build" ++
    e (lacks ["nmake /f Makefile.win test"] job) "execute the MSVC C unit tests" ++
    e (lacks ["audit-artifact.py --platform windows-x64"] job) "audit the second build" ++
    e (lacks ["uses: actions/upload-artifact@"; "name: bin-windows-x64"] job)
      "upload the audited binary artifact" ++
    report (negb ((0 <=? helper_at) && (helper_at <? help_at) && (help_at <? audit_at)
                  && (audit_at <? upload_at))%Z)
      (path ++ u ": Windows reproducibility, smoke test, audit, and upload must be ordered") ++
    e (lacks ["libusb-1.0.30.7z"] job) "fetch pinned libusb 1.0.30 package").

Definition release_error (c : bool) (message : string) : list str :=
  report c (u "release.yml: " ++ u message).

Definition check_release_version_guard (release : str) : list str :=
  with_job (u "release.yml") release (u "preflight") (λ preflight,
    release_error (lacks ["git fetch --force --tags origin"] preflight)
      "preflight must fetch authoritative tags" ++
    release_error (lacks ["scripts/check-release-version.py"; "GITHUB_SHA"] preflight)
      "preflight must compare VERSION tag with source commit" ++
    release_error (lacks ["actions/checkout@"; "fetch-depth: 0"] preflight)
      "preflight must checkout source with complete history").

Definition edge : pat := WordEdge word_char.
(** [(?m)^CFLAGS\s*=.*\s/Brepro(?:\s|$)] *)
Definition cflags_brepro : pat :=
  Seq LineStart (Seq (Text "CFLAGS") (Seq (Many space) (Seq (Text "=") (Seq (Many not_newline)
    (Seq space (Seq (Text "/Brepro") (Or space LineEnd))))))).
(** [(?m)^test:.*\bPROGRAM\.exe\b] *)
Definition test_builds (program : string) : pat :=
  Seq LineStart (Seq (Text "test:") (Seq (Many not_newline) (Seq edge
    (Seq (Text program) (Seq (Text ".exe") edge))))).
(** [(?m)^\s*\.\\PROGRAM\.exe\s*$] *)
Definition test_runs (program : string) : pat :=
  Seq LineStart (Seq (Many space) (Seq (Text ".\") (Seq (Text program) (Seq (Text ".exe")
    (Seq (Many space) LineEnd))))).

Definition check_windows_makefile (text : str) : list str :=
  let e c message := report c (u "Makefile.win: " ++ u message) in
  e (negb (searches cflags_brepro text)) "CFLAGS must enable /Brepro" ++
  e (lacks ["-DCMAKE_EXE_LINKER_FLAGS=`/Brepro`"; "--target sianod sianoctl siano_wire_ts"] text)
    "all three CMake programs must link with /Brepro" ++
  e (negb (searches (test_builds "test-control-input") text))
    "Windows test target must build control-input pipe tests" ++
  e (negb (searches (test_runs "test-control-input") text))
    "Windows test target must run control-input pipe tests" ++
  e (negb (searches (test_builds "test-write-policy") text))
    "Windows test target must build write boundary tests" ++
  e (negb (searches (test_runs "test-write-policy") text))
    "Windows test target must run write boundary tests".

(** [[0-9a-f]{64}  siano-ts\.exe\n?] *)
Definition BASELINE_LINE : re :=
  Cat (rep 64 lower_hex) (Cat (lit (u "  siano-ts.exe")) (opt (Chr (N.eqb 10)))).

Definition baseline_conditions : list string :=
  ["git -C $root ls-files"; "git -C $inputRoot ls-files";
   "@('sianod.exe', 'sianoctl.exe', 'siano-ts.exe')"; "foreach ($program in $programs)";
   "$firstBytes[$index] -ne $secondBytes[$index]"; "$firstBytes.Length -ne $secondBytes.Length";
   "actualHash"].

(** [text.replace(BACKSLASH, SLASH)]. *)
Definition slashes (text : str) : str := (λ c, if (c =? 92)%N then 47%N else c) <$> text.

Definition check_helper (helper helper_text : str) : list str :=
  let e c message := report c (helper ++ u ": " ++ u message) in
  e (lacks ["packaging/windows-baseline.sha256"] (slashes helper_text))
    "must reference the Windows baseline file" ++
  e (lacks ["Get-FileHash"; "-Algorithm SHA256"] helper_text)
    "must hash the generated EXE with SHA-256" ++
  e (lacks ["legacyBaselineHash"] helper_text) "must retain the historical standalone baseline" ++
  concat ((λ condition, report (lacks [condition] helper_text)
    (helper ++ u ": missing three-program exact-input reproducibility condition: " ++ uq condition))
    <$> baseline_conditions).
End workflows.

(** ** Files *)

(** [path.open("rb")] and its bytes; the exception's text is the one it prints. *)
Class TextFiles := { file_bytes : str → res bytes }.

Section files.
Context `{TextFiles}.

Definition read_text (path : str) : res str := data ← file_bytes path; read_text_utf8 data.

(** Reads a text; an [OSError] is a complaint. *)
Definition with_text (path : str) (complaint : str) (checks : str → res (list str))
    : res (list str) :=
  match read_text path with
  | Ok text => checks text
  | Err (OSError e) => Ok [path ++ complaint ++ u e]
  | Err e => Err e
  end.

Definition check_windows_baseline (baseline helper : str) : res (list str) :=
  with_text baseline (u ": cannot read Windows baseline: ") (λ baseline_text,
    helper_errors ← with_text helper (u ": cannot read Windows reproducibility helper: ")
      (λ helper_text, Ok (check_helper helper helper_text));
    Ok (report (negb (fullmatch BASELINE_LINE baseline_text))
          (baseline ++ u ": must contain one lowercase SHA-256 line for siano-ts.exe")
        ++ helper_errors)).
End files.

(** ** The macOS jobs *)

Section jobs.
Context `{Lower} `{Word}.

(** [strip_bin``[^\n]*\s-N\b], with one double quote. *)
Definition strip_n : pat :=
  Seq (TextQ "strip_bin`") (Seq (Many not_newline) (Seq space (Seq (Text "-N") edge))).

Definition check_macos_strip (text path build_script : str) : list str :=
  with_job path text (u "macos") (λ job,
    let e c message := report c (path ++ u ": macOS job must " ++ u message) in
    let s c message := report c (u "build-macos-static.sh: must " ++ u message) in
    e (lacks ["scripts/build-macos-static.sh"] job) "build with scripts/build-macos-static.sh" ++
    e (has "brew install" job) "not install Homebrew libusb" ++
    e (lacks ["otool -L build/darwin-arm64/siano-ts"] job)
      "print the release binary's dylib load commands" ++
    e (lacks ["command -v otool"; "command -v lipo"; "command -v nm"] job)
      "verify native otool/lipo/nm availability" ++
    s (lacks ["xcrun --find strip"; "-S -x `$build_root/$program`";
              "for program in sianod sianoctl siano-ts; do"] build_script)
      "use Apple strip -S -x" ++
    s (searches strip_n build_script) "not use Apple strip -N" ++
    s (lacks ["`$build_root/$program` --help"] build_script) "smoke-test all stripped binaries" ++
    s (lacks ["audit-artifact.sh` --platform darwin-arm64"] build_script)
      "audit the stripped binary").

(** The text of a job from its [needs:] to its [runs-on:]. *)
Definition needs (job : str) : str := before_first "runs-on:" (after_first "needs:" job).

Definition check_macos_release (release : str) : list str :=
  with_job (u "release.yml") release (u "source-relink-darwin-arm64") (λ relink_job,
  with_job (u "release.yml") release (u "package") (λ package_job,
    let darwin_lines := filter
      (λ line, has "scripts/package-artifact.sh --platform darwin-arm64" line = true)
      (splitlines package_job) in
    release_error (lacks ["runs-on: macos-14"; "test-static-relink.sh"; "--arch arm64"] relink_job)
      "macOS relink job must run test-static-relink.sh --arch arm64 on macos-14" ++
    release_error (lacks ["source-relink-darwin-arm64"] (needs package_job))
      "package job must depend on the macOS relink job" ++
    release_error (match darwin_lines with
                   | [line] => lacks ["--libusb-source-archive"] line
                   | _ => true
                   end) "macOS package must carry the libusb source archive")).

(** ** The packaged archives *)

Definition check_packaged_runtime (text path job_id artifact_name : str) : list str :=
  with_job path text job_id (λ job,
    let e c message := report c (path ++ u ": " ++ job_id ++ u " " ++ message) in
    let checkout_at := find_at "actions/checkout@" job in
    let download_at := find_at "actions/download-artifact@" job in
    e (lacks ["actions/download-artifact@"] job || negb (contains (u "name: " ++ artifact_name) job))
      (u "must download " ++ artifact_name) ++
    e ((checkout_at <? 0) || (download_at <? 0) || (download_at <? checkout_at))%Z
      (u "must checkout before downloading its archive") ++
    e (lacks ["scripts/test-packaged-linux.sh"] job)
      (u "must use the final-archive runtime helper") ++
    e (lacks ["Ubuntu glibc"] job) (u "lacks Ubuntu glibc archive smoke") ++
    e (lacks ["Alpine musl"] job) (u "lacks Alpine musl archive smoke") ++
    e (lacks ["alpine:3.22"] job) (u "must pin Alpine runtime to alpine:3.22") ++
    (if ends_with (u "aarch64") job_id then
       e (lacks ["runs-on: ubuntu-24.04-arm"] job) (u "must use the native arm64 runner") ++
       e (lacks ["native arm64"] job) (u "must identify native arm64 runtime smoke") ++
       e (has "qemu" (str_lower job)) (u "must not use QEMU")
     else e (lacks ["runs-on: ubuntu-24.04"] job) (u "must use the x86_64 Ubuntu runner")) ++
    e (has "HAOS" job || has "hardware" (str_lower job))
      (u "must not claim HAOS hardware validation")).

Definition check_ci_packaging (text path : str) : list str :=
  with_job path text (u "package-linux") (λ job,
    let e c message := report c (path ++ u ": package-linux " ++ u message) in
    let checkout_at := find_at "actions/checkout@" job in
    let download_at := find_at "actions/download-artifact@" job in
    e (lacks ["pattern: bin-linux-*"] job) "must download both Linux build artifacts" ++
    e ((checkout_at <? 0) || (download_at <? 0) || (download_at <? checkout_at))%Z
      "must checkout before downloading build artifacts" ++
    e (negb (count "scripts/package-artifact.sh --platform linux-" job =? 2))
      "must assemble both Linux archives" ++
    e (lacks ["apt-get install"; "binutils"] job) "lacks archive audit binutils" ++
    e (lacks ["name: packaged-linux"] job) "must upload packaged-linux").

(** ** The Android jobs *)

(** [(?ms)^\s*- abi: x86_64\s*\n\s*packageable: true\s*$] *)
Definition packageable_x86_64 : pat :=
  Seq LineStart (Seq (Many space) (Seq (Text "- abi: x86_64") (Seq (Many space)
    (Seq (Class_ (N.eqb 10)) (Seq (Many space) (Seq (Text "packageable: true")
      (Seq (Many space) LineEnd))))))).
(** [abi:\s*\[aarch64, armv7a, x86_64\]] *)
Definition all_abis : pat :=
  Seq (Text "abi:") (Seq (Many space) (Text "[aarch64, armv7a, x86_64]")).

Definition android_audit : list string :=
  ["scripts/build-android.sh"; "scripts/audit-artifact.sh --platform android-${{ matrix.abi }}"].

(** The 160 characters before the upload, or as many as there are. *)
Definition before_upload (job : str) (upload_at : Z) : str :=
  slice (Z.max 0 (upload_at - 160)) upload_at job.

Definition check_ci_android (ci_job : str) : list str :=
  let e c message := report c (u "ci.yml: Android " ++ u message) in
  let upload_at := find_at "uses: actions/upload-artifact@" ci_job in
  e (negb (searches packageable_x86_64 ci_job)) "x86_64 matrix entry must be packageable" ++
  e (lacks android_audit ci_job) "matrix must build and run the full artifact audit" ++
  e ((upload_at <? 0)%Z || lacks ["if: matrix.packageable"] (before_upload ci_job upload_at))
    "artifact upload must be conditional on packageable" ++
  e (has "packageable: false" ci_job) "matrix must not retain a build-only ABI".

Definition check_release_android (release_job : str) : list str :=
  let upload_at := find_at "uses: actions/upload-artifact@" release_job in
  release_error (negb (searches all_abis release_job))
    "Android release matrix must include all three ABIs" ++
  release_error (lacks android_audit release_job)
    "Android release matrix must build and run the full artifact audit" ++
  release_error ((upload_at <? 0)%Z
                 || lacks ["name: bin-android-${{ matrix.abi }}"] (dropZ upload_at release_job))
    "Android release matrix must upload each audited artifact".

Definition check_package_job (package_job : str) : list str :=
  release_error (lacks ["android"] (needs package_job))
    "package job must depend on the Android artifact job" ++
  release_error (lacks ["actions/download-artifact@"; "pattern: bin-*"] package_job)
    "package job must download the Android build artifacts" ++
  release_error (negb (count "scripts/package-artifact.sh --platform android-" package_job =? 3))
    "package job must assemble all three Android archives" ++
  release_error (lacks ["scripts/package-artifact.sh --platform android-x86_64"] package_job)
    "package job must assemble android-x86_64" ++
  release_error (lacks ["siano-ts-$version-android-x86_64.tar.gz"] package_job)
    "expected asset list must include android-x86_64" ++
  release_error (lacks ["-eq 8"; "wc -l < candidate/SHA256SUMS)` -eq 8"] package_job)
    "release candidate and SHA256SUMS must each contain eight assets" ++
  release_error (lacks ["scripts/audit-artifact.sh --source-archive"; "cmp -s"] package_job)
    "package job must audit source and compare deterministic archives".

Definition check_android_packageable (ci release audit package : str) : list str :=
  with_job (u "ci.yml") ci (u "android") (λ ci_job,
  with_job (u "release.yml") release (u "android") (λ release_job,
  with_job (u "release.yml") release (u "package") (λ package_job,
    check_ci_android ci_job ++ check_release_android release_job ++ check_package_job package_job ++
    report (lacks ["android-x86_64"] audit)
      (u "audit-artifact.py: Android x86_64 mapping/package support is missing") ++
    report (lacks ["android-x86_64"] package)
      (u "package-artifact.py: Android x86_64 metadata/package support is missing")))).

(** ** The Linux build containers *)

Definition EXPECTED_BUILD_CONTAINERS : dict nat := [(u "ci.yml", 2); (u "release.yml", 4)].
Definition STATIC_JOB_IDS : dict str :=
  [(u "ci.yml", u "linux-static-x86_64"); (u "release.yml", u "linux-static")].

(** [(?m)^\s*apk add[^\n]*] *)
Definition apk_add : pat :=
  Seq LineStart (Seq (Many space) (Seq (Text "apk add") (Many not_newline))).

Definition installs (package : string) (apk_lines : list str) : bool :=
  existsb (λ line, bool_decide (u package ∈ words line)) apk_lines.

Definition check_container (path : str) (index : nat) (block : str) : list str :=
  let e c message := report c (path ++ u ": Alpine build container "
                               ++ dec_N (N.of_nat (S index)) ++ u message) in
  let apk_lines := (re_findall apk_add block).*1 in
  e (negb (installs "linux-headers" apk_lines)) " lacks linux-headers" ++
  e (negb (installs "binutils" apk_lines)) " lacks binutils (readelf/strip)" ++
  e (lacks ["alpine:3.22"] block) " is not pinned to alpine:3.22".

(** The containers that build or relink the program. *)
Definition builds (block : str) : bool :=
  has "scripts/build-linux-static.sh" block || has "test-static-relink.sh" block.

Definition check_containers (text path job_id : str) (expected : nat) : list str :=
  with_job path text job_id (λ job,
    let blocks := filter (λ block, builds block = true) (build_container_blocks text) in
    report (has "container: alpine:3.22" job)
      (path ++ u ": " ++ job_id ++ u " must not use a job-level Alpine container") ++
    report (negb (length blocks =? expected))
      (path ++ u ": expected " ++ dec_N (N.of_nat expected) ++ u " Alpine build containers, found "
       ++ dec_N (N.of_nat (length blocks))) ++
    concat (imap (check_container path) blocks)).

(** ** The gate of a tag *)

(** [(?ms)^on:\n(.*?)(?=^permissions:)] *)
Definition triggers_block : pat :=
  Seq LineStart (Seq (Text "on:") (Seq (Class_ (N.eqb 10)) (Seq (Group (Few anything))
    (Ahead (Seq LineStart (Text "permissions:")))))).
(** [(?ms)^  push:\n\s+tags:\n\s+- [QUOTE]v\*[QUOTE]] *)
Definition tag_push : pat :=
  let quote := Class_ (one_of [39; 34]%N) in
  Seq LineStart (Seq (Text "  push:") (Seq (Class_ (N.eqb 10)) (Seq (Some_ space)
    (Seq (Text "tags:") (Seq (Class_ (N.eqb 10)) (Seq (Some_ space)
      (Seq (Text "- ") (Seq quote (Seq (Text "v*") quote))))))))).
(** [(?ms)^permissions:\n(.*?)(?=^\S)] *)
Definition permissions_block : pat :=
  Seq LineStart (Seq (Text "permissions:") (Seq (Class_ (N.eqb 10)) (Seq (Group (Few anything))
    (Ahead (Seq LineStart nonspace))))).

(** The text of the group of the first match. *)
Definition group1 (p : pat) (text : str) : option str := groups ← re_search p text; head groups.

Definition check_triggers (release : str) : list str :=
  release_error (match group1 triggers_block release with
                 | None => true
                 | Some triggers => lacks ["workflow_dispatch:"] triggers
                                    || negb (searches tag_push triggers)
                 end) "candidate dispatch and v* tag push triggers are required" ++
  release_error (match group1 permissions_block release with
                 | None => true
                 | Some permissions => lacks ["contents: read"] permissions
                                       || has "contents: write" permissions
                 end) "write permission must be limited to the publisher job".

Definition publication_steps : list string :=
  ["gh release create"; "--draft"; "gh release download"; "sha256sum -c SHA256SUMS";
   "cmp `$path`"; "gh release edit"; "--draft=false"].

Definition check_verify (verify : str) : list str :=
  release_error (lacks ["if: github.event_name == 'push'"; "packaged-runtime-x86_64";
                        "packaged-runtime-aarch64"] verify)
    "tag verification must follow the tag build and packaged-runtime gates" ++
  release_error (lacks ["actions: read"; "contents: read"] verify || has "contents: write" verify)
    "tag verification must use read-only repository permissions" ++
  release_error (lacks ["scripts/release_runs.py read"; "scripts/release_runs.py verify";
                        "gh run download"; "--name release-candidate"; "scripts/release_verify.py"]
                   verify)
    "tag gate must validate recorded run IDs and verify all three bundles" ++
  release_error (has "HEAD^1" verify || has "candidate_sha=$(git rev-parse" verify
                 || lacks ["candidate_sha"; "verified_candidate_run_id"] verify)
    "candidate SHA must come from the verified recorded runs" ++
  release_error ((find_at "gh run download" verify <? find_at "scripts/release_runs.py verify" verify)
                 || (find_at "scripts/release_verify.py" verify <? find_at "gh run download" verify))%Z
    "verify run metadata before download, then compare bundles".

Definition check_publish (publish : str) : list str :=
  release_error (lacks ["needs: tag-verify"; "if: github.event_name == 'push'"] publish)
    "only successful tag verification may reach publication" ++
  release_error (lacks ["contents: write"; "actions: read"] publish)
    "publisher must have only the required write and artifact-read permissions" ++
  concat ((λ text, report (lacks [text] publish)
    (u "release.yml: publisher is missing verification/publication step: " ++ uq text))
    <$> publication_steps) ++
  release_error (negb ((find_at "gh release create" publish <? find_at "gh release download" publish)
                       && (find_at "gh release download" publish <? find_at "gh release edit" publish))%Z)
    "publish only after uploaded draft assets are downloaded and checked".

Definition check_release_tag_gate (release : str) : list str :=
  check_triggers release ++
  with_job (u "release.yml") release (u "tag-verify") (λ verify,
  with_job (u "release.yml") release (u "publish") (λ publish,
    check_verify verify ++ check_publish publish)).
End jobs.

(** ** The command *)

Section main.
Context `{Lower} `{Word} `{TextFiles}.

(** A workflow by its name: [check_workflow(ROOT / ".github/workflows" / name)]. *)
Definition check_workflow (root name : str) : res (list str) :=
  let path := under root (u ".github/workflows/" ++ name) in
  text ← read_text path;
  job_id ← item STATIC_JOB_IDS name;
  expected ← item EXPECTED_BUILD_CONTAINERS name;
  Ok (check_containers text path job_id expected).

(** The complaints of [main].  The runtime jobs are a set: [ci_jobs] and [rc_jobs] are the
    orders in which Python goes through it. *)
Definition all_errors (root : str) (ci_jobs rc_jobs : list str) : res (list str) :=
  let ci_path := under root (u ".github/workflows/ci.yml") in
  let release_path := under root (u ".github/workflows/release.yml") in
  containers ← fold_res (λ errors name, more ← check_workflow root name; Ok (errors ++ more)) []
    EXPECTED_BUILD_CONTAINERS.*1;
  makefile ← read_text (under root (u "Makefile.win"));
  baseline ← check_windows_baseline (under root (u "packaging/windows-baseline.sha256"))
    (under root (u "scripts/reproducible-windows-build.ps1"));
  ci ← read_text ci_path;
  macos_build ← read_text (under root (u "scripts/build-macos-static.sh"));
  release ← read_text release_path;
  audit ← read_text (under root (u "scripts/audit-artifact.py"));
  package ← read_text (under root (u "scripts/package-artifact.py"));
  Ok (containers ++ check_windows_makefile makefile ++ baseline
      ++ check_windows ci ci_path ++ check_macos_strip ci ci_path macos_build
      ++ check_ci_packaging ci ci_path
      ++ concat ((λ job_id, check_packaged_runtime ci ci_path job_id (u "packaged-linux")) <$> ci_jobs)
      ++ check_release_tag_gate release ++ check_release_version_guard release
      ++ check_windows release release_path
      ++ check_android_packageable ci release audit package
      ++ check_macos_strip release release_path macos_build
      ++ check_macos_release release
      ++ concat ((λ job_id, check_packaged_runtime release release_path job_id
                    (u "release-candidate")) <$> rc_jobs)).

Definition RUNTIME_JOB_IDS : list str := [u "packaged-runtime-x86_64"; u "packaged-runtime-aarch64"].

(** The exit code and the printed lines. *)
Definition main (root : str) (ci_jobs rc_jobs : list str) : res (Z * list str) :=
  errors ← all_errors root ci_jobs rc_jobs;
  Ok (match errors with
      | [] => (0%Z, [u "workflow invariant: Linux build, final archive runtime, and Windows CI checks are present"])
      | _ => (1%Z, (λ error, u "workflow invariant: " ++ error) <$> errors)
      end).
End main.

Example workflow_job_test :
  let nl := [10%N] in
  let text := u "jobs:" ++ nl ++ u "  a:" ++ nl ++ u "    x: 1" ++ nl ++ u "  b:" ++ nl ++ u "    y" ++ nl in
  workflow_job text (u "a") = Some (u "  a:" ++ nl ++ u "    x: 1" ++ nl)
  ∧ workflow_job text (u "b") = Some (u "  b:" ++ nl ++ u "    y" ++ nl)
  ∧ workflow_job text (u "c") = None
  ∧ build_container_blocks (u "x" ++ nl ++ u "  docker run --rm a" ++ nl ++ u "b" ++ nl ++ u " docker run --rm")
    = [u "  docker run --rm a" ++ nl ++ u "b" ++ nl; u " docker run --rm"].
Proof. vm_compute. repeat split. Qed.
