(* ===== verification/WorkflowProps.v ===== *)
(** * The jobs of a workflow, and what an accepted release workflow has

    The extraction of a job is characterised by the text alone; the blocks of containers
    partition the text; an accepted workflow publishes only what was verified. *)

From Stdlib Require Import Sorted.
From S2P Require Import Prelude PyStr PyDict Codec Regex PyRe PyReProps AuditBase ReleaseFixture Stage Workflow.

(** ** The lines that start a job *)

Definition after_newline (prev : option N) : bool :=
  match prev with None => true | Some c => (c =? 10)%N end.

(** A line that starts a job: two spaces, a character that is neither a space nor a line
    end, and a colon after it. *)
Definition starts_job (s : str) : bool :=
  starts_with (u "  ") s
  && match drop 2 s with
     | c :: r => negb (one_of [32; 10]%N c) && bool_decide (58%N ∈ r)
     | [] => false
     end.

(** The text of a job ends at the end of the file or before a line that starts a job. *)
Definition ends_job (prev : option N) (s : str) : bool :=
  match s with [] => true | _ => after_newline prev && starts_job s end.

Lemma eats_exists s w r : rest s = w ++ r →
  eats s w (Pos (default (before s) (Some <$> last w)) r (groups s)).
Proof. by split. Qed.

Lemma job_header_spec s :
  (∃ s', matches job_header s s') ↔ at_line_start s = true ∧ starts_job (rest s) = true.
Proof.
  unfold job_header. setoid_rewrite matches_seq. setoid_rewrite matches_line_start.
  pose proof (spells_seq _ _ _ _ (spells_text "  ")
    (spells_seq _ _ _ _ (spells_class (λ c, negb (one_of [32; 10]%N c)))
      (spells_seq _ _ _ _ (spells_many (λ c, negb (c =? 58)%N)) (spells_text ":")))) as Hsp.
  unfold starts_job. rewrite andb_true_iff, starts_with_spec. split.
  - intros (s' & s1 & (Hl & ->) & (w & (w1 & w2 & -> & -> & (w3 & w4 & -> & (c & -> & Hc)
      & (w5 & w6 & -> & _ & ->))) & [Hr _] & _)%Hsp).
    split; [done|]. rewrite Hr. split; [eexists; by rewrite <- app_assoc|].
    apply andb_true_iff. split; [exact Hc|]. apply bool_decide_eq_true.
    apply elem_of_app. left. apply elem_of_app. right. left.
  - intros (Hl & (r & Hr) & Hc). rewrite Hr in Hc. cbn in Hc. destruct r as [|c r]; [done|].
    apply andb_true_iff in Hc as [Hc Hin]. apply bool_decide_eq_true in Hin.
    apply list_elem_of_split_l in Hin as (w5 & r' & -> & Hw).
    assert (rest s = (u "  " ++ [c] ++ w5 ++ u ":") ++ r') as He
      by (rewrite Hr; rewrite <- !app_assoc; done).
    exists (Pos (default (before s) (Some <$> last (u "  " ++ [c] ++ w5 ++ u ":"))) r' (groups s)), s.
    split; [done|]. apply Hsp. eexists. split; [|split; [by apply eats_exists|done]].
    exists (u "  "), ([c] ++ w5 ++ u ":"). split; [done|]. split; [done|].
    exists [c], (w5 ++ u ":"). split; [done|]. split; [by exists c|].
    exists w5, (u ":"). split; [done|]. split; [|done].
    apply Forall_forall. intros x Hx. apply negb_true_iff, N.eqb_neq. by intros ->.
Qed.

(** ** How the pattern of a job runs *)

Lemma run_ahead {A} (s : pos) (k : pos → option A) :
  run (Ahead (Or job_header TextEnd)) s k = if ends_job (before s) (rest s) then k s else None.
Proof.
  cbn [run]. change (match (match run job_header s (λ _, Some tt) with Some a => Some a | None =>
    match rest s with [] => Some tt | _ => None end end) with Some _ => k s | None => None end
    = if ends_job (before s) (rest s) then k s else None).
  assert (is_Some (run job_header s (λ _ : pos, Some tt)) ↔ at_line_start s = true ∧ starts_job (rest s) = true) as Hh.
  { rewrite <- job_header_spec. split; [intros [a (s' & ? & _)%run_sound]; by exists s'|].
    intros [s' Hm]. by eapply run_complete. }
  unfold ends_job. destruct (run job_header s _) as [[]|].
  - destruct Hh as [[Hl Hs] _]; [by eexists|]. destruct (rest s) eqn:Hr; [done|].
    by rewrite Hs, andb_true_r; unfold at_line_start in Hl; unfold after_newline; rewrite Hl.
  - destruct (rest s) eqn:Hr; [done|]. destruct (after_newline (before s) && _) eqn:Hb; [|done].
    apply andb_true_iff in Hb. destruct Hh as [_ [? [=]]]. exact Hb.
Qed.

Lemma run_chars {A} l (s : pos) (k : pos → option A) :
  run (foldr (λ c p, Seq (Class_ (N.eqb c)) p) Nothing l) s k
  = if starts_with l (rest s)
    then k (Pos (default (before s) (Some <$> last l)) (drop (length l) (rest s)) (groups s)) else None.
Proof.
  revert s. induction l as [|c l IH]; intros [prev r gs]; cbn [foldr run starts_with before rest groups]; [by destruct r|].
  destruct r as [|d r]; [done|]. cbn [starts_with]. destruct (c =? d)%N eqn:Hc; [|done].
  apply N.eqb_eq in Hc as <-. cbn [andb]. rewrite IH. cbn [before rest groups length drop].
  destruct (starts_with l r); [|done]. f_equal. f_equal. rewrite last_cons. by destruct (last l).
Qed.

(** The text up to the end of the job, and what is left. *)
Fixpoint job_body (prev : option N) (s : str) : str * str :=
  if ends_job prev s then ([], s)
  else match s with [] => ([], []) | c :: s' => prod_map (cons c) id (job_body (Some c) s') end.

Lemma star_few {A} fuel prev r gs (k k' : pos → option A) :
  (∀ s, k' s = if ends_job (before s) (rest s) then k s else None) → (∀ s, is_Some (k s)) →
  length r ≤ fuel →
  star (run anything) false fuel (Pos prev r gs) k'
  = (let '(body, post) := job_body prev r in
     k (Pos (default prev (Some <$> last body)) post gs)).
Proof.
  intros Hk' Hk. revert prev r. induction fuel as [|fuel IH]; intros prev r Hf; cbn [star]; rewrite Hk'; cbn [before rest].
  - destruct r; [done|cbn in Hf; lia].
  - destruct r as [|c r]; [cbn; destruct (Hk (Pos prev [] gs)) as [a Ha]; by rewrite Ha|].
    cbn in Hf. cbn [job_body]. destruct (ends_job prev (c :: r)) eqn:He.
    + cbn. destruct (Hk (Pos prev (c :: r) gs)) as [a Ha]. by rewrite Ha.
    + unfold anything. cbn [run rest groups]. rewrite (proj2 (Nat.ltb_lt (length r) (length (c :: r)))) by (cbn; lia).
      rewrite IH by lia. destruct (job_body (Some c) r) as [body post]. cbn [prod_map fst snd id].
      rewrite last_cons. by destruct (last body).
Qed.

(** What the body of a job is: the shortest text after which the job ends. *)
Lemma job_body_spec prev s body post :
  job_body prev s = (body, post) ↔
  s = body ++ post ∧ ends_job (default prev (Some <$> last body)) post = true
  ∧ ∀ b1 b2, body = b1 ++ b2 → b2 ≠ [] → ends_job (default prev (Some <$> last b1)) (b2 ++ post) = false.
Proof.
  revert prev body. induction s as [|c s IH]; intros prev body; cbn [job_body].
  - cbn [ends_job]. split.
    + intros [= <- <-]. split; [done|]. split; [done|]. intros b1 b2 Hb Hne. symmetry in Hb. by apply app_nil in Hb as [-> ->].
    + intros (Hb & _). symmetry in Hb. by apply app_nil in Hb as [-> ->].
  - destruct (ends_job prev (c :: s)) eqn:He.
    + split.
      * intros [= <- <-]. split; [done|]. split; [done|]. intros b1 b2 Hb Hne. symmetry in Hb. by apply app_nil in Hb as [-> ->].
      * intros (Hs & _ & Hmin). destruct body as [|d body]; [by rewrite Hs|].
        specialize (Hmin [] (d :: body) eq_refl ltac:(done)). cbn [last fmap option_fmap option_map default] in Hmin.
        by rewrite <- Hs, He in Hmin.
    + pose proof (IH (Some c)) as Hc. destruct (job_body (Some c) s) as [body' post']. cbn [prod_map fst snd id]. split.
      * intros [= <- <-]. destruct (proj1 (Hc body') eq_refl) as (-> & Hend & Hmin). split; [done|].
        split; [rewrite last_cons; revert Hend; by destruct (last body')|].
        intros [|d b1] b2 Hb Hne; [cbn in Hb; by rewrite <- Hb|]. injection Hb as <- ->.
        specialize (Hmin b1 b2 eq_refl Hne). rewrite last_cons. revert Hmin. by destruct (last b1).
      * intros (Hs & Hend & Hmin). destruct body as [|d body]; [cbn in Hs, Hend; rewrite <- Hs in Hend; congruence|].
        injection Hs as <- Hs.
        enough (body' = body ∧ post' = post) as [-> ->] by done.
        enough ((body', post') = (body, post)) as [= -> ->] by done.
        apply Hc. split; [done|]. split; [rewrite last_cons in Hend; revert Hend; by destruct (last body)|].
        intros b1 b2 -> Hne. specialize (Hmin (c :: b1) b2 eq_refl Hne). rewrite last_cons in Hmin.
        revert Hmin. by destruct (last b1).
Qed.

(** ** The extraction of a job *)

Definition job_at (prev : option N) (line s : str) : bool := after_newline prev && starts_with line s.

Fixpoint find_job (prev : option N) (line s : str) : option str :=
  if job_at prev line s
  then Some (line ++ fst (job_body (default prev (Some <$> last line)) (drop (length line) s)))
  else match s with [] => None | c :: s' => find_job (Some c) line s' end.

Lemma match_job prev line s :
  fst <$> match_at (Group (Seq LineStart (Seq (foldr (λ c p, Seq (Class_ (N.eqb c)) p) Nothing line)
    (Seq (Few anything) (Ahead (Or job_header TextEnd)))))) (Pos prev s [])
  = if job_at prev line s
    then Some [line ++ fst (job_body (default prev (Some <$> last line)) (drop (length line) s))] else None.
Proof.
  unfold match_at, job_at. cbn [before rest]. cbn [run]. unfold at_line_start. cbn [before].
  change (match prev with Some c => (c =? 10)%N | None => true end) with (after_newline prev).
  destruct (after_newline prev); [|done]. cbn [andb]. rewrite run_chars. cbn [before rest groups].
  destruct (starts_with line s) eqn:Hs; [|done]. apply starts_with_spec in Hs as [r ->].
  rewrite drop_app_length.
  pose (whole s' := take (length (line ++ r) - length (rest s')) (line ++ r) :: groups s').
  pose (k s' := Some (reverse (whole s'), Pos (before s') (rest s') (whole s'))).
  rewrite (star_few _ _ _ _ k); [|intros s'; exact (run_ahead s' k)|intros s'; by eexists|done].
  destruct (job_body _ r) as [body post] eqn:Hb. apply job_body_spec in Hb as (-> & _).
  cbn. rewrite app_assoc, length_app, Nat.add_sub, take_app_length. done.
Qed.

Lemma workflow_job_find text id : workflow_job text id = find_job None (job_line id) text.
Proof.
  unfold workflow_job, re_search, job_pattern. generalize (@None N) as prev.
  induction text as [|c text IH]; intros prev; cbn [search_from find_job].
  all: pose proof (match_job prev (job_line id)) as Hm.
  - specialize (Hm []). destruct (match_at _ _) as [[gs s']|]; cbn [fmap option_fmap option_map fst] in Hm.
    + destruct (job_at _ _ _); [|done]. by injection Hm as ->.
    + by destruct (job_at _ _ _).
  - specialize (Hm (c :: text)). destruct (match_at _ _) as [[gs s']|]; cbn [fmap option_fmap option_map fst] in Hm.
    + destruct (job_at _ _ _); [|done]. by injection Hm as ->.
    + destruct (job_at _ _ _); [done|]. apply IH.
Qed.

(** The character before what follows [pre], when [prev] is the one before [pre]. *)
Definition prior (prev : option N) (pre : str) : option N := default prev (Some <$> last pre).

Lemma prior_app prev l1 l2 : prior prev (l1 ++ l2) = prior (prior prev l1) l2.
Proof.
  unfold prior. destruct l2 as [|c l2] using rev_ind; [by rewrite app_nil_r|].
  by rewrite app_assoc, !last_snoc.
Qed.
Lemma prior_cons prev c l : prior prev (c :: l) = prior (Some c) l.
Proof. apply (prior_app prev [c] l). Qed.
Lemma prior_none l : prior None l = last l.
Proof. unfold prior. by destruct (last l). Qed.

(** The first line of the job is at the start of no earlier line. *)
Lemma find_job_spec prev line s job :
  find_job prev line s = Some job ↔
  ∃ pre r, s = pre ++ r ∧ job_at (prior prev pre) line r = true
    ∧ (∀ pre' r', s = pre' ++ r' → length pre' < length pre → job_at (prior prev pre') line r' = false)
    ∧ job = line ++ fst (job_body (prior (prior prev pre) line) (drop (length line) r)).
Proof.
  revert prev. induction s as [|c s IH]; intros prev; cbn [find_job].
  - destruct (job_at prev line []) eqn:Hat; split.
    + intros [= <-]. exists [], []. split; [done|]. split; [done|]. split; [intros; cbn in *; lia|done].
    + intros (pre & r & Hs & _ & _ & ->). symmetry in Hs. by apply app_nil in Hs as [-> ->].
    + done.
    + intros (pre & r & Hs & Hj & _). symmetry in Hs. apply app_nil in Hs as [-> ->]. cbn in Hj. congruence.
  - destruct (job_at prev line (c :: s)) eqn:Hat.
    + split.
      * intros [= <-]. exists [], (c :: s). split; [done|]. split; [done|]. split; [intros; cbn in *; lia|done].
      * intros (pre & r & Hs & Hj & Hmin & ->). destruct pre as [|d pre]; [by rewrite Hs|].
        specialize (Hmin [] (c :: s) eq_refl ltac:(cbn; lia)). cbn in Hmin. congruence.
    + rewrite IH. split.
      * intros (pre & r & -> & Hj & Hmin & ->). exists (c :: pre), r. rewrite prior_cons. split; [done|]. split; [done|].
        split; [|done]. intros [|d pre'] r' Hs Hl; [by cbn in Hs; rewrite <- Hs|].
        injection Hs as <- Hs. rewrite prior_cons. apply (Hmin pre' r' Hs). cbn in Hl. lia.
      * intros ([|d pre] & r & Hs & Hj & Hmin & ->); [cbn in Hs, Hj; rewrite <- Hs in Hj; cbn in Hj; congruence|].
        injection Hs as <- ->. exists pre, r. rewrite prior_cons in Hj |- *. split; [done|]. split; [done|].
        split; [|done]. intros pre' r' Hs Hl. specialize (Hmin (c :: pre') r' (f_equal (cons c) Hs) ltac:(cbn; lia)).
        by rewrite prior_cons in Hmin.
Qed.

Lemma job_last id prev b1 :
  last (job_line id ++ b1) = default (prior prev (job_line id)) (Some <$> last b1).
Proof. unfold job_line, prior. rewrite !app_assoc, last_app. destruct (last b1); [done|]. by rewrite last_app. Qed.

(** C37. The text of a job is found exactly: it starts at the first line that names the job,
    and it is the shortest text from there that is followed by the end of the file or by a
    line that starts a job. *)
Theorem workflow_job_exact (text id job : str) :
  workflow_job text id = Some job ↔
  ∃ pre body post,
    text = pre ++ job ++ post ∧ job = job_line id ++ body
    ∧ after_newline (last pre) = true
    ∧ (∀ pre' r, text = pre' ++ r → length pre' < length pre → job_at (last pre') (job_line id) r = false)
    ∧ ends_job (last job) post = true
    ∧ (∀ b1 b2, body = b1 ++ b2 → b2 ≠ [] → ends_job (last (job_line id ++ b1)) (b2 ++ post) = false).
Proof.
  rewrite workflow_job_find, find_job_spec. split.
  - intros (pre & r & -> & Hj & Hmin & ->). apply andb_true_iff in Hj as [Hl [r' ->]%starts_with_spec].
    rewrite drop_app_length. destruct (job_body _ r') as [body post] eqn:Hb.
    apply job_body_spec in Hb as (-> & Hend & Hshort). exists pre, body, post.
    split; [cbn [fst]; by rewrite <- !app_assoc|]. split; [done|]. split; [by rewrite <- prior_none|].
    split; [intros pre' r'' Hs Hlen; rewrite <- prior_none; by apply Hmin|]. cbn [fst].
    rewrite (job_last _ (prior None pre)). split; [done|].
    intros b1 b2 Hb Hne. rewrite (job_last _ (prior None pre)). by apply Hshort.
  - intros (pre & body & post & -> & -> & Hl & Hmin & Hend & Hshort).
    exists pre, ((job_line id ++ body) ++ post). split; [done|].
    split; [unfold job_at; rewrite prior_none, Hl; apply starts_with_spec; exists (body ++ post); by rewrite app_assoc|].
    split; [intros pre' r Hs Hlen; rewrite prior_none; by apply Hmin|]. rewrite <- app_assoc, drop_app_length.
    enough (job_body (prior (prior None pre) (job_line id)) (body ++ post) = (body, post)) as -> by done.
    apply job_body_spec. split; [done|]. rewrite <- job_last. split; [done|].
    intros b1 b2 Hb Hne. rewrite <- job_last. by apply Hshort.
Qed.

(** ** The containers of a workflow *)

(** A line that runs a container. *)
Definition container_line (prev : option N) (s : str) : Prop :=
  after_newline prev = true
  ∧ ∃ w r, w ≠ [] ∧ Forall (λ c, one_of [32; 9]%N c = true) w ∧ s = w ++ u "docker run --rm" ++ r.

Lemma starts_from_le fuel p k prev s i : i ∈ starts_from fuel p k prev s → k ≤ i ∧ i ≤ k + length s.
Proof.
  revert k prev s. induction fuel as [|fuel IH]; intros k prev s; cbn [starts_from]; [by intros ?%elem_of_nil|].
  destruct (match_at p (Pos prev s [])) as [[gs s']|] eqn:Hm.
  - apply match_at_matches in Hm as [[w He]%matches_eats _]. apply eats_length in He. cbn [rest] in He.
    intros [->|[]%IH]%elem_of_cons; lia.
  - destruct s as [|c s]; [by intros ?%elem_of_nil|]. intros []%IH. cbn. lia.
Qed.

(** The matches of a pattern that stays in a line. *)
Section in_line.
Context (p : pat).
Context (p_line : ∀ s s', matches p s s' →
  at_line_start s = true ∧ ∃ w, eats s w s' ∧ w ≠ [] ∧ 10%N ∉ w).

Lemma no_line_start prev w1 w2 r : w1 ≠ [] → 10%N ∉ w1 ++ w2 → at_line_start (Pos (prior prev w1) r []) = false.
Proof using.
  intros Hne Hn. destruct w1 as [|c w1] using rev_ind; [done|]. unfold prior. rewrite last_snoc. cbn.
  apply N.eqb_neq. intros ->. apply Hn. rewrite !elem_of_app. left. right. left.
Qed.

Lemma starts_from_spec fuel k prev s i : length s < fuel →
  i ∈ starts_from fuel p k prev s ↔
  ∃ pre r, s = pre ++ r ∧ i = k + length pre ∧ ∃ s', matches p (Pos (prior prev pre) r []) s'.
Proof using p_line.
  revert k prev s. induction fuel as [|fuel IH]; intros k prev s Hf; [lia|]. cbn [starts_from].
  destruct (match_at p (Pos prev s [])) as [[gs s']|] eqn:Hm.
  - apply match_at_matches in Hm as [Hm _]. cbn [before rest] in Hm.
    destruct (p_line _ _ Hm) as (_ & w & He & Hne & Hn). pose proof (eats_length _ _ _ He) as Hl.
    destruct He as [Hr Hb]. cbn [rest before] in Hr, Hb, Hl. fold (prior prev w) in Hb.
    assert (0 < length w) by (destruct w; [done|cbn; lia]).
    rewrite elem_of_cons, IH by lia. split.
    + intros [->|(pre & r & Hs & -> & Hx)]; [exists [], s; split; [done|]; split; [cbn; lia|by exists s']|].
      exists (w ++ pre), r. rewrite prior_app, <- Hb, length_app. split; [by rewrite Hr, Hs, app_assoc|].
      split; [lia|done].
    + intros (pre & r & Hs & -> & s1 & Hx). destruct pre as [|c pre]; [left; cbn; lia|]. right.
      rewrite Hr in Hs. apply app_eq_inv in Hs as [(k1 & Hw & Hs)|(k1 & Hp & Hs)].
      * destruct (p_line _ _ Hx) as [Hat _]. rewrite (no_line_start _ _ k1) in Hat; [done..|by rewrite <- Hw].
      * exists k1, r. rewrite Hp, length_app. split; [done|]. split; [lia|]. exists s1.
        by rewrite Hb, <- prior_app, <- Hp.
  - assert (∀ s', ¬ matches p (Pos prev s []) s') as Hno.
    { intros s' Hx. destruct (proj2 (match_at_spec p (Pos prev s [])) (ex_intro _ _ Hx)) as [? Hx']. congruence. }
    destruct s as [|c s].
    + split; [by intros ?%elem_of_nil|]. intros (pre & r & Hs & _ & s' & Hx).
      symmetry in Hs. apply app_nil in Hs as [-> ->]. by apply Hno in Hx.
    + cbn in Hf. rewrite IH by lia. split.
      * intros (pre & r & -> & -> & Hx). exists (c :: pre), r. rewrite prior_cons. cbn. split; [done|]. split; [lia|done].
      * intros ([|d pre] & r & Hs & -> & Hx); [cbn in Hs; rewrite <- Hs in Hx; by destruct Hx as [? ?%Hno]|].
        injection Hs as <- ->. exists pre, r. rewrite prior_cons in Hx. cbn. split; [done|]. split; [lia|done].
Qed.

Lemma starts_from_sorted fuel k prev s : StronglySorted lt (starts_from fuel p k prev s).
Proof using p_line.
  revert k prev s. induction fuel as [|fuel IH]; intros k prev s; cbn [starts_from]; [constructor|].
  destruct (match_at p (Pos prev s [])) as [[gs s']|] eqn:Hm.
  - constructor; [apply IH|]. apply match_at_matches in Hm as [Hm _]. cbn [before rest] in Hm.
    destruct (p_line _ _ Hm) as (_ & w & He & Hne & _). pose proof (eats_length _ _ _ He) as Hl. cbn [rest] in Hl.
    apply Forall_forall. intros i [Hi _]%starts_from_le.
    assert (0 < length w) by (destruct w; [done|cbn; lia]). lia.
  - destruct s; [constructor|apply IH].
Qed.
End in_line.

Lemma docker_run_spec s s' : matches docker_run s s' →
  at_line_start s = true ∧ ∃ w, eats s w s' ∧ w ≠ [] ∧ 10%N ∉ w.
Proof.
  pose proof (spells_seq _ _ _ _ (spells_some (one_of [32; 9]%N))
    (spells_seq _ _ _ _ (spells_text "docker run --rm") (spells_many (λ c, negb (c =? 10)%N)))) as Hsp.
  unfold docker_run. rewrite matches_seq. setoid_rewrite matches_line_start.
  intros (s1 & (Hl & ->) & (w & (w1 & w2 & -> & (Hne & Hw1) & (w3 & w4 & -> & -> & Hw4)) & He & _)%Hsp).
  split; [done|]. eexists. split; [exact He|]. split; [by destruct w1|].
  intros [Hin|[Hin|Hin]%elem_of_app]%elem_of_app.
  - rewrite Forall_forall in Hw1. by apply Hw1 in Hin.
  - revert Hin. apply (bool_decide_eq_false_1 (10%N ∈ u "docker run --rm")). by vm_compute.
  - rewrite Forall_forall in Hw4. by apply Hw4 in Hin.
Qed.

Lemma docker_run_line prev s : (∃ s', matches docker_run (Pos prev s []) s') ↔ container_line prev s.
Proof.
  pose proof (spells_seq _ _ _ _ (spells_some (one_of [32; 9]%N))
    (spells_seq _ _ _ _ (spells_text "docker run --rm") (spells_many (λ c, negb (c =? 10)%N)))) as Hsp.
  unfold docker_run, container_line. setoid_rewrite matches_seq. setoid_rewrite matches_line_start. split.
  - intros (s' & s1 & (Hl & ->) & (w & (w1 & w2 & -> & (Hne & Hw1) & (w3 & w4 & -> & -> & _)) & [Hr _] & _)%Hsp).
    split; [done|]. cbn [rest] in Hr. exists w1, (w4 ++ rest s'). split; [done|]. split; [done|].
    by rewrite Hr, <- !app_assoc.
  - intros (Hl & w & r & Hne & Hw & ->).
    exists (Pos (prior prev (w ++ u "docker run --rm" ++ [])) r []). eexists. split; [by split|]. apply Hsp.
    exists (w ++ u "docker run --rm" ++ []). split.
    + exists w, (u "docker run --rm" ++ []). split; [done|]. split; [done|].
      exists (u "docker run --rm"), []. split; [done|]. by split.
    + split; [|done]. split; [|done]. cbn [rest]. by rewrite app_nil_r, <- app_assoc.
Qed.

(** Cutting at increasing positions: the pieces add up, and each position is the start of
    one. *)
Lemma cuts_concat a l text : StronglySorted lt (a :: l) → Forall (λ x, x ≤ length text) (a :: l) →
  concat (cuts (a :: l) text) = drop a text.
Proof.
  revert a. induction l as [|c l IH]; intros a Hs Hb.
  - cbn. rewrite app_nil_r, take_ge; [done|]. by rewrite length_drop.
  - apply StronglySorted_inv in Hs as [Hs Hlt]. apply Forall_cons in Hb as [_ Hb]. apply Forall_cons in Hlt as [Hlt _].
    change (take (c - a) (drop a text) ++ concat (cuts (c :: l) text) = drop a text). rewrite (IH c Hs Hb).
    rewrite <- (take_drop (c - a) (drop a text)) at 2. f_equal. rewrite drop_drop. f_equal. lia.
Qed.

Lemma cuts_bounds a l text x : StronglySorted lt (a :: l) → Forall (λ x, x ≤ length text) (a :: l) →
  x ∈ a :: l ↔ ∃ bs1 bs2, cuts (a :: l) text = bs1 ++ bs2 ∧ bs2 ≠ [] ∧ x = a + length (concat bs1).
Proof.
  revert a. induction l as [|c l IH]; intros a Hs Hb.
  - rewrite list_elem_of_singleton. split.
    + intros ->. exists [], (cuts [a] text). split; [done|]. split; [done|]. cbn. lia.
    + intros (bs1 & bs2 & Hc & Hne & ->). destruct bs1 as [|? [|]]; [cbn; lia|..]; injection Hc as _ Hc;
        [by rewrite <- Hc in Hne|done].
  - pose proof (cuts_concat _ _ _ Hs Hb) as _. apply StronglySorted_inv in Hs as [Hs Hlt].
    apply Forall_cons in Hb as [Ha Hb]. pose proof (proj1 (Forall_cons _ _ _) Hb) as [Hcb _].
    apply Forall_cons in Hlt as [Hlt _].
    assert (length (take (c - a) (drop a text)) = c - a) as Hlen by (rewrite length_take, length_drop; lia).
    change (cuts (a :: c :: l) text) with (take (c - a) (drop a text) :: cuts (c :: l) text).
    rewrite elem_of_cons, (IH c Hs Hb). split.
    + intros [->|(bs1 & bs2 & -> & Hne & ->)].
      * exists [], (take (c - a) (drop a text) :: cuts (c :: l) text). split; [done|]. split; [done|]. cbn. lia.
      * exists (take (c - a) (drop a text) :: bs1), bs2. split; [done|]. split; [done|]. cbn [concat].
        rewrite length_app. lia.
    + intros ([|d bs1] & bs2 & Hc & Hne & ->); [left; cbn; lia|]. injection Hc as <- Hc. right.
      exists bs1, bs2. split; [done|]. split; [done|]. cbn [concat]. rewrite length_app. lia.
Qed.

(** The blocks of containers are exact: the text is a part before the first block and
    then the blocks, and a line runs a container exactly where a block starts. *)
Theorem build_container_blocks_exact (text : str) :
  ∃ pre, text = pre ++ concat (build_container_blocks text)
    ∧ ∀ a r, text = a ++ r →
        (container_line (last a) r ↔
         ∃ bs1 bs2, build_container_blocks text = bs1 ++ bs2 ∧ bs2 ≠ [] ∧ a = pre ++ concat bs1).
Proof.
  assert (∀ i, i ∈ re_starts docker_run text ↔
    ∃ a r, text = a ++ r ∧ i = length a ∧ container_line (last a) r) as Hin.
  { intros i. unfold re_starts. rewrite (starts_from_spec _ docker_run_spec) by lia.
    setoid_rewrite docker_run_line. by setoid_rewrite prior_none. }
  pose proof (starts_from_sorted _ docker_run_spec (S (length text)) 0 None text) as Hs.
  assert (Forall (λ x, x ≤ length text) (re_starts docker_run text)) as Hb
    by (apply Forall_forall; intros i (a & r & -> & -> & _)%Hin; rewrite length_app; lia).
  fold (re_starts docker_run text) in Hs. unfold build_container_blocks.
  destruct (re_starts docker_run text) as [|k l].
  - exists text. split; [by rewrite app_nil_r|]. intros a r Hs'. split.
    + intros Hc. assert (length a ∈ @nil nat) as Hx by (apply Hin; by exists a, r). by apply elem_of_nil in Hx.
    + intros ([|] & [|] & Hc & Hne & _); done.
  - rewrite (cuts_concat _ _ _ Hs Hb). exists (take k text). split; [by rewrite take_drop|].
    apply Forall_cons in Hb as Hk. destruct Hk as [Hk _]. intros a r Htext. split.
    + intros Hc. assert (length a ∈ k :: l) as Hx by (apply Hin; by exists a, r).
      apply (cuts_bounds _ _ _ _ Hs Hb) in Hx as (bs1 & bs2 & Hcut & Hne & Hl).
      exists bs1, bs2. split; [done|]. split; [done|].
      pose proof (cuts_concat _ _ _ Hs Hb) as Hcat. rewrite Hcut, concat_app in Hcat.
      assert (text = (take k text ++ concat bs1) ++ concat bs2) as Heq
        by (rewrite <- app_assoc, Hcat; by rewrite take_drop).
      rewrite Htext in Heq at 1. apply app_inj_1 in Heq as [? _]; [done|].
      rewrite length_app, length_take. lia.
    + intros (bs1 & bs2 & Hcut & Hne & Ha).
      assert (length a ∈ k :: l) as Hx.
      { apply (cuts_bounds _ _ _ _ Hs Hb). exists bs1, bs2. split; [done|]. split; [done|].
        rewrite Ha, length_app, length_take. lia. }
      apply Hin in Hx as (a' & r' & Ht' & Hl & Hc). rewrite Htext in Ht'.
      by apply app_inj_1 in Ht' as [-> ->].
Qed.

(** ** Complaints *)

Lemma report_nil c message : report c message = [] ↔ c = false.
Proof. by destruct c. Qed.

Lemma lacks_false needles text : lacks needles text = false ↔ Forall (λ needle, has needle text = true) needles.
Proof.
  unfold lacks. induction needles as [|needle needles IH]; cbn [existsb]; [by rewrite Forall_nil|].
  by rewrite orb_false_iff, IH, Forall_cons, negb_false_iff.
Qed.

Lemma with_job_nil prefix text id checks :
  with_job prefix text id checks = [] ↔ ∃ job, workflow_job text id = Some job ∧ checks job = [].
Proof.
  unfold with_job. destruct (workflow_job text id) as [job|]; split.
  - intros H. by exists job.
  - by intros (? & [= <-] & ?).
  - done.
  - by intros (? & ? & _).
Qed.

Lemma app_report_nil c message l : report c message ++ l = [] ↔ c = false ∧ l = [].
Proof. by rewrite app_nil, report_nil. Qed.

(** The gate of a tag in an accepted release workflow. *)
Record gated (release verify publish : str) : Prop := {
  gd_triggers : ∃ triggers, group1 triggers_block release = Some triggers
    ∧ has "workflow_dispatch:" triggers = true ∧ searches tag_push triggers = true;
  gd_permissions : ∃ permissions, group1 permissions_block release = Some permissions
    ∧ has "contents: read" permissions = true ∧ has "contents: write" permissions = false;
  gd_verify : Forall (λ needle, has needle verify = true)
    ["if: github.event_name == 'push'"; "packaged-runtime-x86_64"; "packaged-runtime-aarch64";
     "actions: read"; "contents: read"; "scripts/release_runs.py read";
     "scripts/release_runs.py verify"; "gh run download"; "--name release-candidate";
     "scripts/release_verify.py"; "candidate_sha"; "verified_candidate_run_id"];
  gd_verify_free : Forall (λ needle, has needle verify = false)
    ["contents: write"; "HEAD^1"; "candidate_sha=$(git rev-parse"];
  gd_verify_order :
    (find_at "scripts/release_runs.py verify" verify ≤ find_at "gh run download" verify
     ≤ find_at "scripts/release_verify.py" verify)%Z;
  gd_publish : Forall (λ needle, has needle publish = true)
    (["needs: tag-verify"; "if: github.event_name == 'push'"; "contents: write"; "actions: read"]
     ++ publication_steps);
  gd_publish_order :
    (find_at "gh release create" publish < find_at "gh release download" publish
     < find_at "gh release edit" publish)%Z;
}.

Lemma check_triggers_nil release :
  check_triggers release = [] ↔
  (∃ triggers, group1 triggers_block release = Some triggers
    ∧ has "workflow_dispatch:" triggers = true ∧ searches tag_push triggers = true)
  ∧ (∃ permissions, group1 permissions_block release = Some permissions
    ∧ has "contents: read" permissions = true ∧ has "contents: write" permissions = false).
Proof.
  unfold check_triggers, release_error. rewrite app_report_nil, report_nil. f_equiv.
  - destruct (group1 triggers_block release) as [t|]; [|split; [done|by intros (? & ? & _)]].
    rewrite orb_false_iff, lacks_false, Forall_singleton, negb_false_iff. split; [intros []; by exists t|].
    by intros (? & [= <-] & ?).
  - destruct (group1 permissions_block release) as [t|]; [|split; [done|by intros (? & ? & _)]].
    rewrite orb_false_iff, lacks_false, Forall_singleton. split; [intros []; by exists t|].
    by intros (? & [= <-] & ?).
Qed.

Lemma publication_steps_nil publish :
  concat ((λ text, report (lacks [text] publish)
    (u "release.yml: publisher is missing verification/publication step: " ++ uq text))
    <$> publication_steps) = [] ↔ Forall (λ needle, has needle publish = true) publication_steps.
Proof.
  induction publication_steps as [|x l IH]; [by rewrite Forall_nil|]. cbn [fmap list_fmap concat].
  by rewrite app_report_nil, IH, Forall_cons, lacks_false, Forall_singleton.
Qed.

Lemma check_verify_nil verify :
  check_verify verify = [] ↔
  Forall (λ needle, has needle verify = true)
    ["if: github.event_name == 'push'"; "packaged-runtime-x86_64"; "packaged-runtime-aarch64";
     "actions: read"; "contents: read"; "scripts/release_runs.py read";
     "scripts/release_runs.py verify"; "gh run download"; "--name release-candidate";
     "scripts/release_verify.py"; "candidate_sha"; "verified_candidate_run_id"]
  ∧ Forall (λ needle, has needle verify = false)
    ["contents: write"; "HEAD^1"; "candidate_sha=$(git rev-parse"]
  ∧ (find_at "scripts/release_runs.py verify" verify ≤ find_at "gh run download" verify
     ≤ find_at "scripts/release_verify.py" verify)%Z.
Proof.
  unfold check_verify, release_error. rewrite !app_report_nil, report_nil.
  rewrite !orb_false_iff, !lacks_false, !Forall_cons, !Forall_nil, !Z.ltb_ge. tauto.
Qed.

Lemma check_publish_nil publish :
  check_publish publish = [] ↔
  Forall (λ needle, has needle publish = true)
    (["needs: tag-verify"; "if: github.event_name == 'push'"; "contents: write"; "actions: read"]
     ++ publication_steps)
  ∧ (find_at "gh release create" publish < find_at "gh release download" publish
     < find_at "gh release edit" publish)%Z.
Proof.
  unfold check_publish, release_error.
  rewrite !app_report_nil, app_nil, publication_steps_nil, report_nil, Forall_app.
  rewrite !lacks_false, !Forall_cons, !Forall_nil, negb_false_iff, andb_true_iff, !Z.ltb_lt. tauto.
Qed.


(** ** The order of the runtime jobs *)

Section order.
Context `{Lower} `{Word} `{TextFiles}.

(** Two runs that end alike, with the same lines in some order. *)
Definition same_run (r1 r2 : res (Z * list str)) : Prop :=
  match r1, r2 with
  | Ok (code1, lines1), Ok (code2, lines2) => code1 = code2 ∧ lines1 ≡ₚ lines2
  | Err e1, Err e2 => e1 = e2
  | _, _ => False
  end.

Lemma same_run_refl r : same_run r r.
Proof. by destruct r as [[]|]. Qed.

(** Any two orders give the same complaints up to order. *)
Lemma all_errors_permutation root ci ci' rc rc' : ci ≡ₚ ci' → rc ≡ₚ rc' →
  match all_errors root ci rc, all_errors root ci' rc' with
  | Ok l, Ok l' => l ≡ₚ l'
  | Err e, Err e' => e = e'
  | _, _ => False
  end.
Proof.
  intros Hci Hrc. unfold all_errors.
  repeat match goal with
  | |- context [mbind _ ?m] => destruct m; cbn [mbind res_bind]; [|done]
  end.
  by repeat first [apply Permutation_app; [done|] | apply Permutation_app; [by rewrite Hci|] | by rewrite Hrc].
Qed.

(** The order in which Python goes through the set of runtime jobs does not matter: the
    command ends alike, and prints the same lines in some order. *)
Theorem main_order_independent (root : str) (ci ci' rc rc' : list str)
    (Hci : ci ≡ₚ ci') (Hrc : rc ≡ₚ rc') :
  same_run (main root ci rc) (main root ci' rc').
Proof.
  unfold main. pose proof (all_errors_permutation root ci ci' rc rc' Hci Hrc) as Hall.
  destruct (all_errors root ci rc) as [l|], (all_errors root ci' rc') as [l'|]; cbn [mbind res_bind] in *; try done.
  destruct l as [|x l], l' as [|x' l'].
  - done.
  - by apply Permutation_nil_cons in Hall.
  - symmetry in Hall. by apply Permutation_nil_cons in Hall.
  - split; [done|]. by rewrite Hall.
Qed.
End order.

(** ** Samples *)

Definition ascii_word (c : N) : bool :=
  (is_digit c || (65 <=? c) && (c <=? 90) || (97 <=? c) && (c <=? 122) || (c =? 95))%N.
Definition sample_word : Word := {| word_char := ascii_word; word_char_ascii _ _ := eq_refl |}.
Definition sample_texts : TextFiles := {| file_bytes _ := Ok (b "text") |}.
#[local] Existing Instances sample_lower sample_word sample_texts.

Lemma main_order_independent_witness :
  same_run (main (u "/repo") RUNTIME_JOB_IDS RUNTIME_JOB_IDS)
    (main (u "/repo") (reverse RUNTIME_JOB_IDS) RUNTIME_JOB_IDS).
Proof.
  apply (main_order_independent (u "/repo") RUNTIME_JOB_IDS (reverse RUNTIME_JOB_IDS)
    RUNTIME_JOB_IDS RUNTIME_JOB_IDS); [symmetry; apply reverse_Permutation|reflexivity].
Defined.

(** The runner of the x86_64 job is looked for as a part of the text, and the name of the
    arm64 runner has it: a job of the x86_64 archive that runs on arm64 is accepted. *)
Definition arm_lines : list string :=
  ["jobs:"; "  packaged-runtime-x86_64:"; "    runs-on: ubuntu-24.04-arm"; "    steps:";
   "    - uses: actions/checkout@v4"; "    - uses: actions/download-artifact@v4";
   "      with:"; "        name: packaged-linux";
   "    - name: Ubuntu glibc, Alpine musl"; "      run: scripts/test-packaged-linux.sh alpine:3.22"].
Definition arm_job : str := concat ((λ line : string, u line ++ [10%N]) <$> arm_lines).

Example arm_runner_accepted :
  check_packaged_runtime arm_job (u "ci.yml") (u "packaged-runtime-x86_64") (u "packaged-linux") = [].
Proof. vm_compute. reflexivity. Qed.
