(* ===== verification/AuditSelfTest.v ===== *)
(** * The audit's own test vectors: [scripts/audit-artifact.py], [self_test]

    The fixtures of [self_test] and the checks it runs on them, in its order; the model
    passes them.  A tar file that it writes is the headers that [tarfile] reads of it.  The
    parts that compile a program or run a fake readelf are left out.  In the texts a backquote stands for a double quote. *)

From S2P Require Import Prelude PyStr PyDict Codec Regex PyRe PyFloat Json Sha256 PyPath Provenance.
From S2P Require Import Archive ReleaseSamples Struct AuditBase AuditText AuditPe AuditMacho AuditManifest.
From S2P Require Import AuditArchive Package.

Local Open Scope Z_scope.

Definition dq (s : string) : str := (λ c, if (c =? 96)%N then 34%N else c) <$> u s.
Definition line (s : string) : str := u s ++ [10%N].

(** [try: check; except AuditError: pass; else: fail(...)]. *)
Definition rejected {A} (m : res A) : res unit :=
  match m with
  | Err (AuditError _) => Ok tt
  | Err e => Err e
  | Ok _ => fail "self-test did not fail"
  end.

(** ** Fixtures *)

(** [n.to_bytes(width, "little")]. *)
Fixpoint to_bytes (width : nat) (n : Z) : bytes :=
  match width with
  | O => []
  | S width => nb (Z.to_N (n mod 256)) :: to_bytes width (n / 256)
  end.

(** [data[at:at + len(value)] = value]. *)
Definition poke (at_ : Z) (value data : bytes) : bytes :=
  takeZ at_ data ++ value ++ dropZ (at_ + lenZ value) data.

Definition synthetic_pe (debug_type : option Z) (coff_symbols : bool) : bytes :=
  let data := replicate 0x500 x00 in
  let data := poke 0 (b "MZ") data in
  let data := poke 0x3C (to_bytes 4 0x80) data in
  let data := poke 0x80 (b "PE" ++ [x00; x00]) data in
  let coff := 0x84 in
  let data := poke coff (to_bytes 2 0x8664) data in
  let data := poke (coff + 2) (to_bytes 2 1) data in
  let data := if coff_symbols then poke (coff + 12) (to_bytes 4 1) (poke (coff + 8) (to_bytes 4 0x400) data)
              else data in
  let data := poke (coff + 16) (to_bytes 2 0xF0) data in
  let optional := coff + 20 in
  let data := poke optional (to_bytes 2 0x20B) data in
  let data := poke (optional + 108) (to_bytes 4 16) data in
  let directory := optional + 112 + 6 * 8 in
  let data := match debug_type with
              | Some _ => poke (directory + 4) (to_bytes 4 28) (poke directory (to_bytes 4 0x1000) data)
              | None => data
              end in
  let section := optional + 0xF0 in
  let data := poke section (b ".rdata") data in
  let data := poke (section + 8) (to_bytes 4 0x200) data in
  let data := poke (section + 12) (to_bytes 4 0x1000) data in
  let data := poke (section + 16) (to_bytes 4 0x200) data in
  let data := poke (section + 20) (to_bytes 4 0x200) data in
  match debug_type with
  | Some debug_type => poke (0x200 + 12) (to_bytes 4 debug_type) data
  | None => data
  end.

(** [struct.pack("<II...", ...)]. *)
Definition pack (values : list Z) : bytes := concat (to_bytes 4 <$> values).

(** A load command that names a library: its size is a multiple of eight. *)
Definition macho_dylib (command : Z) (name : bytes) : bytes :=
  let encoded := name ++ [x00] in
  let size := Z.land (24 + lenZ encoded + 7) (-8) in
  pack [command; size; 24; 2; 0; 0] ++ encoded ++ replicate (Z.to_nat (size - 24) - length encoded) x00.

Definition macho_commands (dylibs : list bytes) (command minos : Z) : bytes :=
  pack [0x32; 24; 1; minos; 0x000E0500; 0] ++ concat (macho_dylib command <$> dylibs).

Definition synthetic_macho (dylibs : list bytes) (cputype command minos : Z) : bytes :=
  let commands := macho_commands dylibs command minos in
  pack [0xFEEDFACF; cputype; 0; 2; lenZ dylibs + 1; lenZ commands; 0; 0] ++ commands.

Definition system_dylibs : list str :=
  [u "/System/Library/Frameworks/IOKit.framework/Versions/A/IOKit"; u "/usr/lib/libSystem.B.dylib";
   u "/System/Library/Frameworks/CoreFoundation.framework/Versions/A/CoreFoundation";
   u "/System/Library/Frameworks/Security.framework/Versions/A/Security"].
Definition macho_of (dylibs : list str) : bytes :=
  synthetic_macho ((λ name : str, nb <$> name) <$> dylibs) MACHO_CPU_TYPE_ARM64 0x0C 0x000B0000.

(** ** The checks *)

Section self_test.
Context `{Digits} `{Lower} `{Digest}.
Context (limit : nat).

Definition test_names : res unit :=
  safe_member (u "ok/name") ;;
  for_each (λ bad, rejected (safe_member bad)) [u "../escape"; u "/absolute"; u "a\b"].

(** A member of one byte, with the default mode [0o644], and a symbolic link: its target is
    no member. *)
Definition fixture_file (name : str) : tar_info :=
  TarInfo name 0x1A4 1 true false (Ok (Some (Stream (b "x") None))).
Definition fixture_link : tar_info :=
  TarInfo (u "link") 0x1A4 0 false false (Err (KeyError "linkname not found")).

(** [archive_payloads] on a tar file of these members. *)
Definition payloads_of (name : str) (infos : list tar_info) : res payload_state :=
  let archives := {| zip_open _ := Ok []; tar_open _ := ([], None) |} in
  let tars := {| tar_members _ := Ok infos |} in
  archive_payloads name (Some []).

Definition test_archives : res (dict Z) :=
  rejected (payloads_of (u "duplicate.tar") [fixture_file (u "same"); fixture_file (u "same")]) ;;
  rejected (payloads_of (u "link.tar") [fixture_link]) ;;
  st ← payloads_of (u "mode.tar") [fixture_file (u "siano-ts")];
  Ok (modes st).

(** The modes of the packaged programs, that of the fixture and [0o755], and of the mdev
    files. *)
Definition test_binary_mode (found : dict Z) (platform : str) : res unit :=
  rejected (verify_binary_archive_mode found platform (u "siano-ts")) ;;
  verify_binary_archive_mode [(u "siano-ts", 0x1ED)] platform (u "siano-ts").

Definition test_mdev_modes (platform : str) : res unit :=
  expected ← expected_members platform;
  fail_if (negb (bool_decide (dict_keys LINUX_MDEV ⊆ expected)))
    "Linux mdev members missing from allowlist self-test" ;;
  let modes := [(u "mdev/siano-ts-mdev.conf", 0x1A4); (u "mdev/siano-ts-mdev.sh", 0x1ED);
                (u "mdev/siano-ts-mdev.start", 0x1ED)] in
  verify_linux_mdev_modes modes platform ;;
  for_each (λ name, rejected (verify_linux_mdev_modes
    (dict_set name (if ends_with (u ".conf") name then 0x180 else 0x1E4) modes) platform)) modes.*1.

Definition test_modes : res unit :=
  found ← test_archives;
  for_each (test_binary_mode found) (sorted (filter (λ p, p ≠ u "windows-x64") PACKAGE_PLATFORMS)) ;;
  for_each test_mdev_modes (sorted LINUX_ARCHITECTURES.*1) ;;
  verify_binary_archive_mode [(u "siano-ts.exe", 0x1A4)] (u "windows-x64") (u "siano-ts.exe").

Definition test_json : res unit :=
  rejected (parse_json limit (nb <$> dq "{`a`:1,`a`:2}")) ;;
  rejected (parse_json limit (nb <$> dq "{`a`:NaN}")).

Definition aarch64_header : str := line "ELF Header:" ++ line "  Class: ELF64" ++ line "  Machine: AArch64".
Definition static_dynamic : str := line "There is no dynamic section in this file.".

Definition test_linux : res unit :=
  let audit header dynamic program_headers :=
    audit_linux_elf_text header dynamic program_headers (u "linux-aarch64") in
  audit aarch64_header static_dynamic (line "Program Headers:") (line "Section Headers:") ;;
  rejected (audit aarch64_header
    (line "Dynamic section:" ++ line "  (NEEDED) Shared library: [libusb-1.0.so.0]")
    (line "Program Headers:") []) ;;
  rejected (audit aarch64_header static_dynamic
    (line "Requesting program interpreter: /lib/ld-linux-aarch64.so.1") []) ;;
  rejected (audit (line "ELF Header:" ++ line "  Class: ELF64"
                   ++ line "  Machine: Advanced Micro Devices X86-64")
    static_dynamic (line "Program Headers:") []).

Definition stripped_release_sections : str :=
  line "Section Headers:"
  ++ line "  [ 1] .text PROGBITS 00000000 000040 000010 00 AX 0 0 1"
  ++ line "  [ 2] .dynsym DYNSYM 00000000 000050 000010 18 A 0 1 8"
  ++ line "  [ 3] .eh_frame PROGBITS 00000000 000060 000010 00 A 0 0 8".

(** The name [.text] occurs once in the sections. *)
Definition test_sections : res unit :=
  audit_elf_section_text stripped_release_sections ;;
  for_each (λ forbidden, rejected (audit_elf_section_text
    (replace (u ".text") forbidden stripped_release_sections)))
    [u ".debug_info"; u ".zdebug_line"; u ".symtab"].

Definition test_pe : res unit :=
  audit_pe_x64_bytes (synthetic_pe None false) true ;;
  rejected (audit_pe_x64_bytes (synthetic_pe (Some 17) false) true) ;;
  audit_pe_x64_bytes (synthetic_pe (Some 2) false) false ;;
  rejected (audit_pe_x64_bytes (synthetic_pe (Some 2) false) true) ;;
  for_each (λ _ : string, rejected (audit_pe_x64_bytes (synthetic_pe None true) true))
    ["pointer"; "count"].

Definition test_load_commands : res unit :=
  rejected (audit_darwin_load_commands (line "Load command 1" ++ line "  segname __DWARF")) ;;
  audit_darwin_load_commands
    (line "Load command 1" ++ line "  cmd LC_DYSYMTAB" ++ line "  nlocalsym 0"
     ++ line "Load command 2" ++ line "  segname __TEXT" ++ line "  sectname __text") ;;
  rejected (audit_darwin_load_commands
    (line "Load command 1" ++ line "  cmd LC_DYSYMTAB" ++ line "  nlocalsym 2")) ;;
  audit_darwin_load_commands
    (line "Load command 1" ++ line "  cmd LC_DYSYMTAB" ++ line "  nlocalsym 1") ;;
  Ok tt.

Definition radr : str := line "0000000005614542 - 00 0000   OPT radr://5614542".

Definition test_symbols : res unit :=
  audit_darwin_optional_symbol_text radr ;;
  for_each (λ bad_nm, rejected (audit_darwin_optional_symbol_text bad_nm))
    [radr ++ line "0000000000000000 t _local_function";
     radr ++ line "0000000005614542 - 00 0000   OPT radr://5678";
     line "0000000005614542 - 00 0000   OPT radr://not-a-number";
     line "0000000005614542 - 00 0000   N_OPT radr://5614542"].

Definition test_macho : res unit :=
  names ← darwin_dylibs (macho_of system_dylibs);
  fail_if (negb (bool_decide (names = system_dylibs)))
    "macOS dylib parser self-test returned the wrong install names" ;;
  audit_darwin_macho (macho_of system_dylibs) (u "synthetic-static-libusb") ;;
  let macho dylibs := synthetic_macho ((λ name : str, nb <$> name) <$> dylibs) in
  for_each (λ '(label, fixture), rejected (audit_darwin_macho fixture label))
    [(u "homebrew-libusb", macho_of (system_dylibs ++ [u "/opt/homebrew/opt/libusb/lib/libusb-1.0.0.dylib"]));
     (u "weak-libusb", macho (system_dylibs ++ [u "/usr/lib/libusb-1.0.0.dylib"])
                         MACHO_CPU_TYPE_ARM64 0x80000018 0x000B0000);
     (u "rpath-dylib", macho_of (system_dylibs ++ [u "@rpath/libfoo.dylib"]));
     (u "no-iokit", macho_of [u "/usr/lib/libSystem.B.dylib"]);
     (u "x86_64", macho system_dylibs 0x01000007 0x0C 0x000B0000);
     (u "minos-14", macho system_dylibs MACHO_CPU_TYPE_ARM64 0x0C 0x000E0000);
     (u "truncated", takeZ 40 (macho_of system_dylibs))].

Definition evidence_text : str :=
  dq "{`schema`: 2, `platform`: `linux-x86_64`, `source_ref`: `" ++ replicate 40 97%N
  ++ dq "`, `binary`: {`name`: `siano-ts`, `sha256`: `" ++ hexdigest (b "binary") ++ dq "`}}".

Definition test_evidence : res unit :=
  let manifest := [(u "platform", JStr (u "linux-x86_64")); (u "source_ref", JStr (replicate 40 97%N))] in
  let verify evidence := verify_binary_evidence limit
    [(u "siano-ts", b "binary"); (u "evidence/binary-audit.json", nb <$> evidence)] manifest None in
  verify evidence_text ;;
  rejected (verify (replace (replicate 40 97%N) (replicate 40 98%N) evidence_text)) ;;
  rejected (verify (replace (u "binary") (u "tampered") evidence_text)).

Definition ndk_notices : dict bytes :=
  [(u "evidence/ndk/source.properties", b "Pkg.Revision = 27.3.13750724" ++ [x0a]);
   (u "evidence/ndk/NOTICE", b "ndk notice" ++ [x0a]);
   (u "evidence/ndk/NOTICE.toolchain", b "exact upstream toolchain notice" ++ [x0a])].
Definition ndk_digest (name : string) : str := hexdigest (default [] (dict_get (u name) ndk_notices)).

Definition ndk_payloads : dict bytes :=
  [(u "evidence/static-link-inventory.tsv",
    nb <$> u "category" ++ [9%N] ++ u "archive" ++ [9%N] ++ line "member"
           ++ u "libusb" ++ [9%N] ++ u "libusb-1.0.a" ++ [9%N] ++ line "x.o");
   (u "evidence/build.properties",
    nb <$> line "android_abi=aarch64" ++ line "android_api=24" ++ line "ndk_revision=27.3.13750724"
           ++ line "libusb_version=1.0.30" ++ u "libusb_source_url=" ++ LIBUSB_SOURCE_URL ++ [10%N]
           ++ u "libusb_source_sha256=" ++ LIBUSB_SOURCE_SHA256 ++ [10%N]
           ++ u "ndk_source_properties_sha256=" ++ ndk_digest "evidence/ndk/source.properties" ++ [10%N]
           ++ u "ndk_notice_sha256=" ++ ndk_digest "evidence/ndk/NOTICE" ++ [10%N]
           ++ u "ndk_notice_toolchain_sha256=" ++ ndk_digest "evidence/ndk/NOTICE.toolchain" ++ [10%N])]
  ++ ndk_notices.
Definition ndk_fields (revision : string) : dict str :=
  [(u "ndk_revision", u revision);
   (u "ndk.source_properties.sha256", ndk_digest "evidence/ndk/source.properties");
   (u "ndk.notice.sha256", ndk_digest "evidence/ndk/NOTICE");
   (u "ndk.notice_toolchain.sha256", ndk_digest "evidence/ndk/NOTICE.toolchain")].

Definition test_android : res unit :=
  verify_android_provenance ndk_payloads (ndk_fields "27.3.13750724") (u "android-aarch64") None ;;
  rejected (verify_android_provenance ndk_payloads (ndk_fields "26.3.11579264") (u "android-aarch64") None).

Definition self_test : res unit :=
  test_names ;; test_modes ;; test_json ;; test_linux ;; test_sections ;; test_pe ;;
  test_load_commands ;; test_symbols ;; test_macho ;; test_evidence ;; test_android.
End self_test.

(** The model passes the script's own test vectors, with SHA-256 as the digest. *)
Example self_test_passes :
  self_test (H := sample_digits) (H0 := sample_lower) (H1 := sha256_digest) 4 = Ok tt.
Proof. vm_compute. reflexivity. Qed.
