(* ===== verification/AuditSelfTestProps.v ===== *)
(** * A Mach-O image is read back

    The image that [synthetic_macho] of [audit-artifact.py] builds is read as the libraries
    and the deployment target it was built from. *)

From S2P Require Import Prelude PyStr PyDict Codec Regex PyFloat Json Sha256 PyPath Provenance.
From S2P Require Import Archive Struct AuditBase AuditMacho AuditMachoProps AuditManifest AuditSelfTest.

Local Open Scope Z_scope.

(** ** Packed integers *)

Lemma lenZ_app {A} (l1 l2 : list A) : lenZ (l1 ++ l2) = lenZ l1 + lenZ l2.
Proof. unfold lenZ. rewrite length_app. lia. Qed.

Lemma slice_mid {A} (pre x suf : list A) : slice (lenZ pre) (lenZ pre + lenZ x) (pre ++ x ++ suf) = x.
Proof.
  unfold slice. rewrite takeZ_take, dropZ_drop. unfold lenZ. rewrite Nat2Z.id, drop_app_length.
  replace (Z.to_nat _) with (length x) by lia. apply take_app_length.
Qed.

Lemma length_to_bytes w n : lenZ (to_bytes w n) = Z.of_nat w.
Proof.
  unfold lenZ. f_equal. revert n. induction w as [|w IH]; intros n; [done|]. cbn [to_bytes length]. by rewrite IH.
Qed.

Lemma le_int_to_bytes w n : le_int (to_bytes w n) = n mod 256 ^ Z.of_nat w.
Proof.
  revert n. induction w as [|w IH]; intros n; [cbn; by rewrite Z.mod_1_r|].
  cbn [to_bytes le_int]. rewrite IH, Nat2Z.inj_succ, Z.pow_succ_r by lia.
  assert (0 ≤ n mod 256 < 256) by (apply Z.mod_pos_bound; lia).
  unfold bz. rewrite bn_nb by lia. rewrite Z2N.id by lia.
  rewrite Z.rem_mul_r by lia. done.
Qed.

Lemma length_pack values : lenZ (pack values) = 4 * lenZ values.
Proof.
  unfold pack. induction values as [|v l IH]; [done|]. cbn [fmap list_fmap concat].
  rewrite lenZ_app, length_to_bytes, IH. unfold lenZ. cbn [length]. lia.
Qed.

(** The [i]-th packed integer. *)
Lemma field_pack pre values (k : nat) v suf i : values !! k = Some v → i = lenZ pre + 4 * Z.of_nat k →
  field (pre ++ pack values ++ suf) i (i + 4) = v mod 2 ^ 32.
Proof.
  intros (l1 & l2 & -> & ->)%list_elem_of_split_length ->. fold (lenZ l1). unfold field, pack. rewrite fmap_app, concat_app. cbn [fmap list_fmap concat].
  fold (pack l1) (pack l2). rewrite <- length_pack, <- lenZ_app.
  replace (pre ++ (pack l1 ++ to_bytes 4 v ++ pack l2) ++ suf)
    with ((pre ++ pack l1) ++ to_bytes 4 v ++ pack l2 ++ suf) by (by rewrite <- !app_assoc).
  rewrite <- (length_to_bytes 4 v) at 1. rewrite slice_mid. apply (le_int_to_bytes 4).
Qed.

(** ** The layout *)

Lemma align8 x : Z.land x (-8) = 8 * (x / 8).
Proof.
  change (-8) with (Z.lnot (Z.ones 3)). rewrite <- Z.ldiff_land, Z.ldiff_ones_r by lia.
  rewrite Z.shiftr_div_pow2, Z.shiftl_mul_pow2 by lia. change (2 ^ 3) with 8. lia.
Qed.

Definition dylib_size (name : bytes) : Z := Z.land (24 + lenZ (name ++ [x00]) + 7) (-8).

Lemma dylib_size_bound name : 24 + lenZ name < dylib_size name.
Proof. unfold dylib_size. rewrite align8, lenZ_app. change (lenZ [x00]) with 1. Z.to_euclidean_division_equations. lia. Qed.

Lemma length_macho_dylib command name : lenZ (macho_dylib command name) = dylib_size name.
Proof.
  pose proof (dylib_size_bound name). unfold macho_dylib. fold (dylib_size name).
  rewrite !lenZ_app, length_pack. change (lenZ [x00]) with 1. unfold lenZ at 1. cbn [length].
  unfold lenZ in *. rewrite length_replicate, length_app. cbn [length]. lia.
Qed.

Lemma until_nul_padded name zeros : x00 ∉ name → until_nul (name ++ x00 :: zeros) = name.
Proof.
  induction name as [|x name IH]; intros Hn; [done|]. cbn. destruct (bn x =? 0)%N eqn:Hx.
  - exfalso. apply N.eqb_eq in Hx. apply Hn. replace x with x00; [left|].
    rewrite <- (nb_bn x), Hx. done.
  - f_equal. apply IH. intros Hin. apply Hn. by right.
Qed.

(** The commands of the libraries, from an offset on. *)
Fixpoint dylib_commands (command at_ : Z) (names : list bytes) : list AuditMacho.command :=
  match names with
  | [] => []
  | name :: names =>
      Command command at_ (dylib_size name) :: dylib_commands command (at_ + dylib_size name) names
  end.

Lemma dylib_tiles command pre names end_ :
  0 ≤ command < 2 ^ 32 → end_ < 2 ^ 32 → lenZ pre + lenZ (concat (macho_dylib command <$> names)) ≤ end_ →
  tiles (pre ++ concat (macho_dylib command <$> names)) end_ (lenZ pre) (dylib_commands command (lenZ pre) names).
Proof.
  intros Hc Hend. revert pre. induction names as [|name names IH]; intros pre Hle; [constructor|].
  cbn [fmap list_fmap concat dylib_commands] in *. rewrite lenZ_app, length_macho_dylib in Hle.
  pose proof (dylib_size_bound name) as Hs.
  assert (0 ≤ lenZ pre ∧ 0 ≤ lenZ name ∧ 0 ≤ lenZ (concat (macho_dylib command <$> names))) as Hpos by (unfold lenZ; lia).
  set (more := concat (macho_dylib command <$> names)) in *.
  constructor; cbn [offset cmd cmdsize]; [done| | |lia|lia|].
  - unfold macho_dylib. rewrite <- !app_assoc.
    rewrite (field_pack pre _ 0 command) by (done || lia). by rewrite Z.mod_small.
  - unfold macho_dylib. fold (dylib_size name). rewrite <- !app_assoc.
    replace (lenZ pre + 8) with (lenZ pre + 4 + 4) by lia.
    rewrite (field_pack pre _ 1 (dylib_size name)) by (done || lia).
    rewrite Z.mod_small by lia. done.
  - rewrite <- (length_macho_dylib command name), <- lenZ_app, app_assoc. apply IH.
    rewrite lenZ_app, length_macho_dylib. lia.
Qed.

Lemma dylib_text command pre name more :
  slice (lenZ pre + 24) (lenZ pre + dylib_size name) (pre ++ macho_dylib command name ++ more)
  = name ++ x00 :: replicate (Z.to_nat (dylib_size name - 24) - length (name ++ [x00])) x00.
Proof.
  pose proof (length_macho_dylib command name) as Hl. unfold macho_dylib in *. fold (dylib_size name) in *.
  set (head := pack _) in *. assert (lenZ head = 24) as Hh by (unfold head; by rewrite length_pack).
  set (text := (name ++ [x00]) ++ replicate _ x00) in *. rewrite lenZ_app in Hl.
  replace (pre ++ (head ++ text) ++ more) with ((pre ++ head) ++ text ++ more) by (by rewrite <- !app_assoc).
  replace (lenZ pre + 24) with (lenZ (pre ++ head)) by (rewrite lenZ_app; lia).
  replace (lenZ pre + dylib_size name) with (lenZ (pre ++ head) + lenZ text) by (rewrite lenZ_app; lia).
  rewrite slice_mid. unfold text. by rewrite <- app_assoc.
Qed.

Lemma dylib_name command pre name text more : decode_utf8 name = Some text → x00 ∉ name →
  install_name (pre ++ macho_dylib command name ++ more) (Command command (lenZ pre) (dylib_size name))
  = Some text.
Proof.
  intros Hdec Hn. pose proof (dylib_size_bound name) as Hs.
  assert (field (pre ++ macho_dylib command name ++ more) (lenZ pre + 8) (lenZ pre + 12) = 24) as Hoff.
  { unfold macho_dylib. rewrite <- !app_assoc. replace (lenZ pre + 12) with (lenZ pre + 8 + 4) by lia.
    by rewrite (field_pack pre _ 2 24) by (done || lia). }
  unfold install_name. cbv beta zeta. cbn [offset cmdsize].
  rewrite Hoff, option_guard_True by (unfold lenZ in *; lia).
  by rewrite dylib_text, until_nul_padded.
Qed.

Lemma dylib_names command pre names texts : command ∈ MACHO_DYLIB_COMMANDS →
  Forall2 (λ name text, decode_utf8 name = Some text ∧ x00 ∉ name) names texts →
  mapM (install_name (pre ++ concat (macho_dylib command <$> names)))
    (filter is_dylib (dylib_commands command (lenZ pre) names)) = Some texts.
Proof.
  intros Hd Hall. revert pre. induction Hall as [|name text names texts [Hdec Hn] _ IH]; intros pre; [done|].
  cbn [fmap list_fmap concat dylib_commands]. rewrite filter_cons, decide_True by done. cbn [mapM].
  rewrite (dylib_name _ _ _ text) by done. cbn [mbind option_bind].
  rewrite <- (length_macho_dylib command name), <- lenZ_app, app_assoc.
  by rewrite IH.
Qed.

Lemma dylib_builds command at_ names : command ≠ 0x32 →
  filter is_build_version (dylib_commands command at_ names) = [].
Proof.
  intros Hc. revert at_. induction names as [|name names IH]; intros at_; [done|]. cbn [dylib_commands].
  by rewrite filter_cons, decide_False.
Qed.

(** ** The image *)

Lemma length_dylibs command names : 24 * lenZ names ≤ lenZ (concat (macho_dylib command <$> names)).
Proof.
  induction names as [|name names IH]; [done|]. cbn [fmap list_fmap concat].
  rewrite lenZ_app, length_macho_dylib. pose proof (dylib_size_bound name). unfold lenZ in *. cbn [length]. lia.
Qed.

Lemma dylib_commands_length command at_ names : lenZ (dylib_commands command at_ names) = lenZ names.
Proof.
  revert at_. induction names as [|name names IH]; intros at_; [done|]. unfold lenZ in *. cbn [dylib_commands length].
  specialize (IH (at_ + dylib_size name)). lia.
Qed.

Section image.
Context (command minos : Z) (names : list bytes) (texts : list str).
Context (Hcommand : command ∈ MACHO_DYLIB_COMMANDS).
Context (Hnames : Forall2 (λ name text, decode_utf8 name = Some text ∧ x00 ∉ name) names texts).
Context (Hsize : lenZ (macho_commands names command minos) < 2 ^ 31).

Definition the_image : bytes := synthetic_macho names MACHO_CPU_TYPE_ARM64 command minos.
Definition image_commands : list AuditMacho.command :=
  Command 0x32 32 24 :: dylib_commands command 56 names.

Lemma command_range : 0 ≤ command < 2 ^ 32 ∧ command ≠ 0x32.
Proof using Hcommand.
  assert (Forall (λ c, 0 ≤ c < 2 ^ 32 ∧ c ≠ 0x32) (elements MACHO_DYLIB_COMMANDS)) as Hall
    by (apply (bool_decide_eq_true_1 (Forall _ _)); vm_compute; reflexivity).
  rewrite Forall_forall in Hall. by apply Hall, elem_of_elements.
Qed.

(** The integers of the build version, after a header of eight integers. *)
Lemma build_field header (k : nat) i j v : lenZ header = 32 →
  [0x32; 24; 1; minos; 0x000E0500; 0] !! k = Some v → i = 32 + 4 * Z.of_nat k → j = i + 4 →
  field (header ++ macho_commands names command minos) i j = v mod 2 ^ 32.
Proof using. intros H32 Hv -> ->. by apply (field_pack header _ k v); [|rewrite H32]. Qed.

(** The commands follow the header. *)
Lemma image_tiles header : length header = 8%nat →
  tiles (pack header ++ macho_commands names command minos)
    (32 + lenZ (macho_commands names command minos)) 32 image_commands.
Proof using All.
  destruct command_range as [Hr _]. intros Hh.
  assert (lenZ (macho_commands names command minos) = 24 + lenZ (concat (macho_dylib command <$> names))) as Hlen
    by (unfold macho_commands; by rewrite lenZ_app, length_pack).
  rewrite Hlen in Hsize |- *.
  assert (lenZ (pack header) = 32) as H32 by (rewrite length_pack; unfold lenZ; by rewrite Hh).
  pose proof (build_field _ 0 32 36 0x32 H32 eq_refl eq_refl eq_refl) as H0.
  pose proof (build_field _ 1 36 40 24 H32 eq_refl eq_refl eq_refl) as H1.
  assert (0 ≤ lenZ (concat (macho_dylib command <$> names))) as Hpos by (unfold lenZ; lia).
  constructor; cbn [offset cmd cmdsize]; change (32 + 4) with 36; change (32 + 8) with 40;
    [done|by rewrite H0|by rewrite H1|lia|lia|].
  change (32 + 24) with 56. unfold macho_commands. rewrite app_assoc.
  assert (lenZ (pack header ++ pack [0x32; 24; 1; minos; 0x000E0500; 0]) = 56) as H56
    by (rewrite lenZ_app, H32, length_pack; done).
  rewrite <- H56. apply dylib_tiles; [done|lia|]. rewrite H56. lia.
Qed.

Lemma image_is : macho_image the_image image_commands.
Proof using All.
  pose proof (length_dylibs command names) as Hl.
  assert (lenZ (macho_commands names command minos) = 24 + lenZ (concat (macho_dylib command <$> names))) as Hlen
    by (unfold macho_commands; by rewrite lenZ_app, length_pack).
  unfold the_image, synthetic_macho. set (commands := macho_commands names command minos) in *.
  set (header := [0xFEEDFACF; _; _; _; _; _; _; _]).
  assert (∀ (k : nat) i j v, header !! k = Some v → i = 4 * Z.of_nat k → j = i + 4 →
    field (pack header ++ commands) i j = v mod 2 ^ 32) as Hf.
  { intros k i j v Hv -> ->. apply (field_pack [] header k v commands); [done|by cbn]. }
  assert (0 ≤ lenZ names) as Hn0 by (unfold lenZ; lia).
  assert (command_end (pack header ++ commands) = 32 + lenZ commands) as Hend.
  { unfold command_end. rewrite (Hf 5%nat _ _ (lenZ commands)) by done. rewrite Z.mod_small by lia. done. }
  assert (lenZ (pack header ++ commands) = 32 + lenZ commands) as Hdata
    by (rewrite lenZ_app, length_pack; by change (4 * lenZ header) with 32).
  split.
  - rewrite Hdata. split_and!; [lia|by rewrite (Hf 0%nat _ _ 0xFEEDFACF)|by rewrite (Hf 1%nat _ _ MACHO_CPU_TYPE_ARM64)].
  - rewrite Hend, Hdata. lia.
  - unfold image_commands. rewrite (Hf 4%nat _ _ (lenZ names + 1)) by done. rewrite Z.mod_small by lia.
    pose proof (dylib_commands_length command 56 names) as Hd. unfold lenZ in *. cbn [length]. lia.
  - rewrite Hend. by apply (image_tiles header).
Qed.
Lemma image_dylibs : darwin_dylibs the_image = Ok texts.
Proof using All.
  apply darwin_dylibs_Ok. exists image_commands. split; [apply image_is|].
  unfold image_commands. rewrite filter_cons, decide_False
    by (unfold is_dylib; apply (bool_decide_eq_false_1 (_ ∈ MACHO_DYLIB_COMMANDS)); vm_compute; reflexivity).
  unfold the_image, synthetic_macho, macho_commands. rewrite app_assoc.
  set (pre := pack _ ++ pack _). assert (lenZ pre = 56) as <- by (unfold pre; by rewrite lenZ_app, !length_pack).
  by apply dylib_names.
Qed.

Lemma image_minos : darwin_minos the_image = Ok (minos_text (minos mod 2 ^ 32)).
Proof using All.
  apply darwin_minos_Ok. exists image_commands, (Command 0x32 32 24). split; [apply image_is|].
  unfold image_commands. rewrite filter_cons, decide_True, dylib_builds by (done || apply command_range).
  split; [done|]. unfold macos_build, minos_at. cbn [offset cmdsize].
  unfold the_image, synthetic_macho. set (header := pack [0xFEEDFACF; _; _; _; _; _; _; _]).
  assert (lenZ header = 32) as H32 by (unfold header; by rewrite length_pack).
  split; [split; [lia|by rewrite (build_field _ 2 40 44 1)]|]. by rewrite (build_field _ 3 44 48 minos).
Qed.
End image.

(** C40. The Mach-O round trip: an image built of library names, with one build version, is
    read back as these names and the deployment target of that version, whatever the kind
    of library command, the number of libraries and the lengths of their names; so the audit
    of the image is the audit of the names and of the target. *)
Theorem macho_round_trip `{Lower} (command minos : Z) (names : list bytes) (texts : list str) (label : str)
    (Hcommand : command ∈ MACHO_DYLIB_COMMANDS)
    (Hnames : Forall2 (λ name text, decode_utf8 name = Some text ∧ x00 ∉ name) names texts)
    (Hsize : lenZ (macho_commands names command minos) < 2 ^ 31) :
  let image := synthetic_macho names MACHO_CPU_TYPE_ARM64 command minos in
  darwin_dylibs image = Ok texts
  ∧ darwin_minos image = Ok (minos_text (minos mod 2 ^ 32))
  ∧ audit_darwin_macho image label
    = (audit_darwin_dylibs texts label ;;
       fail_if (negb (bool_decide (minos_text (minos mod 2 ^ 32) = DARWIN_DEPLOYMENT_TARGET)))
         "macOS binary has the wrong minimum version").
Proof.
  intros image.
  assert (darwin_dylibs image = Ok texts) as Hd by (eapply image_dylibs; eassumption).
  assert (darwin_minos image = Ok (minos_text (minos mod 2 ^ 32))) as Hm by (eapply image_minos; eassumption).
  split; [done|]. split; [done|]. unfold audit_darwin_macho. rewrite Hd. cbn [mbind res_bind].
  destruct (audit_darwin_dylibs texts label); [|done]. cbn [mbind res_bind]. by rewrite Hm.
Qed.

Lemma macho_round_trip_witness :
  let image := synthetic_macho ((λ name : str, nb <$> name) <$> system_dylibs) MACHO_CPU_TYPE_ARM64
                 0x80000018 0x000B0000 in
  darwin_dylibs image = Ok system_dylibs
  ∧ darwin_minos image = Ok (minos_text (0x000B0000 mod 2 ^ 32))
  ∧ audit_darwin_macho (H := sample_lower) image (u "sianod")
    = (audit_darwin_dylibs (H := sample_lower) system_dylibs (u "sianod") ;;
       fail_if (negb (bool_decide (minos_text (0x000B0000 mod 2 ^ 32) = DARWIN_DEPLOYMENT_TARGET)))
         "macOS binary has the wrong minimum version").
Proof.
  apply (macho_round_trip (H := sample_lower) 0x80000018 0x000B0000
    ((λ name : str, nb <$> name) <$> system_dylibs) system_dylibs (u "sianod")).
  - apply (bool_decide_eq_true_1 (_ ∈ MACHO_DYLIB_COMMANDS)). vm_compute. reflexivity.
  - repeat (apply Forall2_cons; split;
      [split; [vm_compute; reflexivity|apply (bool_decide_eq_true_1 (x00 ∉ _)); vm_compute; reflexivity]|]).
    apply Forall2_nil_2.
  - vm_compute. reflexivity.
Defined.
