(* ===== verification/SourceCheckout.v ===== *)
(** * Preparing the dependencies: [scripts/package-source.py], [--prepare-dependencies]

    The two pinned dependencies are fetched below [third_party/] of the source root, unless
    a checkout is there already; an existing checkout is inspected and never changed.  Git
    and the directories change as the command goes on: what they answer depends on the
    [history] of what it did. *)

From S2P Require Import Prelude PyStr PyDict Codec Regex AuditBase Stage.

(** ** What the command does to the outside *)

Inductive event :=
| MakeDirs (target : str)
| RunGit (target : str) (arguments : list str)
| Print (line : str).

Definition history : Type := list event.

(** Whether a path exists after a history, the outcome of creating a directory, and what a
    [git -C target arguments] prints (a command that fails or cannot start raises
    [OSError], here also [CalledProcessError]). *)
Class Checkouts := {
  target_exists : history → str → bool;
  mkdir : history → str → res unit;
  git_run : history → str → list str → res bytes;
}.

(** An action: the history it leaves, also when it raises. *)
Definition act (A : Type) : Type := history → history * res A.
#[export] Instance act_ret : MRet act := λ A a h, (h, Ok a).
#[export] Instance act_bind : MBind act := λ A B f m h,
  match m h with
  | (h, Ok a) => f a h
  | (h, Err e) => (h, Err e)
  end.

Definition pure {A} (r : res A) : act A := λ h, (h, r).

Section checkout.
Context `{Files} `{Checkouts}.

Definition make_dirs (target : str) : act unit := λ h, (h ++ [MakeDirs target], mkdir h target).
Definition print (line : str) : act unit := λ h, (h ++ [Print line], Ok tt).
Definition exists_now (target : str) : act bool := λ h, (h, Ok (target_exists h target)).

(** [run_git(target, ...)]: the text it prints. *)
Definition checkout_git (target : str) (arguments : list str) : act str := λ h,
  (h ++ [RunGit target arguments],
   data ← try_except (git_run h target arguments)
            (λ e, match e with OSError _ => fail "git command failed" | _ => Err e end);
   of_option (ValueError "UnicodeDecodeError") (decode_utf8 data)).

Definition dependency_names : list str := [u "dtv-userland-core"; u "px4-userland"].
Definition dependency_url (name : str) : str :=
  u "https://github.com/Khronos31/" ++ name ++ u ".git".

(** The pin of a dependency. *)
Definition pinned_revision (root name : str) : res str :=
  data ← read_bytes (under root (u "cmake/" ++ name ++ u ".revision"));
  text ← read_text_ascii data;
  fail_if (negb (hex40 (strip text))) "invalid dependency revision" ;;
  Ok (strip text).

(** An existing checkout must be at the revision and clean. *)
Definition inspect_checkout (target revision : str) : act unit :=
  current ← checkout_git target [u "rev-parse"; u "HEAD"];
  if decide (strip current ≠ revision)
  then pure (fail "refusing to overwrite a different/dirty dependency")
  else
    status ← checkout_git target [u "status"; u "--porcelain"];
    pure (fail_if (negb (bool_decide (strip status = [])))
            "refusing to overwrite a different/dirty dependency").

Definition fetch_checkout (name target revision : str) : act unit :=
  make_dirs target ;;
  checkout_git target [u "init"; u "-q"] ;;
  checkout_git target [u "fetch"; u "--depth=1"; dependency_url name; revision] ;;
  checkout_git target [u "checkout"; u "--detach"; u "-q"; u "FETCH_HEAD"] ;;
  mret tt.

Definition prepare_dependency (root name : str) : act unit :=
  revision ← pure (pinned_revision root name);
  let target := under root (u "third_party/" ++ name) in
  present ← exists_now target;
  (if present : bool then inspect_checkout target revision
   else fetch_checkout name target revision) ;;
  print (name ++ u "=" ++ revision).

(** The whole option: both dependencies of the resolved source root, in order. *)
Definition prepare_dependencies (root : str) : act unit :=
  foldr (λ name rest, prepare_dependency root name ;; rest) (mret tt) dependency_names.

(** ** An existing checkout is never changed *)

(** The target of an event that may change a checkout. *)
Definition changes (e : event) : option str :=
  match e with
  | MakeDirs target => Some target
  | RunGit target arguments =>
      if decide (arguments = [u "rev-parse"; u "HEAD"] ∨ arguments = [u "status"; u "--porcelain"])
      then None else Some target
  | Print _ => None
  end.

(** Each change after [h] has a moment before it at which its target did not exist. *)
Definition guarded (h later : history) : Prop :=
  ∀ l1 e l2 target, later = l1 ++ e :: l2 → changes e = Some target →
    ∃ l0, l0 `prefix_of` l1 ∧ target_exists (h ++ l0) target = false.

(** An action only adds guarded events. *)
Definition careful {A} (m : act A) : Prop :=
  ∀ h, ∃ later, fst (m h) = h ++ later ∧ guarded h later.

(** An action whose changes are of one target. *)
Definition only {A} (target : str) (m : act A) : Prop :=
  ∀ h, ∃ later, fst (m h) = h ++ later ∧ Forall (λ e, changes e = None ∨ changes e = Some target) later.

Lemma guarded_app h l1 l2 : guarded h l1 → guarded (h ++ l1) l2 → guarded h (l1 ++ l2).
Proof.
  intros H1 H2 m1 e m2 t Heq Hc. apply app_eq_inv in Heq as [(k & -> & Hk)|(k & -> & Hk)].
  - destruct k as [|e' k].
    + destruct (H2 [] e m2 t) as (l0 & Hp & Hf); [done..|]. apply prefix_nil_inv in Hp as ->.
      exists m1. split; [done|]. by rewrite !app_nil_r in Hf.
    + injection Hk as <- ->. by apply (H1 m1 e k t).
  - destruct (H2 k e m2 t) as (l0 & Hp & Hf); [done..|]. exists (l1 ++ l0).
    split; [by apply prefix_app|]. by rewrite app_assoc.
Qed.

Lemma careful_bind {A B} (m : act A) (f : A → act B) :
  careful m → (∀ a, careful (f a)) → careful (m ≫= f).
Proof.
  intros Hm Hf h. destruct (Hm h) as (l & Hl & Hg). unfold mbind, act_bind.
  destruct (m h) as [h' [a|e]]; cbn in *; subst; [|by exists l].
  destruct (Hf a (h ++ l)) as (l' & Hl' & Hg'). exists (l ++ l'). rewrite Hl', app_assoc.
  split; [done|by apply guarded_app].
Qed.

Lemma careful_quiet {A} (m : act A) :
  (∀ h, ∃ later, fst (m h) = h ++ later ∧ Forall (λ e, changes e = None) later) → careful m.
Proof.
  intros Hm h. destruct (Hm h) as (l & Hl & Hq). exists l. split; [done|].
  intros l1 e l2 t -> Hc. rewrite Forall_app, Forall_cons in Hq. destruct Hq as (_ & He & _). congruence.
Qed.

Lemma careful_pure {A} (r : res A) : careful (pure r).
Proof. apply careful_quiet. intros h. exists []. by rewrite app_nil_r. Qed.

(** Actions that change one target at most. *)
Lemma only_bind {A B} t (m : act A) (f : A → act B) : only t m → (∀ a, only t (f a)) → only t (m ≫= f).
Proof.
  intros Hm Hf h. destruct (Hm h) as (l & Hl & Hg). unfold mbind, act_bind.
  destruct (m h) as [h' [a|e]]; cbn in *; subst; [|by exists l].
  destruct (Hf a (h ++ l)) as (l' & Hl' & Hg'). exists (l ++ l'). rewrite Hl', app_assoc.
  split; [done|by apply Forall_app].
Qed.

Lemma only_one {A} t e (r : history → res A) :
  changes e = None ∨ changes e = Some t → only t (λ h, (h ++ [e], r h)).
Proof. intros He h. exists [e]. split; [done|]. by constructor. Qed.

Lemma changes_git t arguments : changes (RunGit t arguments) = None ∨ changes (RunGit t arguments) = Some t.
Proof. cbn. case_decide; auto. Qed.

Lemma fetch_only name target revision : only target (fetch_checkout name target revision).
Proof.
  unfold fetch_checkout, make_dirs, checkout_git.
  repeat (apply only_bind; [apply only_one; solve [by right|apply changes_git]|intros _]).
  intros h. exists []. by rewrite app_nil_r.
Qed.

(** Changes of a target that does not exist yet are guarded. *)
Lemma only_guarded h later t : target_exists h t = false →
  Forall (λ e, changes e = None ∨ changes e = Some t) later → guarded h later.
Proof.
  intros Ht Hall l1 e l2 t' -> Hc. rewrite Forall_app, Forall_cons in Hall.
  destruct Hall as (_ & [He|He] & _); [congruence|]. rewrite He in Hc. injection Hc as <-.
  exists []. split; [apply prefix_nil|]. by rewrite app_nil_r.
Qed.

Lemma inspect_careful target revision : careful (inspect_checkout target revision).
Proof.
  assert (∀ arguments, changes (RunGit target arguments) = None → careful (checkout_git target arguments)) as Hgit.
  { intros arguments Hc. apply careful_quiet. intros h. exists [RunGit target arguments].
    split; [done|]. by constructor. }
  apply careful_bind; [apply Hgit; cbn; rewrite decide_True; auto|]. intros current.
  case_decide; [apply careful_pure|]. apply careful_bind; [|intros; apply careful_pure].
  apply Hgit. cbn. rewrite decide_True; auto.
Qed.

Lemma prepare_careful root name : careful (prepare_dependency root name).
Proof.
  unfold prepare_dependency. apply careful_bind; [apply careful_pure|]. intros revision h.
  set (target := under root _). unfold exists_now. unfold mbind at 1, act_bind at 1.
  destruct (target_exists h target) eqn:He; cbv beta iota.
  - apply (careful_bind _ (λ _, print (name ++ u "=" ++ revision))); [apply inspect_careful|].
    intros _. apply careful_quiet. intros h'. eexists. split; [done|]. by constructor.
  - assert (only target (fetch_checkout name target revision ≫= λ _, print (name ++ u "=" ++ revision))) as Ho.
    { apply only_bind; [apply fetch_only|]. intros _. apply only_one. by left. }
    destruct (Ho h) as (later & Hl & Hall). exists later. split; [exact Hl|]. by apply (only_guarded _ _ target).
Qed.

(** C39. Preparing the dependencies never touches an existing checkout: whatever Git and the
    directories answer, and however the command ends, everything it runs besides
    [git rev-parse HEAD] and [git status] is below a target that did not exist when the
    command looked. *)
Theorem prepare_never_overwrites (root : str) (h : history) :
  ∃ later, fst (prepare_dependencies root h) = h ++ later ∧ guarded h later.
Proof.
  revert h. change (careful (prepare_dependencies root)). unfold prepare_dependencies.
  induction dependency_names as [|name names IH]; cbn [foldr]; [apply (careful_pure (Ok tt))|].
  apply careful_bind; [apply prepare_careful|]. by intros _.
Qed.

(** A successful run names the pin of each dependency, and each pin is a full commit. *)
Lemma pinned_revision_Ok root name revision : pinned_revision root name = Ok revision → hex40 revision = true.
Proof.
  unfold pinned_revision. intros (data & _ & Hp)%bind_Ok. apply bind_Ok in Hp as (text & _ & Hp).
  apply bind_Ok in Hp as ([] & Hf & [= <-]). unfold fail_if in Hf. by destruct (hex40 (strip text)).
Qed.
End checkout.
