(* ===== verification/PackageRelease.v ===== *)
(** * A package before the release gate

    [package-artifact.py] and [audit-artifact.py] keep the evidence of [siano-ts] in
    [evidence/binary-audit.json]; [release_verify.py] pairs its list of evidence files with
    the list of programs, which starts with [sianod], and expects the evidence of [sianod]
    there.  So the gate accepts no archive whose evidence the audit wrote. *)

From S2P Require Import Prelude PyStr PyDict Codec Regex PyFloat Json JsonRound Sha256 PyPath.
From S2P Require Import Archive ReleaseText ReleaseVerify ReleaseSamples ReleaseFixture ReleaseVerifyProps AuditBase.
From S2P Require Import AuditText AuditManifest AuditBinary EvidenceProps Stage Package PackageMain.

Local Open Scope Z_scope.

(** The first evidence file is the one of [siano-ts] for the audit. *)
Lemma first_evidence : head ReleaseVerify.EVIDENCE = Some (binary_evidence_name (u "siano-ts")).
Proof. vm_compute. reflexivity. Qed.

(** For the gate it is the one of another program. *)
Lemma first_program platform :
  ∃ program programs, programs_of platform = program :: programs ∧ without_exe program ≠ u "siano-ts".
Proof.
  unfold programs_of. destruct (decide _); eexists _, _; (split; [reflexivity|]);
    apply (bool_decide_eq_false_1 (without_exe _ = u "siano-ts")); vm_compute; reflexivity.
Qed.

Section release.
Context `{Unicode} `{Digits} `{Lower} `{Digest} `{Tools}.

(** C6. The release gate rejects every tag archive whose candidate has the evidence that
    [audit_binary] writes for [siano-ts] where the packager puts it: the gate takes that
    file for the evidence of [sianod]. *)
Theorem release_rejects_audited_evidence (limit : nat) (repo_root : str) (t : target)
    (platform source_ref : str) (evidence : json) (file : bytes)
    (before after : dict member) (archive_name candidate_sha tag_sha : str)
    (Haudit : audit_binary repo_root t platform source_ref true = Ok (evidence, Some file))
    (Hprogram : without_exe (path_name (t_path t)) = u "siano-ts")
    (Hname : printable (path_name (t_path t)))
    (Hlimit : (3 ≤ limit)%nat)
    (Hfile : kept_data before (binary_evidence_name (u "siano-ts")) = Ok file) :
  verify_binary_pair limit before after archive_name candidate_sha tag_sha ≠ Ok tt.
Proof.
  intros (_ & _ & _ & _ & old & new & old_files & new_files & Hman & _)%verify_binary_pair_inv.
  destruct Hman as (gate_platform & version & data & _ & _ & _ & _ & _ & _ & _ & _ & _ & Hall).
  destruct (first_program gate_platform) as (program & programs & Hp & Hne). rewrite Hp in Hall.
  assert (ReleaseVerify.EVIDENCE = binary_evidence_name (u "siano-ts") :: tail ReleaseVerify.EVIDENCE) as He
    by (vm_compute; reflexivity).
  rewrite He in Hall. apply Forall2_cons in Hall as [(m & file' & read & binary & _ & Hk & Hr & _ & _ & Hb & Hn & _) _].
  rewrite Hfile in Hk. injection Hk as <-.
  apply audit_binary_Ok in Haudit as (Hplat & Href & program_data & _ & -> & ->).
  apply platform_printable in Hplat. apply object_id_printable in Href.
  pose proof (audit_evidence_plain _ _ _ program_data Hplat Href Hname) as Hplain.
  unfold audit_evidence in *. rewrite release_parse_written in Hr by done. injection Hr as <-.
  cbn in Hb. injection Hb as <-. cbn in Hn. injection Hn as Hn. apply Hne. by rewrite <- Hn.
Qed.
End release.

(** ** Samples *)

#[local] Existing Instances ascii_unicode sample_digits sample_lower.

(** A member of an archive as the gate reads it. *)
Definition member_of_file (f : str * (Z * bytes)) : str * member :=
  (f.1, Member (u "file") (Z.land f.2.1 0xFFF) (lenZ f.2.2) (hexdigest (Digest := PackageMain.sample_digest) f.2.2)
          (Some f.2.2) None).

Definition audited_members : dict member :=
  [(u "evidence/binary-audit.json",
    Member (u "file") 0x1A4 0 [] (Some (write_json EvidenceProps.sample_evidence)) None)].

Lemma release_rejects_audited_evidence_witness :
  verify_binary_pair 3 audited_members audited_members (u "siano-ts-1.2.3-linux-x86_64.tar.gz")
    EvidenceProps.sample_ref EvidenceProps.sample_ref ≠ Ok tt.
Proof.
  apply (release_rejects_audited_evidence (H2 := length_digest) (H3 := EvidenceProps.sample_tools) 3 (u "/repo")
    EvidenceProps.sample_target (u "linux-x86_64") EvidenceProps.sample_ref EvidenceProps.sample_evidence
    (write_json EvidenceProps.sample_evidence)).
  - exact EvidenceProps.sample_audited.
  - reflexivity.
  - apply printableb_spec. vm_compute. reflexivity.
  - lia.
  - reflexivity.
Defined.

(** The package of the sample run of the packager: the gate accepts its manifest and its
    inventory, and stops at the evidence.  With the evidence files paired as the gate does,
    it would accept the package. *)
Definition package_members : dict member := member_of_file <$> sample_package.
Definition rotated_members : dict member :=
  let evidence name := default (Member [] 0 0 [] None None) (dict_get (u name) package_members) in
  let digests := [(u "evidence/binary-audit.json", evidence "evidence/sianod-binary-audit.json");
                  (u "evidence/sianod-binary-audit.json", evidence "evidence/sianoctl-binary-audit.json");
                  (u "evidence/sianoctl-binary-audit.json", evidence "evidence/binary-audit.json")] in
  foldl (λ d kv, dict_set kv.1 kv.2 d) package_members digests.

Example package_rejected :
  parse_binary_manifest 20 package_members (u "siano-ts-1.2.3-darwin-arm64.tar.gz") EvidenceProps.sample_ref
  = Err (VerificationError "binary evidence mismatch").
Proof. vm_compute. reflexivity. Qed.

Example rotated_evidence :
  for_each (ReleaseVerify.check_evidence 20 rotated_members (u "darwin-arm64") EvidenceProps.sample_ref)
    (zip_with pair ReleaseVerify.EVIDENCE (programs_of (u "darwin-arm64"))) = Ok tt.
Proof. vm_compute. reflexivity. Qed.
