(* ===== verification/GateArchive.v ===== *)
(** * A packaged archive before the release gate

    The archive that a packager writes of a stage, as [release_verify.py] reads it: its
    members, the data it keeps of them, and the checksum list in it. *)

From S2P Require Import Prelude PyStr PyDict Codec Lines Regex PyFloat Json Sha256 PyPath.
From S2P Require Import AuditBase AuditBaseProps Stage StageProps.
From S2P Require Import Archive ArchiveProps ReleaseText ReleaseTextProps ReleaseVerify ReleaseVerifyProps.
From S2P Require Import Release ReleaseProps ReleaseGate.

Local Open Scope Z_scope.

Section gate.
Context `{Unicode} `{Digest}.

(** ** The members *)

(** The header that [tarfile] gives for a file that was written, and the entry of it. *)
Definition written_info (f : str * (Z * bytes)) : tar_info :=
  TarInfo f.1 (Z.land f.2.1 0xFFF) (lenZ f.2.2) true false (Ok (Some (Stream f.2.2 None))).
Definition written_entry (f : str * (Z * bytes)) : entry :=
  Entry f.1 (Z.land f.2.1 0xFFF) (lenZ f.2.2) (Stream f.2.2 None).

(** What the gate has of a file: a member with its mode, size and digest, and its data if it
    is one of those that the gate keeps. *)
Record file_member (name : str) (f : Z * bytes) (m : member) : Prop := {
  fm_kind : m_kind m = u "file";
  fm_mode : m_mode m = Z.land f.1 0xFFF;
  fm_size : m_size m = lenZ f.2;
  fm_digest : m_digest m = hexdigest f.2;
  fm_link : m_link_target m = None;
  fm_data : kept name = true → m_data m = Some f.2;
}.

(** The gate has every file of the stage, and nothing else. *)
Definition gate_holds (s : stage) (ms : dict member) : Prop :=
  ∀ name, match dict_get name s with
          | Some f => ∃ m, dict_get name ms = Some m ∧ file_member name f m
          | None => dict_get name ms = None
          end.

Lemma gate_holds_keys s ms : gate_holds s ms → dict_keys ms = dict_keys s.
Proof using.
  intros Hg. apply set_eq. intros name. rewrite !elem_of_dict_keys. specialize (Hg name).
  destruct (dict_get name s) as [f|].
  - destruct Hg as (m & -> & _). split; intros _; by eexists.
  - rewrite Hg. done.
Qed.

Lemma written_items_keys (l : stage) : (item_of <$> (written_entry <$> l)).*1 = l.*1.
Proof using. induction l as [|f l IH]; [done|]. rewrite !fmap_cons. by f_equal. Qed.

Lemma dict_get_items (s : stage) name :
  dict_get name (item_of <$> (written_entry <$> s)) = (λ f, (item_of (written_entry (name, f))).2) <$> dict_get name s.
Proof using.
  induction s as [|[n f] s IH]; [done|]. rewrite !fmap_cons. cbn [dict_get item_of written_entry fst e_name].
  by case_decide; subst.
Qed.

Lemma written_gate_holds s : NoDup s.*1 → gate_holds s (item_of <$> (written_entry <$> sorted_files s)).
Proof using.
  intros Hnd name. rewrite dict_get_items, (dict_get_perm name (sorted_files s) s);
    [|by rewrite sorted_files_perm|apply sorted_files_perm].
  destruct (dict_get name s) as [[mode data]|]; [|done]. eexists. split; [done|]. split; try done.
  cbn [item_of written_entry snd fst m_data e_name e_stream st_data]. by intros ->.
Qed.

(** The gate reads a written archive exactly when its members are within the limits. *)
Lemma read_written `{Archives} (name : str) (tar : bytes) (s : stage) ms :
  tar_open tar = (written_info <$> sorted_files s, None) →
  ends_with (u ".tar.gz") name = true → ends_with (u ".zip") name = false →
  read_archive name (Some tar) = Ok ms ↔
  lenZ tar ≤ MAX_ARCHIVE_BYTES ∧ archive_ok (written_entry <$> sorted_files s)
  ∧ ms = item_of <$> (written_entry <$> sorted_files s).
Proof using.
  intros Htar Hgz Hzip. rewrite read_archive_Ok.
  assert (entries_of name tar = Some (written_entry <$> sorted_files s)) as He.
  { unfold entries_of. rewrite Hzip, Hgz, Htar. apply mapM_Some. apply Forall2_fmap.
    generalize (sorted_files s). intros l. induction l; constructor; done. }
  split.
  - intros (? & l & [= <-] & Hlen & Hl & Hok & ->). rewrite He in Hl. by injection Hl as <-.
  - intros (Hlen & Hok & ->). by eexists _, _.
Qed.

(** ** The checksum list *)

(** A name that the gate accepts in a checksum line, and that the packager lists. *)
Definition gate_listable (name : str) : Prop :=
  name ≠ [] ∧ Forall (λ c, sum_name_char c = true) name ∧ path_name name ≠ SUMS.

Lemma sum_char_plain c : sum_name_char c = true → (c < 128)%N ∧ is_linebreak c = false.
Proof using.
  unfold sum_name_char, is_linebreak, is_digit. rewrite !orb_true_iff, !andb_true_iff, !N.leb_le, bool_decide_eq_true.
  intros Hc. assert (45 ≤ c < 128)%N as Hr.
  { destruct Hc as [[[?|?]|?]|Hc]; [lia..|]. rewrite !elem_of_cons, elem_of_nil in Hc. lia. }
  split; [lia|]. apply bool_decide_eq_false. rewrite !elem_of_cons, elem_of_nil. lia.
Qed.

Lemma sum_row f : f.1 ≠ [] → Forall (λ c, sum_name_char c = true) f.1 →
  sum_line (checksum_row f) = Some (f.1, hexdigest f.2.2).
Proof using.
  intros Hne Hc. destruct (hexdigest_ascii f.2.2) as (_ & _ & Hl). unfold sum_line, checksum_row.
  rewrite <- Hl, take_app_length, drop_app_length, hexdigest_hex.
  change (drop 2 (u "  " ++ f.1)) with f.1.
  assert (starts_with (u "  ") (u "  " ++ f.1) = true) as -> by (apply starts_with_spec; by exists f.1).
  assert (fullmatch (plus (Chr sum_name_char)) f.1 = true) as ->; [|done].
  apply fullmatch_spec. unfold plus. destruct Hc as [|c name Hc Hall]; [done|].
  apply (lang_cat _ _ [c]); [by constructor|by apply lang_star_chr].
Qed.

Lemma sum_line_inv line e : sum_line line = Some e →
  e.1 = drop 66 line ∧ e.1 ≠ [] ∧ Forall (λ c, sum_name_char c = true) e.1.
Proof using.
  unfold sum_line. destruct (_ && _) eqn:Hb; [|done]. intros [= <-]. cbn [fst].
  rewrite !andb_true_iff in Hb. destruct Hb as [_ Hm]. rewrite drop_drop in *. split; [done|].
  apply fullmatch_spec, lang_cat_inv in Hm as (first & rest & Heq & Hf & Hr).
  apply lang_star_chr in Hr. inversion Hf as [|p c Hc| | | | |]; subst. rewrite Heq.
  split; [done|by constructor].
Qed.
Lemma sum_rows_listing (l : stage) :
  Forall (λ f, f.1 ≠ [] ∧ Forall (λ c, sum_name_char c = true) f.1) l →
  mapM sum_line (checksum_row <$> l) = Some ((λ f, (f.1, hexdigest f.2.2)) <$> l).
Proof using.
  induction 1 as [|f l [Hne Hc] _ IH]; [done|].
  rewrite fmap_cons. cbn [mapM]. rewrite sum_row by done. cbn. by rewrite IH.
Qed.

Lemma sum_names lines listed name :
  mapM sum_line lines = Some listed → name ∈ dict_keys listed →
  name ≠ [] ∧ Forall (λ c, sum_name_char c = true) name.
Proof using.
  intros Hm (digest & Hd)%elem_of_dict_keys. apply dict_get_Some_elem in Hd.
  apply mapM_Some in Hm. apply list_elem_of_lookup in Hd as [i Hi].
  eapply Forall2_lookup_r in Hm as (line & Hl & He); [|done].
  by apply sum_line_inv in He as (_ & ? & ?).
Qed.

Section checksums.
Context (s : stage) (data : bytes) (ms : dict member).
Context (Hs : tree s) (Hdata : encode_utf8 (checksum_text s) = Some data).
Context (Hrows : listed_files s ≠ []).
Context (Hms : gate_holds (dict_set SUMS (0x1A4, data) s) ms).

Definition names_listable : Prop := ∀ name, name ∈ s.*1 → name ≠ SUMS → gate_listable name.

Lemma kept_sums : kept_data ms SUMS = Ok data.
Proof using Hms.
  specialize (Hms SUMS). rewrite dict_get_set, decide_True in Hms by done.
  destruct Hms as (m & Hm & Hf). apply kept_data_Ok. exists m. split; [done|].
  apply (fm_data _ _ _ Hf). vm_compute. reflexivity.
Qed.

Lemma gate_other name : name ≠ SUMS →
  match dict_get name s with
  | Some f => ∃ m, dict_get name ms = Some m ∧ file_member name f m
  | None => dict_get name ms = None
  end.
Proof using Hms. intros Hn. specialize (Hms name). by rewrite dict_get_set, decide_False in Hms. Qed.

Lemma gate_other_keys name : name ∈ dict_keys ms ∖ {[SUMS]} ↔ name ∈ s.*1 ∧ name ≠ SUMS.
Proof using Hms.
  rewrite (gate_holds_keys _ _ Hms), elem_of_difference, elem_of_singleton, dict_keys_elem.
  rewrite <- !dict_keys_elem, !elem_of_dict_keys, dict_get_set. split; intros [Hin Hne]; (split; [|done]);
    by rewrite decide_False in *.
Qed.

(** The lines of the list, when the names are listable. *)
Lemma sums_read_back :
  (∀ name, name ∈ s.*1 → name ≠ SUMS → name ≠ [] ∧ Forall (λ c, sum_name_char c = true) name) →
  decode_ascii data = Some (checksum_text s)
  ∧ mapM sum_line (splitlines (checksum_text s)) = Some (listing s).
Proof using Hdata Hrows.
  intros Hnames.
  assert (Forall (λ f, f.1 ≠ [] ∧ Forall (λ c, sum_name_char c = true) f.1) (listed_files s)) as Hl.
  { apply Forall_forall. intros f [Hf Hn]%elem_of_listed_files. apply Hnames.
    - apply list_elem_of_fmap. by exists f.
    - intros Heq. by rewrite Heq in Hn. }
  assert (Forall (λ f, ascii f.1 ∧ unbroken f.1) (listed_files s)) as Hplain.
  { eapply Forall_impl; [exact Hl|]. intros f [_ Hc]. unfold ascii, unbroken.
    split; (eapply Forall_impl; [exact Hc|]); by intros c [? ?]%sum_char_plain. }
  split.
  - assert (ascii (checksum_text s)) as Ha.
    { apply Forall_app. split; [|by repeat constructor]. apply Forall_join; [by repeat constructor|].
      unfold checksum_rows. rewrite Forall_fmap. eapply Forall_impl; [exact Hplain|].
      intros f [? _]. by apply row_ascii. }
    pose proof Hdata as Hd. rewrite encode_utf8_ascii in Hd by done. injection Hd as Hd.
    rewrite <- Hd. by apply decode_ascii_ascii.
  - unfold checksum_text. change (checksum_rows s) with (checksum_row <$> listed_files s).
    rewrite join_unlines, splitlines_unlines; [by apply sum_rows_listing| |by destruct (listed_files s)].
    rewrite Forall_fmap. eapply Forall_impl; [exact Hplain|]. intros f [_ ?]. by apply row_unbroken.
Qed.

(** The gate accepts the written checksum list exactly when every other name can be listed. *)
Lemma inner_sums_written : verify_inner_sums ms = Ok tt ↔ names_listable.
Proof using All.
  rewrite verify_inner_sums_Ok. split.
  - intros (data' & sums & Hd & Hs' & _). rewrite kept_sums in Hd. injection Hd as <-.
    apply parse_sums_Ok in Hs' as (text & Ht & Hm & _ & Hk).
    assert (∀ name, name ∈ s.*1 → name ≠ SUMS → name ≠ [] ∧ Forall (λ c, sum_name_char c = true) name) as Hnames.
    { intros name Hin Hne. apply (sum_names _ _ _ Hm). rewrite Hk. by apply gate_other_keys. }
    destruct (sums_read_back Hnames) as [Ht' Hm']. rewrite Ht in Ht'. injection Ht' as ->.
    rewrite Hm in Hm'. injection Hm' as ->. intros name Hin Hne.
    destruct (Hnames name Hin Hne) as [? ?]. split_and!; [done..|].
    assert (name ∈ dict_keys (listing s)) as Hn by (rewrite Hk; by apply gate_other_keys).
    by apply dict_keys_elem, elem_of_listing in Hn as [_ ?].
  - intros Hall. exists data, (listing s). split; [apply kept_sums|].
    destruct sums_read_back as [Ht Hm]; [intros name Hin Hne; destruct (Hall name Hin Hne) as (? & ? & _); done|].
    split.
    + apply parse_sums_Ok. exists (checksum_text s). split_and!; try done.
      { apply listing_distinct, Hs. }
      apply set_eq. intros name. rewrite gate_other_keys, dict_keys_elem, elem_of_listing. split.
      * intros [Hin Hn]. split; [done|]. by intros ->.
      * intros [Hin Hne]. split; [done|]. by destruct (Hall name Hin Hne) as (_ & _ & ?).
    + intros name m Hm' Hne. pose proof (gate_other name Hne) as Hg.
      destruct (dict_get name s) as [[mode content]|] eqn:Hf; [|congruence].
      destruct Hg as (m' & Hg & Hfile).
      assert (m' = m) as -> by congruence. rewrite (fm_digest _ _ _ Hfile).
      apply dict_get_elem; [apply listing_distinct, Hs|]. unfold listing. apply list_elem_of_fmap.
      exists (name, (mode, content)). split; [done|]. apply dict_get_Some_elem in Hf.
      apply elem_of_listed_files. split; [done|]. cbn.
      apply (Hall name); [|done]. apply list_elem_of_fmap. by exists (name, (mode, content)).
Qed.
End checksums.
End gate.
