(* ===== verification/SourceRelease.v ===== *)
(** * A source package before the release gate

    The archive that [package-source.py] writes, read by [release_verify.py]: its manifest
    and its checksum list are the ones the gate asks for. *)

From stdpp Require Import sorting.
From S2P Require Import Prelude PyStr PyDict Codec Regex PyFloat Json JsonRound Sha256 PyPath Provenance.
From S2P Require Import AuditBase AuditBaseProps AuditText AuditManifest AuditBinary AuditArchive EvidenceProps.
From S2P Require Import Stage StageProps Package ManifestProps JsonCanonical SourcePackage SourceProps SourceAudit SourceMain.
From S2P Require Import Archive ArchiveProps ReleaseText ReleaseTextProps ReleaseVerify ReleaseVerifyProps ReleaseExact.
From S2P Require Import GateArchive ReleaseSamples.

Local Open Scope Z_scope.

Section source.
Context `{Unicode} `{Digits} `{Lower} `{Digest} `{Tools} `{Archives} `{Tars}.
Context `{Files} `{Host} `{SourceTars} `{Writers} `{SourceGit}.
Context (limit : nat) (new_mode : Z).

(** The record of a file, read back, describes the member that the gate has of it. *)
Lemma record_described (data : bytes) m : m_size m = lenZ data → m_digest m = hexdigest data →
  describes (norm (file_record data)) m.
Proof using.
  intros Hs Hd. exists [(u "sha256", JStr (hexdigest data)); (u "size", JInt (lenZ data))].
  split; [reflexivity|]. split; [apply set_eq; cbn; set_solver|]. by rewrite Hs, Hd.
Qed.

Lemma records_held s ms own sums mode manifest :
  tree s → own ∉ s.*1 → SUMS ∉ s.*1 → own ≠ SUMS →
  gate_holds (dict_set SUMS sums (dict_set own (mode, manifest) s)) ms →
  records_of ms own (norm_members (file_records s)).
Proof using.
  intros [Hnd _] Hown Hsums Hne Hg.
  assert (∀ k, k ∈ dict_keys (norm_members (file_records s)) ↔ k ∈ s.*1) as Hk.
  { intros k. by rewrite dict_keys_elem, (norm_members_keys (file_records s)), file_records_keys. }
  split.
  - apply set_eq. intros k. rewrite Hk, (gate_holds_keys _ _ Hg), elem_of_difference, elem_of_union, !elem_of_singleton.
    rewrite elem_of_dict_keys, !dict_get_set. split.
    + intros Hin. assert (k ≠ own ∧ k ≠ SUMS) as [? ?] by (split; intros ->; done).
      rewrite !decide_False by done. split; [|by intros [?|?]]. by rewrite <- elem_of_dict_keys, dict_keys_elem.
    + intros [Hin Hnot]. rewrite !decide_False in Hin by (intros <-; apply Hnot; auto).
      by rewrite <- elem_of_dict_keys, dict_keys_elem in Hin.
  - apply Forall_forall. intros [k record] Hin.
    assert (k ∈ s.*1) as Hks by (apply Hk, dict_keys_elem, list_elem_of_fmap; by exists (k, record)).
    assert (k ≠ own ∧ k ≠ SUMS) as [? ?] by (split; intros ->; done).
    apply dict_get_elem in Hin; [|by rewrite norm_members_keys, file_records_keys].
    rewrite dict_get_norm, dict_get_records in Hin by (done || by rewrite file_records_keys).
    specialize (Hg k). rewrite !dict_get_set, !decide_False in Hg by done.
    destruct (dict_get k s) as [[fm data]|]; [|done]. injection Hin as <-.
    destruct Hg as (m & Hm & [_ _ Hsz Hd _ _]). exists m. split; [done|]. by apply record_described.
Qed.
(** ** The manifest *)

Section described.
Context (i : source_inputs) (s0 s1 s : stage) (commit tree_id : str) (dependencies : dict (str * str)).
Context (ms : dict member).
Context (Hc : completed i s0 s1 s commit tree_id dependencies) (Hids : identified commit tree_id dependencies).
Context (Hv : fullmatch VERSION_RE (i_version i) = true) (Href : printable (i_source_ref i))
  (Hne : i_source_ref i ≠ []) (Hlib : sha256 (i_libusb i) = Ok LIBUSB_SOURCE_SHA256).
Context (Hnames : Forall printable s.*1) (Hsz : readable_sizes s1) (Hlim : (4 ≤ limit)%nat).
Context (Hg : gate_holds s ms).

#[local] Abbreviation the := (the_manifest i s1 commit tree_id dependencies).

(** The data that the gate keeps of a staged file. *)
Lemma kept_staged name mode data : kept name = true → dict_get name s = Some (mode, data) →
  kept_data ms name = Ok data.
Proof using Hg.
  intros Hk Hf. specialize (Hg name). rewrite Hf in Hg. destruct Hg as (m & Hm & Hfile).
  apply kept_data_Ok. exists m. split; [done|]. by apply (fm_data _ _ _ Hfile).
Qed.

Lemma manifest_kept : kept_data ms SOURCE_MANIFEST = Ok (write_json (JDict the)).
Proof using All.
  pose proof (manifest_get new_mode limit i s0 s1 s commit tree_id dependencies (contents s) Hc
    (contents_holds s) Hids Hv Href Hne Hlib Hnames Hsz Hlim) as Hm.
  rewrite contents_holds in Hm. apply fmap_Some in Hm as ([mode data] & Hf & ->).
  by apply (kept_staged _ mode); [vm_compute|].
Qed.

Lemma the_plain : plain (JDict the).
Proof using All.
  exact (the_manifest_plain new_mode limit i s0 s1 s commit tree_id dependencies (contents s) Hc
    (contents_holds s) Hids Hv Href Hne Hlib Hnames Hsz Hlim).
Qed.

Lemma manifest_read : ReleaseText.parse_json limit (write_json (JDict the)) = Ok (norm_members the).
Proof using All.
  apply release_parse_written; [apply the_plain|].
  pose proof (source_manifest_nesting (i_version i) (i_source_ref i) commit tree_id dependencies s1).
  unfold the_manifest. lia.
Qed.

Lemma manifest_text k v : dict_get k the = Some (JStr v) → dict_get k (norm_members the) = Some (JStr v).
Proof using. intros Hk. unfold the_manifest. by rewrite (source_manifest_get _ _ _ _ _ _ _ _ Hk). Qed.

Lemma records_staged : records_of ms SOURCE_MANIFEST (norm_members (file_records s1)).
Proof using All.
  pose proof (described_apart _ _ _ _ _ _ _ SOURCE_MANIFEST Hc) as Hm.
  pose proof (described_apart _ _ _ _ _ _ _ SUMS Hc) as Hsum.
  destruct Hc as [_ _ Ht (mode & _ & Hw)]. apply write_checksums_Ok in Hw as (sums & _ & _ & Hs).
  rewrite Hs in Hg. eapply records_held; [done| | | |exact Hg].
  - intros Hin. by destruct (Hm Hin).
  - intros Hin. by destruct (Hsum Hin).
  - by apply (bool_decide_eq_false_1 (SOURCE_MANIFEST = SUMS)).
Qed.

Lemma version_held : ∃ m text, dict_get (u "repository/VERSION") ms = Some m
  ∧ encode_ascii (i_version i ++ [10%N]) = Some text ∧ m_data m = Some text.
Proof using All.
  destruct (sn_version _ _ _ (cp_snapshots _ _ _ _ _ _ _ Hc)) as (mode & text & Hf & Ht).
  pose proof (snapshot_get new_mode limit i s0 s1 s commit tree_id dependencies (contents s) Hc
    (contents_holds s) Hids Hv Href Hne Hlib Hnames Hsz Hlim (u "repository/VERSION") eq_refl) as Hget.
  rewrite contents_holds, Hf in Hget. apply fmap_Some in Hget as ([mode' data] & Hs & [= ->]).
  specialize (Hg (u "repository/VERSION")). rewrite Hs in Hg. destruct Hg as (m & Hm & Hfile).
  exists m, data. split_and!; [done..|]. by apply (fm_data _ _ _ Hfile).
Qed.

Lemma source_described : i_source_ref i = commit →
  source_description limit ms (i_version i) commit tree_id (norm_members the) (norm_members (file_records s1)).
Proof using All.
  intros Heq. destruct version_held as (m & text & Hm & Ht & Hd).
  exists (write_json (JDict the)), m, text. split_and!; [..|done|done|done].
  - apply manifest_kept.
  - apply manifest_read.
  - apply canonical_written, the_plain.
  - apply manifest_text; reflexivity.
  - rewrite (manifest_text _ (i_source_ref i)) by reflexivity. by rewrite Heq.
  - apply manifest_text; reflexivity.
  - apply manifest_text; reflexivity.
  - unfold the_manifest. by rewrite (source_manifest_get _ _ _ _ _ _ (u "files") (JDict (file_records s1)) eq_refl).
  - apply records_staged.
Qed.

(** The gate accepts the manifest exactly when the source was asked for by its commit. *)
Lemma manifest_accepted :
  (∃ r, parse_source_manifest limit ms (i_version i) commit tree_id = Ok r) ↔ i_source_ref i = commit.
Proof using All.
  split.
  - intros [[manifest files] Hr]. apply parse_source_manifest_Ok in Hr
      as (data & m & text & Hd & Hp & _ & _ & Hs & _).
    change (u "source-manifest.json") with SOURCE_MANIFEST in Hd. rewrite manifest_kept in Hd.
    injection Hd as <-. rewrite manifest_read in Hp. injection Hp as <-.
    rewrite (manifest_text _ (i_source_ref i)) in Hs by reflexivity. by injection Hs.
  - intros Heq. eexists (_, _). by apply parse_source_manifest_Ok, source_described.
Qed.
End described.

(** ** The archive *)

Lemma source_asset_format version :
  ends_with (u ".tar.gz") (source_asset version) = true ∧ ends_with (u ".zip") (source_asset version) = false.
Proof using. unfold ends_with, source_asset. rewrite !reverse_app. split; reflexivity. Qed.

Lemma completed_listed i s0 s1 s commit tree_id dependencies :
  completed i s0 s1 s commit tree_id dependencies →
  ∃ before data, tree before ∧ encode_utf8 (checksum_text before) = Some data
    ∧ listed_files before ≠ [] ∧ s = dict_set SUMS (0x1A4, data) before.
Proof using.
  intros [_ _ _ (mode & Ht & Hw)]. apply write_checksums_Ok in Hw as (data & Hd & _ & ->).
  set (before := dict_set SOURCE_MANIFEST _ s1) in *. exists before, data. split_and!; [done..| |done].
  intros Hnil. assert (is_Some (dict_get SOURCE_MANIFEST before)) as [f Hf]
    by (unfold before; rewrite dict_get_set, decide_True by done; by eexists).
  assert ((SOURCE_MANIFEST, f) ∈ listed_files before) as Hin; [|rewrite Hnil in Hin; by apply elem_of_nil in Hin].
  apply elem_of_listed_files. split; [by apply dict_get_Some_elem|].
  by apply (bool_decide_eq_false_1 (path_name SOURCE_MANIFEST = SUMS)).
Qed.

(** C7. The release gate takes the archive of a source package, its manifest and its
    checksum list exactly when the source was asked for by its full commit, the archive is
    within the gate's limits, and every other name is made of the characters of its
    checksum lines and is not itself called [SHA256SUMS] in a subdirectory.  The encoding,
    the version, the commit, its tree, and the records of all members hold by construction.
    (Opening the archive gives the headers and bytes that were written.) *)
Theorem source_package_released (a : args) (i : source_inputs) (s0 s : stage) (commit tree_id : str)
    (dependencies : dict (str * str))
    (Hrun : staged_run limit new_mode a i s commit)
    (Hsnap : stage_snapshots i = Ok (s0, commit, tree_id, dependencies))
    (Htar : tar_open (write_deterministic_tar s) = (written_info <$> sorted_files s, None)) :
  (∃ ms r, read_archive (source_asset (i_version i)) (Some (write_deterministic_tar s)) = Ok ms
     ∧ verify_inner_sums ms = Ok tt
     ∧ parse_source_manifest limit ms (i_version i) commit tree_id = Ok r) ↔
  i_source_ref i = commit
  ∧ lenZ (write_deterministic_tar s) ≤ MAX_ARCHIVE_BYTES
  ∧ archive_ok (written_entry <$> sorted_files s)
  ∧ ∀ name, name ∈ s.*1 → name ≠ SUMS → gate_listable name.
Proof using All.
  destruct (staged_run_completed _ _ _ _ _ _ Hrun) as (s0' & s1 & tree' & deps' & Hsnap' & Hc & Hids & Hsz).
  rewrite Hsnap in Hsnap'. injection Hsnap' as <- <- <-.
  destruct Hrun as [Hcheck Hstage _ Href Hnames _ Hlim]. apply source_inputs_Ok in Hcheck as (Hv & Hne & Hlib).
  destruct (source_asset_format (i_version i)) as [Hgz Hzip].
  destruct (completed_listed _ _ _ _ _ _ _ Hc) as (before & data & Ht & Hd & Hrows & Hs).
  setoid_rewrite (read_written _ _ _ _ Htar Hgz Hzip).
  assert (∀ ms, gate_holds s ms → verify_inner_sums ms = Ok tt ↔
    ∀ name, name ∈ s.*1 → name ≠ SUMS → gate_listable name) as Hsums.
  { intros ms Hg. rewrite Hs in Hg. rewrite (inner_sums_written before data ms Ht Hd Hrows Hg).
    unfold names_listable. rewrite Hs. split; intros Hall name Hin Hn; apply Hall; try done.
    - by apply dict_set_elem in Hin as [?|?].
    - rewrite <- dict_keys_elem, elem_of_dict_keys, dict_get_set, decide_False by done.
      by rewrite <- elem_of_dict_keys, dict_keys_elem. }
  assert (gate_holds s (item_of <$> (written_entry <$> sorted_files s))) as Hg.
  { apply written_gate_holds. rewrite Hs. apply dict_set_NoDup, Ht. }
  pose proof (manifest_accepted i s0 s1 s commit tree_id dependencies _ Hc Hids Hv Href Hne Hlib Hnames Hsz Hlim Hg) as Hman.
  rewrite <- Hman, <- (Hsums _ Hg). split.
  - intros (ms & r & (? & ? & ->) & ? & ?). split_and!; try done. by exists r.
  - intros ([r Hr] & ? & ? & ?). by eexists _, r.
Qed.
End source.

(** ** A sample run *)

#[local] Existing Instances ascii_unicode sample_digits sample_lower SourceMain.sample_digest.
#[local] Existing Instances SourceMain.sample_git SourceMain.sample_sources SourceMain.sample_files.
#[local] Existing Instances SourceMain.sample_host SourceMain.sample_tools SourceMain.sample_writers.

(** The sample source, asked for by its commit. *)
Definition released_args : args :=
  Args (Some (u "1.2.3")) (Some sample_id) (Some (u "/src")) (Some (u "/libusb-1.0.30.tar.bz2"))
    (Some (u "/out")) None None.
Definition released_inputs : source_inputs :=
  SourceInputs (u "1.2.3") sample_id (u "/src") (u "/libusb-1.0.30.tar.bz2") SourceMain.sample_output None None.
Definition released_stage : stage := Eval vm_compute in
  match stage_source 0x1A4 released_inputs with Ok s => s | Err _ => [] end.

Definition released_archives : Archives :=
  {| zip_open _ := Ok []; tar_open _ := (written_info <$> sorted_files released_stage, None) |}.
Definition released_tars : Tars := {| tar_members _ := Ok (written_info <$> sorted_files released_stage) |}.
#[local] Existing Instances released_archives released_tars.

Lemma released_run : staged_run 4 0x1A4 released_args released_inputs released_stage sample_id.
Proof. apply staged_run_intro; [..|lia]; vm_compute; reflexivity. Qed.

Lemma released_limits : archive_ok (written_entry <$> sorted_files released_stage).
Proof.
  unfold archive_ok, entry_ok, size_ok. apply (bool_decide_eq_true_1 (_ ∧ _)). vm_compute. reflexivity.
Qed.

Definition released_snapshots : stage * str * dict (str * str) := Eval vm_compute in
  match stage_snapshots released_inputs with
  | Ok (s0, _, tree_id, dependencies) => (s0, tree_id, dependencies)
  | Err _ => ([], [], [])
  end.

Lemma released_snapped : stage_snapshots released_inputs
  = Ok (released_snapshots.1.1, sample_id, released_snapshots.1.2, released_snapshots.2).
Proof. vm_compute. reflexivity. Qed.

Lemma released_opened : tar_open (write_deterministic_tar released_stage)
  = (written_info <$> sorted_files released_stage, None).
Proof. reflexivity. Qed.

Lemma source_package_released_witness :
  ∃ ms r, read_archive (source_asset (u "1.2.3")) (Some (write_deterministic_tar released_stage)) = Ok ms
    ∧ verify_inner_sums ms = Ok tt
    ∧ parse_source_manifest 4 ms (u "1.2.3") sample_id released_snapshots.1.2 = Ok r.
Proof.
  apply (source_package_released 4 0x1A4 released_args released_inputs released_snapshots.1.1 released_stage
    sample_id released_snapshots.1.2 released_snapshots.2 released_run released_snapped released_opened).
  split; [reflexivity|]. split; [apply Z.leb_le; vm_compute; reflexivity|].
  split; [apply released_limits|]. intros name Hin Hn. revert name Hin Hn.
  assert (Forall (λ name, name = SUMS ∨ gate_listable name) released_stage.*1) as Hall.
  { unfold gate_listable. apply (bool_decide_eq_true_1 (Forall _ _)). vm_compute. reflexivity. }
  rewrite Forall_forall in Hall. intros name Hin Hn. by destruct (Hall name Hin).
Defined.
