(* ===== verification/SourcePair.v ===== *)
(** * The source packages of a candidate and of its tag

    Two runs of [package-source.py] for the two commits of a release, and what
    [release_verify.py] says of their archives. *)

From stdpp Require Import sorting.
From S2P Require Import Prelude PyStr PyDict Codec Lines Regex PyFloat Json JsonRound Sha256 PyPath Provenance.
From S2P Require Import AuditBase AuditBaseProps AuditText AuditManifest AuditBinary AuditArchive EvidenceProps.
From S2P Require Import Stage StageProps Package ManifestProps JsonCanonical SourcePackage SourceProps SourceAudit SourceMain.
From S2P Require Import Archive ArchiveProps ReleaseText ReleaseTextProps ReleaseVerify ReleaseVerifyProps ReleaseExact.
From S2P Require Import GateArchive SourceRelease ReleaseSamples.

Local Open Scope Z_scope.

Section source.
Context `{Unicode} `{Digits} `{Lower} `{Digest} `{Tools} `{Archives} `{Tars}.
Context `{Files} `{Host} `{SourceTars} `{Writers} `{SourceGit}.
Context (limit : nat) (new_mode : Z).

(** ** The notice *)

Definition notice_keys : list str :=
  u <$> ["source.ref"; "source.resolved_commit"; "source.tree"; "dependency.libusb.version";
         "dependency.libusb.license"; "corresponding-source"; "corresponding-source.sha256";
         "libusb.source.url"; "firmware.url"; "firmware.sha256"; "firmware.license.url";
         "firmware.license.sha256"; "firmware"; "vendor-blobs";
         "dependency.dtv-userland-core.license"; "dependency.px4-userland.license";
         "dependency.dtv-userland-core.commit"; "dependency.dtv-userland-core.tree";
         "dependency.dtv-userland-core.source"; "dependency.px4-userland.commit";
         "dependency.px4-userland.tree"; "dependency.px4-userland.source"].

Lemma notice_keys_read :
  NoDup notice_keys ∧ Forall (λ k, fullmatch notice_key k = true ∧ 61%N ∉ k ∧ ascii k ∧ unbroken k) notice_keys.
Proof using.
  unfold ascii, unbroken. split; [apply (bool_decide_eq_true_1 (NoDup _))|apply (bool_decide_eq_true_1 (Forall _ _))];
    vm_compute; reflexivity.
Qed.

(** A line that the packager writes is a field for the gate. *)
Lemma notice_line_of kv : fullmatch notice_key kv.1 = true → 61%N ∉ kv.1 → notice_line (line_of kv) = (Some kv.1, kv.2).
Proof using.
  destruct kv as [k v]. cbn [fst snd]. intros Hm Hk. unfold notice_line.
  assert (split1 61 (line_of (k, v)) = Some (k, v)) as ->; [|by rewrite Hm].
  unfold line_of. cbn [fst snd]. clear Hm. induction k as [|c k IH]; [done|].
  apply not_elem_of_cons in Hk as [Hc Hk]. cbn. rewrite IH by done.
  destruct (N.eqb_spec c 61); [by subst|done].
Qed.

(** A notice of such fields, read by the gate. *)
Lemma notice_of_read (fields : dict str) data :
  fields.*1 = notice_keys → Forall (λ kv, printable kv.2) fields →
  encode_utf8 (notice_of fields) = Some data →
  notice_lines data = Ok ((λ kv, (Some kv.1, kv.2)) <$> fields)
  ∧ length data = length (notice_of fields).
Proof using.
  intros Hkeys Hvalues Henc. destruct notice_keys_read as [Hnd Hks]. rewrite <- Hkeys in Hnd, Hks.
  rewrite Forall_fmap in Hks.
  assert (Forall (λ kv : str * str, ascii (line_of kv) ∧ unbroken (line_of kv)) fields) as Hlines.
  { rewrite Forall_forall in *. intros kv Hkv. destruct (Hks kv Hkv) as (_ & _ & Ha & Hu).
    pose proof (Hvalues kv Hkv) as Hp. split.
    - apply Forall_app. split; [done|]. apply Forall_app. split; [by repeat constructor|].
      eapply Forall_impl; [exact Hp|]. intros c Hc. cbn in Hc. lia.
    - apply Forall_app. split; [done|]. apply Forall_app. split; [by repeat constructor|].
      by apply printable_unbroken. }
  split.
  - apply notice_lines_Ok. exists (notice_of fields). split; [by apply decode_encode_utf8|].
    rewrite notice_of_lines, splitlines_unlines.
    + rewrite <- list_fmap_compose. split.
      * apply list_fmap_ext. intros n kv Hkv%list_elem_of_lookup_2. rewrite Forall_forall in Hks.
        destruct (Hks kv Hkv) as (Hm & Heq & _). symmetry. by apply notice_line_of.
      * assert (field_keys ((λ kv : str * str, (Some kv.1, kv.2)) <$> fields) = fields.*1) as ->; [|done].
        clear. induction fields as [|kv l IH]; [done|]. cbn. f_equal. exact IH.
    + rewrite Forall_fmap. eapply Forall_impl; [exact Hlines|]. by intros kv [_ ?].
  - rewrite notice_of_lines in *. rewrite encode_utf8_ascii in Henc.
    + injection Henc as <-. by rewrite length_fmap.
    + unfold unlines. clear -Hlines. induction Hlines as [|kv l [Ha _] _ IH]; [constructor|].
      cbn. apply Forall_app. split; [|exact IH]. apply Forall_app. split; [done|by repeat constructor].
Qed.
(** ** One run *)

(** A run for a commit, and its archive as the gate reads it. *)
Record archived_run (a : args) (i : source_inputs) (s0 s : stage) (commit tree_id : str)
    (dependencies : dict (str * str)) (ms : dict member) : Prop := {
  ar_run : staged_run limit new_mode a i s commit;
  ar_snapshots : stage_snapshots i = Ok (s0, commit, tree_id, dependencies);
  ar_commit : i_source_ref i = commit;
  ar_reader : tar_open (write_deterministic_tar s) = (written_info <$> sorted_files s, None);
  ar_members : read_archive (source_asset (i_version i)) (Some (write_deterministic_tar s)) = Ok ms;
}.

Lemma fields_printable i commit tree_id dependencies core px4 core_tree px4_tree :
  dependencies = [(core_name, (core, core_tree)); (px4_name, (px4, px4_tree))] →
  identified commit tree_id dependencies → printable (i_source_ref i) →
  (the_fields i commit tree_id dependencies).*1 = notice_keys
  ∧ Forall (λ kv, printable kv.2) (the_fields i commit tree_id dependencies).
Proof using.
  intros -> [Hc%object_id_printable Ht%object_id_printable Hd] Href. split; [reflexivity|].
  rewrite !Forall_cons in Hd. destruct Hd as ([H1' H2'] & [H3' H4'] & _). cbn [fst snd] in *.
  apply hex40_printable in H1', H2', H3', H4'.
  unfold the_fields, source_notice_lines, dependency_lines. cbn [fmap list_fmap concat app].
  repeat (apply Forall_cons_2; [cbn [snd]; first [done|apply printableb_spec; by vm_compute]|]).
  apply Forall_nil_2.
Qed.

Section run.
Context (a : args) (i : source_inputs) (s0 s : stage) (commit tree_id : str)
  (dependencies : dict (str * str)) (ms : dict member).
Context (Hrun : archived_run a i s0 s commit tree_id dependencies ms).

(** What the two sides of a pair have of a run. *)
Record run_facts (s1 : stage) : Prop := {
  rf_distinct : NoDup s.*1;
  rf_members : NoDup ms.*1;
  rf_holds : gate_holds s ms;
  rf_plain : plain (JDict (the_manifest i s1 commit tree_id dependencies));
  rf_manifest : kept_data ms SOURCE_MANIFEST = Ok (write_json (JDict (the_manifest i s1 commit tree_id dependencies)));
  rf_described : source_description limit ms (i_version i) commit tree_id
    (norm_members (the_manifest i s1 commit tree_id dependencies)) (norm_members (file_records s1));
  rf_reference : i_source_ref i = commit;
  rf_fields : NoDup (the_fields i commit tree_id dependencies).*1;
  rf_dependencies : ∃ core px4 core_tree px4_tree,
    dependencies = [(core_name, (core, core_tree)); (px4_name, (px4, px4_tree))];
  rf_notice : ∃ data, kept_data ms NOTICE = Ok data
    ∧ notice_lines data = Ok ((λ kv, (Some kv.1, kv.2)) <$> the_fields i commit tree_id dependencies)
    ∧ length data = length (notice_of (the_fields i commit tree_id dependencies));
}.

Lemma run_facts_hold : ∃ s1, run_facts s1.
Proof using All.
  destruct Hrun as [Hstaged Hsnap Hcommit Htar Hread].
  destruct (staged_run_completed _ _ _ _ _ _ Hstaged) as (s0' & s1 & tree' & deps' & Hsnap' & Hc & Hids & Hsz).
  rewrite Hsnap in Hsnap'. injection Hsnap' as <- <- <-.
  destruct Hstaged as [Hcheck Hstage _ Href Hnames _ Hlim]. apply source_inputs_Ok in Hcheck as (Hv & Hne & Hlib).
  destruct (source_asset_format (i_version i)) as [Hgz Hzip].
  destruct (completed_listed _ _ _ _ _ _ _ Hc) as (before & sums & Ht & _ & _ & Hs).
  assert (NoDup s.*1) as Hnd by (rewrite Hs; apply dict_set_NoDup, Ht).
  apply (read_written _ _ _ _ Htar Hgz Hzip) in Hread as (_ & _ & Hms).
  assert (gate_holds s ms) as Hg by (rewrite Hms; by apply written_gate_holds).
  destruct (sn_dependencies _ _ _ (cp_snapshots _ _ _ _ _ _ _ Hc)) as (core & px4 & ct & pt & _ & _ & Hdeps).
  destruct (fields_printable i commit tree_id dependencies core px4 ct pt Hdeps Hids Href) as [Hkeys Hvalues].
  exists s1. split.
  - done.
  - by rewrite Hms, written_items_keys, sorted_files_perm.
  - done.
  - by eapply the_plain.
  - by eapply manifest_kept.
  - by eapply source_described.
  - done.
  - rewrite Hkeys. apply notice_keys_read.
  - by exists core, px4, ct, pt.
  - destruct Hc as [_ (notice & Hs1 & Henc) _ (mode & _ & Hw)].
    apply write_checksums_Ok in Hw as (sums' & _ & _ & Hs').
    exists notice. split; [|by apply notice_of_read].
    eapply (kept_staged s _ Hg _ 0x1A4); [by vm_compute|].
    rewrite Hs', dict_get_set, decide_False, dict_get_set, decide_False, Hs1, dict_get_set, decide_True;
      [done|done|by apply (bool_decide_eq_false_1 (SOURCE_MANIFEST = NOTICE)); vm_compute
      |by apply (bool_decide_eq_false_1 (SUMS = NOTICE)); vm_compute].
Qed.
End run.

(** ** Two runs *)

(** The staged files agree: the same names and modes, and the same data but for the names
    of [allowed]. *)
Definition same_staged (s s' : stage) (allowed : gset str) : Prop :=
  dict_keys s = dict_keys s'
  ∧ ∀ name f f', dict_get name s = Some f → dict_get name s' = Some f' →
      Z.land f.1 0xFFF = Z.land f'.1 0xFFF
      ∧ (name ∉ allowed → lenZ f.2 = lenZ f'.2 ∧ hexdigest f.2 = hexdigest f'.2).

Lemma same_staged_members s s' ms ms' allowed : gate_holds s ms → gate_holds s' ms' →
  same_members ms ms' allowed ↔ same_staged s s' allowed.
Proof using.
  intros Hg Hg'. unfold same_members, same_staged.
  rewrite (gate_holds_keys _ _ Hg), (gate_holds_keys _ _ Hg'). split; intros [Hkeys Hall]; (split; [done|]).
  - intros name f f' Hf Hf'. specialize (Hg name). specialize (Hg' name). rewrite Hf in Hg. rewrite Hf' in Hg'.
    destruct Hg as (m & Hm & [_ Hmode Hsize Hdigest _ _]), Hg' as (m' & Hm' & [_ Hmode' Hsize' Hdigest' _ _]).
    destruct (Hall name m Hm) as (? & Heq & _ & ? & _ & ?). rewrite Hm' in Heq. injection Heq as <-.
    by rewrite <- Hmode, <- Hmode', <- Hsize, <- Hsize', <- Hdigest, <- Hdigest'.
  - intros name m Hm. specialize (Hg name). specialize (Hg' name).
    destruct (dict_get name s) as [f|] eqn:Hf; [|congruence].
    assert (is_Some (dict_get name s')) as [f' Hf'] by (apply elem_of_dict_keys; rewrite <- Hkeys; apply elem_of_dict_keys; by exists f).
    rewrite Hf' in Hg'. destruct Hg as (? & Heq & [Hk Hmode Hsize Hdigest Hlink _]), Hg' as (m' & Hm' & [Hk' Hmode' Hsize' Hdigest' Hlink' _]).
    rewrite Hm in Heq. injection Heq as <-. exists m'. destruct (Hall name f f' Hf Hf').
    by rewrite Hk, Hk', Hmode, Hmode', Hsize, Hsize', Hdigest, Hdigest', Hlink, Hlink'.
Qed.

(** The lines of the two notices. *)
Lemma fields_replaced i i' commit commit' tree_id tree_id' dependencies core px4 core_tree px4_tree :
  dependencies = [(core_name, (core, core_tree)); (px4_name, (px4, px4_tree))] →
  i_source_ref i' = commit' →
  (λ kv, (Some kv.1, kv.2)) <$> the_fields i' commit' tree_id' dependencies
  = set_field (source_identity commit' tree_id')
      <$> ((λ kv, (Some kv.1, kv.2)) <$> the_fields i commit tree_id dependencies).
Proof using.
  intros Hd Href. unfold the_fields. rewrite Hd, Href. reflexivity.
Qed.

Lemma notice_length (fields fields' : dict str) :
  fields.*1 = fields'.*1 → length <$> fields.*2 = length <$> fields'.*2 →
  length (notice_of fields) = length (notice_of fields').
Proof using.
  revert fields'. induction fields as [|[k v] l IH]; intros [|[k' v'] l']; [done..|].
  rewrite !fmap_cons. cbn [fst snd]. intros [= <- Hk] [= Hv Hl].
  unfold notice_of, line_of in *. cbn. rewrite !length_app. cbn. rewrite (IH l' Hk Hl). lia.
Qed.

Lemma manifest_agrees version ref ref' commit commit' tree_id tree_id' dependencies s s' k :
  k ∉ [u "source_ref"; u "resolved_commit"; u "tree"; u "files"] →
  dict_get k (SourcePackage.source_manifest version ref commit tree_id dependencies s)
  = dict_get k (SourcePackage.source_manifest version ref' commit' tree_id' dependencies s').
Proof using.
  rewrite !not_elem_of_cons. intros (Href & Hcommit & Htree & Hfiles & _).
  unfold SourcePackage.source_manifest. cbn [dict_get].
  repeat (case_decide; [first [reflexivity|congruence]|]). reflexivity.
Qed.

Lemma elem_of_lines (fields : dict str) k v :
  (Some k, v) ∈ (λ kv : str * str, (Some kv.1, kv.2)) <$> fields ↔ (k, v) ∈ fields.
Proof using.
  rewrite list_elem_of_fmap. split.
  - by intros ([? ?] & [= -> ->] & ?).
  - intros Hin. by exists (k, v).
Qed.

(** The new identity is new in each of its fields. *)
Lemma identity_new i commit tree_id dependencies commit' tree_id' :
  i_source_ref i = commit → NoDup (the_fields i commit tree_id dependencies).*1 →
  (∀ k v, dict_get k (source_identity commit' tree_id') = Some v →
     ∃ v', (Some k, v') ∈ (λ kv : str * str, (Some kv.1, kv.2)) <$> the_fields i commit tree_id dependencies ∧ v' ≠ v)
  ↔ commit ≠ commit' ∧ tree_id ≠ tree_id'.
Proof using.
  intros Href Hnd. setoid_rewrite elem_of_lines.
  assert (∀ k v, dict_get k (source_identity commit tree_id) = Some v →
    (k, v) ∈ the_fields i commit tree_id dependencies) as Hold.
  { intros k v Hk%dict_get_Some_elem. unfold the_fields, source_notice_lines. rewrite Href.
    apply elem_of_app. left. unfold source_identity in Hk. set_solver. }
  split.
  - intros Hall. split; intros <-.
    + destruct (Hall (u "source.ref") commit eq_refl) as (v & Hv%dict_get_elem & Hne); [|done].
      pose proof (Hold (u "source.ref") commit eq_refl) as Hc%dict_get_elem; [congruence|done].
    + destruct (Hall (u "source.tree") tree_id eq_refl) as (v & Hv%dict_get_elem & Hne); [|done].
      pose proof (Hold (u "source.tree") tree_id eq_refl) as Hc%dict_get_elem; [congruence|done].
  - intros [Hc Ht] k v Hk. unfold source_identity in Hk. cbn [dict_get] in Hk.
    repeat case_decide; try done; injection Hk as <-; subst k.
    + exists commit. split; [by apply Hold|done].
    + exists commit. split; [by apply Hold|done].
    + exists tree_id. split; [by apply Hold|done].
Qed.

(** ** The pair *)

Section pair.
Context (i i' : source_inputs) (s s' s1 s1' : stage) (commit commit' tree_id tree_id' : str).
Context (dependencies : dict (str * str)) (ms ms' : dict member).
Context (Hfacts : run_facts i s commit tree_id dependencies ms s1).
Context (Hfacts' : run_facts i' s' commit' tree_id' dependencies ms' s1').

#[local] Abbreviation fields := (the_fields i commit tree_id dependencies).
#[local] Abbreviation fields' := (the_fields i' commit' tree_id' dependencies).

Lemma notices_released :
  notice_replaced ms ms' (source_identity commit tree_id) (source_identity commit' tree_id')
  ↔ commit ≠ commit' ∧ tree_id ≠ tree_id'.
Proof using Hfacts Hfacts'.
  destruct (rf_notice _ _ _ _ _ _ _ Hfacts) as (data & Hd & Hl & _).
  destruct (rf_notice _ _ _ _ _ _ _ Hfacts') as (data' & Hd' & Hl' & _).
  destruct (rf_dependencies _ _ _ _ _ _ _ Hfacts) as (core & px4 & ct & pt & Hdeps).
  rewrite <- (identity_new i commit tree_id dependencies) by apply Hfacts. split.
  - intros (? & ? & old & new & Hd1 & _ & Hl1 & _ & _ & _ & Hnew).
    rewrite Hd in Hd1. injection Hd1 as <-. rewrite Hl in Hl1. injection Hl1 as <-. exact Hnew.
  - intros Hnew. eexists data, data', _, _. split_and!; [done..| | |done].
    + eapply fields_replaced; [done|apply Hfacts'].
    + intros k v Hk. apply elem_of_lines. unfold the_fields, source_notice_lines.
      rewrite (rf_reference _ _ _ _ _ _ _ Hfacts). apply elem_of_app. left.
      unfold source_identity in Hk. set_solver.
Qed.

Context (Hcommits : length commit = length commit') (Htrees : length tree_id = length tree_id').

Lemma notices_sized m m' : dict_get NOTICE ms = Some m → dict_get NOTICE ms' = Some m' → m_size m = m_size m'.
Proof using All.
  intros Hm Hm'.
  destruct (rf_notice _ _ _ _ _ _ _ Hfacts) as (data & Hd & _ & Hlen).
  destruct (rf_notice _ _ _ _ _ _ _ Hfacts') as (data' & Hd' & _ & Hlen').
  destruct (rf_dependencies _ _ _ _ _ _ _ Hfacts) as (core & px4 & ct & pt & Hdeps).
  assert (length data = length data') as Heq.
  { rewrite Hlen, Hlen'. apply notice_length; unfold the_fields; rewrite Hdeps; [reflexivity|].
    rewrite (rf_reference _ _ _ _ _ _ _ Hfacts), (rf_reference _ _ _ _ _ _ _ Hfacts').
    cbn [source_notice_lines app fmap list_fmap snd]. by rewrite Hcommits, Htrees. }
  apply kept_data_Ok in Hd as (? & Hg & Hd), Hd' as (? & Hg' & Hd').
  pose proof (rf_holds _ _ _ _ _ _ _ Hfacts NOTICE) as Hh. pose proof (rf_holds _ _ _ _ _ _ _ Hfacts' NOTICE) as Hh'.
  destruct (dict_get NOTICE s) as [f|]; [|congruence]. destruct (dict_get NOTICE s') as [f'|]; [|congruence].
  destruct Hh as (? & ? & [_ _ Hsize _ _ Hdata]), Hh' as (? & ? & [_ _ Hsize' _ _ Hdata']).
  specialize (Hdata eq_refl). specialize (Hdata' eq_refl). unfold lenZ in *. simplify_eq.
  rewrite Hsize, Hsize'. congruence.
Qed.

Lemma manifests_agree : i_version i = i_version i' → ∀ k,
  k ∉ [u "source_ref"; u "resolved_commit"; u "tree"; u "files"] →
  option_py_eq (dict_get k (norm_members (the_manifest i s1 commit tree_id dependencies)))
    (dict_get k (norm_members (the_manifest i' s1' commit' tree_id' dependencies))).
Proof using Hfacts.
  intros Hversion k Hk. apply option_py_eq_norm.
  - unfold the_manifest. rewrite source_manifest_keys. apply source_keys_distinct.
  - unfold the_manifest. rewrite source_manifest_keys. apply source_keys_distinct.
  - unfold the_manifest. rewrite Hversion. by apply manifest_agrees.
  - apply Hfacts.
Qed.

Lemma pair_released version tag : i_version i = version → i_version i' = version →
  verify_source_pair limit ms ms' version commit commit' tree_id tree_id' tag = Ok tt
  ↔ commit ≠ commit' ∧ tree_id ≠ tree_id'
    ∧ u "repository/" ++ result_document version ∈ s.*1
    ∧ u "repository/" ++ notes_document tag ∈ s.*1
    ∧ same_staged s s' (source_allowed version tag).
Proof using All.
  intros Hv Hv'. rewrite verify_source_pair_Ok by apply Hfacts. unfold source_pair.
  rewrite (same_staged_members s s') by (apply Hfacts || apply Hfacts').
  rewrite notices_released, (gate_holds_keys s ms) by apply Hfacts. rewrite !dict_keys_elem.
  split.
  - intros (? & ? & ? & [? ?] & _). done.
  - intros (? & ? & ? & ? & ?). split_and!; try done; [apply notices_sized|].
    eexists _, _, _, _, _, _. split_and!.
    + apply Hfacts.
    + apply Hfacts'.
    + by rewrite !ends_written.
    + rewrite <- Hv. apply Hfacts.
    + rewrite <- Hv'. apply Hfacts'.
    + apply manifests_agree. congruence.
Qed.
End pair.

(** C8. The release gate takes the source packages of a candidate and of its tag, made for
    one version from the same dependencies and asked for by their full commits, as a pair
    exactly when the commits and their trees differ, the candidate has the version record
    and the release notes, and the staged files have the same names and modes, and the same
    sizes and digests but for the manifest, the notice, the checksum list and the documents that may be
    edited.  The notices, manifests and records of the two agree by construction.  (The ids
    of the two runs are of one length.) *)
Theorem source_packages_pair (a a' : args) (i i' : source_inputs) (s0 s0' s s' : stage)
    (commit commit' tree_id tree_id' : str) (dependencies : dict (str * str)) (ms ms' : dict member)
    (version tag : str)
    (Hrun : archived_run a i s0 s commit tree_id dependencies ms)
    (Hrun' : archived_run a' i' s0' s' commit' tree_id' dependencies ms')
    (Hversion : i_version i = version ∧ i_version i' = version)
    (Hlengths : length commit = length commit' ∧ length tree_id = length tree_id') :
  verify_source_pair limit ms ms' version commit commit' tree_id tree_id' tag = Ok tt
  ↔ commit ≠ commit' ∧ tree_id ≠ tree_id'
    ∧ u "repository/" ++ result_document version ∈ s.*1
    ∧ u "repository/" ++ notes_document tag ∈ s.*1
    ∧ same_staged s s' (source_allowed version tag).
Proof using All.
  destruct (run_facts_hold _ _ _ _ _ _ _ _ Hrun) as [s1 Hf], (run_facts_hold _ _ _ _ _ _ _ _ Hrun') as [s1' Hf'].
  destruct Hversion, Hlengths. by eapply pair_released.
Qed.
End source.

(** ** Two sample runs *)

#[local] Existing Instances ascii_unicode sample_digits sample_lower SourceMain.sample_digest.
#[local] Existing Instances SourceMain.sample_files SourceMain.sample_host SourceMain.sample_tools.

Definition tag_id : str := replicate 40 98%N.

(** The repository of the candidate, and that of the tag with another record of the version. *)
Definition pair_documents (record : bytes) : list tree_info :=
  [sample_member (result_document (u "1.2.3")) record; sample_member (notes_document (u "v1.2.3")) (b "notes")].
Definition pair_git : SourceGit := {|
  git_print root arguments :=
    if decide (head arguments = Some (u "show")) then Ok (b "1.2.3" ++ [x0a])
    else Ok (nb <$> (if decide (root = u "/tag") then tag_id else sample_id) ++ [10%N]);
  git_archive root _ := Ok (nb <$> root) |}.
Definition pair_sources : SourceTars := {|
  bz_members _ := Ok [sample_member (u "libusb-1.0.30/COPYING") (b "LGPL")];
  plain_members tar := Ok (
    if decide (tar = b "/src") then sample_repository ++ pair_documents (b "candidate")
    else if decide (tar = b "/tag") then sample_repository ++ pair_documents (b "tag")
    else sample_dependency) |}.
#[local] Existing Instances pair_git pair_sources.

(** An archive is the data of its files, one after the other. *)
Definition pair_writers : Writers :=
  {| tar_gz files := concat ((λ f, f.2.2) <$> files); zip files := concat ((λ f, f.2.2) <$> files) |}.
#[local] Existing Instance pair_writers.

Definition pair_args (ref root : str) : args :=
  Args (Some (u "1.2.3")) (Some ref) (Some root) (Some (u "/libusb-1.0.30.tar.bz2")) (Some (u "/out")) None None.
Definition pair_inputs (ref root : str) : source_inputs :=
  SourceInputs (u "1.2.3") ref root (u "/libusb-1.0.30.tar.bz2") SourceMain.sample_output None None.
Definition pair_stage (ref root : str) : stage :=
  match stage_source 0x1A4 (pair_inputs ref root) with Ok s => s | Err _ => [] end.
Definition candidate_stage : stage := Eval vm_compute in pair_stage sample_id (u "/src").
Definition tag_stage : stage := Eval vm_compute in pair_stage tag_id (u "/tag").

Definition pair_archives : Archives := {|
  zip_open _ := Ok [];
  tar_open tar := (written_info <$> sorted_files
    (if decide (tar = write_deterministic_tar candidate_stage) then candidate_stage else tag_stage), None) |}.
Definition pair_tars : Tars := {| tar_members _ := Ok (written_info <$> sorted_files candidate_stage) |}.
#[local] Existing Instances pair_archives pair_tars.

Definition pair_snapshots (ref root : str) : stage * dict (str * str) :=
  match stage_snapshots (pair_inputs ref root) with
  | Ok (s0, _, _, dependencies) => (s0, dependencies)
  | Err _ => ([], [])
  end.
Definition candidate_snapshots : stage * dict (str * str) := Eval vm_compute in pair_snapshots sample_id (u "/src").
Definition tag_snapshots : stage * dict (str * str) := Eval vm_compute in pair_snapshots tag_id (u "/tag").

Definition pair_members (s : stage) : dict member := item_of <$> (written_entry <$> sorted_files s).
Definition candidate_members : dict member := Eval vm_compute in pair_members candidate_stage.
Definition tag_members : dict member := Eval vm_compute in pair_members tag_stage.

Lemma candidate_run : archived_run 4 0x1A4 (pair_args sample_id (u "/src")) (pair_inputs sample_id (u "/src"))
  candidate_snapshots.1 candidate_stage sample_id sample_id candidate_snapshots.2 candidate_members.
Proof.
  split; [|vm_compute; reflexivity..]. apply staged_run_intro; [..|lia]; vm_compute; reflexivity.
Qed.

Lemma tag_run : archived_run 4 0x1A4 (pair_args tag_id (u "/tag")) (pair_inputs tag_id (u "/tag"))
  tag_snapshots.1 tag_stage tag_id tag_id candidate_snapshots.2 tag_members.
Proof.
  split; [|vm_compute; reflexivity..]. apply staged_run_intro; [..|lia]; vm_compute; reflexivity.
Qed.

Lemma source_packages_pair_witness :
  sample_id ≠ tag_id ∧ sample_id ≠ tag_id
  ∧ u "repository/" ++ result_document (u "1.2.3") ∈ candidate_stage.*1
  ∧ u "repository/" ++ notes_document (u "v1.2.3") ∈ candidate_stage.*1
  ∧ same_staged candidate_stage tag_stage (source_allowed (u "1.2.3") (u "v1.2.3")).
Proof.
  apply (proj1 (source_packages_pair 4 0x1A4 _ _ _ _ _ _ _ _ _ _ _ _ _ _ _ (u "1.2.3") (u "v1.2.3")
    candidate_run tag_run (conj eq_refl eq_refl) (conj eq_refl eq_refl))).
  vm_compute. reflexivity.
Defined.
